(* ===== verification/_CoqProject ===== *)
-Q . S2P
Prelude.v
Timer.v
Config.v
Tbl.v
TblDel.v
Keep.v
ListHead.v
PtrTbl.v
HList.v
Atomic.v
DebugLog.v
Mem.v
Dev.v
ModInit.v
Srt.v
Text.v
RtcSimple.v
LinkCache.v
Dijkstra.v
LinkCacheInv.v
LinkCacheSpec.v
Neigh.v
RreqTbl.v
GratRrep.v
Pkt.v
Opt.v
Send.v
Wire.v
SendBuf.v
Salvage.v
MaintBuf.v
Core.v
Node.v
Module.v
ConfigRead.v
ProcTables.v
NodeSpec.v
CoreKept.v
NodeInv.v
Flood.v
Sending.v
Delivery.v
Handshake.v
Release.v
Agent.v
AgentSpec.v
