(* ===== verification/Prelude.v ===== *)
(** * DSR-UU: a verification library

    DSR-UU is an implementation of Dynamic Source Routing, an ad-hoc routing
    protocol, as a Linux kernel module with a virtual network device.  A packet of
    the host gets the whole list of the nodes it will visit (its source route); a
    node without a route floods a route request, and answers, error reports and
    acknowledgements come back as options in the packets' DSR header.  The library
    models the kernel build of Kbuild ([ENABLE_DEBUG] on, [LC_TIMER] off) on a
    64-bit little-endian machine.

    ** How the program is modelled

    A C function is a Rocq function of the state it reads, its arguments, a clock
    reading ([gettime]) and the allocator's answers, and returns an [outcome]:
    [Ret] of its result and the new state, or a [Fault].  Faults stand for what C
    leaves undefined or what hangs: [BadAccess] (outside an object, through a null
    or dead pointer), [Deadlock] (a lock taken twice on one path), [OutOfFuel] (a
    bound on a loop is exhausted).  The C code's own errors are values, as there:
    null pointers are [None], error codes are negative integers.  Integers are [Z]
    with the width's wrap written out ([u8] .. [u64], [s32], [s64]); packets' bytes
    are lists of [Z] read and written at offsets; addresses are 32-bit words as the
    platform loads them from the wire.  Locks are fields that are tested when taken.

    ** Parts

    Below, the file is followed by what it models under src/.

    Ground:
    - Prelude: outcomes, machine integers, tactics and list lemmas.  Keep: the
      relation "an operation leaves the table well formed" and its automation.
    - Timer (timer.h): time values with the wrap of [long]; a kernel timer is its
      expiry.  Config (dsr.h): [confvals_def], [get_confval], [confval_to_usecs].
    - Mem: byte blocks.  TblDel: lemmas on deletion with an effect.

    Data structures:
    - Tbl (tbl.h): [struct tbl] as a sequence with counter, capacity and lock, one
      definition for each operation.  Criteria are functions, as in the code.
    - ListHead (list.h): the circular doubly-linked lists themselves, cell by cell.
      PtrTbl (tbl.h): the operations of tbl.h on these lists; they implement Tbl.
      HList (list.h): the lists with one pointer for a head.
    - Atomic (atomic.h): the counters outside the kernel, as threads that interleave.
    - DebugLog (debug.c): the ring buffer, [dsr_vprintk], [do_dbglog].

    Routes and neighbours:
    - Srt (dsr-srt.c): [struct dsr_srt] and every function on routes.
    - LinkCache (link-cache.c): nodes and links in two heaps, the tables of pointers
      to them, [__dijkstra] and [lc_srt_find].  Dijkstra: correctness of its loops.
      LinkCacheInv: the invariant [lc_inv] and the abstraction [view], a map from
      pairs of addresses to costs.  LinkCacheSpec: the public operations as
      operations on that map.
    - RtcSimple (dsr-rtc-simple.c): the cache of whole routes the link cache replaced.
    - Neigh (neigh.c), RreqTbl (dsr-rreq.c, the table and the discovery timer),
      GratRrep (dsr-rrep.c, the table of gratuitous replies).

    Packets:
    - Pkt (dsr-pkt.c, dsr-opt.c): [struct dsr_pkt], the block of options, parsing,
      finding, adding and removing options.  A pointer to an option is a block and
      an offset, so a pointer into a block that was replaced faults when used.
    - Opt (the [..._opt_add] functions of dsr-srt.c, dsr-rreq.c, dsr-rrep.c,
      dsr-rerr.c, dsr-ack.c, and the fields their receivers read).
    - Send (the functions that build whole packets, [dsr_skb_create] of dsr-dev.c).
      Wire: the layout of a packet on the wire and what sending, receiving and
      delivering do to it.

    Buffers:
    - SendBuf (send-buf.c): packets that wait for a route; the rest of the node is
      a parameter.  MaintBuf (maint-buf.c, [dsr_dev_xmit]): packets that wait for
      an acknowledgement; the rest of the node is the class [Peers].  Salvage
      ([maint_buf_salvage]): the new route and block of a packet that is rescued.

    The node:
    - Core: link cache, neighbours, gratuitous replies and allocator, the functions
      that hand packets to the device or the host, and the instance [core_peers] of
      [Peers].  What leaves the node is appended to a log of events.
    - Node (dsr-io.c, [dsr_opt_recv], the [..._opt_recv] handlers, [dsr_start_xmit],
      and the timers' functions): the complete state and its handlers.
    - Module (dsr-module.c): the /proc commands, the list of addresses to ignore,
      the netfilter hooks.  ConfigRead ([dsr_config_proc_read]): the same file read.
    - Text (debug.h, timer.h, dsr-srt.h): sprintf's formats, the helpers that print
      into static buffers, printing into a page and reading it in pieces.
      ProcTables: the /proc files of the tables and buffers.

    The module in the kernel:
    - Dev (dsr-dev.c): the life of the virtual device and of the slave device below
      it: setting up and taking down, the notifiers, the promiscuous switch; the
      kernel is the references, settings and registrations the module leaves there.
      Core keeps of it only whether there is a slave.
    - ModInit ([dsr_module_init], [dsr_module_cleanup]): the parts come and go in
      order, and the labels undo what was done.

    The simulator:
    - Agent (ns-agent.cc, ns-agent.h, the NS2 halves of dsr-pkt.c, dsr-opt.c, neigh.c
      and timer.h): the class that the same protocol code becomes in the network
      simulator: it builds and takes the simulator's packets.  The simulator is the
      class [Simulator] and a log of requests, the protocol the class [Protocol].
      AgentSpec: its theorems.

    ** What the theorems show

    - LinkCacheSpec: in every state that the operations reach, the link cache never
      follows a dead pointer; adding, deleting, learning a route and flushing are
      the corresponding operations on the map of links; [lc_srt_find] returns a
      route over links of the map, of least cost among all walks, and finds one
      whenever there is one.
    - Srt: each function's effect on the path a route stands for, including the
      wrong results of [dsr_srt_new_split] and [dsr_srt_shortcut] where they occur.
    - Tbl, PtrTbl, ListHead, HList: operations keep tables well formed, insertions put an
      element where the criterion says, and the pointer code implements sequences.
    - Pkt, Opt, Wire: the parser records exactly the options that are there, never
      reads outside the block for blocks of the sizes the code allocates, options
      are read back as they were written, and a packet that was given a source
      route and is stripped of it again is the original packet.
    - RreqTbl, GratRrep, Neigh, SendBuf, MaintBuf, Salvage: duplicates are
      recognised within the window of identifications, the time-out of discovery
      doubles up to its bound, hold-off times are kept, buffers are FIFO with every
      packet either sent or freed, the maintenance timer's function terminates.
    - NodeSpec, Sending, Delivery, Handshake, Release: a packet follows its source route;
      each hop acknowledges it when it is asked to and sends it on with one segment
      less, asking or not; the destination's host gets the original packet; the
      acknowledgement takes the packets it covers out of the maintenance buffer; a
      route reply teaches a route, ends the discovery and lets the packets that wait
      for the route leave, in order, over the cheapest one.
    - Flood: a copy of a request that was handled is neither answered nor forwarded.
    - CoreKept, NodeInv: the invariant of a node, for every sequence of frames,
      packets, time-outs and allocation failures.
    - Module, ConfigRead, DebugLog: configuration commands take effect and are read
      back, in any pieces; so is the list of addresses; readers of the log get its
      characters in order.
    - Text, ProcTables: the helpers' texts are those of their arguments although they
      share buffers; the files of three tables fit into a page and are read whole in
      any pieces; those of the maintenance buffer and the link cache outgrow it.
    - Dev, ModInit: what the module takes from the kernel it gives back, and where
      it does not; loading is undone when a part of it fails, but for two cases.
    - Atomic: additions lose nothing and do not block each other in any interleaving.
    - RtcSimple: the list is a map kept in order of expiry, with a counter that is
      not its size.

    - AgentSpec: a packet the agent sends is handed to the simulator once, or dropped
      for a reason, and read back by the agent at the next hop with the same options
      and payload; the branches that go wrong.

    ** Bounds and fuel

    Loops over data whose length is known are structural or run with that length:
    the parser and [dsr_opt_recv] with the length of the options, since each turn
    consumes at least one byte; the loops of the link cache with the number of its
    nodes; the loops over buffers with the number of packets in them; the reader of
    hexadecimal digits with the length of the buffer, which ends in a NUL.  The
    maintenance buffer's timer calls itself through [XMIT]: its fuel is the number
    of retransmissions left over all entries, and [maint_buf_timeout_total] proves
    that it is enough.  Distances in [Dijkstra] stay below [LC_COST_INF] since there
    are at most 500 nodes and costs are bounded; the theorems state the bound.

    ** Parameters

    The IP checksum, the contents of fresh memory, [simple_strtol], where the kernel
    found a record-route option, [dev_set_promiscuity] and what the copies between
    kernel and user memory return are code outside the repository: they are
    arguments.

    ** Not modelled

    The protocol's handlers in the simulator's build, which differ from the kernel's
    in the types of packets and in what frees them; the classes of the simulator;
    the kernel's own side of what is registered with it; kernel threads that interleave inside a handler: a
    handler is one step, and the locks it takes are checked along it. *)

From stdpp Require Export base tactics list gmap sorting.
From Stdlib Require Export ZArith Lia.

#[export] Set Default Proof Using "Type".

Declare Scope dsr_scope.
Delimit Scope dsr_scope with dsr.
Global Open Scope Z_scope.

(** Addresses of heap objects. *)
Abbreviation ptr := Z.

(** Error numbers of the kernel; a function returns them negated. *)
Definition EAGAIN : Z := 11.
Definition ENOMEM : Z := 12.
Definition EFAULT : Z := 14.
Definition EINVAL : Z := 22.
Definition EADDRNOTAVAIL : Z := 99.
Definition ENOSPC : Z := 28.

(** ** Outcomes of C code

    A run of a C function either returns ([Ret]) or ends in a fault: an access
    outside an object or through a dead or null pointer ([BadAccess]), a lock
    taken while this thread already holds it ([Deadlock]), or, for the
    fuel-driven translations of loops, an exhausted bound ([OutOfFuel]). *)

Inductive fault := BadAccess | Deadlock | OutOfFuel.

Inductive outcome (A : Type) : Type :=
| Ret (a : A)
| Fault (f : fault).
Arguments Ret {A} a.
Arguments Fault {A} f.

#[export] Instance outcome_ret : MRet outcome := fun A a => Ret a.
#[export] Instance outcome_bind : MBind outcome := fun A B k m =>
  match m with Ret a => k a | Fault f => Fault f end.

Definition is_ret {A} (m : outcome A) : bool :=
  match m with Ret _ => true | Fault _ => false end.

Definition of_option {A} (f : fault) (o : option A) : outcome A :=
  match o with Some a => Ret a | None => Fault f end.

(** Reading through a pointer that must be live. *)
Abbreviation deref o := (of_option BadAccess o).

Lemma bind_ext {A B} (m : outcome A) (k1 k2 : A -> outcome B) :
  (forall a, k1 a = k2 a) -> (m ≫= k1) = (m ≫= k2).
Proof. intros H. destruct m; simpl; [apply H|done]. Qed.

Lemma bind_ret_inv {A B} (m : outcome A) (k : A -> outcome B) b :
  m ≫= k = Ret b <-> exists a, m = Ret a /\ k a = Ret b.
Proof.
  destruct m; simpl; split.
  - eauto.
  - by intros (? & [= <-] & ?).
  - done.
  - by intros (? & ? & _).
Qed.

(** [obind H] splits a hypothesis [m ≫= k = Ret b] into the step that ran
    first and the rest, repeatedly. *)
Ltac obind_step H :=
  lazymatch type of H with
  | mbind _ _ = Ret _ =>
      let x := fresh "x" in let H1 := fresh H in
      apply bind_ret_inv in H as (x & H1 & H); simpl in H
  end.

(** The same with the shape of the intermediate result and a name for its step. *)
Tactic Notation "obind" hyp(H) := obind_step H.
Tactic Notation "obind" hyp(H) "as" simple_intropattern(x) ident(E) :=
  apply bind_ret_inv in H as (x & E & H); simpl in H.

(** [simpl_if] reduces the conditionals of the goal whose condition a
    hypothesis decides. *)
Ltac simpl_if :=
  repeat match goal with
  | H : ?b = true |- context [if ?b then _ else _] => rewrite H; simpl
  | H : ?b = false |- context [if ?b then _ else _] => rewrite H; simpl
  end.

(** Boolean comparisons of [Z] to propositions. *)
Ltac zb :=
  repeat match goal with
  | H : (_ <? _) = true |- _ => apply Z.ltb_lt in H
  | H : (_ <? _) = false |- _ => apply Z.ltb_ge in H
  | H : (_ <=? _) = true |- _ => apply Z.leb_le in H
  | H : (_ <=? _) = false |- _ => apply Z.leb_gt in H
  | H : (_ =? _) = true |- _ => apply Z.eqb_eq in H
  | H : (_ =? _) = false |- _ => apply Z.eqb_neq in H
  | H : (_ >? _) = true |- _ => rewrite Z.gtb_ltb in H
  | H : (_ >? _) = false |- _ => rewrite Z.gtb_ltb in H
  | H : (_ >=? _) = true |- _ => rewrite Z.geb_leb in H
  | H : (_ >=? _) = false |- _ => rewrite Z.geb_leb in H
  | H : _ && _ = true |- _ => apply andb_true_iff in H as [??]
  | H : _ || _ = false |- _ => apply orb_false_iff in H as [??]
  | H : negb _ = true |- _ => apply negb_true_iff in H
  | H : negb _ = false |- _ => apply negb_false_iff in H
  end.

(** Case analysis on the first conditional of the goal. *)
Ltac case_if :=
  match goal with
  | |- context [if ?b then _ else _] => let H := fresh "Hif" in destruct b eqn:H; zb
  end.

(** ** Machine integers

    A w-bit unsigned integer is a [Z] kept in [0, 2^w) by an explicit wrap; a
    signed one is the two's complement reading.  The platform is the 64-bit
    little-endian Linux kernel: [int] is 32 bits wide, [long] and pointers 64. *)

Definition u8 (x : Z) : Z := x mod 2 ^ 8.
Definition u16 (x : Z) : Z := x mod 2 ^ 16.
Definition u32 (x : Z) : Z := x mod 2 ^ 32.
Definition u64 (x : Z) : Z := x mod 2 ^ 64.
Definition s32 (x : Z) : Z := (x + 2 ^ 31) mod 2 ^ 32 - 2 ^ 31.
Definition s64 (x : Z) : Z := (x + 2 ^ 63) mod 2 ^ 64 - 2 ^ 63.

Definition UINT_MAX : Z := 4294967295.

Lemma u8_small x : 0 <= x < 256 -> u8 x = x.
Proof. intros. unfold u8. by rewrite Z.mod_small by lia. Qed.
Lemma u16_small x : 0 <= x < 65536 -> u16 x = x.
Proof. intros. unfold u16. by rewrite Z.mod_small by lia. Qed.
Lemma u32_small x : 0 <= x < 4294967296 -> u32 x = x.
Proof. intros. unfold u32. by rewrite Z.mod_small by lia. Qed.
Lemma u64_small x : 0 <= x < 2 ^ 64 -> u64 x = x.
Proof. intros. unfold u64. by rewrite Z.mod_small by lia. Qed.
Lemma s32_small x : - 2 ^ 31 <= x < 2 ^ 31 -> s32 x = x.
Proof. intros. unfold s32. rewrite Z.mod_small by lia. lia. Qed.
Lemma s64_small x : - 2 ^ 63 <= x < 2 ^ 63 -> s64 x = x.
Proof. intros. unfold s64. rewrite Z.mod_small by lia. lia. Qed.
Lemma u8_range x : 0 <= u8 x < 256.
Proof. apply Z.mod_pos_bound. lia. Qed.
Lemma u16_range x : 0 <= u16 x < 65536.
Proof. apply Z.mod_pos_bound. lia. Qed.
Lemma u32_range x : 0 <= u32 x < 4294967296.
Proof. apply Z.mod_pos_bound. lia. Qed.
Lemma u64_range x : 0 <= u64 x < 2 ^ 64.
Proof. apply Z.mod_pos_bound. lia. Qed.

Create HintDb dsr_arith.
Create Rewrite HintDb dsr_rw.
#[export] Hint Resolve u8_range u16_range u32_range u64_range : dsr_arith.
#[export] Hint Rewrite u8_small u16_small u32_small u64_small s32_small s64_small
  using lia : dsr_rw.

(** [htons] and [ntohs] swap the two bytes of a 16-bit word on the
    little-endian platform. *)
Definition htons (x : Z) : Z := (u16 x mod 256) * 256 + u16 x / 256.
Definition ntohs (x : Z) : Z := htons x.

Lemma htons_range x : 0 <= htons x < 65536.
Proof.
  unfold htons. pose proof (u16_range x).
  pose proof (Z.mod_pos_bound (u16 x) 256). pose proof (Z.div_lt_upper_bound (u16 x) 256 256).
  pose proof (Z.div_pos (u16 x) 256). lia.
Qed.

Lemma ntohs_htons x : 0 <= x < 65536 -> ntohs (htons x) = x.
Proof.
  intros Hx. unfold ntohs. pose proof (htons_range x) as Hr.
  unfold htons at 1. rewrite (u16_small (htons x)) by done.
  unfold htons. rewrite (u16_small x) by done.
  pose proof (Z.mod_pos_bound x 256). pose proof (Z.div_lt_upper_bound x 256 256).
  pose proof (Z.div_pos x 256).
  replace ((x mod 256 * 256 + x / 256) mod 256) with (x / 256).
  2: { rewrite Z.add_comm, Z_mod_plus_full, Z.mod_small by lia. done. }
  rewrite Z.add_comm, Z.add_comm, Z.div_add_l, (Z.div_small (x / 256)) by lia.
  pose proof (Z.div_mod x 256). lia.
Qed.
#[export] Hint Rewrite ntohs_htons using lia : dsr_rw.

(** ** The allocator

    [kmalloc(.., GFP_ATOMIC)] may return NULL.  The state of the allocator is
    the list of its next answers ([true]: the block was allocated); once the
    list is used up every allocation succeeds. *)

Abbreviation oracle := (list bool).

Definition kmalloc (mem : oracle) : bool * oracle :=
  match mem with [] => (true, []) | b :: mem' => (b, mem') end.

(** With memory for everything, the answer is yes, and there still is. *)
Lemma kmalloc_free mem : false ∉ mem -> exists mem', kmalloc mem = (true, mem') /\ (false ∉ mem').
Proof.
  destruct mem as [|[] m]; simpl; intros H; [exists []|exists m|]; set_solver.
Qed.

(** ** Lists indexed by C integers *)

Definition znth {A} (l : list A) (i : Z) : option A :=
  if i <? 0 then None else l !! Z.to_nat i.

Definition zlen {A} (l : list A) : Z := Z.of_nat (length l).

Definition zset {A} (l : list A) (i : Z) (x : A) : outcome (list A) :=
  if (0 <=? i) && (i <? zlen l) then Ret (<[Z.to_nat i := x]> l) else Fault BadAccess.

Lemma znth_Some {A} (l : list A) i x :
  znth l i = Some x <-> 0 <= i /\ l !! Z.to_nat i = Some x.
Proof. unfold znth. case_if; naive_solver lia. Qed.

Lemma znth_None {A} (l : list A) i : znth l i = None <-> i < 0 \/ zlen l <= i.
Proof.
  unfold znth, zlen. case_if.
  - split; [lia | done].
  - rewrite lookup_ge_None. lia.
Qed.

Lemma znth_is_Some {A} (l : list A) i : is_Some (znth l i) <-> 0 <= i < zlen l.
Proof.
  rewrite <- not_eq_None_Some, znth_None. lia.
Qed.

Lemma znth_of_nat {A} (l : list A) (n : nat) : znth l (Z.of_nat n) = l !! n.
Proof. unfold znth. case_if; [lia|]. by rewrite Nat2Z.id. Qed.

Lemma zlen_nonneg {A} (l : list A) : 0 <= zlen l.
Proof. unfold zlen. lia. Qed.
Lemma zlen_app {A} (l k : list A) : zlen (l ++ k) = zlen l + zlen k.
Proof. unfold zlen. rewrite length_app. lia. Qed.
Lemma zlen_cons {A} (x : A) l : zlen (x :: l) = zlen l + 1.
Proof. unfold zlen. simpl. lia. Qed.
Lemma zlen_nil {A} : zlen (@nil A) = 0.
Proof. done. Qed.
Lemma zlen_rev {A} (l : list A) : zlen (reverse l) = zlen l.
Proof. unfold zlen. by rewrite length_reverse. Qed.
#[export] Hint Rewrite @zlen_app @zlen_cons @zlen_nil @zlen_rev : dsr_rw.
#[export] Hint Resolve @zlen_nonneg : dsr_arith.

(** The first element that satisfies a test, with its position, and the list
    without it. *)
Fixpoint find_pos {A} (p : A -> bool) (l : list A) : option (nat * A) :=
  match l with
  | [] => None
  | x :: l' => if p x then Some (O, x)
               else match find_pos p l' with Some (i, y) => Some (S i, y) | None => None end
  end.

Fixpoint remove_at {A} (i : nat) (l : list A) : list A :=
  match l, i with
  | [], _ => []
  | _ :: l', O => l'
  | x :: l', S i' => x :: remove_at i' l'
  end.

Lemma find_pos_Some {A} (p : A -> bool) l i x :
  find_pos p l = Some (i, x) ->
  l = take i l ++ x :: drop (S i) l /\ p x = true /\ Forall (fun y => p y = false) (take i l)
  /\ remove_at i l = take i l ++ drop (S i) l /\ l !! i = Some x.
Proof.
  revert i. induction l as [|y l IH]; intros i; simpl; [done|].
  destruct (p y) eqn:Hp.
  - intros [= <- <-]. simpl. by repeat split.
  - destruct (find_pos p l) as [[j z]|] eqn:Hf; [|done].
    intros [= <- <-]. destruct (IH j) as (H1 & H2 & H3 & H4 & H5); [done|]. simpl.
    split_and!; try done.
    + by f_equal.
    + by constructor.
    + by f_equal.
Qed.

Lemma find_pos_None {A} (p : A -> bool) l :
  find_pos p l = None <-> Forall (fun y => p y = false) l.
Proof.
  induction l as [|y l IH]; simpl; [by split; [constructor|]|].
  destruct (p y) eqn:Hp.
  - split; [done|]. inversion 1; congruence.
  - destruct (find_pos p l) as [[j z]|].
    + split; [done|]. inversion 1; subst. by apply IH in H3.
    + split; [|done]. intros _. constructor; [done|]. by apply IH.
Qed.

Lemma find_pos_ext {A} (p q : A -> bool) l :
  (forall x, x ∈ l -> p x = q x) -> find_pos p l = find_pos q l.
Proof.
  induction l as [|y l IH]; intros H; simpl; [done|].
  rewrite (H y) by apply list_elem_of_here.
  rewrite IH; [done|]. intros x Hx. apply H. by apply list_elem_of_further.
Qed.
