(* ===== verification/Timer.v ===== *)
(** * Time values and timers (timer.h)

    [struct timeval] arithmetic at its machine width, and the kernel timer as
    the expiry it is armed with.  [gettime] reads jiffies, which the model
    receives as an argument: one clock reading per handler run. *)

From S2P Require Import Prelude.

Record timeval := Timeval { tv_sec : Z; tv_usec : Z }.

#[export] Instance timeval_eq_dec : EqDecision timeval.
Proof. solve_decision. Defined.

(** [usecs_t] is [unsigned long].  The difference is computed in [long]. *)
Definition timeval_diff (tv1 tv2 : timeval) : Z :=
  s64 ((tv_sec tv1 - tv_sec tv2) * 1000000 + tv_usec tv1 - tv_usec tv2).

(** [long add = tv->tv_usec + usecs]: the sum is unsigned, the division and the
    remainder are those of a [long], truncated toward zero. *)
Definition timeval_add_usecs (tv : timeval) (usecs : Z) : timeval :=
  let add := s64 (u64 (tv_usec tv + usecs)) in
  Timeval (s64 (tv_sec tv + Z.quot add 1000000)) (Z.rem add 1000000).

(** A [struct timer_list]: [Some e] while it is pending and due at [e]. *)
Abbreviation timer := (option timeval).

Definition timer_pending (t : timer) : bool :=
  match t with Some _ => true | None => false end.

(** [mod_timer] on a pending timer, [add_timer] otherwise: either way the timer
    is pending afterwards and due at [expires]. *)
Definition set_timer (t : timer) (expires : timeval) : timer :=
  if timer_pending t then (* mod_timer *) Some expires
  else (* add_timer *) Some expires.

Definition del_timer (t : timer) : timer := None.

Lemma set_timer_due t e : set_timer t e = Some e.
Proof. unfold set_timer. by destruct (timer_pending t). Qed.

(** ** Properties *)

(** A normalised time whose seconds are far from the ends of [long]. *)
Definition tv_ok (tv : timeval) : Prop :=
  0 <= tv_usec tv < 1000000 /\ 0 <= tv_sec tv < 2 ^ 40.

Lemma timeval_add_usecs_ok tv u :
  tv_ok tv -> 0 <= u < 2 ^ 60 ->
  timeval_add_usecs tv u =
    Timeval (tv_sec tv + (tv_usec tv + u) / 1000000) ((tv_usec tv + u) mod 1000000).
Proof.
  intros [Hu Hs] H. unfold timeval_add_usecs.
  rewrite u64_small, (s64_small (tv_usec tv + u)) by lia.
  rewrite Z.quot_div_nonneg, Z.rem_mod_nonneg by lia.
  pose proof (Z.div_lt_upper_bound (tv_usec tv + u) 1000000 (2 ^ 60)).
  pose proof (Z.div_pos (tv_usec tv + u) 1000000).
  rewrite s64_small by lia. done.
Qed.

Lemma timeval_diff_ok a b :
  tv_ok a -> tv_ok b ->
  timeval_diff a b = (tv_sec a - tv_sec b) * 1000000 + tv_usec a - tv_usec b.
Proof. intros [??] [??]. unfold timeval_diff. apply s64_small. lia. Qed.

(** Adding [u] microseconds to a normalised time gives a normalised time
    that lies exactly [u] microseconds later as [timeval_diff] measures it. *)
Theorem timeval_add_diff tv u :
  tv_ok tv -> 0 <= u < 2 ^ 59 -> tv_sec tv < 2 ^ 39 ->
  timeval_diff (timeval_add_usecs tv u) tv = u
  /\ 0 <= tv_usec (timeval_add_usecs tv u) < 1000000.
Proof.
  intros Htv Hu Hs. rewrite timeval_add_usecs_ok by (done || lia).
  destruct Htv as [Hus Hsec]. unfold timeval_diff. simpl.
  pose proof (Z.mod_pos_bound (tv_usec tv + u) 1000000).
  pose proof (Z.div_mod (tv_usec tv + u) 1000000).
  split; [|lia]. rewrite s64_small; lia.
Qed.

Lemma timeval_add_diff_witness :
  tv_ok (Timeval 10 999999)
  /\ timeval_diff (timeval_add_usecs (Timeval 10 999999) 30000) (Timeval 10 999999) = 30000.
Proof.
  assert (H : tv_ok (Timeval 10 999999)) by (unfold tv_ok; simpl; lia).
  split; [done|]. apply (timeval_add_diff (Timeval 10 999999) 30000); simpl; try done; lia.
Defined.
