(* ===== verification/Config.v ===== *)
(** * Configuration values (dsr.h)

    The configuration table of a DSR node, its default values, and the
    conversion of a configured time to microseconds at the width the code
    computes it.  The build is the Linux one of Kbuild, with ENABLE_DEBUG. *)

From Stdlib Require Import String.
From S2P Require Import Prelude.

Definition DSR_BROADCAST : Z := 0xffffffff.
Definition IPPROTO_DSR : Z := 168.
Definition IP_HDR_LEN : Z := 20.
Definition DSR_OPTS_MAX_SIZE : Z := 50.
Definition MAINT_BUF_MAX_LEN : Z := 100.
Definition RREQ_TBL_MAX_LEN : Z := 64.
Definition SEND_BUF_MAX_LEN : Z := 100.
Definition RREQ_TLB_MAX_ID : Z := 16.

Inductive confval :=
| PrintDebug | AutomaticRouteShortening | RoundTripTimeout | FlushLinkCache
| PromiscOperation | BroadCastJitter | RouteCacheTimeout | SendBufferTimeout
| SendBufferSize | RequestTableSize | RequestTableIds | MaxRequestRexmt
| MaxRequestPeriod | RequestPeriod | NonpropRequestTimeout | RexmtBufferSize
| MaintHoldoffTime | MaxMaintRexmt | UseNetworkLayerAck | TryPassiveAcks
| PassiveAckTimeout | GratReplyHoldOff | MAX_SALVAGE_COUNT.

#[export] Instance confval_eq_dec : EqDecision confval.
Proof. solve_decision. Defined.

(** The members of the enum in order; [CONFVAL_MAX] is their number. *)
Definition all_confvals : list confval :=
  [PrintDebug; AutomaticRouteShortening; RoundTripTimeout; FlushLinkCache;
   PromiscOperation; BroadCastJitter; RouteCacheTimeout; SendBufferTimeout;
   SendBufferSize; RequestTableSize; RequestTableIds; MaxRequestRexmt;
   MaxRequestPeriod; RequestPeriod; NonpropRequestTimeout; RexmtBufferSize;
   MaintHoldoffTime; MaxMaintRexmt; UseNetworkLayerAck; TryPassiveAcks;
   PassiveAckTimeout; GratReplyHoldOff; MAX_SALVAGE_COUNT].

Definition CONFVAL_MAX : nat := length all_confvals.

(** The enumerator's value: its position. *)
Fixpoint confval_pos (cv : confval) (l : list confval) : nat :=
  match l with
  | [] => O
  | c :: l' => if decide (c = cv) then O else S (confval_pos cv l')
  end.
Definition confval_ix (cv : confval) : nat := confval_pos cv all_confvals.

Inductive confval_type :=
| SECONDS | MILLISECONDS | MICROSECONDS | NANOSECONDS | QUANTA | BINARY | COMMAND.

#[export] Instance confval_type_eq_dec : EqDecision confval_type.
Proof. solve_decision. Defined.

(** [confvals_def]: name, default and type.  The entry of [RexmtBufferSize] has
    no type in its initialiser, so C gives it the first enumerator. *)
Definition confvals_def (cv : confval) : string * Z * confval_type :=
  match cv with
  | PrintDebug => ("PrintDebug"%string, 0, BINARY)
  | AutomaticRouteShortening => ("AutomaticRouteShortening"%string, 1, BINARY)
  | RoundTripTimeout => ("RoundTripTimeout"%string, 2000, MILLISECONDS)
  | FlushLinkCache => ("FlushLinkCache"%string, 1, COMMAND)
  | PromiscOperation => ("PromiscOperation"%string, 1, BINARY)
  | BroadCastJitter => ("BroadCastJitter"%string, 20, MILLISECONDS)
  | RouteCacheTimeout => ("RouteCacheTimeout"%string, 300, SECONDS)
  | SendBufferTimeout => ("SendBufferTimeout"%string, 30, SECONDS)
  | SendBufferSize => ("SendBufferSize"%string, SEND_BUF_MAX_LEN, QUANTA)
  | RequestTableSize => ("RequestTableSize"%string, RREQ_TBL_MAX_LEN, QUANTA)
  | RequestTableIds => ("RequestTableIds"%string, RREQ_TLB_MAX_ID, QUANTA)
  | MaxRequestRexmt => ("MaxRequestRexmt"%string, 16, QUANTA)
  | MaxRequestPeriod => ("MaxRequestPeriod"%string, 10, SECONDS)
  | RequestPeriod => ("RequestPeriod"%string, 500, MILLISECONDS)
  | NonpropRequestTimeout => ("NonpropRequestTimeout"%string, 30, MILLISECONDS)
  | RexmtBufferSize => ("RexmtBufferSize"%string, MAINT_BUF_MAX_LEN, SECONDS)
  | MaintHoldoffTime => ("MaintHoldoffTime"%string, 250, MILLISECONDS)
  | MaxMaintRexmt => ("MaxMaintRexmt"%string, 2, QUANTA)
  | UseNetworkLayerAck => ("UseNetworkLayerAck"%string, 1, BINARY)
  | TryPassiveAcks => ("TryPassiveAcks"%string, 1, QUANTA)
  | PassiveAckTimeout => ("PassiveAckTimeout"%string, 100, MILLISECONDS)
  | GratReplyHoldOff => ("GratReplyHoldOff"%string, 1, SECONDS)
  | MAX_SALVAGE_COUNT => ("MAX_SALVAGE_COUNT"%string, 15, QUANTA)
  end.
Definition confval_name (cv : confval) : string := (confvals_def cv).1.1.
Definition confval_val (cv : confval) : Z := (confvals_def cv).1.2.
Definition confval_ty (cv : confval) : confval_type := (confvals_def cv).2.

(** The part of [struct dsr_node] the protocol reads. *)
Record dsr_node := DsrNode {
  ifaddr : Z;
  bcaddr : Z;
  confvals : list Z
}.

(** The global [dsr_node] is NULL before the device is set up. *)
Definition get_confval (dn : option dsr_node) (cv : confval) : Z :=
  match dn with
  | None => 0
  | Some n => default 0 (confvals n !! confval_ix cv)
  end.

(** Returns -1 when there is no node. *)
Definition set_confval (dn : option dsr_node) (cv : confval) (val : Z)
  : Z * option dsr_node :=
  match dn with
  | None => (-1, None)
  | Some n => (s32 val, Some (DsrNode (ifaddr n) (bcaddr n) (<[confval_ix cv := val]> (confvals n))))
  end.

(** The loop of [dsr_node_init] over the configuration values. *)
Definition dsr_node_init (n : dsr_node) : dsr_node :=
  DsrNode (ifaddr n) (bcaddr n) (map confval_val all_confvals).

(** [my_addr] keeps the address it last returned in a static variable, [last]. *)
Definition my_addr (last : Z) (dn : option dsr_node) : Z :=
  match dn with None => last | Some n => ifaddr n end.

(** [val * 1000000] is a product of [unsigned int]: it wraps at 32 bits before
    it is widened to [usecs_t]. *)
Definition confval_to_usecs (dn : option dsr_node) (cv : confval) : Z :=
  let val := get_confval dn cv in
  match confval_ty cv with
  | SECONDS => u32 (val * 1000000)
  | MILLISECONDS => u32 (val * 1000)
  | MICROSECONDS => val
  | NANOSECONDS => val / 1000
  | BINARY | QUANTA | COMMAND => 0
  end.

(** ** Properties *)

Lemma confval_ix_lookup cv : all_confvals !! confval_ix cv = Some cv.
Proof. by destruct cv. Qed.

Lemma confval_ix_inj a b : confval_ix a = confval_ix b -> a = b.
Proof.
  intros H. pose proof (confval_ix_lookup a) as Ha. pose proof (confval_ix_lookup b) as Hb.
  congruence.
Qed.

Lemma confval_ix_lt cv : (confval_ix cv < CONFVAL_MAX)%nat.
Proof. apply lookup_lt_is_Some. rewrite confval_ix_lookup. eauto. Qed.

Lemma get_confval_default n cv : get_confval (Some (dsr_node_init n)) cv = confval_val cv.
Proof. by destruct cv. Qed.

(** A node whose table has all its entries, each an [unsigned int]. *)
Definition node_ok (n : dsr_node) : Prop :=
  length (confvals n) = CONFVAL_MAX /\ Forall (fun v => 0 <= v < 2 ^ 32) (confvals n).

Lemma get_confval_range n cv : node_ok n -> 0 <= get_confval (Some n) cv < 2 ^ 32.
Proof.
  intros [Hl Hv]. simpl.
  destruct (confvals n !! confval_ix cv) as [v|] eqn:E; simpl; [|lia].
  by apply (Forall_lookup_1 _ _ _ _ Hv E).
Qed.

(** On an initialised node, reading a configuration value back gives the
    value last written, and the other values are unchanged. *)
Theorem set_get_confval n cv v r dn' :
  node_ok n -> 0 <= v < 2 ^ 32 -> set_confval (Some n) cv v = (r, dn') ->
  get_confval dn' cv = v
  /\ (forall cv', cv' <> cv -> get_confval dn' cv' = get_confval (Some n) cv')
  /\ match dn' with Some n' => node_ok n' | None => False end.
Proof.
  intros [Hl Hv] Hr [= <- <-]. split_and!; simpl.
  - rewrite list_lookup_insert_eq; [done|]. rewrite Hl. apply confval_ix_lt.
  - intros cv' Hne. rewrite list_lookup_insert_ne; [done|].
    intros Heq. by apply confval_ix_inj in Heq.
  - split; simpl; [by rewrite length_insert | by apply Forall_insert].
Qed.

Lemma set_get_confval_witness :
  get_confval (set_confval (Some (dsr_node_init (DsrNode 1 2 []))) MaxMaintRexmt 7).2 MaxMaintRexmt = 7.
Proof.
  assert (Hok : node_ok (dsr_node_init (DsrNode 1 2 []))).
  { split; [done|]. by apply (bool_decide_unpack _). }
  eapply (set_get_confval _ MaxMaintRexmt 7 7); [exact Hok | lia | reflexivity].
Defined.

(** the conversion of a configured time to microseconds is exact for every
    value below the 32-bit limit of its unit (4294 s, 4294967 ms), and the
    defaults are below it; above the limit it wraps. *)
Theorem confval_to_usecs_exact n cv :
  node_ok n ->
  (confval_ty cv = SECONDS -> get_confval (Some n) cv <= 4294 ->
     confval_to_usecs (Some n) cv = get_confval (Some n) cv * 1000000)
  /\ (confval_ty cv = MILLISECONDS -> get_confval (Some n) cv <= 4294967 ->
     confval_to_usecs (Some n) cv = get_confval (Some n) cv * 1000)
  /\ (confval_ty cv = SECONDS -> 4295 <= get_confval (Some n) cv ->
     confval_to_usecs (Some n) cv < get_confval (Some n) cv * 1000000)
  /\ (confval_ty cv = SECONDS -> confval_to_usecs (Some (dsr_node_init n)) cv = confval_val cv * 1000000)
  /\ (confval_ty cv = MILLISECONDS -> confval_to_usecs (Some (dsr_node_init n)) cv = confval_val cv * 1000).
Proof.
  intros Hok. pose proof (get_confval_range n cv Hok) as Hr. unfold confval_to_usecs. split_and!.
  - intros -> ?. apply u32_small. lia.
  - intros -> ?. apply u32_small. lia.
  - intros -> ?. pose proof (u32_range (get_confval (Some n) cv * 1000000)). lia.
  - intros Ht. rewrite Ht, get_confval_default. by destruct cv.
  - intros Ht. rewrite Ht, get_confval_default. by destruct cv.
Qed.

Lemma confval_to_usecs_exact_witness :
  let n := DsrNode 1 2 (map confval_val all_confvals) in
  confval_to_usecs (Some n) RouteCacheTimeout = 300000000
  /\ confval_to_usecs (set_confval (Some n) RouteCacheTimeout 4295).2 RouteCacheTimeout = 32704.
Proof.
  split; [|reflexivity].
  assert (Hok : node_ok (DsrNode 1 2 (map confval_val all_confvals))).
  { split; [done|]. by apply (bool_decide_unpack _). }
  destruct (confval_to_usecs_exact _ RouteCacheTimeout Hok) as (H & _).
  rewrite (H eq_refl); [reflexivity | vm_compute; discriminate].
Defined.
