(* ===== verification/Tbl.v ===== *)
(** * Locked tables (tbl.h)

    A [struct tbl] is the list of its elements in order, its length counter, its
    capacity and its lock.  An element is whatever the table links together: a
    record, or the pointer to one.  Criteria may read the heap, so they return
    an [outcome].  Functions whose C name starts with two underscores expect the
    caller to hold the lock; the others take it, run and release it. *)

From S2P Require Import Prelude.

Record tbl (A : Type) := Tbl {
  elems : list A;
  len : Z;
  max_len : Z;
  locked : bool
}.
Arguments Tbl {A} _ _ _ _.
Arguments elems {A} _.
Arguments len {A} _.
Arguments max_len {A} _.
Arguments locked {A} _.

Definition INIT_TBL {A} (max_length : Z) : tbl A := Tbl [] 0 max_length false.

(** [None] stands for the list head itself. *)
Definition TBL_FIRST {A} (t : tbl A) : option A := head (elems t).
Definition TBL_EMPTY {A} (t : tbl A) : bool :=
  match elems t with [] => true | _ => false end.
Definition TBL_FULL {A} (t : tbl A) : bool := len t >=? max_len t.
Definition tbl_empty {A} (t : tbl A) : bool :=
  match TBL_FIRST t with None => true | Some _ => false end.

Definition criteria_t (A D : Type) : Type := A -> D -> outcome bool.
(** A [do_t] may change the element and the data it is given. *)
Definition do_t (A D : Type) : Type := A -> D -> outcome (Z * A * D).

Definition crit_none {A D} : criteria_t A D := fun _ _ => Ret true.

(** A criterion that reads nothing but the element. *)
Definition pure_crit {A D} (p : A -> D -> bool) : criteria_t A D := fun a d => Ret (p a d).

Definition set_elems {A} (t : tbl A) (l : list A) (n : Z) : tbl A :=
  Tbl l n (max_len t) (locked t).

(** [list_for_each(pos, head) if (crit(pos, l)) break; list_add(l, pos->prev)]:
    in front of the first element that satisfies the criterion, else last. *)
Fixpoint insert_before {A} (crit : criteria_t A A) (l : A) (xs : list A) : outcome (list A) :=
  match xs with
  | [] => Ret [l]
  | pos :: rest =>
      b ← crit pos l;
      if (b : bool) then Ret (l :: pos :: rest)
      else rest' ← insert_before crit l rest; Ret (pos :: rest')
  end.

Definition __tbl_add {A} (t : tbl A) (l : A) (crit : criteria_t A A) : outcome (Z * tbl A) :=
  if len t >=? max_len t then Ret (- ENOSPC, t)
  else
    es ← (if TBL_EMPTY t then Ret [l] else insert_before crit l (elems t));
    let n := u32 (len t + 1) in
    Ret (s32 n, set_elems t es n).

Definition __tbl_add_tail {A} (t : tbl A) (l : A) : Z * tbl A :=
  if len t >=? max_len t then (- ENOSPC, t)
  else
    let n := u32 (len t + 1) in
    (s32 n, set_elems t (elems t ++ [l]) n).

(** The first element that satisfies the criterion, with its place. *)
Fixpoint find_elem {A D} (crit : criteria_t A D) (id : D) (xs : list A) : outcome (option (nat * A)) :=
  match xs with
  | [] => Ret None
  | pos :: rest =>
      b ← crit pos id;
      if (b : bool) then Ret (Some (O, pos))
      else r ← find_elem crit id rest;
           Ret (match r with Some (i, y) => Some (S i, y) | None => None end)
  end.

Definition __tbl_find {A D} (t : tbl A) (id : D) (crit : criteria_t A D) : outcome (option A) :=
  r ← find_elem crit id (elems t);
  Ret (match r with Some (_, e) => Some e | None => None end).

(** [l] is given by the test that recognises its address.  [list_del] of an
    entry that is on no list dereferences its cleared links. *)
Definition __tbl_detach {A} (t : tbl A) (is_l : A -> bool) : outcome (option A * tbl A) :=
  if TBL_EMPTY t then Ret (None, t)
  else '(i, l) ← deref (find_pos is_l (elems t));
       Ret (Some l, set_elems t (remove_at i (elems t)) (u32 (len t - 1))).

(** The block is returned to the allocator by the caller of the model. *)
Definition __tbl_del {A} (t : tbl A) (is_l : A -> bool) : outcome (Z * tbl A) :=
  '(r, t') ← __tbl_detach t is_l;
  match r with None => Ret (-1, t') | Some _ => Ret (1, t') end.

(** [list_for_each_safe(..) if (func(pos, data)) return 1]: stops at the first
    element on which the function returns non-zero. *)
Fixpoint find_do {A D} (func : do_t A D) (data : D) (xs : list A) : outcome (Z * list A * D) :=
  match xs with
  | [] => Ret (0, [], data)
  | pos :: rest =>
      '(r, pos', data') ← func pos data;
      if r =? 0 then
        '(res, rest', data'') ← find_do func data' rest;
        Ret (res, pos' :: rest', data'')
      else Ret (1, pos' :: rest, data')
  end.

Definition __tbl_find_do {A D} (t : tbl A) (data : D) (func : do_t A D) : outcome (Z * tbl A * D) :=
  '(r, es, d) ← find_do func data (elems t);
  Ret (r, set_elems t es (len t), d).

(** Runs the function on every element and adds up what it returns. *)
Fixpoint do_for_each {A D} (func : do_t A D) (data : D) (res : Z) (xs : list A)
  : outcome (Z * list A * D) :=
  match xs with
  | [] => Ret (res, [], data)
  | pos :: rest =>
      '(r, pos', data') ← func pos data;
      '(res', rest', data'') ← do_for_each func data' (s32 (res + r)) rest;
      Ret (res', pos' :: rest', data'')
  end.

Definition __tbl_do_for_each {A D} (t : tbl A) (data : D) (func : do_t A D)
  : outcome (Z * tbl A * D) :=
  '(r, es, d) ← do_for_each func data 0 (elems t);
  Ret (r, set_elems t es (len t), d).

Definition __tbl_find_detach {A D} (t : tbl A) (id : D) (crit : criteria_t A D)
  : outcome (option A * tbl A) :=
  r ← find_elem crit id (elems t);
  match r with
  | None => Ret (None, t)
  | Some (i, e) => Ret (Some e, set_elems t (remove_at i (elems t)) (u32 (len t - 1)))
  end.

Definition __tbl_detach_first {A} (t : tbl A) : option A * tbl A :=
  match elems t with
  | [] => (None, t)
  | e :: rest => (Some e, set_elems t rest (u32 (len t - 1)))
  end.

(** A criterion used to delete may also update the query it is given. *)
Definition del_crit_t (A D : Type) : Type := A -> D -> outcome (bool * D).

Fixpoint for_each_del {A D} (crit : del_crit_t A D) (id : D) (n : Z) (ln : Z) (xs : list A)
  : outcome (Z * Z * list A * D) :=
  match xs with
  | [] => Ret (n, ln, [], id)
  | pos :: rest =>
      '(b, id') ← crit pos id;
      if (b : bool) then for_each_del crit id' (s32 (n + 1)) (u32 (ln - 1)) rest
      else '(n', ln', rest', id'') ← for_each_del crit id' n ln rest;
           Ret (n', ln', pos :: rest', id'')
  end.

Definition __tbl_for_each_del {A D} (t : tbl A) (id : D) (crit : del_crit_t A D)
  : outcome (Z * tbl A * D) :=
  '(n, ln, es, d) ← for_each_del crit id 0 (len t) (elems t);
  Ret (n, set_elems t es ln, d).

(** [at_flush] is NULL or a function run on each element before it is freed. *)
Fixpoint flush_loop {A D} (at_flush : option (A -> D -> D)) (d : D) (ln : Z) (xs : list A) : Z * D :=
  match xs with
  | [] => (ln, d)
  | pos :: rest =>
      let d' := match at_flush with None => d | Some f => f pos d end in
      flush_loop at_flush d' (u32 (ln - 1)) rest
  end.

Definition __tbl_flush {A D} (t : tbl A) (at_flush : option (A -> D -> D)) (d : D) : tbl A * D :=
  let '(ln, d') := flush_loop at_flush d (len t) (elems t) in
  (set_elems t [] ln, d').

(** ** The lock and the operations that take it *)

Definition write_lock_bh {A} (t : tbl A) : outcome (tbl A) :=
  if locked t then Fault Deadlock else Ret (Tbl (elems t) (len t) (max_len t) true).
Definition write_unlock_bh {A} (t : tbl A) : tbl A := Tbl (elems t) (len t) (max_len t) false.
(** A reader waits for a writer, so it too deadlocks under the write lock. *)
Definition read_lock_bh {A} (t : tbl A) : outcome (tbl A) :=
  if locked t then Fault Deadlock else Ret t.

Definition tbl_add_tail {A} (t : tbl A) (l : A) : outcome (Z * tbl A) :=
  t1 ← write_lock_bh t;
  let '(r, t2) := __tbl_add_tail t1 l in
  Ret (r, write_unlock_bh t2).

Definition tbl_add {A} (t : tbl A) (l : A) (crit : criteria_t A A) : outcome (Z * tbl A) :=
  t1 ← write_lock_bh t;
  '(r, t2) ← __tbl_add t1 l crit;
  Ret (r, write_unlock_bh t2).

Definition tbl_find_do {A D} (t : tbl A) (data : D) (func : do_t A D) : outcome (Z * tbl A * D) :=
  t1 ← write_lock_bh t;
  '(r, t2, d) ← __tbl_find_do t1 data func;
  Ret (r, write_unlock_bh t2, d).

Definition tbl_do_for_each {A D} (t : tbl A) (data : D) (func : do_t A D)
  : outcome (Z * tbl A * D) :=
  t1 ← write_lock_bh t;
  '(r, t2, d) ← __tbl_do_for_each t1 data func;
  Ret (r, write_unlock_bh t2, d).

Definition tbl_find_detach {A D} (t : tbl A) (id : D) (crit : criteria_t A D)
  : outcome (option A * tbl A) :=
  t1 ← write_lock_bh t;
  '(e, t2) ← __tbl_find_detach t1 id crit;
  Ret (e, write_unlock_bh t2).

Definition tbl_detach {A} (t : tbl A) (is_l : A -> bool) : outcome (option A * tbl A) :=
  t1 ← write_lock_bh t;
  '(e, t2) ← __tbl_detach t1 is_l;
  Ret (e, write_unlock_bh t2).

Definition tbl_detach_first {A} (t : tbl A) : outcome (option A * tbl A) :=
  t1 ← write_lock_bh t;
  let '(e, t2) := __tbl_detach_first t1 in
  Ret (e, write_unlock_bh t2).

Definition tbl_del {A} (t : tbl A) (is_l : A -> bool) : outcome (Z * tbl A) :=
  t1 ← write_lock_bh t;
  '(r, t2) ← __tbl_del t1 is_l;
  Ret (r, write_unlock_bh t2).

Definition tbl_find_del {A D} (t : tbl A) (id : D) (crit : criteria_t A D) : outcome (Z * tbl A) :=
  t1 ← write_lock_bh t;
  r ← find_elem crit id (elems t1);
  match r with
  | None => Ret (-1, write_unlock_bh t1)
  | Some (i, e) =>
      Ret (1, write_unlock_bh (set_elems t1 (remove_at i (elems t1)) (u32 (len t1 - 1))))
  end.

(** Returns 0 whatever it deleted; [kfree(NULL)] is allowed. *)
Definition tbl_del_first {A} (t : tbl A) : outcome (Z * tbl A) :=
  '(l, t') ← tbl_detach_first t;
  Ret (0, t').

Definition tbl_for_each_del {A D} (t : tbl A) (id : D) (crit : del_crit_t A D)
  : outcome (Z * tbl A * D) :=
  t1 ← write_lock_bh t;
  '(n, t2, d) ← __tbl_for_each_del t1 id crit;
  Ret (n, write_unlock_bh t2, d).

Definition in_tbl {A D} (t : tbl A) (id : D) (crit : criteria_t A D) : outcome Z :=
  t1 ← read_lock_bh t;
  r ← __tbl_find t1 id crit;
  Ret (match r with Some _ => 1 | None => 0 end).

Definition tbl_flush {A D} (t : tbl A) (at_flush : option (A -> D -> D)) (d : D)
  : outcome (tbl A * D) :=
  t1 ← write_lock_bh t;
  let '(t2, d') := __tbl_flush t1 at_flush d in
  Ret (write_unlock_bh t2, d').

(** ** How the operations act on the list of elements *)

Section Lists.
Context {A D : Type}.

Lemma insert_before_spec (crit : criteria_t A A) l xs ys :
  insert_before crit l xs = Ret ys ->
  exists a b, xs = a ++ b /\ ys = a ++ l :: b
    /\ Forall (fun x => crit x l = Ret false) a
    /\ match b with [] => True | x :: _ => crit x l = Ret true end.
Proof.
  revert ys. induction xs as [|x xs IH]; intros ys H; simpl in H.
  - injection H as <-. exists [], []. by repeat constructor.
  - obind H. destruct x0.
    + injection H as <-. exists [], (x :: xs). by repeat constructor.
    + obind H. injection H as <-.
      destruct (IH _ H1) as (a & b & -> & -> & Ha & Hb).
      exists (x :: a), b. split_and!; try done. by constructor.
Qed.

Lemma insert_before_pure (p : A -> A -> bool) l xs :
  exists ys, insert_before (pure_crit p) l xs = Ret ys.
Proof.
  induction xs as [|x xs [ys IH]]; simpl; [eauto|].
  destruct (p x l); [eauto|]. rewrite IH. simpl. eauto.
Qed.

Lemma find_elem_pure (p : A -> D -> bool) (d : D) xs :
  find_elem (pure_crit p) d xs = Ret (find_pos (fun a => p a d) xs).
Proof.
  induction xs as [|x xs IH]; simpl; [done|].
  destruct (p x d); [done|]. rewrite IH. simpl. by destruct (find_pos _ xs) as [[]|].
Qed.

Lemma find_elem_total (crit : criteria_t A D) (p : A -> bool) d xs :
  (forall x, x ∈ xs -> crit x d = Ret (p x)) -> find_elem crit d xs = Ret (find_pos p xs).
Proof.
  induction xs as [|x xs IH]; intros H; simpl; [done|].
  rewrite (H x) by (by left). simpl. destruct (p x); [done|].
  rewrite IH by (intros y Hy; apply H; by right). simpl. by destruct (find_pos _ xs) as [[]|].
Qed.

Lemma find_elem_Some (crit : criteria_t A D) d xs i e :
  find_elem crit d xs = Ret (Some (i, e)) ->
  xs = take i xs ++ e :: drop (S i) xs
  /\ remove_at i xs = take i xs ++ drop (S i) xs
  /\ crit e d = Ret true /\ Forall (fun x => crit x d = Ret false) (take i xs).
Proof.
  revert i. induction xs as [|x xs IH]; intros i H; simpl in H; [done|].
  obind H. destruct x0.
  - injection H as <- <-. by simpl.
  - obind H. destruct x0 as [[j y]|]; [|done]. injection H as <- <-.
    destruct (IH j) as (E1 & E2 & E3 & E4); [done|]. simpl.
    split_and!; [by f_equal | by f_equal | done | by constructor].
Qed.

Lemma find_elem_None (crit : criteria_t A D) d xs :
  find_elem crit d xs = Ret None -> Forall (fun x => crit x d = Ret false) xs.
Proof.
  induction xs as [|x xs IH]; intros H; simpl in H; [constructor|].
  obind H. destruct x0; [done|]. obind H. destruct x0 as [[]|]; [done|].
  constructor; auto.
Qed.

(** A function that acts on the first element satisfying a test. *)
Fixpoint alter_first (p : A -> bool) (g : A -> A) (xs : list A) : list A :=
  match xs with
  | [] => []
  | x :: xs' => if p x then g x :: xs' else x :: alter_first p g xs'
  end.

Lemma find_do_first (f : do_t A D) (p : A -> bool) (g : A -> A) d xs :
  (forall x, x ∈ xs -> f x d = if p x then Ret (1, g x, d) else Ret (0, x, d)) ->
  find_do f d xs = Ret (match find_pos p xs with Some _ => 1 | None => 0 end, alter_first p g xs, d).
Proof.
  induction xs as [|x xs IH]; intros H; simpl; [done|].
  rewrite (H x) by (by left). destruct (p x); simpl; [done|].
  rewrite IH by (intros y Hy; apply H; by right). simpl.
  by destruct (find_pos p xs) as [[]|].
Qed.

Lemma alter_first_length p g l : length (alter_first p g l) = length l.
Proof. induction l as [|x l IH]; simpl; [done|]. destruct (p x); simpl; congruence. Qed.

Lemma alter_first_fmap {B} (f : A -> B) p g l : (forall x, f (g x) = f x) -> f <$> alter_first p g l = f <$> l.
Proof. intros Hg. induction l as [|x l IH]; [done|]. simpl. destruct (p x); csimpl; [by rewrite Hg|by rewrite IH]. Qed.

Lemma find_do_length (f : do_t A D) d xs r ys d' :
  find_do f d xs = Ret (r, ys, d') -> length ys = length xs.
Proof.
  revert d r ys d'. induction xs as [|x xs IH]; intros d r ys d' H; simpl in H.
  - by injection H as <- <- <-.
  - obind H. destruct x0 as [[r0 x'] d1]. case_match.
    + obind H. destruct x0 as [[r1 rest] d2]. injection H as <- <- <-.
      simpl. f_equal. eauto.
    + by injection H as <- <- <-.
Qed.

Lemma do_for_each_length (f : do_t A D) d res xs r ys d' :
  do_for_each f d res xs = Ret (r, ys, d') -> length ys = length xs.
Proof.
  revert d res r ys d'. induction xs as [|x xs IH]; intros d res r ys d' H; simpl in H.
  - by injection H as <- <- <-.
  - obind H. destruct x0 as [[r0 x'] d1]. obind H. destruct x0 as [[r1 rest] d2].
    injection H as <- <- <-. simpl. f_equal. eauto.
Qed.

(** Deleting by a criterion that only reads keeps the other elements in order
    and counts the deleted ones. *)
Lemma for_each_del_pure (p : A -> bool) (d : D) n ln xs :
  - 2 ^ 31 <= n -> n + zlen xs < 2 ^ 31 -> zlen xs <= ln < 2 ^ 32 ->
  for_each_del (fun a d => Ret (p a, d)) d n ln xs
  = Ret (n + zlen (base.filter (fun a => p a = true) xs),
         ln - zlen (base.filter (fun a => p a = true) xs),
         base.filter (fun a => p a = false) xs, d).
Proof.
  revert n ln. induction xs as [|x xs IH]; intros n ln Hn Hl Hln; simpl.
  - unfold zlen; simpl. by rewrite Z.add_0_r, Z.sub_0_r.
  - rewrite zlen_cons in Hl, Hln. pose proof (zlen_nonneg xs). rewrite !filter_cons.
    destruct (p x) eqn:Hp; simpl.
    + rewrite s32_small, u32_small by lia. rewrite IH by lia.
      rewrite zlen_cons. do 2 f_equal. f_equal. f_equal; lia.
    + rewrite IH by lia. done.
Qed.

(** Whatever the criterion does, the counter falls by the number deleted. *)
Lemma for_each_del_len (crit : del_crit_t A D) d n ln xs n' ln' ys d' :
  for_each_del crit d n ln xs = Ret (n', ln', ys, d') ->
  zlen xs <= ln < 2 ^ 32 ->
  ys `sublist_of` xs /\ ln' = ln - (zlen xs - zlen ys).
Proof.
  revert d n ln n' ln' ys d'. induction xs as [|x xs IH]; intros d n ln n' ln' ys d' H Hln; simpl in H.
  - injection H as <- <- <- <-. split; [done|lia].
  - rewrite zlen_cons in *. pose proof (zlen_nonneg xs).
    obind H. destruct x0 as [b d1]. destruct b.
    + destruct (IH _ _ _ _ _ _ _ H) as [Hs ->]; [rewrite u32_small; lia|].
      rewrite u32_small by lia. split; [by constructor|lia].
    + obind H. destruct x0 as [[[n1 ln1] rest] d2]. injection H as <- <- <- <-.
      destruct (IH _ _ _ _ _ _ _ H2) as [Hs ->]; [lia|].
      rewrite zlen_cons. split; [by constructor|lia].
Qed.

Lemma flush_loop_len (f : option (A -> D -> D)) d ln xs :
  zlen xs <= ln < 2 ^ 32 -> (flush_loop f d ln xs).1 = ln - zlen xs.
Proof.
  revert d ln. induction xs as [|x xs IH]; intros d ln H; simpl.
  - unfold zlen; simpl; lia.
  - rewrite zlen_cons in *. pose proof (zlen_nonneg xs). rewrite IH; rewrite u32_small; lia.
Qed.
End Lists.

(** Every criterion and function of the following statements is arbitrary. *)
Inductive tbl_step {A} : tbl A -> tbl A -> Prop :=
| step_add t l crit r t' : __tbl_add t l crit = Ret (r, t') -> tbl_step t t'
| step_add_tail t l r t' : __tbl_add_tail t l = (r, t') -> tbl_step t t'
| step_detach t p r t' : __tbl_detach t p = Ret (r, t') -> tbl_step t t'
| step_find_do {D} t (d : D) f r t' d' : __tbl_find_do t d f = Ret (r, t', d') -> tbl_step t t'
| step_do_for_each {D} t (d : D) f r t' d' :
    __tbl_do_for_each t d f = Ret (r, t', d') -> tbl_step t t'
| step_find_detach {D} t (d : D) crit r t' :
    __tbl_find_detach t d crit = Ret (r, t') -> tbl_step t t'
| step_detach_first t r t' : __tbl_detach_first t = (r, t') -> tbl_step t t'
| step_for_each_del {D} t (d : D) crit n t' d' :
    __tbl_for_each_del t d crit = Ret (n, t', d') -> tbl_step t t'
| step_flush {D} t f (d : D) t' d' : __tbl_flush t f d = (t', d') -> tbl_step t t'
| step_lock t t' : write_lock_bh t = Ret t' -> tbl_step t t'
| step_unlock t : tbl_step t (write_unlock_bh t).

Definition tbl_wf {A} (t : tbl A) : Prop :=
  len t = zlen (elems t) /\ zlen (elems t) <= max_len t /\ max_len t < 2 ^ 32.

Lemma find_pos_remove_len {A} (p : A -> bool) l i x :
  find_pos p l = Some (i, x) -> zlen (remove_at i l) = zlen l - 1.
Proof.
  intros H. apply find_pos_Some in H as (H1 & _ & _ & -> & _).
  rewrite H1 at 3. rewrite !zlen_app, zlen_cons. lia.
Qed.

Lemma find_elem_remove_len {A D} (crit : criteria_t A D) d l i x :
  find_elem crit d l = Ret (Some (i, x)) -> zlen (remove_at i l) = zlen l - 1.
Proof.
  intros H. apply find_elem_Some in H as (H1 & H2 & _ & _).
  rewrite H2. rewrite H1 at 3. rewrite !zlen_app, zlen_cons. lia.
Qed.

Lemma zlen_length {A B} (l : list A) (k : list B) : length l = length k -> zlen l = zlen k.
Proof. unfold zlen. congruence. Qed.

Lemma tbl_step_wf {A} (t t' : tbl A) :
  tbl_step t t' -> tbl_wf t -> tbl_wf t' /\ max_len t' = max_len t.
Proof.
  unfold tbl_wf. intros Hs (Hl & Hm & Hx).
  pose proof (zlen_nonneg (elems t)) as H0.
  destruct Hs as [t l crit r t' H|t l r t' H|t p r t' H|D t d f r t' d' H|D t d f r t' d' H
    |D t d crit r t' H|t r t' H|D t d crit n t' d' H|D t f d t' d' H|t t' H|t].
  - unfold __tbl_add in H. case_match; zb; [by injection H as <- <-|].
    obind H as es E. injection H as <- <-. simpl. rewrite u32_small by lia.
    assert (zlen es = zlen (elems t) + 1) as ->; [|lia].
    unfold TBL_EMPTY in E. destruct (elems t) as [|x xs] eqn:Ex; [by injection E as <-|].
    apply insert_before_spec in E as (a & b & -> & -> & _).
    rewrite !zlen_app, zlen_cons. lia.
  - unfold __tbl_add_tail in H. case_match; zb; [by injection H as <- <-|].
    injection H as <- <-. simpl. rewrite u32_small by lia. autorewrite with dsr_rw. lia.
  - unfold __tbl_detach in H. case_match; [by injection H as <- <-|].
    obind H as [i e] E. injection H as <- <-. simpl.
    destruct (find_pos p (elems t)) as [[i' e']|] eqn:Ef; [|done]. injection E as -> ->.
    pose proof (find_pos_remove_len _ _ _ _ Ef) as ->.
    apply find_pos_Some in Ef as (Ef & _). rewrite Ef, zlen_app, zlen_cons in *.
    pose proof (zlen_nonneg (take i (elems t))). pose proof (zlen_nonneg (drop (S i) (elems t))).
    rewrite u32_small; lia.
  - unfold __tbl_find_do in H. obind H as [[r0 es] d0] E. injection H as <- <- <-. simpl.
    apply find_do_length in E. rewrite (zlen_length _ _ E). lia.
  - unfold __tbl_do_for_each in H. obind H as [[r0 es] d0] E. injection H as <- <- <-. simpl.
    apply do_for_each_length in E. rewrite (zlen_length _ _ E). lia.
  - unfold __tbl_find_detach in H. obind H as o E. destruct o as [[i e]|].
    + injection H as <- <-. simpl. pose proof (find_elem_remove_len _ _ _ _ _ E) as ->.
      apply find_elem_Some in E as (E & _). rewrite E, zlen_app, zlen_cons in *.
      pose proof (zlen_nonneg (take i (elems t))). pose proof (zlen_nonneg (drop (S i) (elems t))).
      rewrite u32_small; lia.
    + by injection H as <- <-.
  - unfold __tbl_detach_first in H. destruct (elems t) as [|e rest] eqn:Ee; injection H as <- <-.
    + rewrite Ee. lia.
    + simpl. rewrite zlen_cons in *. pose proof (zlen_nonneg rest). rewrite u32_small; lia.
  - unfold __tbl_for_each_del in H. obind H as [[[n0 ln] es] d0] E. injection H as <- <- <-. simpl.
    apply for_each_del_len in E as [Hsub ->]; [|lia].
    apply sublist_length in Hsub. unfold zlen in *. lia.
  - unfold __tbl_flush in H. destruct (flush_loop f d (len t) (elems t)) as [ln d0] eqn:E.
    injection H as <- <-. simpl.
    pose proof (flush_loop_len f d (len t) (elems t) ltac:(lia)) as Hf. rewrite E in Hf. simpl in Hf.
    rewrite zlen_nil. lia.
  - unfold write_lock_bh in H. case_match; [done|]. injection H as <-. simpl. lia.
  - simpl. lia.
Qed.

(** On a free table the locking operations do what the unlocked ones do. *)
Lemma tbl_detach_free {A} (t : tbl A) p : locked t = false -> tbl_detach t p = __tbl_detach t p.
Proof.
  destruct t as [es ln mx lk]. simpl. intros ->. unfold tbl_detach, __tbl_detach, write_lock_bh, TBL_EMPTY. simpl.
  destruct es; [done|]. destruct (find_pos p _) as [[i x]|]; done.
Qed.

Lemma tbl_add_tail_free {A} (t : tbl A) l : locked t = false -> tbl_add_tail t l = Ret (__tbl_add_tail t l).
Proof.
  destruct t as [es ln mx lk]. simpl. intros ->. unfold tbl_add_tail, __tbl_add_tail, write_lock_bh. simpl.
  by destruct (ln >=? mx).
Qed.

Lemma tbl_find_detach_free {A D} (t : tbl A) (d : D) c :
  locked t = false -> tbl_find_detach t d c = __tbl_find_detach t d c.
Proof.
  destruct t as [es ln mx lk]. simpl. intros ->. unfold tbl_find_detach, __tbl_find_detach, write_lock_bh. simpl.
  destruct (find_elem c d es) as [[[i e]|]|]; done.
Qed.

Lemma tbl_detach_first_free {A} (t : tbl A) : locked t = false -> tbl_detach_first t = Ret (__tbl_detach_first t).
Proof.
  destruct t as [es ln mx lk]. simpl. intros ->. unfold tbl_detach_first, __tbl_detach_first, write_lock_bh. simpl.
  by destruct es.
Qed.

(** ** Tables of pointers *)

Lemma tbl_detach_ptr (t : tbl Z) x :
  tbl_wf t -> x ∈ elems t ->
  exists t', __tbl_detach t (fun y => y =? x) = Ret (Some x, t')
    /\ elems t ≡ₚ x :: elems t' /\ elems t' `sublist_of` elems t
    /\ tbl_wf t' /\ max_len t' = max_len t /\ locked t' = locked t.
Proof.
  intros Hwf Hx.
  assert (exists t', __tbl_detach t (fun y => y =? x) = Ret (Some x, t') /\ locked t' = locked t
    /\ elems t ≡ₚ x :: elems t' /\ elems t' `sublist_of` elems t) as (t' & Hd & Hl & Hp & Hs).
  { unfold __tbl_detach, TBL_EMPTY. destruct (elems t) as [|e es] eqn:Ee; [set_solver|].
    rewrite <- Ee in *. destruct (find_pos (fun y => y =? x) (elems t)) as [[i y]|] eqn:Ef.
    - apply find_pos_Some in Ef as (Ec & Hy & _ & Hr & _). zb. subst y. simpl.
      eexists. split; [done|]. simpl. split; [done|]. rewrite Hr. revert Ec.
      generalize (take i (elems t)) (drop (S i) (elems t)). intros a b ->.
      split; [by rewrite Permutation_middle|]. apply sublist_app; [done|]. by constructor.
    - apply find_pos_None in Ef. rewrite Forall_forall in Ef. specialize (Ef x Hx). simpl in Ef. zb. done. }
  exists t'. destruct (tbl_step_wf t t' (step_detach t _ _ _ Hd) Hwf). by split_and!.
Qed.

Lemma tbl_detach_split (t : tbl Z) x :
  tbl_wf t -> x ∈ elems t ->
  exists t' a b, __tbl_detach t (fun y => y =? x) = Ret (Some x, t')
    /\ elems t = a ++ x :: b /\ elems t' = a ++ b.
Proof.
  intros Hwf Hx. unfold __tbl_detach, TBL_EMPTY. destruct (elems t) as [|e es] eqn:Ee; [set_solver|].
  rewrite <- Ee in *. destruct (find_pos (fun y => y =? x) (elems t)) as [[i y]|] eqn:Ef.
  - apply find_pos_Some in Ef as (Ec & Hy & _ & Hr & _). zb. subst y. simpl.
    eexists _, _, _. split; [done|]. simpl. by rewrite Hr.
  - apply find_pos_None in Ef. rewrite Forall_forall in Ef. specialize (Ef x Hx). simpl in Ef. zb. done.
Qed.

Lemma tbl_add_tail_room {A} (t : tbl A) l :
  tbl_wf t -> len t < max_len t -> exists r t', __tbl_add_tail t l = (r, t')
    /\ elems t' = elems t ++ [l] /\ tbl_wf t' /\ max_len t' = max_len t /\ locked t' = locked t.
Proof.
  intros Hwf Hlt. unfold __tbl_add_tail. destruct (len t >=? max_len t) eqn:E; zb; [lia|].
  eexists _, _. split; [done|]. destruct Hwf as (Hl & Hm & Hx). pose proof (zlen_nonneg (elems t)).
  unfold tbl_wf. simpl. autorewrite with dsr_rw. split_and!; try done; lia.
Qed.

(** A search with a criterion that is defined on every element. *)
Lemma tbl_find_total {A D} (t : tbl A) (d : D) crit (p : A -> bool) :
  (forall x, x ∈ elems t -> crit x d = Ret (p x)) ->
  exists r, __tbl_find t d crit = Ret r
    /\ match r with
       | Some x => x ∈ elems t /\ p x = true
       | None => forall x, x ∈ elems t -> p x = false
       end.
Proof.
  intros H. unfold __tbl_find. rewrite (find_elem_total crit p) by done. simpl.
  destruct (find_pos p (elems t)) as [[i x]|] eqn:E; eexists; (split; [done|]).
  - apply find_pos_Some in E as (_ & Hp & _ & _ & Hl). split; [|done]. by eapply list_elem_of_lookup_2.
  - apply find_pos_None in E. by rewrite Forall_forall in E.
Qed.

(** C32: in every table reached from an initialised one by any sequence of table
    operations, with any criteria and callbacks, the length counter is the number
    of elements and stays within the capacity. *)
Theorem tbl_reachable_wf {A} m (t : tbl A) :
  0 <= m < 2 ^ 32 -> rtc tbl_step (INIT_TBL m) t ->
  len t = zlen (elems t) /\ zlen (elems t) <= m /\ max_len t = m.
Proof.
  intros Hm Hr.
  assert (tbl_wf t /\ max_len t = m) as [(?&?&?) ?]; [|lia].
  remember (INIT_TBL m) as t0 eqn:E0.
  assert (H0 : tbl_wf t0 /\ max_len t0 = m).
  { subst. unfold tbl_wf, zlen. simpl. lia. }
  clear E0. induction Hr as [|x y z Hxy _ IH]; [done|].
  destruct H0 as [Hw Hmx]. destruct (tbl_step_wf _ _ Hxy Hw) as [Hw' Hm']. apply IH.
  split; [done | congruence].
Qed.

Lemma tbl_reachable_wf_witness :
  exists t, rtc tbl_step (INIT_TBL 2) t /\ elems t = [5; 7] /\ len t = 2.
Proof.
  exists (Tbl [5; 7] 2 2 false).
  assert (Hr : rtc tbl_step (INIT_TBL 2) (Tbl [5; 7] 2 2 false)).
  { eapply rtc_l; [by eapply (step_add_tail _ 5)|].
    eapply rtc_l; [by eapply (step_add_tail _ 7) | apply rtc_refl]. }
  split; [exact Hr|]. split; [reflexivity|].
  destruct (tbl_reachable_wf 2 _ ltac:(lia) Hr) as (H & _ & _). exact H.
Defined.

(** ** Ordered insertion *)

Section Ordered.
Context {A : Type} (key : A -> Z).

(** [crit(pos, l)] holds when [pos] is due strictly later than [l]. *)
Definition later (pos l : A) : bool := key l <? key pos.

Lemma insert_later_sorted l xs ys :
  Sorted (fun a b => key a <= key b) xs ->
  insert_before (pure_crit later) l xs = Ret ys ->
  Sorted (fun a b => key a <= key b) ys.
Proof.
  intros Hs Hi. apply insert_before_spec in Hi as (a & b & -> & -> & Ha & Hb).
  induction a as [|x a IH]; simpl in *.
  - constructor; [done|]. destruct b as [|y b]; constructor.
    injection Hb as Hb. unfold later in Hb. zb. lia.
  - inversion Hs as [|? ? Hs' Hh]; subst. inversion Ha as [|? ? Hx Ha']; subst.
    injection Hx as Hx. unfold later in Hx. zb.
    constructor; [by apply IH|].
    destruct a as [|z a]; simpl; constructor; [lia|]. by inversion Hh.
Qed.

(** Inserting by expiry keeps a table ordered: when the elements are in
    non-decreasing order of their key and there is room, [__tbl_add] adds the
    new element exactly once, after every element that is not due later, and the
    table stays ordered. *)
Theorem tbl_add_ordered (t : tbl A) l :
  Sorted (fun a b => key a <= key b) (elems t) -> tbl_wf t -> len t < max_len t ->
  len t < 2 ^ 31 - 1 ->
  exists a b t', elems t = a ++ b /\ __tbl_add t l (pure_crit later) = Ret (len t + 1, t')
    /\ elems t' = a ++ l :: b /\ len t' = len t + 1
    /\ Forall (fun x => key x <= key l) a /\ Forall (fun x => key l < key x) (option_list (head b))
    /\ Sorted (fun x y => key x <= key y) (elems t').
Proof using Type.
  intros Hs (Hl & Hm & Hx) Hlt Hi. unfold __tbl_add.
  destruct (len t >=? max_len t) eqn:E; zb; [lia|].
  pose proof (zlen_nonneg (elems t)) as H0.
  assert (Hins : exists ys, (if TBL_EMPTY t then Ret [l] else insert_before (pure_crit later) l (elems t)) = Ret ys
    /\ insert_before (pure_crit later) l (elems t) = Ret ys).
  { unfold TBL_EMPTY. destruct (elems t) as [|x xs]; [by exists [l]|].
    destruct (insert_before_pure later l (x :: xs)) as [ys ->]. by exists ys. }
  destruct Hins as (ys & -> & Hins). simpl.
  pose proof (insert_later_sorted _ _ _ Hs Hins) as Hsort.
  apply insert_before_spec in Hins as (a & b & Eab & -> & Ha & Hb).
  exists a, b. eexists. rewrite u32_small, s32_small by lia. simpl. split_and!; try done.
  - eapply Forall_impl; [exact Ha|]. intros y [= Hy]. unfold later in Hy. by zb.
  - destruct b as [|y b]; simpl; constructor; [|constructor].
    injection Hb as Hb. unfold later in Hb. by zb.
Qed.
End Ordered.

Lemma tbl_add_ordered_witness :
  exists t', __tbl_add (Tbl [1; 4; 9] 3 10 false) 4 (pure_crit (later id)) = Ret (4, t')
    /\ elems t' = [1; 4; 4; 9] /\ Sorted (fun x y => x <= y) (elems t').
Proof.
  assert (Hs : Sorted (fun a b : Z => id a <= id b) [1; 4; 9]) by (repeat constructor; unfold id; lia).
  destruct (tbl_add_ordered id (Tbl [1; 4; 9] 3 10 false) 4 Hs
    ltac:(unfold tbl_wf, zlen; simpl; lia) ltac:(simpl; lia) ltac:(simpl; lia))
    as (a & b & t' & _ & Hadd & _ & _ & _ & _ & Hsort).
  exists t'. split; [exact Hadd|]. split; [|exact Hsort].
  vm_compute in Hadd. by injection Hadd as <-.
Defined.

(** deleting by a criterion that only reads removes exactly the elements
    that satisfy it, returns their number, keeps the others in order and keeps
    the counter right. *)
Theorem tbl_for_each_del_spec {A D} (p : A -> bool) (d : D) (t : tbl A) :
  tbl_wf t -> max_len t < 2 ^ 31 ->
  __tbl_for_each_del t d (fun a d => Ret (p a, d))
  = Ret (zlen (base.filter (fun a => p a = true) (elems t)),
         Tbl (base.filter (fun a => p a = false) (elems t))
             (zlen (base.filter (fun a => p a = false) (elems t))) (max_len t) (locked t), d).
Proof.
  intros (Hl & Hm & Hx) Hm'. pose proof (zlen_nonneg (elems t)).
  unfold __tbl_for_each_del. rewrite for_each_del_pure by lia. simpl.
  unfold set_elems. rewrite Z.add_0_l. do 2 f_equal. f_equal. f_equal.
  assert (forall l : list A, zlen l = zlen (base.filter (fun a => p a = true) l)
    + zlen (base.filter (fun a => p a = false) l)) as Hsplit.
  { induction l as [|x l IH]; [done|]. rewrite !filter_cons, zlen_cons, IH.
    destruct (p x); simpl; autorewrite with dsr_rw; lia. }
  specialize (Hsplit (elems t)). lia.
Qed.

Lemma tbl_for_each_del_spec_witness :
  __tbl_for_each_del (Tbl [1; 4; 9; 4] 4 10 false) () (fun a d => Ret (a =? 4, d))
  = Ret (2, Tbl [1; 9] 2 10 false, ()).
Proof.
  apply (tbl_for_each_del_spec (fun a => a =? 4) () (Tbl [1; 4; 9; 4] 4 10 false));
    unfold tbl_wf, zlen; simpl; lia.
Defined.

(** ** The lock *)

(** on a table whose lock this thread holds, every operation that takes the
    lock deadlocks; on one it does not hold, the operation does what its unlocked
    form does and leaves the lock released. *)
Theorem tbl_lock_discipline {A D} (t : tbl A) (l : A) (d : D) crit dcrit (f : do_t A D)
    (p : A -> bool) (c : criteria_t A D) (g : option (A -> D -> D)) :
  if locked t then
    tbl_add t l crit = Fault Deadlock /\ tbl_add_tail t l = Fault Deadlock
    /\ tbl_find_do t d f = Fault Deadlock /\ tbl_do_for_each t d f = Fault Deadlock
    /\ tbl_find_detach t d c = Fault Deadlock /\ tbl_detach t p = Fault Deadlock
    /\ tbl_detach_first t = Fault Deadlock /\ tbl_del t p = Fault Deadlock
    /\ tbl_find_del t d c = Fault Deadlock /\ tbl_del_first t = Fault Deadlock
    /\ tbl_for_each_del t d dcrit = Fault Deadlock /\ in_tbl t d c = Fault Deadlock
    /\ tbl_flush t g d = Fault Deadlock
  else
    (forall r t', tbl_add t l crit = Ret (r, t') -> locked t' = false)
    /\ tbl_add_tail t l = Ret (__tbl_add_tail t l)
    /\ (forall r t' d', tbl_find_do t d f = Ret (r, t', d') -> __tbl_find_do t d f = Ret (r, t', d'))
    /\ (forall r t', tbl_find_detach t d c = Ret (r, t') -> __tbl_find_detach t d c = Ret (r, t'))
    /\ tbl_detach_first t = Ret (__tbl_detach_first t)
    /\ (forall n t' d', tbl_for_each_del t d dcrit = Ret (n, t', d') ->
          __tbl_for_each_del t d dcrit = Ret (n, t', d')).
Proof.
  destruct t as [es ln mx lk]. destruct lk; simpl.
  - unfold tbl_add, tbl_add_tail, tbl_find_do, tbl_do_for_each, tbl_find_detach, tbl_detach,
      tbl_detach_first, tbl_del, tbl_find_del, tbl_del_first, tbl_for_each_del, in_tbl, tbl_flush,
      tbl_detach_first, write_lock_bh, read_lock_bh. simpl. by repeat split.
  - split_and!.
    + intros r t' H. unfold tbl_add in H. simpl in H. obind H as [r0 t0] E. by injection H as <- <-.
    + unfold tbl_add_tail, __tbl_add_tail. simpl. by destruct (ln >=? mx).
    + intros r t' d' H. unfold tbl_find_do, __tbl_find_do in *. simpl in *.
      obind H as [[r0 t0] d0] E. injection H as <- <- <-. obind E as [[r1 es1] d1] E1.
      rewrite E1. simpl. by injection E as <- <- <-.
    + intros r t' H. unfold tbl_find_detach, __tbl_find_detach in *. simpl in *.
      obind H as [r0 t0] E. injection H as <- <-. obind E as o E1. rewrite E1. simpl.
      destruct o as [[i e]|]; by injection E as <- <-.
    + unfold tbl_detach_first, __tbl_detach_first. simpl. by destruct es.
    + intros n t' d' H. unfold tbl_for_each_del, __tbl_for_each_del in *. simpl in *.
      obind H as [[r0 t0] d0] E. injection H as <- <- <-. obind E as [[[r1 ln1] es1] d1] E1.
      rewrite E1. simpl. by injection E as <- <- <-.
Qed.
