(* ===== verification/TblDel.v ===== *)
(** * Deleting with an effect

    Lemmas about tables whose entries are freed as they are taken out: what a
    criterion that acts deletes, the first entry that satisfies a test, and a
    step run over a list. *)

From S2P Require Import Prelude Tbl.

(** A list without, and a list of, the elements that satisfy a test. *)
Abbreviation hits p l := (base.filter (fun a => p a = true) l).
Abbreviation misses p l := (base.filter (fun a => p a = false) l).

Lemma hits_misses_len {A} (p : A -> bool) (l : list A) : zlen l = zlen (hits p l) + zlen (misses p l).
Proof.
  induction l as [|x l IH]; [done|]. rewrite !filter_cons, zlen_cons, IH.
  destruct (p x); simpl; autorewrite with dsr_rw; lia.
Qed.

(** A criterion that reads the element and, when it holds, also acts. *)
Lemma for_each_del_acc {A D} (crit : del_crit_t A D) (p : A -> bool) (g : A -> D -> D) (d : D) n ln xs :
  (forall a d, crit a d = Ret (if p a then (true, g a d) else (false, d))) ->
  - 2 ^ 31 <= n -> n + zlen xs < 2 ^ 31 -> zlen xs <= ln < 2 ^ 32 ->
  for_each_del crit d n ln xs
  = Ret (n + zlen (hits p xs), ln - zlen (hits p xs), misses p xs, foldl (fun d a => g a d) d (hits p xs)).
Proof.
  intros Hc. revert d n ln. induction xs as [|x xs IH]; intros d n ln Hn Hl Hln; simpl.
  - unfold zlen; simpl. by rewrite Z.add_0_r, Z.sub_0_r.
  - rewrite zlen_cons in Hl, Hln. pose proof (zlen_nonneg xs). rewrite !filter_cons, Hc.
    destruct (p x) eqn:Hp; simpl.
    + rewrite s32_small, u32_small by lia. rewrite IH by lia.
      rewrite zlen_cons. do 2 f_equal. f_equal. f_equal; lia.
    + rewrite IH by lia. done.
Qed.

(** Runs a step over a list in order. *)
Fixpoint run_all {A W} (f : A -> W -> outcome W) (l : list A) (w : W) : outcome W :=
  match l with [] => Ret w | a :: l' => w ← f a w; run_all f l' w end.

(** Taking the first hit out of a table. *)
Lemma find_detach_hit {A D} (t : tbl A) (d : D) (p : A -> D -> bool) :
  tbl_wf t ->
  match hits (λ a, p a d) (elems t) with
  | [] => __tbl_find_detach t d (pure_crit p) = Ret (None, t)
  | e :: es => exists t', __tbl_find_detach t d (pure_crit p) = Ret (Some e, t')
      /\ tbl_wf t' /\ max_len t' = max_len t /\ locked t' = locked t
      /\ hits (λ a, p a d) (elems t') = es /\ misses (λ a, p a d) (elems t') = misses (λ a, p a d) (elems t)
      /\ S (length (elems t')) = length (elems t)
  end.
Proof.
  intros (Hl & Hm & Hx). unfold __tbl_find_detach. rewrite find_elem_pure. simpl.
  destruct (find_pos (λ a, p a d) (elems t)) as [[i e]|] eqn:E.
  - pose proof (find_pos_remove_len _ _ _ _ E) as Hrl.
    apply find_pos_Some in E as (Hc & He & Hf & Hr & _). simpl in He.
    assert (Hh : hits (λ a, p a d) (take i (elems t)) = []).
    { clear -Hf. induction Hf as [|x l Hx _ IH]; [done|]. rewrite filter_cons. simpl in *. by rewrite Hx. }
    assert (hits (λ a, p a d) (elems t) = e :: hits (λ a, p a d) (drop (S i) (elems t))) as ->.
    { rewrite Hc at 1. rewrite filter_app, Hh, filter_cons, He. done. }
    assert (misses (λ a, p a d) (elems t)
            = misses (λ a, p a d) (take i (elems t)) ++ misses (λ a, p a d) (drop (S i) (elems t))) as ->.
    { rewrite Hc at 1. rewrite filter_app, filter_cons, He. done. }
    pose proof (zlen_nonneg (remove_at i (elems t))). eexists. split; [done|].
    unfold tbl_wf. simpl. rewrite Hr in *. rewrite u32_small by lia.
    split_and!; try done; try lia.
    + by rewrite filter_app, Hh.
    + by rewrite filter_app.
    + unfold zlen in *. lia.
  - apply find_pos_None in E.
    assert (hits (λ a, p a d) (elems t) = []) as ->; [|done].
    clear -E. induction E as [|x l Hx _ IH]; [done|]. rewrite filter_cons. simpl in *. by rewrite Hx.
Qed.

Lemma misses_all {A} (p : A -> bool) l : hits p l = [] -> misses p l = l.
Proof.
  induction l as [|x l IH]; [done|]. rewrite !filter_cons. destruct (p x); [done|]. simpl. intros. by rewrite IH.
Qed.

Lemma hits_of_misses {A} (p : A -> bool) l : hits p (misses p l) = [].
Proof. induction l as [|x l IH]; [done|]. rewrite filter_cons. case_decide as H; [|done]. by rewrite filter_cons, H. Qed.

(** What is taken out was there, and nothing is added. *)
Lemma find_detach_sub {A D} (t : tbl A) (d : D) crit e t' :
  __tbl_find_detach t d crit = Ret (Some e, t') -> e ∈ elems t /\ elems t' `sublist_of` elems t.
Proof.
  unfold __tbl_find_detach. intros H. obind H as r E. destruct r as [[i x]|]; [|done].
  injection H as -> <-. apply find_elem_Some in E as (E & Hr & _). simpl. rewrite Hr. split.
  - rewrite E. apply elem_of_app. right. left.
  - rewrite E at 3. apply sublist_app; [done|]. by constructor.
Qed.

Lemma Forall_sublist {A} (P : A -> Prop) l k : l `sublist_of` k -> Forall P k -> Forall P l.
Proof. rewrite !Forall_forall. intros Hs Hk x Hx. apply Hk. by eapply elem_of_sublist. Qed.
