(* ===== verification/Keep.v ===== *)
(** * What an operation keeps of a table

    [tkept t t']: whatever the criteria and functions do, an operation leaves a
    table well formed, with the capacity and the lock it had. *)

From S2P Require Import Prelude Tbl.

(** Cases through a run, down to its results. *)
Ltac run H :=
  repeat (cbn beta iota in H;
    lazymatch type of H with
    | Ret _ = Ret _ => injection H; clear H; intros; subst
    | Fault _ = Ret _ => discriminate H
    | (_, _) = (_, _) => injection H; clear H; intros; subst
    | mbind _ _ = Ret _ => let x := fresh "x" in let E := fresh "E" in apply bind_ret_inv in H as (x & E & H)
    | (let '(_, _) := ?m in _) = _ => let E := fresh "E" in destruct m eqn:E
    | match ?m with _ => _ end = _ => let E := fresh "E" in destruct m eqn:E
    end).

Record tkept {A} (t t' : tbl A) : Prop := {
  tk_wf : tbl_wf t -> tbl_wf t';
  tk_max : max_len t' = max_len t;
  tk_lock : locked t' = locked t
}.

#[export] Instance tkept_pre {A} : PreOrder (@tkept A).
Proof.
  split; [by split|]. intros a b c [W1 M1 L1] [W2 M2 L2]. split; [auto|congruence..].
Qed.

Lemma tkept_step {A} (t t' : tbl A) : tbl_step t t' -> max_len t' = max_len t -> locked t' = locked t -> tkept t t'.
Proof. intros Hs Hm Hl. split; [|done..]. intros Hw. by apply (tbl_step_wf t t' Hs). Qed.

Create HintDb kept.

Section Kept.
Context {A D : Type}.
Implicit Types (t : tbl A).

Lemma add_kept t l crit r t' : __tbl_add t l crit = Ret (r, t') -> tkept t t'.
Proof. intros H. apply tkept_step; [by eapply step_add|unfold __tbl_add in H; by run H..]. Qed.
Lemma add_tail_kept t l r t' : __tbl_add_tail t l = (r, t') -> tkept t t'.
Proof. intros H. apply tkept_step; [by eapply step_add_tail|unfold __tbl_add_tail in H; by run H..]. Qed.
Lemma detach_kept t p r t' : __tbl_detach t p = Ret (r, t') -> tkept t t'.
Proof. intros H. apply tkept_step; [by eapply step_detach|unfold __tbl_detach in H; by run H..]. Qed.
Lemma del_kept t p r t' : __tbl_del t p = Ret (r, t') -> tkept t t'.
Proof. unfold __tbl_del. intros H. run H; by eapply detach_kept. Qed.
Lemma find_do_kept t (d : D) f r t' d' : __tbl_find_do t d f = Ret (r, t', d') -> tkept t t'.
Proof. intros H. apply tkept_step; [by eapply step_find_do|unfold __tbl_find_do in H; by run H..]. Qed.
Lemma do_for_each_kept t (d : D) f r t' d' : __tbl_do_for_each t d f = Ret (r, t', d') -> tkept t t'.
Proof. intros H. apply tkept_step; [by eapply step_do_for_each|unfold __tbl_do_for_each in H; by run H..]. Qed.
Lemma find_detach_kept t (d : D) crit r t' : __tbl_find_detach t d crit = Ret (r, t') -> tkept t t'.
Proof. intros H. apply tkept_step; [by eapply step_find_detach|unfold __tbl_find_detach in H; by run H..]. Qed.
Lemma detach_first_kept t r t' : __tbl_detach_first t = (r, t') -> tkept t t'.
Proof. intros H. apply tkept_step; [by eapply step_detach_first|unfold __tbl_detach_first in H; by run H..]. Qed.
Lemma for_each_del_kept t (d : D) crit n t' d' : __tbl_for_each_del t d crit = Ret (n, t', d') -> tkept t t'.
Proof. intros H. apply tkept_step; [by eapply step_for_each_del|unfold __tbl_for_each_del in H; by run H..]. Qed.
Lemma flush_kept t f (d : D) t' d' : __tbl_flush t f d = (t', d') -> tkept t t'.
Proof. intros H. apply tkept_step; [by eapply step_flush|unfold __tbl_flush in H; by run H..]. Qed.

(** Between taking the lock and releasing it. *)
Lemma locked_kept t t1 t2 : write_lock_bh t = Ret t1 -> tkept t1 t2 -> tkept t (write_unlock_bh t2).
Proof.
  unfold write_lock_bh. intros H [W M L]. run H. split; simpl in *; [|done|done].
  intros (?&?&?). by apply W.
Qed.
End Kept.
#[export] Hint Resolve add_kept add_tail_kept detach_kept del_kept find_do_kept do_for_each_kept find_detach_kept
  detach_first_kept for_each_del_kept flush_kept : kept.

Section LockKept.
Context {A D : Type}.
Implicit Types (t : tbl A).

Ltac under_lock := intros H; run H; eapply locked_kept; eauto with kept.

Lemma tbl_add_kept t l crit r t' : tbl_add t l crit = Ret (r, t') -> tkept t t'.
Proof. unfold tbl_add. under_lock. Qed.
Lemma tbl_add_tail_kept t l r t' : tbl_add_tail t l = Ret (r, t') -> tkept t t'.
Proof. unfold tbl_add_tail. under_lock. Qed.
Lemma tbl_find_do_kept t (d : D) f r t' d' : tbl_find_do t d f = Ret (r, t', d') -> tkept t t'.
Proof. unfold tbl_find_do. under_lock. Qed.
Lemma tbl_detach_kept t p r t' : tbl_detach t p = Ret (r, t') -> tkept t t'.
Proof. unfold tbl_detach. under_lock. Qed.
Lemma tbl_detach_first_kept t r t' : tbl_detach_first t = Ret (r, t') -> tkept t t'.
Proof. unfold tbl_detach_first. under_lock. Qed.
Lemma tbl_find_detach_kept t (d : D) crit r t' : tbl_find_detach t d crit = Ret (r, t') -> tkept t t'.
Proof. unfold tbl_find_detach. under_lock. Qed.
Lemma tbl_for_each_del_kept t (d : D) crit n t' d' : tbl_for_each_del t d crit = Ret (n, t', d') -> tkept t t'.
Proof. unfold tbl_for_each_del. under_lock. Qed.
End LockKept.
#[export] Hint Resolve tbl_add_kept tbl_add_tail_kept tbl_find_do_kept tbl_detach_kept tbl_detach_first_kept
  tbl_find_detach_kept tbl_for_each_del_kept : kept.

(** Follows a chain of results back to where it began: the last result is that
    of one step, the steps before it are left. *)
Ltac chain := first [reflexivity | solve [eauto 4 with kept] | etransitivity; [|solve [eauto 4 with kept]]; chain].
