(* ===== verification/ListHead.v ===== *)
(** * Linked lists (list.h)

    The circular doubly-linked lists under every table: a heap of [list_head]
    cells, one function per operation, statement by statement, and the sequence
    of entries a list stands for. *)

From S2P Require Import Prelude.

(** [struct list_head]; a list is named by the address of its head. *)
Record list_head := ListHead { lh_next : ptr; lh_prev : ptr }.
Abbreviation links := (gmap ptr list_head).

Definition NULL : ptr := 0.

(** ** Reading and writing the links *)

Definition get_next (h : links) (p : ptr) : outcome ptr := c ← deref (h !! p); Ret (lh_next c).
Definition get_prev (h : links) (p : ptr) : outcome ptr := c ← deref (h !! p); Ret (lh_prev c).
Definition put_next (p v : ptr) (h : links) : outcome links :=
  c ← deref (h !! p); Ret (<[p := ListHead v (lh_prev c)]> h).
Definition put_prev (p v : ptr) (h : links) : outcome links :=
  c ← deref (h !! p); Ret (<[p := ListHead (lh_next c) v]> h).

(** ** The operations *)

Definition INIT_LIST_HEAD (list : ptr) (h : links) : outcome links :=
  h ← put_next list list h;
  put_prev list list h.

Definition __list_add (_new prev next : ptr) (h : links) : outcome links :=
  h ← put_prev next _new h;
  h ← put_next _new next h;
  h ← put_prev _new prev h;
  put_next prev _new h.

Definition list_add (_new head : ptr) (h : links) : outcome links :=
  n ← get_next h head; __list_add _new head n h.

Definition list_add_tail (_new head : ptr) (h : links) : outcome links :=
  p ← get_prev h head; __list_add _new p head h.

Definition __list_del (prev next : ptr) (h : links) : outcome links :=
  h ← put_prev next prev h;
  put_next prev next h.

(** [__list_del(entry->prev, entry->next)] *)
Definition list_unlink (entry : ptr) (h : links) : outcome links :=
  p ← get_prev h entry; n ← get_next h entry; __list_del p n h.

Definition list_del (entry : ptr) (h : links) : outcome links :=
  h ← list_unlink entry h;
  h ← put_next entry NULL h;
  put_prev entry NULL h.

Definition list_replace (old _new : ptr) (h : links) : outcome links :=
  n ← get_next h old;
  h ← put_next _new n h;
  h ← put_prev n _new h;
  p ← get_prev h old;
  h ← put_prev _new p h;
  put_next p _new h.

Definition list_replace_init (old _new : ptr) (h : links) : outcome links :=
  h ← list_replace old _new h; INIT_LIST_HEAD old h.

Definition list_del_init (entry : ptr) (h : links) : outcome links :=
  h ← list_unlink entry h; INIT_LIST_HEAD entry h.

Definition list_move (list head : ptr) (h : links) : outcome links :=
  h ← list_unlink list h; list_add list head h.

Definition list_move_tail (list head : ptr) (h : links) : outcome links :=
  h ← list_unlink list h; list_add_tail list head h.

Definition list_is_last (list head : ptr) (h : links) : outcome bool :=
  n ← get_next h list; Ret (n =? head).

Definition list_empty (head : ptr) (h : links) : outcome bool :=
  n ← get_next h head; Ret (n =? head).

Definition list_empty_careful (head : ptr) (h : links) : outcome bool :=
  next ← get_next h head;
  if next =? head then p ← get_prev h head; Ret (next =? p) else Ret false.

Definition list_is_singular (head : ptr) (h : links) : outcome bool :=
  e ← list_empty head h;
  if (e : bool) then Ret false
  else n ← get_next h head; p ← get_prev h head; Ret (n =? p).

Definition list_rotate_left (head : ptr) (h : links) : outcome links :=
  e ← list_empty head h;
  if (e : bool) then Ret h else first ← get_next h head; list_move_tail first head h.

Definition __list_cut_position (list head entry : ptr) (h : links) : outcome links :=
  new_first ← get_next h entry;
  first ← get_next h head;
  h ← put_next list first h;
  h ← put_prev first list h;
  h ← put_prev list entry h;
  h ← put_next entry list h;
  h ← put_next head new_first h;
  put_prev new_first head h.

Definition list_cut_position (list head entry : ptr) (h : links) : outcome links :=
  e ← list_empty head h;
  if (e : bool) then Ret h
  else
    s ← list_is_singular head h;
    n ← get_next h head;
    if (s : bool) && negb (n =? entry) && negb (head =? entry) then Ret h
    else if entry =? head then INIT_LIST_HEAD list h
    else __list_cut_position list head entry h.

Definition __list_splice (list prev next : ptr) (h : links) : outcome links :=
  first ← get_next h list;
  last ← get_prev h list;
  h ← put_prev first prev h;
  h ← put_next prev first h;
  h ← put_next last next h;
  put_prev next last h.

Definition list_splice (list head : ptr) (h : links) : outcome links :=
  e ← list_empty list h;
  if (e : bool) then Ret h else n ← get_next h head; __list_splice list head n h.

Definition list_splice_tail (list head : ptr) (h : links) : outcome links :=
  e ← list_empty list h;
  if (e : bool) then Ret h else p ← get_prev h head; __list_splice list p head h.

Definition list_splice_init (list head : ptr) (h : links) : outcome links :=
  e ← list_empty list h;
  if (e : bool) then Ret h
  else n ← get_next h head; h ← __list_splice list head n h; INIT_LIST_HEAD list h.

Definition list_splice_tail_init (list head : ptr) (h : links) : outcome links :=
  e ← list_empty list h;
  if (e : bool) then Ret h
  else p ← get_prev h head; h ← __list_splice list p head h; INIT_LIST_HEAD list h.

(** [list_for_each(pos, head)] and [list_for_each_prev(pos, head)] with a body
    that keeps the state [s] and may end the loop: it then returns the cursor. *)
Section ForEach.
Context {St : Type} (body : ptr -> St -> outcome (bool * St)).

Fixpoint for_each_from (step : links -> ptr -> outcome ptr) (fuel : nat) (pos head : ptr) (h : links) (s : St)
  : outcome (ptr * St) :=
  if pos =? head then Ret (pos, s)
  else
    match fuel with
    | O => Fault OutOfFuel
    | S fuel' =>
        '(brk, s) ← body pos s;
        if (brk : bool) then Ret (pos, s)
        else pos ← step h pos; for_each_from step fuel' pos head h s
    end.

Definition list_for_each (fuel : nat) (head : ptr) (h : links) (s : St) : outcome (ptr * St) :=
  pos ← get_next h head; for_each_from get_next fuel pos head h s.
Definition list_for_each_prev (fuel : nat) (head : ptr) (h : links) (s : St) : outcome (ptr * St) :=
  pos ← get_prev h head; for_each_from get_prev fuel pos head h s.
End ForEach.

(** [list_for_each_safe(pos, n, head)]: the body may take the entry away, the
    next one was read before. *)
Section ForEachSafe.
Context {St : Type} (body : ptr -> links -> St -> outcome (bool * links * St)).

Fixpoint for_each_safe_from (fuel : nat) (pos n head : ptr) (h : links) (s : St) : outcome (links * St) :=
  if pos =? head then Ret (h, s)
  else
    match fuel with
    | O => Fault OutOfFuel
    | S fuel' =>
        '(brk, h, s) ← body pos h s;
        if (brk : bool) then Ret (h, s)
        else n' ← get_next h n; for_each_safe_from fuel' n n' head h s
    end.

Definition list_for_each_safe (fuel : nat) (head : ptr) (h : links) (s : St) : outcome (links * St) :=
  pos ← get_next h head; n ← get_next h pos; for_each_safe_from fuel pos n head h s.
End ForEachSafe.

(** ** What a list stands for *)

Definition nx (h : links) (p : ptr) : option ptr := lh_next <$> h !! p.
Definition pv (h : links) (p : ptr) : option ptr := lh_prev <$> h !! p.

(** Consecutive cells of [l] point to each other. *)
Fixpoint chain (h : links) (l : list ptr) : Prop :=
  match l with
  | a :: l' =>
      match l' with
      | b :: _ => nx h a = Some b /\ pv h b = Some a /\ chain h l'
      | [] => True
      end
  | [] => True
  end.

(** The round of the list: its head, its entries, its head again. *)
Definition ring (head : ptr) (xs : list ptr) : list ptr := head :: xs ++ [head].

Record dlist (h : links) (head : ptr) (xs : list ptr) : Prop := {
  dl_nodup : NoDup (head :: xs);
  dl_chain : chain h (ring head xs)
}.

(** A cell that may be put on the list. *)
Definition spare (h : links) (head : ptr) (xs : list ptr) (p : ptr) : Prop :=
  is_Some (h !! p) /\ p ∉ head :: xs.

(** Nothing but the cells of [l] has changed. *)
Definition only (l : list ptr) (h h' : links) : Prop := forall q, q ∉ l -> h' !! q = h !! q.

Lemma nx_live h p q : nx h p = Some q -> is_Some (h !! p).
Proof. unfold nx. destruct (h !! p); [eauto|done]. Qed.
Lemma pv_live h p q : pv h p = Some q -> is_Some (h !! p).
Proof. unfold pv. destruct (h !! p); [eauto|done]. Qed.
Lemma get_next_Ret h p q : nx h p = Some q -> get_next h p = Ret q.
Proof. unfold nx, get_next. destruct (h !! p); [|done]. by intros [= <-]. Qed.
Lemma get_next_Ret_inv h p q : get_next h p = Ret q -> nx h p = Some q.
Proof. unfold nx, get_next. destruct (h !! p); [|done]. by intros [= <-]. Qed.
Lemma get_prev_Ret h p q : pv h p = Some q -> get_prev h p = Ret q.
Proof. unfold pv, get_prev. destruct (h !! p); [|done]. by intros [= <-]. Qed.

(** What a run of writes leaves: [f] and [g] are the links after it, the cells of
    [l] those it may have written. *)
Record wrote (h h' : links) (f g : ptr -> option ptr) (l : list ptr) : Prop := {
  wr_nx : forall q, nx h' q = f q;
  wr_pv : forall q, pv h' q = g q;
  wr_live : forall q, is_Some (h' !! q) <-> is_Some (h !! q);
  wr_only : only l h h'
}.

Lemma put_next_spec p v h :
  is_Some (h !! p) ->
  exists h', put_next p v h = Ret h'
    /\ wrote h h' (λ q, if decide (q = p) then Some v else nx h q) (pv h) [p].
Proof.
  intros [c Hc]. unfold put_next. rewrite Hc. simpl. eexists. split; [done|]. constructor.
  - intros q. unfold nx. case_decide as D; [subst; by simplify_map_eq|by rewrite lookup_insert_ne].
  - intros q. unfold pv. destruct (decide (q = p)) as [->|D]; [rewrite Hc; by simplify_map_eq|by rewrite lookup_insert_ne].
  - intros q. destruct (decide (q = p)) as [->|D]; [rewrite Hc; simplify_map_eq; split; eauto|by rewrite lookup_insert_ne].
  - intros q Hq. rewrite lookup_insert_ne; [done|set_solver].
Qed.

Lemma put_prev_spec p v h :
  is_Some (h !! p) ->
  exists h', put_prev p v h = Ret h'
    /\ wrote h h' (nx h) (λ q, if decide (q = p) then Some v else pv h q) [p].
Proof.
  intros [c Hc]. unfold put_prev. rewrite Hc. simpl. eexists. split; [done|]. constructor.
  - intros q. unfold nx. destruct (decide (q = p)) as [->|D]; [rewrite Hc; by simplify_map_eq|by rewrite lookup_insert_ne].
  - intros q. unfold pv. case_decide as D; [subst; by simplify_map_eq|by rewrite lookup_insert_ne].
  - intros q. destruct (decide (q = p)) as [->|D]; [rewrite Hc; simplify_map_eq; split; eauto|by rewrite lookup_insert_ne].
  - intros q Hq. rewrite lookup_insert_ne; [done|set_solver].
Qed.

(** Runs the next write of the goal: the cell it needs is live. *)
Ltac write_cell :=
  lazymatch goal with
  | |- context [put_next ?p ?v ?h] =>
      let h' := fresh "h" in let E := fresh "E" in let W := fresh "W" in
      destruct (put_next_spec p v h) as (h' & E & W); [|rewrite E; cbn [mbind outcome_bind]]
  | |- context [put_prev ?p ?v ?h] =>
      let h' := fresh "h" in let E := fresh "E" in let W := fresh "W" in
      destruct (put_prev_spec p v h) as (h' & E & W); [|rewrite E; cbn [mbind outcome_bind]]
  end.

(** Liveness of a cell, through the writes before. *)
Ltac live :=
  repeat match goal with
  | W : wrote _ ?h _ _ _ |- is_Some (?h !! _) => apply (wr_live _ _ _ _ _ W)
  end; eauto using nx_live, pv_live.

(** Reads the links of the last heap back to those of the first. *)
Ltac read_back :=
  repeat match goal with
  | W : wrote _ ?h _ _ _ |- context [nx ?h ?q] => rewrite (wr_nx _ _ _ _ _ W q)
  | W : wrote _ ?h _ _ _ |- context [pv ?h ?q] => rewrite (wr_pv _ _ _ _ _ W q)
  end.
Ltac wrote_tac :=
  constructor;
  [ intros ?; read_back; repeat case_decide; congruence
  | intros ?; read_back; repeat case_decide; congruence
  | intros ?; repeat match goal with W : wrote _ ?h _ _ _ |- context [is_Some (?h !! _)] => rewrite (wr_live _ _ _ _ _ W) end; done
  | intros ? ?; repeat match goal with W : wrote _ ?h _ _ _ |- context [?h !! _] => rewrite (wr_only _ _ _ _ _ W) by set_solver end; done ].
(** A straight-line run of writes. *)
Ltac writes := repeat (write_cell; [by live|]); eexists; split; [done|].

Lemma INIT_LIST_HEAD_links p h :
  is_Some (h !! p) ->
  exists h', INIT_LIST_HEAD p h = Ret h'
    /\ wrote h h' (λ q, if decide (q = p) then Some p else nx h q) (λ q, if decide (q = p) then Some p else pv h q) [p].
Proof. intros Hp. unfold INIT_LIST_HEAD. writes. wrote_tac. Qed.

Lemma list_add_links new p n h :
  is_Some (h !! new) -> is_Some (h !! p) -> is_Some (h !! n) ->
  exists h', __list_add new p n h = Ret h'
    /\ wrote h h' (λ q, if decide (q = p) then Some new else if decide (q = new) then Some n else nx h q)
                  (λ q, if decide (q = new) then Some p else if decide (q = n) then Some new else pv h q) [new; p; n].
Proof. intros Hw Hp Hn. unfold __list_add. writes. wrote_tac. Qed.

Lemma list_del_links p n h :
  is_Some (h !! p) -> is_Some (h !! n) ->
  exists h', __list_del p n h = Ret h'
    /\ wrote h h' (λ q, if decide (q = p) then Some n else nx h q) (λ q, if decide (q = n) then Some p else pv h q) [p; n].
Proof. intros Hp Hn. unfold __list_del. writes. wrote_tac. Qed.

(** ** Chains *)

Lemma chain_cons h a b l : chain h (a :: b :: l) <-> nx h a = Some b /\ pv h b = Some a /\ chain h (b :: l).
Proof. done. Qed.

Lemma chain_split h l1 m l2 : chain h (l1 ++ m :: l2) <-> chain h (l1 ++ [m]) /\ chain h (m :: l2).
Proof.
  induction l1 as [|a l1 IH]; [simpl; tauto|]. destruct l1 as [|b l1].
  - cbn [app] in *. rewrite !chain_cons. simpl. tauto.
  - cbn [app] in *. rewrite !chain_cons. tauto.
Qed.

(** A chain is read through the next links of all but its last cell and the
    previous links of all but its first. *)
Lemma chain_frame h h' l :
  (forall a, a ∈ removelast l -> nx h' a = nx h a) -> (forall b, b ∈ tl l -> pv h' b = pv h b) ->
  chain h l -> chain h' l.
Proof.
  induction l as [|a l IH]; [done|]. destruct l as [|b l]; [done|]. intros Hn Hp (Ha & Hb & Hc).
  rewrite chain_cons, Hn, Hp by (simpl; set_solver). split_and!; [done..|].
  apply IH; [intros x Hx; apply Hn; simpl in *; set_solver | intros x Hx; apply Hp; simpl in *; set_solver | done].
Qed.

Lemma chain_live h l a b q : chain h (a :: b :: l) -> q ∈ a :: b :: l -> is_Some (h !! q).
Proof.
  revert a b. induction l as [|c l IH]; intros a b (Ha & Hb & Hc) Hq.
  - set_unfold. destruct Hq as [->|[->|[]]]; [by eapply nx_live|by eapply pv_live].
  - apply elem_of_cons in Hq as [->|Hq]; [by eapply nx_live|by apply (IH b c)].
Qed.

Lemma elem_of_removelast {A} (l : list A) a : a ∈ removelast l -> a ∈ l.
Proof.
  destruct l as [|c l _] using rev_ind; [done|]. rewrite removelast_last. set_solver.
Qed.

Lemma dlist_live h head xs q : dlist h head xs -> q ∈ head :: xs -> is_Some (h !! q).
Proof.
  intros [_ Hc] Hq. unfold ring in Hc. destruct xs as [|x xs]; apply (chain_live _ _ _ _ q Hc); simpl; set_solver.
Qed.

(** The cells around a place of the ring. *)
Lemma ring_around head xs l1 p n l2 :
  ring head xs = l1 ++ p :: n :: l2 -> NoDup (head :: xs) ->
  p ∈ head :: xs /\ n ∈ head :: xs /\ (p ∉ l1) /\ (p ∉ removelast (n :: l2)) /\ (n ∉ tl (l1 ++ [p])) /\ (n ∉ l2).
Proof.
  unfold ring. intros E Hnd.
  assert (H1 : head :: xs = l1 ++ p :: removelast (n :: l2)).
  { pose proof (f_equal (@removelast ptr) E) as H. rewrite (app_comm_cons xs [head] head), removelast_last in H.
    rewrite removelast_app in H by done. by simpl in H. }
  assert (H2 : xs ++ [head] = tl (l1 ++ [p]) ++ n :: l2).
  { destruct l1 as [|a l1]; simpl in E |- *; [by injection E|]. injection E as _ E. by rewrite E, <- app_assoc. }
  assert (Hnd2 : NoDup (xs ++ [head])).
  { apply NoDup_cons in Hnd as [Hh Hx]. apply NoDup_app. split_and!; [done|set_solver|apply NoDup_singleton]. }
  rewrite H1 in Hnd. rewrite H2 in Hnd2. apply NoDup_app in Hnd as (_ & Hd1 & Hd2). apply NoDup_app in Hnd2 as (_ & Hd3 & Hd4).
  apply NoDup_cons in Hd2 as [Hd2 _]. apply NoDup_cons in Hd4 as [Hd4 _].
  split_and!; try done; [rewrite H1; set_solver| |set_solver|set_solver].
  assert (n ∈ xs ++ [head]) by (rewrite H2; set_solver). set_solver.
Qed.

(** The cells before and behind a place of the list. *)
Definition before (head : ptr) (xs : list ptr) : ptr := default head (last xs).
Definition behind (head : ptr) (ys : list ptr) : ptr := default head (list.head ys).

Lemma before_snoc head xs : exists l1, head :: xs = l1 ++ [before head xs].
Proof.
  destruct xs as [|x xs _] using rev_ind; [by exists []|]. exists (head :: xs). unfold before. by rewrite last_snoc.
Qed.

Lemma behind_cons head ys : exists l2, ys ++ [head] = behind head ys :: l2.
Proof. destruct ys; simpl; eauto. Qed.

Lemma ring_place head xs ys :
  exists l1 l2, head :: xs = l1 ++ [before head xs] /\ ys ++ [head] = behind head ys :: l2
    /\ ring head (xs ++ ys) = l1 ++ before head xs :: behind head ys :: l2.
Proof.
  destruct (before_snoc head xs) as [l1 H1], (behind_cons head ys) as [l2 H2]. exists l1, l2.
  split_and!; try done. unfold ring. rewrite <- app_assoc, app_comm_cons, H1, H2, <- app_assoc. done.
Qed.

Lemma dlist_links h head xs ys :
  dlist h head (xs ++ ys) ->
  nx h (before head xs) = Some (behind head ys) /\ pv h (behind head ys) = Some (before head xs).
Proof.
  intros [_ Hc]. destruct (ring_place head xs ys) as (l1 & l2 & _ & _ & E). rewrite E in Hc.
  apply chain_split in Hc as [_ (Hn & Hp & _)]. done.
Qed.

Lemma dlist_around h head xs ys :
  dlist h head (xs ++ ys) -> is_Some (h !! before head xs) /\ is_Some (h !! behind head ys).
Proof. intros Hd. apply dlist_links in Hd as [Hn Hp]. split; [by eapply nx_live|by eapply pv_live]. Qed.

(** The list after an operation; [l] is what the operation may have touched. *)
Record becomes (h h' : links) (head : ptr) (xs l : list ptr) : Prop := {
  be_list : dlist h' head xs;
  be_live : forall q, is_Some (h' !! q) <-> is_Some (h !! q);
  be_only : only l h h'
}.

Lemma only_mono l l' h h' : l ⊆ l' -> only l h h' -> only l' h h'.
Proof. intros Hl H q Hq. apply H. set_solver. Qed.
Lemma only_trans l h1 h2 h3 : only l h1 h2 -> only l h2 h3 -> only l h1 h3.
Proof. intros H1 H2 q Hq. rewrite H2, H1 by done. done. Qed.

(** A chain whose middle was laid anew, between [p] and [n]. *)
Lemma chain_patch h h' l1 p ms n l2 :
  chain h (l1 ++ [p]) -> chain h (n :: l2) -> chain h' (p :: ms ++ [n]) ->
  (forall a, a ∈ l1 \/ a ∈ removelast (n :: l2) -> nx h' a = nx h a) ->
  (forall b, b ∈ tl (l1 ++ [p]) \/ b ∈ l2 -> pv h' b = pv h b) ->
  chain h' (l1 ++ p :: ms ++ n :: l2).
Proof.
  intros C1 C2 Cm Hn Hp. apply chain_split. split.
  - apply (chain_frame h); [|by auto|done]. intros a Ha. rewrite removelast_last in Ha. auto.
  - rewrite app_comm_cons. apply chain_split. split; [done|].
    apply (chain_frame h); [by auto| |done]. intros b Hb. simpl in Hb. auto.
Qed.

(** The list that has its entries laid anew between [before] and [behind]. *)
Lemma dlist_patch h h' head xs ms ys :
  NoDup (head :: xs ++ ms ++ ys) ->
  (forall l1 l2, head :: xs = l1 ++ [before head xs] -> ys ++ [head] = behind head ys :: l2 ->
     chain h (l1 ++ [before head xs]) /\ chain h (behind head ys :: l2)) ->
  chain h' (before head xs :: ms ++ [behind head ys]) ->
  (forall a, a ∈ head :: xs ++ ys -> a <> before head xs -> nx h' a = nx h a) ->
  (forall b, b ∈ head :: xs ++ ys -> b <> behind head ys -> pv h' b = pv h b) ->
  dlist h' head (xs ++ ms ++ ys).
Proof.
  intros Hnd Hc Hm Hn Hp. constructor; [done|].
  destruct (ring_place head xs ys) as (l1 & l2 & H1 & H2 & Er). destruct (Hc l1 l2 H1 H2) as [C1 C2].
  assert (Hnd0 : NoDup (head :: xs ++ ys)).
  { apply (sublist_NoDup _ _ Hnd). apply sublist_skip, sublist_app; [done|]. by apply sublist_inserts_l. }
  destruct (ring_around _ _ _ _ _ _ Er Hnd0) as (Ip & In' & Np1 & Np2 & Nn1 & Nn2).
  replace (ring head (xs ++ ms ++ ys)) with (l1 ++ before head xs :: ms ++ behind head ys :: l2).
  2: { unfold ring. rewrite <- !app_assoc, (app_comm_cons xs _ head), H1, <- app_assoc. simpl. by rewrite H2. }
  apply (chain_patch h); [done..| |].
  - intros a Ha. apply Hn.
    + destruct Ha as [Ha|Ha%elem_of_removelast]; [rewrite app_comm_cons, H1; set_solver|].
      assert (a ∈ ys ++ [head]) by (rewrite H2; done). set_solver.
    + intros ->. tauto.
  - intros b Hb. apply Hp.
    + destruct Hb as [Hb|Hb].
      * assert (b ∈ head :: xs) by (rewrite H1; destruct l1; simpl in *; set_solver). set_solver.
      * assert (b ∈ ys ++ [head]) by (rewrite H2; set_solver). set_solver.
    + intros ->. tauto.
Qed.

(** The two halves of a list around a place. *)
Lemma dlist_halves h head xs ys l1 l2 :
  dlist h head (xs ++ ys) -> head :: xs = l1 ++ [before head xs] -> ys ++ [head] = behind head ys :: l2 ->
  chain h (l1 ++ [before head xs]) /\ chain h (behind head ys :: l2).
Proof.
  intros [_ Hc] H1 H2. unfold ring in Hc. rewrite <- app_assoc, app_comm_cons, H1, <- app_assoc, H2 in Hc. simpl in Hc.
  apply chain_split in Hc as [C1 (_ & _ & C2)]. done.
Qed.

Lemma insert_spec h head xs ys new :
  dlist h head (xs ++ ys) -> spare h head (xs ++ ys) new ->
  exists h', __list_add new (before head xs) (behind head ys) h = Ret h'
    /\ becomes h h' head (xs ++ new :: ys) (new :: head :: xs ++ ys).
Proof.
  intros Hd [Hl Hs]. destruct (dlist_around _ _ _ _ Hd) as [Hlp Hln].
  destruct (list_add_links new (before head xs) (behind head ys) h Hl Hlp Hln) as (h' & E & [Wn Wp Wl Wo]).
  exists h'. split; [done|].
  assert (before head xs ∈ head :: xs ++ ys /\ behind head ys ∈ head :: xs ++ ys) as [Ip In'].
  { destruct (before_snoc head xs) as [l1 H1], (behind_cons head ys) as [l2 H2]. split.
    - assert (before head xs ∈ head :: xs) by (rewrite H1; set_solver). set_solver.
    - assert (behind head ys ∈ ys ++ [head]) by (rewrite H2; set_solver). set_solver. }
  constructor; [|done|].
  - apply (dlist_patch h h' head xs [new] ys).
    + pose proof (dl_nodup _ _ _ Hd) as Hnd. simpl. rewrite <- Permutation_middle.
      apply NoDup_cons in Hnd as [? ?]. apply NoDup_cons. split; [set_solver|]. apply NoDup_cons. split; [set_solver|done].
    + intros l1 l2. by apply dlist_halves.
    + simpl. rewrite !Wn, !Wp. rewrite (decide_True _ _ eq_refl), (decide_True (P := new = new) _ _ eq_refl).
      rewrite (decide_False (P := new = before head xs)), (decide_False (P := behind head ys = new)) by set_solver.
      rewrite !(decide_True _ _ eq_refl). done.
    + intros a Ha Hne. rewrite Wn, !decide_False; [done|set_solver..].
    + intros b Hb Hne. rewrite Wp, !decide_False; [done|set_solver..].
  - apply (only_mono [new; before head xs; behind head ys]); [set_solver|done].
Qed.

(** Writes off the list do not change it. *)
Lemma dlist_only h h' l head xs :
  dlist h head xs -> only l h h' -> (forall q, q ∈ head :: xs -> q ∉ l) -> dlist h' head xs.
Proof.
  intros [Hnd Hc] Ho Hl. constructor; [done|].
  assert (Hin : forall q, q ∈ ring head xs -> h' !! q = h !! q) by (intros q Hq; apply Ho, Hl; unfold ring in Hq; set_solver).
  apply (chain_frame h); [| |done].
  - intros a Ha%elem_of_removelast. unfold nx. by rewrite Hin.
  - intros b Hb. unfold pv. rewrite Hin; [done|]. unfold ring. simpl in Hb. set_solver.
Qed.

Lemma before_last head xs x : before head (xs ++ [x]) = x.
Proof. unfold before. by rewrite last_snoc. Qed.

(** The links of an entry. *)
Lemma entry_links h head xs x ys :
  dlist h head (xs ++ x :: ys) ->
  get_prev h x = Ret (before head xs) /\ get_next h x = Ret (behind head ys).
Proof.
  intros Hd. destruct (dlist_links _ _ _ _ Hd) as [_ Hp]. rewrite (cons_middle x xs ys), app_assoc in Hd.
  destruct (dlist_links _ _ _ _ Hd) as [Hn _]. rewrite before_last in Hn.
  split; [by apply get_prev_Ret|by apply get_next_Ret].
Qed.

Lemma unlink_spec h head xs x ys :
  dlist h head (xs ++ x :: ys) ->
  exists h', list_unlink x h = Ret h' /\ becomes h h' head (xs ++ ys) (head :: xs ++ ys).
Proof.
  intros Hd. destruct (entry_links _ _ _ _ _ Hd) as [Ep En]. unfold list_unlink. rewrite Ep, En. cbn [mbind outcome_bind].
  pose proof Hd as Hd'. rewrite (cons_middle x xs ys), app_assoc in Hd'.
  destruct (dlist_around _ _ _ _ Hd) as [Hlp _], (dlist_around _ _ _ _ Hd') as [_ Hln].
  destruct (list_del_links _ _ h Hlp Hln) as (h' & E & [Wn Wp Wl Wo]). exists h'. split; [done|].
  constructor; [|done|].
  - apply (dlist_patch h h' head xs [] ys).
    + apply (sublist_NoDup _ _ (dl_nodup _ _ _ Hd)). apply sublist_skip, sublist_app; [done|]. by apply sublist_cons.
    + intros l1 l2 H1 H2. destruct (behind_cons head (x :: ys)) as [l3 H3].
      destruct (before_snoc head (xs ++ [x])) as [l4 H4].
      split; [by apply (dlist_halves _ _ _ _ l1 l3 Hd)|by apply (dlist_halves _ _ _ _ l4 l2 Hd')].
    + simpl. rewrite Wn, Wp. by rewrite !(decide_True _ _ eq_refl).
    + intros a Ha Hne. by rewrite Wn, decide_False.
    + intros b Hb Hne. by rewrite Wp, decide_False.
  - apply (only_mono [before head xs; behind head ys]); [|done].
    destruct (before_snoc head xs) as [l1 H1], (behind_cons head ys) as [l2 H2].
    assert (before head xs ∈ head :: xs) by (rewrite H1; set_solver).
    assert (behind head ys ∈ ys ++ [head]) by (rewrite H2; set_solver). set_solver.
Qed.

(** ** What the operations do *)

Lemma becomes_mono h h' head xs l l' : l ⊆ l' -> becomes h h' head xs l -> becomes h h' head xs l'.
Proof. intros Hl [H1 H2 H3]. constructor; [done..|]. by apply (only_mono l). Qed.

Lemma init_spec p h :
  is_Some (h !! p) -> exists h', INIT_LIST_HEAD p h = Ret h' /\ becomes h h' p [] [p].
Proof.
  intros Hp. destruct (INIT_LIST_HEAD_links p h Hp) as (h' & E & [Wn Wp Wl Wo]). exists h'. split; [done|].
  constructor; [constructor|done..]; [apply NoDup_singleton|]. unfold ring. simpl.
  rewrite Wn, Wp, !(decide_True _ _ eq_refl). done.
Qed.

Lemma list_add_spec h head xs new :
  dlist h head xs -> spare h head xs new ->
  exists h', list_add new head h = Ret h' /\ becomes h h' head (new :: xs) (new :: head :: xs).
Proof.
  intros Hd Hs. unfold list_add. destruct (dlist_links h head [] xs Hd) as [Hn _].
  rewrite (get_next_Ret h head (behind head xs) Hn).
  by apply (insert_spec h head [] xs).
Qed.

(** [list_add(new, pos->prev)] *)
Lemma list_add_before_spec h head xs pos ys new :
  dlist h head (xs ++ pos :: ys) -> spare h head (xs ++ pos :: ys) new ->
  exists h', (p ← get_prev h pos; list_add new p h) = Ret h'
    /\ becomes h h' head (xs ++ new :: pos :: ys) (new :: head :: xs ++ pos :: ys).
Proof.
  intros Hd Hs. destruct (dlist_links _ _ _ _ Hd) as [Hn Hp].
  rewrite (get_prev_Ret h pos _ Hp). cbn [mbind outcome_bind].
  unfold list_add. rewrite (get_next_Ret _ _ _ Hn). by apply (insert_spec h head xs (pos :: ys)).
Qed.

Lemma list_add_tail_spec h head xs new :
  dlist h head xs -> spare h head xs new ->
  exists h', list_add_tail new head h = Ret h' /\ becomes h h' head (xs ++ [new]) (new :: head :: xs).
Proof.
  intros Hd Hs. unfold list_add_tail. rewrite <- (app_nil_r xs) in Hd, Hs.
  destruct (dlist_links h head xs [] Hd) as [_ Hp].
  rewrite (get_prev_Ret h head _ Hp). cbn [mbind outcome_bind].
  destruct (insert_spec h head xs [] new Hd Hs) as (h' & E & Hb). rewrite app_nil_r in Hb. by exists h'.
Qed.

Lemma entry_notin h head xs x ys : dlist h head (xs ++ x :: ys) -> x ∉ head :: xs ++ ys.
Proof.
  intros [Hnd _]. rewrite <- Permutation_middle, Permutation_swap in Hnd. by apply NoDup_cons in Hnd as [? _].
Qed.

Lemma list_del_spec h head xs x ys :
  dlist h head (xs ++ x :: ys) ->
  exists h', list_del x h = Ret h' /\ becomes h h' head (xs ++ ys) (head :: xs ++ x :: ys)
    /\ h' !! x = Some (ListHead NULL NULL).
Proof.
  intros Hd. destruct (unlink_spec _ _ _ _ _ Hd) as (h1 & E & [Hd1 Hl1 Ho1]). unfold list_del. rewrite E. cbn [mbind outcome_bind].
  assert (Hx : is_Some (h1 !! x)) by (apply Hl1, (dlist_live _ _ _ _ Hd); set_solver).
  destruct (put_next_spec x NULL h1 Hx) as (h2 & E2 & W2). rewrite E2. cbn [mbind outcome_bind].
  destruct (put_prev_spec x NULL h2) as (h3 & E3 & W3); [by live|]. rewrite E3. exists h3. split; [done|].
  pose proof (entry_notin _ _ _ _ _ Hd) as Hxn.
  assert (Ho3 : only [x] h1 h3) by (apply (only_trans _ _ h2); [apply W2|apply W3]).
  split; [constructor|].
  - apply (dlist_only h1 h3 [x]); [done..|]. set_solver.
  - intros q. rewrite (wr_live _ _ _ _ _ W3), (wr_live _ _ _ _ _ W2). apply Hl1.
  - apply (only_trans _ _ h1); [eapply only_mono; [|exact Ho1]; set_solver|eapply only_mono; [|exact Ho3]; set_solver].
  - pose proof (wr_nx _ _ _ _ _ W3 x) as Hn. pose proof (wr_pv _ _ _ _ _ W3 x) as Hp.
    rewrite (wr_nx _ _ _ _ _ W2), (decide_True _ _ eq_refl) in Hn. cbv beta in Hp; rewrite (decide_True _ _ eq_refl) in Hp.
    unfold nx, pv in *. destruct (h3 !! x) as [[]|]; [|done]. simpl in *. congruence.
Qed.

Lemma list_del_init_spec h head xs x ys :
  dlist h head (xs ++ x :: ys) ->
  exists h', list_del_init x h = Ret h' /\ becomes h h' head (xs ++ ys) (head :: xs ++ x :: ys) /\ dlist h' x [].
Proof.
  intros Hd. destruct (unlink_spec _ _ _ _ _ Hd) as (h1 & E & [Hd1 Hl1 Ho1]). unfold list_del_init. rewrite E. cbn [mbind outcome_bind].
  destruct (init_spec x h1) as (h2 & E2 & [Hd2 Hl2 Ho2]); [apply Hl1, (dlist_live _ _ _ _ Hd); set_solver|].
  exists h2. split; [done|]. split; [|done].
  pose proof (entry_notin _ _ _ _ _ Hd) as Hxn.
  constructor.
  - apply (dlist_only h1 h2 [x]); [done..|]. set_solver.
  - intros q. rewrite Hl2. apply Hl1.
  - apply (only_trans _ _ h1); [eapply only_mono; [|exact Ho1]; set_solver|eapply only_mono; [|exact Ho2]; set_solver].
Qed.

(** A stretch that keeps its inner links, hung between [p] and [n]. *)
Lemma chain_ends h h' a zs b p n f l :
  chain h (a :: zs ++ [b]) -> list.head zs = Some f -> last zs = Some l ->
  nx h' p = Some f -> pv h' f = Some p -> nx h' l = Some n -> pv h' n = Some l ->
  (forall q, q ∈ removelast zs -> nx h' q = nx h q) -> (forall q, q ∈ tl zs -> pv h' q = pv h q) ->
  chain h' (p :: zs ++ [n]).
Proof.
  revert a p f. induction zs as [|z zs IH]; intros a p f Hc Hf Hl Hp Hpf Hnl Hpn Hn Hv; [done|].
  injection Hf as ->. cbn [app] in *. rewrite chain_cons in Hc |- *. destruct Hc as (_ & _ & Hc).
  split_and!; [done..|]. destruct zs as [|z2 zs].
  - injection Hl as ->. by cbn.
  - cbn [app] in Hc. rewrite chain_cons in Hc. destruct Hc as (Hz1 & Hz2 & Hc).
    apply (IH f f z2); [|done|by rewrite <- Hl|..].
    + cbn [app]. by rewrite chain_cons.
    + rewrite Hn; [done|]. simpl. set_solver.
    + rewrite Hv; [done|]. simpl. set_solver.
    + done.
    + done.
    + intros q Hq. apply Hn. simpl in *. set_solver.
    + intros q Hq. apply Hv. simpl in *. set_solver.
Qed.

Lemma list_splice_links list f l p n h :
  get_next h list = Ret f -> get_prev h list = Ret l -> f <> n -> p <> l ->
  is_Some (h !! f) -> is_Some (h !! l) -> is_Some (h !! p) -> is_Some (h !! n) ->
  exists h', __list_splice list p n h = Ret h'
    /\ wrote h h' (λ q, if decide (q = l) then Some n else if decide (q = p) then Some f else nx h q)
                  (λ q, if decide (q = n) then Some l else if decide (q = f) then Some p else pv h q) [f; l; p; n].
Proof. intros Hf Hl Hfn Hpl ? ? ? ?. unfold __list_splice. rewrite Hf, Hl. cbn [mbind outcome_bind]. writes. wrote_tac. Qed.

(** The first and the last entry of a list. *)
Lemma ends_of {A} (zs : list A) : zs <> [] -> exists f l, list.head zs = Some f /\ last zs = Some l /\ (f ∈ zs) /\ (l ∈ zs).
Proof.
  intros H. destruct zs as [|f zs]; [done|]. destruct (last (f :: zs)) as [l|] eqn:E; [|by apply last_None in E].
  exists f, l. split_and!; [done..|set_solver|by apply last_Some_elem_of].
Qed.

Lemma removelast_last_notin {A} (zs : list A) l : NoDup zs -> last zs = Some l -> l ∉ removelast zs.
Proof.
  intros Hnd Hl. apply last_Some in Hl as [zs' ->]. rewrite removelast_last. apply NoDup_app in Hnd as (_ & Hd & _). set_solver.
Qed.
Lemma tl_head_notin {A} (zs : list A) f : NoDup zs -> list.head zs = Some f -> f ∉ tl zs.
Proof. intros Hnd Hf. destruct zs; [done|]. injection Hf as ->. by apply NoDup_cons in Hnd as [? _]. Qed.

Lemma before_in head xs : before head xs ∈ head :: xs.
Proof. destruct (before_snoc head xs) as [l ->]. set_solver. Qed.
Lemma behind_in head ys : behind head ys ∈ head :: ys.
Proof. destruct ys; simpl; set_solver. Qed.

Lemma splice_spec h list zs head xs ys :
  dlist h list zs -> zs <> [] -> dlist h head (xs ++ ys) -> (forall q, q ∈ list :: zs -> q ∉ head :: xs ++ ys) ->
  exists h', __list_splice list (before head xs) (behind head ys) h = Ret h'
    /\ becomes h h' head (xs ++ zs ++ ys) (head :: xs ++ zs ++ ys).
Proof.
  intros Hl Hz Hd Hdis. destruct (ends_of zs Hz) as (f & l & Hf & Hla & Hfi & Hli).
  pose proof (dl_nodup _ _ _ Hl) as Hnd. apply NoDup_cons in Hnd as [Hlz Hndz].
  pose proof (before_in head xs) as Hb1. pose proof (behind_in head ys) as Hb2.
  assert (Hf1 : get_next h list = Ret f).
  { destruct (dlist_links h list [] zs Hl) as [Hn _]. unfold behind in Hn. rewrite Hf in Hn. by apply get_next_Ret. }
  assert (Hl1 : get_prev h list = Ret l).
  { pose proof Hl as Hl'. rewrite <- (app_nil_r zs) in Hl'. destruct (dlist_links h list zs [] Hl') as [_ Hn].
    unfold before in Hn. rewrite Hla in Hn. by apply get_prev_Ret. }
  assert (Hnot : forall q, q ∈ zs -> q <> before head xs /\ q <> behind head ys).
  { intros q Hq. specialize (Hdis q ltac:(set_solver)). set_solver. }
  destruct (dlist_around _ _ _ _ Hd) as [Hlp Hln].
  destruct (list_splice_links list f l (before head xs) (behind head ys) h Hf1 Hl1) as (h' & E & [Wn Wp Wl Wo]);
    [by apply Hnot|intros D; destruct (Hnot l Hli); congruence|apply (dlist_live _ _ _ _ Hl); set_solver..|done|done|].
  exists h'. split; [done|]. constructor; [|done|].
  - apply (dlist_patch h).
    + rewrite (Permutation_app_swap_app xs zs ys), Permutation_middle. apply NoDup_app. split_and!; [done| |by destruct Hd].
      intros q Hq. apply Hdis. set_solver.
    + intros l1 l2. by apply dlist_halves.
    + apply (chain_ends h h' list zs list _ _ f l (dl_chain _ _ _ Hl) Hf Hla).
      * rewrite Wn, decide_False, decide_True; [done..|]. intros D. destruct (Hnot l Hli); congruence.
      * rewrite Wp, decide_False, decide_True; [done..|]. by apply Hnot.
      * by rewrite Wn, decide_True.
      * by rewrite Wp, decide_True.
      * intros q Hq. pose proof (removelast_last_notin _ _ Hndz Hla). apply elem_of_removelast in Hq as Hq'.
        destruct (Hnot q Hq'). rewrite Wn, !decide_False; [done|done|]. by intros ->.
      * intros q Hq. pose proof (tl_head_notin _ _ Hndz Hf). assert (q ∈ zs) as Hq' by (destruct zs; simpl in *; set_solver).
        destruct (Hnot q Hq'). rewrite Wp, !decide_False; [done|by intros ->|done].
    + intros a Ha Hne. rewrite Wn, !decide_False; [done|done|]. intros ->. by apply (Hdis l); [set_solver|].
    + intros b Hb Hne. rewrite Wp, !decide_False; [done| |done]. intros ->. by apply (Hdis f); [set_solver|].
  - apply (only_mono [f; l; before head xs; behind head ys]); [|done]. set_solver.
Qed.

Lemma list_empty_spec h head xs : dlist h head xs -> list_empty head h = Ret (bool_decide (xs = [])).
Proof.
  intros Hd. destruct (dlist_links h head [] xs Hd) as [Hn _]. unfold list_empty.
  rewrite (get_next_Ret h head _ Hn). cbn [mbind outcome_bind]. f_equal. destruct xs as [|x xs].
  - unfold behind. simpl. by rewrite Z.eqb_refl.
  - rewrite bool_decide_false by done. apply Z.eqb_neq. cbn. intros ->.
    destruct Hd as [Hnd _]. apply NoDup_cons in Hnd as [Hnd _]. set_solver.
Qed.

(** The first and the last entry as the head shows them. *)
Lemma head_links h head xs :
  dlist h head xs -> get_next h head = Ret (behind head xs) /\ get_prev h head = Ret (before head xs).
Proof.
  intros Hd. destruct (dlist_links h head [] xs Hd) as [Hn _].
  rewrite <- (app_nil_r xs) in Hd. destruct (dlist_links h head xs [] Hd) as [_ Hp].
  split; [by apply get_next_Ret|by apply get_prev_Ret].
Qed.

Lemma list_is_singular_spec h head xs : dlist h head xs -> list_is_singular head h = Ret (bool_decide (length xs = 1%nat)).
Proof.
  intros Hd. destruct (head_links _ _ _ Hd) as [Hn Hp]. unfold list_is_singular.
  rewrite (list_empty_spec _ _ _ Hd), Hn, Hp. cbn [mbind outcome_bind].
  destruct xs as [|x xs]; [done|]. rewrite bool_decide_false by done. cbn [mbind outcome_bind]. f_equal.
  destruct xs as [|y xs _] using rev_ind; [by apply Z.eqb_refl|].
  rewrite bool_decide_false by (simpl; rewrite length_app; simpl; lia). apply Z.eqb_neq.
  unfold before, behind. rewrite (app_comm_cons xs [y] x), last_snoc. simpl. intros ->.
  destruct Hd as [Hnd _]. apply NoDup_cons in Hnd as [_ Hnd]. apply NoDup_cons in Hnd as [Hnd _]. set_solver.
Qed.

Lemma list_is_last_spec h head xs x ys :
  dlist h head (xs ++ x :: ys) -> list_is_last x head h = Ret (bool_decide (ys = [])).
Proof.
  intros Hd. unfold list_is_last. destruct (entry_links _ _ _ _ _ Hd) as [_ ->]. cbn [mbind outcome_bind]. f_equal.
  destruct ys as [|y ys]; [apply Z.eqb_refl|]. rewrite bool_decide_false by done. apply Z.eqb_neq. cbn. intros ->.
  destruct Hd as [Hnd _]. apply NoDup_cons in Hnd as [Hnd _]. set_solver.
Qed.

(** The first entry to the end. *)
Lemma list_rotate_left_spec h head x xs :
  dlist h head (x :: xs) ->
  exists h', list_rotate_left head h = Ret h' /\ becomes h h' head (xs ++ [x]) (x :: head :: xs).
Proof.
  intros Hd. unfold list_rotate_left. rewrite (list_empty_spec _ _ _ Hd), bool_decide_false by done. cbn [mbind outcome_bind].
  destruct (head_links _ _ _ Hd) as [-> _]. cbn [mbind outcome_bind]. change (behind head (x :: xs)) with x.
  unfold list_move_tail. destruct (unlink_spec h head [] x xs Hd) as (h1 & -> & [Hd1 Hl1 Ho1]). cbn [mbind outcome_bind].
  pose proof (entry_notin h head [] x xs Hd) as Hx.
  destruct (list_add_tail_spec h1 head xs x Hd1) as (h2 & E2 & [Hd2 Hl2 Ho2]).
  { split; [|done]. apply Hl1, (dlist_live _ _ _ _ Hd). set_solver. }
  exists h2. split; [done|]. constructor; [done| |].
  - intros q. rewrite Hl2. apply Hl1.
  - apply (only_trans _ _ h1); [|done]. eapply only_mono; [|exact Ho1]. set_solver.
Qed.

Lemma list_replace_links new old p n h :
  nx h old = Some n -> pv h old = Some p -> old <> n -> new <> old ->
  is_Some (h !! new) -> is_Some (h !! p) -> is_Some (h !! n) ->
  exists h', list_replace old new h = Ret h'
    /\ wrote h h' (λ q, if decide (q = p) then Some new else if decide (q = new) then Some n else nx h q)
                  (λ q, if decide (q = new) then Some p else if decide (q = n) then Some new else pv h q) [new; p; n].
Proof.
  intros Hn Hp Hon Hno Hl1 Hl2 Hl3. unfold list_replace. rewrite (get_next_Ret _ _ _ Hn). cbn [mbind outcome_bind].
  write_cell; [by live|]. write_cell; [by live|].
  assert (Hp2 : pv h1 old = Some p) by (read_back; by rewrite !decide_False).
  rewrite (get_prev_Ret _ _ _ Hp2). cbn [mbind outcome_bind]. writes. wrote_tac.
Qed.

Lemma list_replace_spec h head xs old ys new :
  dlist h head (xs ++ old :: ys) -> spare h head (xs ++ old :: ys) new ->
  exists h', list_replace old new h = Ret h'
    /\ becomes h h' head (xs ++ new :: ys) (new :: head :: xs ++ ys).
Proof.
  intros Hd [Hl Hs]. pose proof (entry_notin _ _ _ _ _ Hd) as Hx.
  destruct (dlist_links _ _ _ _ Hd) as [_ Hp]. destruct (dlist_around _ _ _ _ Hd) as [Hlp _].
  pose proof Hd as Hd'. rewrite (cons_middle old xs ys), app_assoc in Hd'.
  destruct (dlist_links _ _ _ _ Hd') as [Hn _]. destruct (dlist_around _ _ _ _ Hd') as [_ Hln]. rewrite before_last in Hn.
  pose proof (before_in head xs) as Hb1. pose proof (behind_in head ys) as Hb2.
  destruct (list_replace_links new old (before head xs) (behind head ys) h) as (h' & E & [Wn Wp Wl Wo]); try done; [set_solver..|].
  exists h'. split; [done|]. constructor; [|done|].
  - apply (dlist_patch h h' head xs [new] ys).
    + pose proof (dl_nodup _ _ _ Hd) as Hnd. rewrite <- Permutation_middle, Permutation_swap in Hnd.
      apply NoDup_cons in Hnd as [_ Hnd]. simpl. rewrite <- Permutation_middle, Permutation_swap.
      apply NoDup_cons. split; [set_solver|done].
    + intros l1 l2 H1 H2. destruct (behind_cons head (old :: ys)) as [l3 H3].
      destruct (before_snoc head (xs ++ [old])) as [l4 H4].
      split; [by apply (dlist_halves _ _ _ _ l1 l3 Hd)|by apply (dlist_halves _ _ _ _ l4 l2 Hd')].
    + cbn [app]. rewrite !chain_cons. rewrite !Wn, !Wp.
      rewrite (decide_True (P := before head xs = before head xs) _ _ eq_refl), (decide_True (P := new = new) _ _ eq_refl).
      rewrite (decide_False (P := new = before head xs)), (decide_False (P := behind head ys = new)) by set_solver.
      by rewrite !(decide_True _ _ eq_refl).
    + intros a Ha Hne. rewrite Wn, !decide_False; [done|set_solver..].
    + intros b Hb Hne. rewrite Wp, !decide_False; [done|set_solver..].
  - apply (only_mono [new; before head xs; behind head ys]); [set_solver|done].
Qed.

Lemma list_cut_links list head e f nf h :
  get_next h e = Ret nf -> get_next h head = Ret f ->
  is_Some (h !! list) -> is_Some (h !! head) -> is_Some (h !! e) -> is_Some (h !! f) -> is_Some (h !! nf) ->
  exists h', __list_cut_position list head e h = Ret h'
    /\ wrote h h'
         (λ q, if decide (q = head) then Some nf else if decide (q = e) then Some list else if decide (q = list) then Some f else nx h q)
         (λ q, if decide (q = nf) then Some head else if decide (q = list) then Some e else if decide (q = f) then Some list else pv h q)
         [list; head; e; f; nf].
Proof.
  intros Hn Hf ? ? ? ? ?. unfold __list_cut_position. rewrite Hn, Hf. cbn [mbind outcome_bind]. writes. wrote_tac.
Qed.

(** A whole list read as a stretch, laid anew behind another head. *)
Lemma dlist_stretch h h' a zs b p f l :
  chain h (a :: zs ++ [b]) -> NoDup zs -> (p ∉ zs) -> list.head zs = Some f -> last zs = Some l ->
  nx h' p = Some f -> pv h' f = Some p -> nx h' l = Some p -> pv h' p = Some l ->
  (forall q, q ∈ zs -> q <> l -> nx h' q = nx h q) -> (forall q, q ∈ zs -> q <> f -> pv h' q = pv h q) ->
  dlist h' p zs.
Proof.
  intros Hc Hnd Hp Hf Hl H1 H2 H3 H4 Hn Hv. constructor; [by apply NoDup_cons|].
  apply (chain_ends h h' a zs b p p f l); try done; intros q Hq.
  - apply Hn; [by apply elem_of_removelast|]. intros ->. by apply (removelast_last_notin zs l).
  - apply Hv; [destruct zs; simpl in *; set_solver|]. intros ->. by apply (tl_head_notin zs f).
Qed.

Lemma list_cut_spec h list head xs e ys :
  dlist h head (xs ++ e :: ys) -> spare h head (xs ++ e :: ys) list ->
  exists h', list_cut_position list head e h = Ret h'
    /\ dlist h' list (xs ++ [e]) /\ dlist h' head ys /\ only (list :: head :: xs ++ e :: ys) h h'.
Proof.
  intros Hd [Hll Hs]. pose proof Hd as Hd'. rewrite (cons_middle e xs ys), app_assoc in Hd'.
  destruct (head_links _ _ _ Hd) as [Hf _]. destruct (entry_links _ _ _ _ _ Hd) as [_ Hn].
  pose proof (dl_nodup _ _ _ Hd) as Hnd. rewrite NoDup_cons, (cons_middle e xs ys), app_assoc in Hnd. destruct Hnd as [Hh Hnd].
  apply NoDup_app in Hnd as (Hn1 & Hdis & Hn2).
  assert (Hfe : exists f, list.head (xs ++ [e]) = Some f /\ behind head (xs ++ e :: ys) = f /\ f ∈ xs ++ [e]).
  { destruct xs as [|x xs]; [exists e|exists x]; (split_and!; [done|done|set_solver]). }
  destruct Hfe as (f & Hf1 & Hf2 & Hf3). rewrite Hf2 in Hf.
  unfold list_cut_position. rewrite (list_empty_spec _ _ _ Hd), bool_decide_false by (by destruct xs). cbn [mbind outcome_bind].
  rewrite (list_is_singular_spec _ _ _ Hd), Hf. cbn [mbind outcome_bind].
  assert (bool_decide (length (xs ++ e :: ys) = 1%nat) && negb (f =? e) && negb (head =? e) = false) as ->.
  { case_bool_decide as D; [|done]. rewrite length_app in D. simpl in D. destruct xs; [|simpl in D; lia].
    injection Hf1 as ->. by rewrite Z.eqb_refl. }
  assert (e =? head = false) as -> by (apply Z.eqb_neq; set_solver).
  pose proof (behind_in head ys) as Hb.
  destruct (list_cut_links list head e f (behind head ys) h Hn Hf) as (h' & E & [Wn Wp Wl Wo]); [done|..].
  1-4: apply (dlist_live _ _ _ _ Hd); set_solver.
  exists h'. split; [done|]. destruct Hd as [_ Hc]. unfold ring in Hc.
  assert (Hc' : chain h ((head :: xs) ++ e :: (ys ++ [head]))) by (simpl; by rewrite <- app_assoc in Hc).
  apply chain_split in Hc' as [_ C2].
  assert (C1 : chain h (head :: (xs ++ [e]) ++ [behind head ys])).
  { destruct (behind_cons head ys) as [l2 H2].
    assert (H : (xs ++ e :: ys) ++ [head] = (xs ++ [e]) ++ behind head ys :: l2) by (rewrite <- H2; by rewrite <- !app_assoc).
    rewrite H, app_comm_cons in Hc. by apply chain_split in Hc as [Hc _]. }
  rewrite elem_of_app in Hh.
  assert (Hel : (list <> head) /\ (list ∉ xs ++ [e]) /\ (list ∉ ys)) by (clear -Hs; set_solver).
  destruct Hel as (Hl1 & Hl2 & Hl3).
  assert (Hx : forall q, q ∈ xs ++ [e] -> q <> head /\ q <> list /\ q <> behind head ys).
  { intros q Hq. split_and!; [by intros ->; tauto|by intros ->|]. intros ->.
    apply elem_of_cons in Hb as [Hb|Hb]; [rewrite Hb in Hq; tauto|by apply (Hdis _ Hq)]. }
  assert (Hy : forall q, q ∈ ys -> q <> head /\ q <> list /\ q <> e /\ q <> f).
  { intros q Hq. split_and!; [by intros ->; tauto|by intros ->|intros ->|intros ->].
    - apply (Hdis e); [set_solver|done]. - by apply (Hdis f). }
  destruct (Hx e ltac:(set_solver)) as (He1 & He2 & He3). destruct (Hx f Hf3) as (Hf4 & Hf5 & Hf6).
  assert (Hlb : list <> behind head ys) by (intros D; rewrite <- D in Hb; apply elem_of_cons in Hb as [?|?]; tauto).
  split_and!.
  - apply (dlist_stretch h h' head _ (behind head ys) list f e C1); try done; [by rewrite last_snoc|..].
    + by rewrite Wn, 2!decide_False, decide_True.
    + by rewrite Wp, 2!decide_False, decide_True.
    + by rewrite Wn, decide_False, decide_True.
    + by rewrite Wp, decide_False, decide_True.
    + intros q Hq Hne. destruct (Hx q Hq) as (? & ? & ?). by rewrite Wn, !decide_False.
    + intros q Hq Hne. destruct (Hx q Hq) as (? & ? & ?). by rewrite Wp, !decide_False.
  - destruct ys as [|y ys].
    { constructor; [apply NoDup_singleton|]. unfold ring. cbn. rewrite Wn, Wp. cbn. by rewrite !(decide_True _ _ eq_refl). }
    destruct (ends_of (y :: ys)) as (f' & l & Hf' & Hl' & _ & Hli); [done|]. injection Hf' as <-.
    assert (Hlast : nx h l = Some head /\ pv h head = Some l).
    { apply last_Some in Hl' as [zs Hzs]. rewrite Hzs, <- app_assoc, app_comm_cons in C2.
      apply chain_split in C2 as [_ (H1 & H2 & _)]. done. }
    destruct Hlast as [Hln Hlp]. destruct (Hy l Hli) as (? & ? & ? & ?). destruct (Hy y ltac:(set_solver)) as (Hyh & ? & ? & ?).
    assert (Hhb : head <> behind head (y :: ys)) by (intros D; by apply Hyh).
    apply (dlist_stretch h h' e _ head head y l C2); try done; [tauto|..].
    + by rewrite Wn, decide_True.
    + by rewrite Wp, decide_True.
    + by rewrite Wn, !decide_False.
    + by rewrite Wp, !decide_False.
    + intros q Hq Hne. destruct (Hy q Hq) as (? & ? & ? & ?). by rewrite Wn, !decide_False.
    + intros q Hq Hne. destruct (Hy q Hq) as (? & ? & ? & ?). by rewrite Wp, !decide_False.
  - apply (only_mono [list; head; e; f; behind head ys]); [|done]. set_solver.
Qed.

Lemma list_splice_spec h list zs head xs :
  dlist h list zs -> zs <> [] -> dlist h head xs -> (forall q, q ∈ list :: zs -> q ∉ head :: xs) ->
  exists h', list_splice list head h = Ret h' /\ becomes h h' head (zs ++ xs) (head :: zs ++ xs).
Proof.
  intros Hl Hz Hd Hdis. unfold list_splice. rewrite (list_empty_spec _ _ _ Hl), bool_decide_false by done. cbn [mbind outcome_bind].
  destruct (head_links _ _ _ Hd) as [-> _]. by apply (splice_spec h list zs head [] xs).
Qed.


(** The list 1 with the entries 2 and 3, and a cell 4. *)
Definition small_list : links :=
  <[1 := ListHead 2 3]> (<[2 := ListHead 3 1]> (<[3 := ListHead 1 2]> (<[4 := ListHead 0 0]> ∅))).

Lemma small_list_ok : dlist small_list 1 [2; 3] /\ spare small_list 1 [2; 3] 4.
Proof.
  split; [constructor|split].
  - apply (bool_decide_unpack _). by vm_compute.
  - by vm_compute.
  - by eexists.
  - apply (bool_decide_unpack _). by vm_compute.
Qed.


(** [list_splice] undoes [list_cut_position]: cutting a list behind any of its
    entries gives two lists that hold the entries up to it and those after it,
    and splicing the first back in front gives the list there was. *)
Theorem list_cut_splice h list head xs e ys :
  dlist h head (xs ++ e :: ys) -> spare h head (xs ++ e :: ys) list ->
  exists h1 h2, list_cut_position list head e h = Ret h1
    /\ dlist h1 list (xs ++ [e]) /\ dlist h1 head ys
    /\ list_splice list head h1 = Ret h2 /\ dlist h2 head (xs ++ e :: ys)
    /\ forall q, q ∉ list :: head :: xs ++ e :: ys -> h2 !! q = h !! q.
Proof.
  intros Hd Hs. destruct (list_cut_spec h list head xs e ys Hd Hs) as (h1 & E1 & Hl & Hh & Ho).
  destruct (list_splice_spec h1 list (xs ++ [e]) head ys Hl ltac:(by destruct xs) Hh) as (h2 & E2 & [Hd2 _ Ho2]).
  { pose proof (dl_nodup _ _ _ Hd) as Hnd. rewrite NoDup_cons, (cons_middle e xs ys), app_assoc, NoDup_app in Hnd.
    destruct Hnd as (Hnh & _ & Hdis & _), Hs as [_ Hs]. intros q [->|Hq]%elem_of_cons; [clear -Hs; set_solver|].
    intros [->|Hq']%elem_of_cons; [|by apply (Hdis q)]. rewrite elem_of_app in Hnh. tauto. }
  exists h1, h2. rewrite <- app_assoc in Hd2. split_and!; try done. intros q Hq.
  rewrite Ho2, Ho; [done..|]. rewrite <- app_assoc. simpl. set_solver.
Qed.

Lemma list_cut_splice_witness :
  exists h1 h2, list_cut_position 4 1 2 small_list = Ret h1 /\ dlist h1 4 [2] /\ dlist h1 1 [3]
    /\ list_splice 4 1 h1 = Ret h2 /\ dlist h2 1 [2; 3].
Proof.
  destruct small_list_ok as [Hd Hs].
  destruct (list_cut_splice small_list 4 1 [] 2 [3] Hd Hs) as (h1 & h2 & H1 & H2 & H3 & H4 & H5 & _).
  exists h1, h2. by split_and!.
Defined.
