(* ===== verification/PtrTbl.v ===== *)
(** * Tables on linked lists (tbl.h over list.h)

    The operations of tbl.h as they run on the links, and that they implement the
    tables of sequences the rest of the development works with. *)

From S2P Require Import Prelude Tbl ListHead.

(** [struct tbl]: the list is named by the address of its head. *)
Record ptbl := PTbl { p_head : ptr; p_len : Z; p_max_len : Z; p_locked : bool }.

Definition set_p_len (t : ptbl) (n : Z) : ptbl := PTbl (p_head t) n (p_max_len t) (p_locked t).

(** ** The operations *)

Definition kfree (p : ptr) (h : links) : links := delete p h.

Definition PTBL_FIRST (t : ptbl) (h : links) : outcome ptr := get_next h (p_head t).
Definition PTBL_EMPTY (t : ptbl) (h : links) : outcome bool := f ← PTBL_FIRST t h; Ret (f =? p_head t).

(** A criterion as the body of a loop that it ends. *)
Definition until {D} (crit : criteria_t ptr D) (d : D) : ptr -> unit -> outcome (bool * unit) :=
  fun pos s => b ← crit pos d; Ret (b, s).

Definition p_tbl_add (t : ptbl) (l : ptr) (crit : criteria_t ptr ptr) (h : links) : outcome (Z * ptbl * links) :=
  if p_len t >=? p_max_len t then Ret (- ENOSPC, t, h)
  else
    e ← list_empty (p_head t) h;
    h ← (if (e : bool) then list_add l (p_head t) h
         else
           '(pos, _) ← list_for_each (until crit l) (size h) (p_head t) h tt;
           p ← get_prev h pos; list_add l p h);
    let n := u32 (p_len t + 1) in
    Ret (s32 n, set_p_len t n, h).

Definition p_tbl_add_tail (t : ptbl) (l : ptr) (h : links) : outcome (Z * ptbl * links) :=
  if p_len t >=? p_max_len t then Ret (- ENOSPC, t, h)
  else
    h ← list_add_tail l (p_head t) h;
    let n := u32 (p_len t + 1) in
    Ret (s32 n, set_p_len t n, h).

Definition p_tbl_find {D} (t : ptbl) (id : D) (crit : criteria_t ptr D) (h : links) : outcome (option ptr) :=
  '(pos, _) ← list_for_each (until crit id) (size h) (p_head t) h tt;
  Ret (if pos =? p_head t then None else Some pos).

Definition p_tbl_detach (t : ptbl) (l : ptr) (h : links) : outcome (option ptr * ptbl * links) :=
  e ← PTBL_EMPTY t h;
  if (e : bool) then Ret (None, t, h)
  else h ← list_del l h; Ret (Some l, set_p_len t (u32 (p_len t - 1)), h).

Definition p_tbl_detach_first (t : ptbl) (h : links) : outcome (option ptr * ptbl * links) :=
  e ← PTBL_EMPTY t h;
  if (e : bool) then Ret (None, t, h)
  else e ← PTBL_FIRST t h; h ← list_del e h; Ret (Some e, set_p_len t (u32 (p_len t - 1)), h).

Definition p_tbl_find_detach {D} (t : ptbl) (id : D) (crit : criteria_t ptr D) (h : links)
  : outcome (option ptr * ptbl * links) :=
  e ← p_tbl_find t id crit h;
  match e with
  | None => Ret (None, t, h)
  | Some e => h ← list_del e h; Ret (Some e, set_p_len t (u32 (p_len t - 1)), h)
  end.

(** The body of [__tbl_for_each_del]; its state is [n], [t->len] and the query. *)
Definition del_body {D} (crit : del_crit_t ptr D) (pos : ptr) (h : links) (s : Z * Z * D)
  : outcome (bool * links * (Z * Z * D)) :=
  let '(n, ln, id) := s in
  '(b, id) ← crit pos id;
  if (b : bool) then h ← list_del pos h; Ret (false, kfree pos h, (s32 (n + 1), u32 (ln - 1), id))
  else Ret (false, h, (n, ln, id)).

Definition p_tbl_for_each_del {D} (t : ptbl) (id : D) (crit : del_crit_t ptr D) (h : links)
  : outcome (Z * ptbl * links * D) :=
  '(h, (n, ln, id)) ← list_for_each_safe (del_body crit) (size h) (p_head t) h (0, p_len t, id);
  Ret (n, set_p_len t ln, h, id).

(** The body of [__tbl_flush]. *)
Definition flush_body {D} (at_flush : option (ptr -> D -> D)) (pos : ptr) (h : links) (s : Z * D)
  : outcome (bool * links * (Z * D)) :=
  h ← list_del pos h;
  let d := match at_flush with None => s.2 | Some f => f pos s.2 end in
  Ret (false, kfree pos h, (u32 (s.1 - 1), d)).

Definition p_tbl_flush {D} (t : ptbl) (at_flush : option (ptr -> D -> D)) (d : D) (h : links)
  : outcome (ptbl * links * D) :=
  '(h, (ln, d)) ← list_for_each_safe (flush_body at_flush) (size h) (p_head t) h (p_len t, d);
  Ret (set_p_len t ln, h, d).

(** ** Walking a list *)

Section Walk.
Context {St : Type} (body : ptr -> St -> outcome (bool * St)).

Fixpoint walk (xs : list ptr) (s : St) : outcome (option ptr * St) :=
  match xs with
  | [] => Ret (None, s)
  | x :: xs' => '(b, s) ← body x s; if (b : bool) then Ret (Some x, s) else walk xs' s
  end.

Lemma for_each_walk h head xs ys fuel s :
  dlist h head (xs ++ ys) -> (length ys <= fuel)%nat ->
  for_each_from body get_next fuel (behind head ys) head h s = ('(r, s) ← walk ys s; Ret (default head r, s)).
Proof.
  revert xs fuel s. induction ys as [|y ys IH]; intros xs fuel s Hd Hf.
  - destruct fuel; simpl; by rewrite Z.eqb_refl.
  - destruct fuel as [|fuel]; [simpl in Hf; lia|]. change (behind head (y :: ys)) with y. cbn [for_each_from walk].
    assert (y =? head = false) as ->.
    { apply Z.eqb_neq. intros ->. destruct Hd as [Hnd _]. apply NoDup_cons in Hnd as [Hnd _]. set_solver. }
    destruct (body y s) as [[b s']|f]; [|done]. cbn [mbind outcome_bind]. destruct b; [done|].
    destruct (entry_links _ _ _ _ _ Hd) as [_ ->]. cbn [mbind outcome_bind].
    rewrite (cons_middle y xs ys), app_assoc in Hd. apply (IH (xs ++ [y])); [done|]. simpl in Hf. lia.
Qed.

Lemma list_for_each_walk h head xs fuel s :
  dlist h head xs -> (length xs <= fuel)%nat ->
  list_for_each body fuel head h s = ('(r, s) ← walk xs s; Ret (default head r, s)).
Proof.
  intros Hd Hf. unfold list_for_each. destruct (head_links _ _ _ Hd) as [-> _]. cbn [mbind outcome_bind].
  by apply (for_each_walk h head [] xs).
Qed.
End Walk.

(** A list has fewer entries than the heap has cells. *)
Lemma dlist_size h head xs : dlist h head xs -> (length xs <= size h)%nat.
Proof.
  intros Hd. pose proof (dl_nodup _ _ _ Hd) as Hnd.
  assert (length (head :: xs) <= size (dom h))%nat; [|rewrite size_dom in *; simpl in *; lia].
  rewrite <- (size_list_to_set (C := gset Z)) by done. apply subseteq_size. intros q Hq.
  apply elem_of_list_to_set in Hq. by apply elem_of_dom, (dlist_live _ _ _ _ Hd).
Qed.

(** ** The refinement *)

(** [t] is the table the links stand for. *)
Record implements (h : links) (c : ptbl) (t : tbl ptr) : Prop := {
  im_list : dlist h (p_head c) (elems t);
  im_len : p_len c = len t;
  im_max : p_max_len c = max_len t;
  im_lock : p_locked c = locked t
}.

Lemma implements_set h h' c t xs n :
  implements h c t -> dlist h' (p_head c) xs -> implements h' (set_p_len c n) (set_elems t xs n).
Proof. intros [H1 H2 H3 H4] Hd. by constructor. Qed.

Lemma walk_until {D} (crit : criteria_t ptr D) d x xs s :
  walk (until crit d) (x :: xs) s
  = (b ← crit x d; if (b : bool) then Ret (Some x, s) else walk (until crit d) xs s).
Proof.
  cbn [walk]. change (until crit d x s) with (b ← crit x d; Ret (b : bool, s)). by destruct (crit x d).
Qed.

(** What the search for a place to insert finds. *)
Lemma insert_walk crit l xs :
  match walk (until crit l) xs tt with
  | Fault f => insert_before crit l xs = Fault f
  | Ret (None, _) => insert_before crit l xs = Ret (xs ++ [l])
  | Ret (Some x, _) => exists a b, xs = a ++ x :: b /\ insert_before crit l xs = Ret (a ++ l :: x :: b)
  end.
Proof.
  induction xs as [|x xs IH]; [done|]. rewrite walk_until. cbn [insert_before].
  destruct (crit x l) as [b|f]; [|done]. cbn [mbind outcome_bind]. destruct b.
  - by exists [], xs.
  - destruct (walk (until crit l) xs tt) as [[[y|] u]|f]; [|by rewrite IH..].
    destruct IH as (a & b & -> & ->). by exists (x :: a), b.
Qed.

(** What a search finds. *)
Lemma find_walk {D} (crit : criteria_t ptr D) id xs :
  match walk (until crit id) xs tt with
  | Fault f => find_elem crit id xs = Fault f
  | Ret (None, _) => find_elem crit id xs = Ret None
  | Ret (Some x, _) => exists a b, xs = a ++ x :: b /\ find_elem crit id xs = Ret (Some (length a, x))
  end.
Proof.
  induction xs as [|x xs IH]; [done|]. rewrite walk_until. cbn [find_elem].
  destruct (crit x id) as [b|f]; [|done]. cbn [mbind outcome_bind]. destruct b.
  - by exists [], xs.
  - destruct (walk (until crit id) xs tt) as [[[y|] u]|f]; [|by rewrite IH..].
    destruct IH as (a & b & -> & ->). by exists (x :: a), b.
Qed.

Lemma remove_at_middle {A} (a : list A) x b : remove_at (length a) (a ++ x :: b) = a ++ b.
Proof. induction a as [|y a IH]; [done|]. simpl. by rewrite IH. Qed.

Section Refine.
Context (h : links) (c : ptbl) (t : tbl ptr) (Him : implements h c t).

Lemma walk_table {St} (body : ptr -> St -> outcome (bool * St)) s :
  list_for_each body (size h) (p_head c) h s = ('(r, s) ← walk body (elems t) s; Ret (default (p_head c) r, s)).
Proof using Him. apply list_for_each_walk; [apply Him|]. apply (dlist_size h (p_head c)), Him. Qed.

Lemma p_tbl_add_refines l crit :
  spare h (p_head c) (elems t) l ->
  match __tbl_add t l crit with
  | Ret (r, t') => exists c' h', p_tbl_add c l crit h = Ret (r, c', h') /\ implements h' c' t'
  | Fault f => p_tbl_add c l crit h = Fault f
  end.
Proof using Him.
  intros Hs. pose proof Him as [Hd Hlen Hmax _]. unfold __tbl_add, p_tbl_add. rewrite Hlen, Hmax.
  destruct (len t >=? max_len t); [by exists c, h|].
  rewrite (list_empty_spec _ _ _ Hd). cbn [mbind outcome_bind]. unfold TBL_EMPTY.
  destruct (elems t) as [|x xs] eqn:Ee.
  - destruct (list_add_spec h (p_head c) [] l Hd Hs) as (h' & E & [Hd' _ _]).
    rewrite bool_decide_true, E by done. cbn [mbind outcome_bind]. eexists _, h'. split; [done|].
    by apply (implements_set h).
  - rewrite bool_decide_false by done. rewrite walk_table, Ee. pose proof (insert_walk crit l (x :: xs)) as Hw.
    destruct (walk (until crit l) (x :: xs) tt) as [[[y|] u]|f]; cbn [mbind outcome_bind].
    + destruct Hw as (a & b & Ha & ->). rewrite Ha in Hd, Hs.
      destruct (list_add_before_spec h (p_head c) a y b l Hd Hs) as (h' & E & [Hd' _ _]).
      change (default (p_head c) (Some y)) with y. rewrite E. cbn [mbind outcome_bind].
      eexists _, h'. split; [done|]. by apply (implements_set h).
    + rewrite Hw. destruct (list_add_tail_spec h (p_head c) (x :: xs) l Hd Hs) as (h' & E & [Hd' _ _]).
      change (default (p_head c) None) with (p_head c).
      assert (Eq : (p ← get_prev h (p_head c); list_add l p h) = list_add_tail l (p_head c) h).
      { unfold list_add_tail, list_add. pose proof Hd as Hd2. rewrite <- (app_nil_r (x :: xs)) in Hd2.
        destruct (dlist_links _ _ _ _ Hd2) as [Hn Hp].
        rewrite (get_prev_Ret h (p_head c) _ Hp). cbn [mbind outcome_bind]. by rewrite (get_next_Ret _ _ _ Hn). }
      rewrite Eq, E. cbn [mbind outcome_bind]. eexists _, h'. split; [done|]. by apply (implements_set h).
    + by rewrite Hw.
Qed.

Lemma p_tbl_add_tail_refines l :
  spare h (p_head c) (elems t) l ->
  exists c' h', p_tbl_add_tail c l h = Ret ((__tbl_add_tail t l).1, c', h') /\ implements h' c' (__tbl_add_tail t l).2.
Proof using Him.
  intros Hs. pose proof Him as [Hd Hlen Hmax _]. unfold __tbl_add_tail, p_tbl_add_tail. rewrite Hlen, Hmax.
  destruct (len t >=? max_len t); [by exists c, h|].
  destruct (list_add_tail_spec h (p_head c) (elems t) l Hd Hs) as (h' & -> & [Hd' _ _]). cbn [mbind outcome_bind].
  eexists _, h'. split; [done|]. by apply (implements_set h).
Qed.

Lemma elem_not_head x : x ∈ elems t -> x =? p_head c = false.
Proof using Him.
  intros Hx. apply Z.eqb_neq. intros ->. pose proof (dl_nodup _ _ _ (im_list _ _ _ Him)) as Hnd.
  by apply NoDup_cons in Hnd as [? _].
Qed.

Lemma p_tbl_find_refines {D} (id : D) crit : p_tbl_find c id crit h = __tbl_find t id crit.
Proof using Him.
  unfold p_tbl_find, __tbl_find. rewrite walk_table. pose proof (find_walk crit id (elems t)) as Hw.
  destruct (walk (until crit id) (elems t) tt) as [[[y|] u]|f]; cbn [mbind outcome_bind].
  - destruct Hw as (a & b & Ha & ->). change (default (p_head c) (Some y)) with y.
    by rewrite (elem_not_head y) by (rewrite Ha; set_solver).
  - rewrite Hw. change (default (p_head c) None) with (p_head c). by rewrite Z.eqb_refl.
  - by rewrite Hw.
Qed.

Lemma PTBL_EMPTY_refines : PTBL_EMPTY c h = Ret (TBL_EMPTY t).
Proof using Him.
  change (list_empty (p_head c) h = Ret (TBL_EMPTY t)). rewrite (list_empty_spec _ _ _ (im_list _ _ _ Him)).
  unfold TBL_EMPTY. f_equal. by destruct (elems t).
Qed.

(** Taking an entry out, with the counter. *)
Lemma take_out a x b :
  elems t = a ++ x :: b ->
  exists h', list_del x h = Ret h' /\ implements h' (set_p_len c (u32 (p_len c - 1))) (set_elems t (a ++ b) (u32 (len t - 1))).
Proof using Him.
  intros He. pose proof Him as [Hd Hlen _ _]. rewrite He in Hd.
  destruct (list_del_spec _ _ _ _ _ Hd) as (h' & E & [Hd' _ _] & _). exists h'. split; [done|].
  rewrite Hlen. by apply (implements_set h).
Qed.

Lemma p_tbl_detach_refines l :
  l ∈ elems t \/ elems t = [] ->
  exists c' h' r t', p_tbl_detach c l h = Ret (r, c', h') /\ __tbl_detach t (λ x, x =? l) = Ret (r, t') /\ implements h' c' t'.
Proof using Him.
  intros Hl. unfold p_tbl_detach, __tbl_detach. rewrite PTBL_EMPTY_refines. cbn [mbind outcome_bind].
  unfold TBL_EMPTY. destruct (elems t) as [|e es] eqn:Ee; [by eexists c, h, _, _|].
  destruct Hl as [Hl|]; [|done]. rewrite <- Ee in *.
  destruct (find_pos (λ x, x =? l) (elems t)) as [[i x]|] eqn:Ef.
  2: { apply find_pos_None in Ef. rewrite Forall_forall in Ef. specialize (Ef l Hl). simpl in Ef. by rewrite Z.eqb_refl in Ef. }
  apply find_pos_Some in Ef as (Hc & Hx & _ & Hr & _). apply Z.eqb_eq in Hx as ->.
  destruct (take_out (take i (elems t)) l (drop (S i) (elems t))) as (h' & -> & Hi).
  { by rewrite <- Hc at 1. }
  cbn [mbind outcome_bind deref of_option]. rewrite Hr. by eexists _, h', _, _.
Qed.

Lemma p_tbl_detach_first_refines :
  exists c' h', p_tbl_detach_first c h = Ret ((__tbl_detach_first t).1, c', h') /\ implements h' c' (__tbl_detach_first t).2.
Proof using Him.
  unfold p_tbl_detach_first, __tbl_detach_first. rewrite PTBL_EMPTY_refines. cbn [mbind outcome_bind]. unfold TBL_EMPTY.
  destruct (elems t) as [|e es] eqn:Ee; [by exists c, h|].
  unfold PTBL_FIRST. destruct (head_links _ _ _ (im_list _ _ _ Him)) as [-> _]. rewrite Ee. cbn [mbind outcome_bind].
  change (behind (p_head c) (e :: es)) with e.
  destruct (take_out [] e es Ee) as (h' & -> & Hi). cbn [mbind outcome_bind]. by eexists _, h'.
Qed.

Lemma p_tbl_find_detach_refines {D} (id : D) crit :
  match __tbl_find_detach t id crit with
  | Ret (r, t') => exists c' h', p_tbl_find_detach c id crit h = Ret (r, c', h') /\ implements h' c' t'
  | Fault f => p_tbl_find_detach c id crit h = Fault f
  end.
Proof using Him.
  unfold p_tbl_find_detach, __tbl_find_detach. rewrite p_tbl_find_refines. unfold __tbl_find.
  pose proof (find_walk crit id (elems t)) as Hw.
  destruct (walk (until crit id) (elems t) tt) as [[[y|] u]|f].
  - destruct Hw as (a & b & Ha & ->). cbn [mbind outcome_bind]. destruct (take_out a y b Ha) as (h' & -> & Hi).
    cbn [mbind outcome_bind]. rewrite Ha, remove_at_middle. by eexists _, h'.
  - rewrite Hw. by eexists c, h.
  - by rewrite Hw.
Qed.
End Refine.

(** ** Loops that take entries away *)

(** The step a safe loop makes: the cell after the next one, if there is one. *)
Lemma safe_next h head xs ys :
  dlist h head (xs ++ ys) -> exists n, get_next h (behind head ys) = Ret n /\ (ys <> [] -> n = behind head (tl ys)).
Proof.
  intros Hd. destruct ys as [|y ys].
  - rewrite app_nil_r in Hd. destruct (head_links _ _ _ Hd) as [E _]. change (behind head []) with head. by exists (behind head xs).
  - destruct (entry_links _ _ _ _ _ Hd) as [_ E]. by exists (behind head ys).
Qed.

(** A deleted entry's block is gone. *)
Lemma del_free h head xs y ys :
  dlist h head (xs ++ y :: ys) ->
  exists h', list_del y h = Ret h' /\ dlist (kfree y h') head (xs ++ ys).
Proof.
  intros Hd. destruct (list_del_spec _ _ _ _ _ Hd) as (h' & E & [Hd' _ _] & _). exists h'. split; [done|].
  pose proof (entry_notin _ _ _ _ _ Hd) as Hy.
  apply (dlist_only h' _ [y]); [done| |clear -Hy; set_solver].
  intros q Hq. unfold kfree. rewrite lookup_delete_ne; [done|]. intros ->. clear -Hq; set_solver.
Qed.

Section Safe.
Context {D : Type} (head : ptr).

Lemma not_head h xs y ys : dlist h head (xs ++ y :: ys) -> y =? head = false.
Proof.
  intros [Hnd _]. apply Z.eqb_neq. intros ->. apply NoDup_cons in Hnd as [Hnd _]. set_solver.
Qed.

Lemma for_each_del_links (crit : del_crit_t ptr D) ys :
  forall xs fuel nn h n ln id, dlist h head (xs ++ ys) -> (length ys <= fuel)%nat -> (ys <> [] -> nn = behind head (tl ys)) ->
  match for_each_del crit id n ln ys with
  | Ret (n', ln', ys', id') =>
      exists h', for_each_safe_from (del_body crit) fuel (behind head ys) nn head h (n, ln, id) = Ret (h', (n', ln', id'))
        /\ dlist h' head (xs ++ ys')
  | Fault f => for_each_safe_from (del_body crit) fuel (behind head ys) nn head h (n, ln, id) = Fault f
  end.
Proof.
  induction ys as [|y ys IH]; intros xs fuel nn h n ln id Hd Hf Hn.
  - exists h. split; [|done]. destruct fuel; simpl; by rewrite Z.eqb_refl.
  - destruct fuel as [|fuel]; [simpl in Hf; lia|]. rewrite (Hn ltac:(done)). change (behind head (y :: ys)) with y.
    cbn [for_each_del for_each_safe_from]. rewrite (not_head _ _ _ _ Hd).
    change (length (y :: ys)) with (S (length ys)) in Hf. cbn [tl].
    change (del_body crit y h (n, ln, id)) with
      ('(b, id) ← crit y id; if (b : bool) then h ← list_del y h; Ret (false, kfree y h, (s32 (n + 1), u32 (ln - 1), id))
                             else Ret (false, h, (n, ln, id))).
    destruct (crit y id) as [[b id']|f]; [|done]. cbn [mbind outcome_bind]. destruct b.
    + destruct (del_free _ _ _ _ _ Hd) as (h1 & -> & Hd1). cbn [mbind outcome_bind].
      destruct (safe_next _ _ _ _ Hd1) as (nn' & -> & Hn'). cbn [mbind outcome_bind]. apply (IH xs); [done|lia|done].
    + cbn [mbind outcome_bind]. rewrite (cons_middle y xs ys), app_assoc in Hd.
      destruct (safe_next _ _ _ _ Hd) as (nn' & -> & Hn'). cbn [mbind outcome_bind].
      specialize (IH (xs ++ [y]) fuel nn' h n ln id' Hd ltac:(lia) Hn').
      destruct (for_each_del crit id' n ln ys) as [[[[n' ln'] ys'] id'']|f]; [|done]. cbn [mbind outcome_bind].
      destruct IH as (h' & E & Hd'). exists h'. rewrite <- app_assoc in Hd'. by split.
Qed.

Lemma flush_links (at_flush : option (ptr -> D -> D)) ys :
  forall fuel nn h ln d, dlist h head ys -> (length ys <= fuel)%nat -> (ys <> [] -> nn = behind head (tl ys)) ->
  exists h', for_each_safe_from (flush_body at_flush) fuel (behind head ys) nn head h (ln, d)
             = Ret (h', flush_loop at_flush d ln ys) /\ dlist h' head [].
Proof.
  induction ys as [|y ys IH]; intros fuel nn h ln d Hd Hf Hn.
  - exists h. split; [|done]. destruct fuel; simpl; by rewrite Z.eqb_refl.
  - destruct fuel as [|fuel]; [simpl in Hf; lia|]. rewrite (Hn ltac:(done)). change (behind head (y :: ys)) with y.
    cbn [flush_loop for_each_safe_from]. rewrite (not_head _ [] _ _ Hd). change (length (y :: ys)) with (S (length ys)) in Hf.
    change (flush_body at_flush y h (ln, d)) with
      (h ← list_del y h; Ret (false, kfree y h, (u32 (ln - 1), match at_flush with None => d | Some f => f y d end))).
    destruct (del_free _ _ [] _ _ Hd) as (h1 & -> & Hd1). cbn [mbind outcome_bind fst snd tl].
    destruct (safe_next _ _ [] _ Hd1) as (nn' & -> & Hn'). cbn [mbind outcome_bind]. apply IH; [done|lia|done].
Qed.

Lemma safe_start {St} (body : ptr -> links -> St -> outcome (bool * links * St)) fuel h xs s :
  dlist h head xs ->
  exists nn, list_for_each_safe body fuel head h s = for_each_safe_from body fuel (behind head xs) nn head h s
    /\ (xs <> [] -> nn = behind head (tl xs)).
Proof.
  intros Hd. unfold list_for_each_safe. destruct (head_links _ _ _ Hd) as [-> _]. cbn [mbind outcome_bind].
  destruct (safe_next _ _ [] _ Hd) as (nn & -> & Hn). cbn [mbind outcome_bind]. eauto.
Qed.
End Safe.

Lemma p_tbl_for_each_del_refines {D} h c t (id : D) crit :
  implements h c t ->
  match __tbl_for_each_del t id crit with
  | Ret (n, t', id') => exists c' h', p_tbl_for_each_del c id crit h = Ret (n, c', h', id') /\ implements h' c' t'
  | Fault f => p_tbl_for_each_del c id crit h = Fault f
  end.
Proof.
  intros Him. pose proof Him as [Hd Hlen _ _]. unfold p_tbl_for_each_del, __tbl_for_each_del.
  destruct (safe_start (p_head c) (del_body crit) (size h) h (elems t) (0, p_len c, id) Hd) as (nn & -> & Hn).
  pose proof (for_each_del_links (p_head c) crit (elems t) [] (size h) nn h 0 (p_len c) id Hd (dlist_size _ _ _ Hd) Hn) as Hl.
  rewrite Hlen in *. destruct (for_each_del crit id 0 (len t) (elems t)) as [[[[n' ln'] ys'] id']|f].
  - destruct Hl as (h' & -> & Hd'). cbn [mbind outcome_bind]. eexists _, h'. split; [done|]. by apply (implements_set h).
  - by rewrite Hl.
Qed.

Lemma p_tbl_flush_refines {D} h c t at_flush (d : D) :
  implements h c t ->
  exists c' h', p_tbl_flush c at_flush d h = Ret (c', h', (__tbl_flush t at_flush d).2)
    /\ implements h' c' (__tbl_flush t at_flush d).1.
Proof.
  intros Him. pose proof Him as [Hd Hlen _ _]. unfold p_tbl_flush, __tbl_flush.
  destruct (safe_start (p_head c) (flush_body at_flush) (size h) h (elems t) (p_len c, d) Hd) as (nn & -> & Hn).
  destruct (flush_links (p_head c) at_flush (elems t) (size h) nn h (p_len c) d Hd (dlist_size _ _ _ Hd) Hn) as (h' & -> & Hd').
  rewrite Hlen. destruct (flush_loop at_flush d (len t) (elems t)) as [ln d']. cbn [mbind outcome_bind].
  eexists _, h'. split; [done|]. by apply (implements_set h).
Qed.

(** C28: The linked lists implement the tables of sequences.  A [struct tbl] whose
    links stand for a table does, with each operation of tbl.h, what the table
    of sequences does: the same result, the same fault if a criterion faults,
    and links that stand for the table afterwards - with an ordered insertion,
    an insertion at the end, a search, the removal of an entry, of the first, of
    the first that meets a criterion, of all that meet one, and of all.  The
    loops end: a list has fewer entries than the heap has cells. *)
Theorem tbl_links_refine {D} h c t (l : ptr) (d : D) crit_l (crit : criteria_t ptr D) (dcrit : del_crit_t ptr D) at_flush :
  implements h c t ->
  (spare h (p_head c) (elems t) l ->
     match __tbl_add t l crit_l with
     | Ret (r, t') => exists c' h', p_tbl_add c l crit_l h = Ret (r, c', h') /\ implements h' c' t'
     | Fault f => p_tbl_add c l crit_l h = Fault f
     end
     /\ exists c' h', p_tbl_add_tail c l h = Ret ((__tbl_add_tail t l).1, c', h') /\ implements h' c' (__tbl_add_tail t l).2)
  /\ p_tbl_find c d crit h = __tbl_find t d crit
  /\ (l ∈ elems t \/ elems t = [] ->
       exists c' h' r t', p_tbl_detach c l h = Ret (r, c', h') /\ __tbl_detach t (λ x, x =? l) = Ret (r, t') /\ implements h' c' t')
  /\ (exists c' h', p_tbl_detach_first c h = Ret ((__tbl_detach_first t).1, c', h') /\ implements h' c' (__tbl_detach_first t).2)
  /\ match __tbl_find_detach t d crit with
     | Ret (r, t') => exists c' h', p_tbl_find_detach c d crit h = Ret (r, c', h') /\ implements h' c' t'
     | Fault f => p_tbl_find_detach c d crit h = Fault f
     end
  /\ match __tbl_for_each_del t d dcrit with
     | Ret (n, t', d') => exists c' h', p_tbl_for_each_del c d dcrit h = Ret (n, c', h', d') /\ implements h' c' t'
     | Fault f => p_tbl_for_each_del c d dcrit h = Fault f
     end
  /\ exists c' h', p_tbl_flush c at_flush d h = Ret (c', h', (__tbl_flush t at_flush d).2)
       /\ implements h' c' (__tbl_flush t at_flush d).1.
Proof.
  intros Him. split; [intros Hs; split|split_and!].
  - by apply p_tbl_add_refines.
  - by apply p_tbl_add_tail_refines.
  - by apply p_tbl_find_refines.
  - by apply p_tbl_detach_refines.
  - by apply p_tbl_detach_first_refines.
  - by apply p_tbl_find_detach_refines.
  - by apply p_tbl_for_each_del_refines.
  - by apply p_tbl_flush_refines.
Qed.

Lemma tbl_links_refine_witness :
  let t := Tbl [2; 3] 2 5 false in
  exists c' h' n, p_tbl_for_each_del (PTbl 1 2 5 false) 2 (λ p d, Ret (p =? d, d)) small_list = Ret (n, c', h', 2)
    /\ implements h' c' (Tbl [3] 1 5 false) /\ h' !! 2 = None.
Proof.
  intros t. assert (Him : implements small_list (PTbl 1 2 5 false) t) by (constructor; [apply small_list_ok|done..]).
  destruct (tbl_links_refine small_list (PTbl 1 2 5 false) t 4 2 (λ _ _, Ret false) (λ _ _, Ret false)
    (λ p d, Ret (p =? d, d)) None Him) as (_ & _ & _ & _ & _ & H & _).
  vm_compute in H. destruct H as (c' & h' & E & Hi). exists c', h', 1. split; [exact E|]. split; [exact Hi|].
  vm_compute in E. injection E as _ <-. done.
Defined.
