(* ===== verification/HList.v ===== *)
(** * Lists with one pointer for a head (list.h)

    The second kind of list: a head is one pointer, and an entry points back not
    at the entry before it but at the pointer that points at it.  Every such
    pointer has a place: that of a head, or that of an entry's [next]. *)

From S2P Require Import Prelude ListHead.

(** [&h->first] of the head [h], or [&n->next] of the entry [n]. *)
Abbreviation hplace := (ptr + ptr)%type.
Definition first_of (h : ptr) : hplace := inl h.
Definition next_of (n : ptr) : hplace := inr n.

(** [struct hlist_head] and [struct hlist_node]: what is at each place, and
    every entry's [pprev]. *)
Record hlists := Hlists { at_ : gmap hplace (option ptr); pprev : gmap ptr (option hplace) }.

Definition get_at (p : hplace) (s : hlists) : outcome (option ptr) := deref (at_ s !! p).
Definition put_at (p : hplace) (v : option ptr) (s : hlists) : outcome hlists :=
  _ ← get_at p s; Ret (Hlists (<[p := v]> (at_ s)) (pprev s)).
Definition get_pprev (n : ptr) (s : hlists) : outcome (option hplace) := deref (pprev s !! n).
Definition put_pprev (n : ptr) (q : option hplace) (s : hlists) : outcome hlists :=
  _ ← get_pprev n s; Ret (Hlists (at_ s) (<[n := q]> (pprev s))).

(** [if (next) next->pprev = q] *)
Definition put_pprev_if (next : option ptr) (q : option hplace) (s : hlists) : outcome hlists :=
  match next with Some x => put_pprev x q s | None => Ret s end.

(** ** The operations *)

Definition INIT_HLIST_HEAD (h : ptr) (s : hlists) : outcome hlists := put_at (first_of h) None s.

Definition INIT_HLIST_NODE (n : ptr) (s : hlists) : outcome hlists :=
  s ← put_at (next_of n) None s;
  put_pprev n None s.

Definition hlist_unhashed (n : ptr) (s : hlists) : outcome bool :=
  q ← get_pprev n s; Ret (negb (bool_decide (is_Some q))).

Definition hlist_empty (h : ptr) (s : hlists) : outcome bool :=
  f ← get_at (first_of h) s; Ret (negb (bool_decide (is_Some f))).

Definition __hlist_del (n : ptr) (s : hlists) : outcome hlists :=
  next ← get_at (next_of n) s;
  q ← get_pprev n s;
  p ← deref q;
  s ← put_at p next s;
  put_pprev_if next q s.

Definition hlist_del (n : ptr) (s : hlists) : outcome hlists :=
  s ← __hlist_del n s;
  s ← put_at (next_of n) None s;
  put_pprev n None s.

Definition hlist_del_init (n : ptr) (s : hlists) : outcome hlists :=
  u ← hlist_unhashed n s;
  if (u : bool) then Ret s else s ← __hlist_del n s; INIT_HLIST_NODE n s.

Definition hlist_add_head (n h : ptr) (s : hlists) : outcome hlists :=
  first ← get_at (first_of h) s;
  s ← put_at (next_of n) first s;
  s ← put_pprev_if first (Some (next_of n)) s;
  s ← put_at (first_of h) (Some n) s;
  put_pprev n (Some (first_of h)) s.

Definition hlist_add_before (n next : ptr) (s : hlists) : outcome hlists :=
  q ← get_pprev next s;
  s ← put_pprev n q s;
  s ← put_at (next_of n) (Some next) s;
  s ← put_pprev next (Some (next_of n)) s;
  q ← get_pprev n s;
  p ← deref q;
  put_at p (Some n) s.

(** The new entry is the second argument. *)
Definition hlist_add_after (n next : ptr) (s : hlists) : outcome hlists :=
  x ← get_at (next_of n) s;
  s ← put_at (next_of next) x s;
  s ← put_at (next_of n) (Some next) s;
  s ← put_pprev next (Some (next_of n)) s;
  x ← get_at (next_of next) s;
  put_pprev_if x (Some (next_of next)) s.

Definition hlist_move_list (old _new : ptr) (s : hlists) : outcome hlists :=
  f ← get_at (first_of old) s;
  s ← put_at (first_of _new) f s;
  s ← put_pprev_if f (Some (first_of _new)) s;
  put_at (first_of old) None s.

(** ** Lists

    From the place [p] on the list holds [xs]. *)
Fixpoint hseg (s : hlists) (p : hplace) (xs : list ptr) : Prop :=
  match xs with
  | [] => at_ s !! p = Some None
  | x :: xs => at_ s !! p = Some (Some x) /\ pprev s !! x = Some (Some p) /\ hseg s (next_of x) xs
  end.

(** The list behind a head. *)
Definition hlist (s : hlists) (h : ptr) (xs : list ptr) : Prop := hseg s (first_of h) xs /\ NoDup xs.

(** An entry in no list. *)
Definition single (s : hlists) (n : ptr) : Prop := is_Some (at_ s !! next_of n) /\ is_Some (pprev s !! n).

Lemma next_in n (l : list ptr) : next_of n ∈ next_of <$> l <-> n ∈ l.
Proof. rewrite list_elem_of_fmap. split; [by intros (x & [= ->] & ?)|eauto]. Qed.
Lemma first_not_in h (l : list ptr) : first_of h ∉ next_of <$> l.
Proof. rewrite list_elem_of_fmap. by intros (x & ? & _). Qed.

(** What a segment depends on. *)
Lemma hseg_same s s' p xs :
  hseg s p xs -> (forall q, q ∈ p :: (next_of <$> xs) -> at_ s' !! q = at_ s !! q) ->
  (forall x, x ∈ xs -> pprev s' !! x = pprev s !! x) -> hseg s' p xs.
Proof.
  revert p. induction xs as [|x xs IH]; intros p H Ha Hp; cbn in *.
  - rewrite Ha; [done|set_solver].
  - destruct H as (H1 & H2 & H3). rewrite Ha, Hp by set_solver. split_and!; [done|done|].
    apply IH; [done| |]; intros; [apply Ha|apply Hp]; set_solver.
Qed.

Lemma hseg_at s p xs : hseg s p xs -> at_ s !! p = Some (head xs).
Proof. destruct xs; [done|]. by intros (? & _). Qed.

(** *** The place at the end of a part of a list *)

Definition place_of (p : hplace) (l : list ptr) : hplace := match last l with Some x => next_of x | None => p end.

Lemma place_of_cons p x l : place_of p (x :: l) = place_of (next_of x) l.
Proof. unfold place_of. destruct l as [|y l]; [done|]. by rewrite last_cons_cons, last_cons; destruct (last l). Qed.

Lemma place_of_in p l : place_of p l ∈ p :: (next_of <$> l).
Proof.
  unfold place_of. destruct (last l) as [x|] eqn:E; [|left]. right. apply list_elem_of_fmap. exists x.
  split; [done|]. by apply last_Some_elem_of.
Qed.

Lemma hseg_part s p l t : hseg s p (l ++ t) -> hseg s (place_of p l) t.
Proof.
  revert p. induction l as [|x l IH]; intros p; [done|]. intros (_ & _ & H). rewrite place_of_cons. by apply IH.
Qed.

Lemma hseg_replace s s' p l t t' :
  hseg s p (l ++ t) -> NoDup (p :: (next_of <$> l)) ->
  (forall q, q ∈ p :: (next_of <$> l) -> q <> place_of p l -> at_ s' !! q = at_ s !! q) ->
  (forall x, x ∈ l -> pprev s' !! x = pprev s !! x) ->
  hseg s' (place_of p l) t' -> hseg s' p (l ++ t').
Proof.
  revert p. induction l as [|x l IH]; intros p H Hnd Ha Hp Ht; [done|]. destruct H as (H1 & H2 & H3).
  rewrite place_of_cons in Ha, Ht. apply NoDup_cons in Hnd as [Hnp Hnd].
  assert (p <> place_of (next_of x) l) by (intros ->; apply Hnp, place_of_in). cbn. rewrite Ha, Hp by (done || set_solver).
  split_and!; [done|done|]. apply IH; [done|done| | |done]; intros; [apply Ha|apply Hp]; set_solver.
Qed.

(** What an operation on the list of [h] with the entries [ls] leaves alone. *)
Record outside (s s' : hlists) (h : ptr) (ls : list ptr) : Prop := {
  out_at q : q ∉ first_of h :: (next_of <$> ls) -> at_ s' !! q = at_ s !! q;
  out_pprev x : x ∉ ls -> pprev s' !! x = pprev s !! x
}.

(** Every other list, in particular. *)
Lemma outside_hlist s s' h ls h' ys :
  outside s s' h ls -> hlist s h' ys -> h' <> h -> (forall y, y ∈ ys -> y ∉ ls) -> hlist s' h' ys.
Proof.
  intros [Ha Hp] [Hs Hnd] Hne Hd. split; [|done]. apply (hseg_same s); [done| |].
  - intros q Hq. apply Ha. rewrite elem_of_cons, list_elem_of_fmap. intros [->|(x & -> & Hx)].
    + apply elem_of_cons in Hq as [[= ->]|Hq]; [done|]. by apply list_elem_of_fmap in Hq as (? & ? & _).
    + apply elem_of_cons in Hq as [?|Hq]; [done|]. apply list_elem_of_fmap in Hq as (? & [= <-] & Hy). by apply (Hd x).
  - intros x Hx. by apply Hp, Hd.
Qed.

Lemma put_at_live p v s : is_Some (at_ s !! p) -> put_at p v s = Ret (Hlists (<[p := v]> (at_ s)) (pprev s)).
Proof. intros [x H]. unfold put_at, get_at. by rewrite H. Qed.
Lemma put_pprev_live n q s : is_Some (pprev s !! n) -> put_pprev n q s = Ret (Hlists (at_ s) (<[n := q]> (pprev s))).
Proof. intros [x H]. unfold put_pprev, get_pprev. by rewrite H. Qed.

(** The entry behind, when there is one, gets its [pprev]. *)
Lemma put_pprev_if_live nx q s :
  (forall x, nx = Some x -> is_Some (pprev s !! x)) ->
  put_pprev_if nx q s = Ret (Hlists (at_ s) (match nx with Some x => <[x := q]> (pprev s) | None => pprev s end)).
Proof. destruct nx as [x|]; intros H; cbn; [|by destruct s]. by apply put_pprev_live, H. Qed.

Lemma hseg_head_live s p xs x : hseg s p xs -> head xs = Some x -> is_Some (pprev s !! x).
Proof. destruct xs as [|y xs]; intros H [= ->]. destruct H as (_ & H & _). by eexists. Qed.

Lemma put_pprev_if_seg s p xs q :
  hseg s p xs -> put_pprev_if (head xs) q s
    = Ret (Hlists (at_ s) (match head xs with Some x => <[x := q]> (pprev s) | None => pprev s end)).
Proof. intros H. apply put_pprev_if_live. intros x. by apply (hseg_head_live _ _ _ _ H). Qed.

(** The entries of a segment behind another place. *)
Lemma hseg_relink s s' p q xs :
  hseg s p xs -> at_ s' !! q = Some (head xs) ->
  (forall x, head xs = Some x -> pprev s' !! x = Some (Some q)) ->
  (forall y, y ∈ xs -> at_ s' !! next_of y = at_ s !! next_of y) ->
  (forall y, y ∈ tail xs -> pprev s' !! y = pprev s !! y) -> hseg s' q xs.
Proof.
  intros H Hq Hx Ha Hp. destruct xs as [|x xs]; [done|]. destruct H as (_ & _ & H). split; [done|]. split; [by apply Hx|].
  apply (hseg_same s); [done| |done]. intros r Hr. change (r ∈ next_of <$> (x :: xs)) in Hr.
  apply list_elem_of_fmap in Hr as (y & -> & Hy). by apply Ha.
Qed.

(** ** The operations on the sequence *)

(** Lookups after the updates of an operation. *)
Ltac cells := repeat first [rewrite lookup_insert_eq | rewrite lookup_insert_ne by (done || congruence || set_solver)].

Lemma hlist_add_head_spec s h n xs :
  hlist s h xs -> single s n -> n ∉ xs ->
  exists s', hlist_add_head n h s = Ret s' /\ hlist s' h (n :: xs) /\ outside s s' h (n :: xs).
Proof.
  intros [Hs Hnd] [Hn1 Hn2] Hn. pose proof (hseg_at _ _ _ Hs) as Hf. unfold hlist_add_head, get_at at 1. rewrite Hf.
  cbn [of_option mbind outcome_bind]. rewrite put_at_live by done. cbn [mbind outcome_bind].
  set (s1 := Hlists _ (pprev s)).
  assert (Hs1 : hseg s1 (first_of h) xs).
  { apply (hseg_same s); [done| |done]. intros q Hq. cbn. apply lookup_insert_ne. intros <-.
    apply elem_of_cons in Hq as [?|Hq]; [done|]. by apply next_in in Hq. }
  rewrite (put_pprev_if_seg _ _ _ _ Hs1). cbn [mbind outcome_bind]. rewrite put_at_live by (cbn; cells; by rewrite Hf).
  cbn [mbind outcome_bind]. rewrite put_pprev_live by (destruct xs; cbn; [done|]; by cells).
  eexists. split; [reflexivity|]. split; [split; [|by constructor]|].
  - split; [cbn; by cells|]. split; [cbn; by cells|]. apply (hseg_relink s _ (first_of h)); [done|cbn; by cells| | |].
    + intros x Hx. destruct xs as [|y xs]; [done|]. injection Hx as ->. cbn. by cells.
    + intros y Hy. assert (n <> y) by set_solver. cbn. by cells.
    + intros y Hy. destruct xs as [|x xs]; [by apply elem_of_nil in Hy|]. cbn in *. apply NoDup_cons in Hnd as [Hx _]. by cells.
  - split; cbn.
    + intros q Hq. by cells.
    + intros x Hx. destruct xs; cbn; by cells.
Qed.

(** Taking an entry out, before its own pointers are cleared. *)
Lemma hunlink_spec s h l1 n l2 :
  hlist s h (l1 ++ n :: l2) ->
  exists s', __hlist_del n s = Ret s' /\ hlist s' h (l1 ++ l2) /\ outside s s' h (l1 ++ n :: l2) /\ single s' n
    /\ (exists q, pprev s !! n = Some (Some q)).
Proof.
  intros [Hs Hnd]. pose proof (hseg_part _ _ _ _ Hs) as (Hq & Hp & Hl2). set (q := place_of (first_of h) l1) in *.
  pose proof (hseg_at _ _ _ Hl2) as Hn. pose proof (place_of_in (first_of h) l1) as Hqin. fold q in Hqin.
  unfold __hlist_del, get_at, get_pprev. rewrite Hn, Hp. cbn [of_option mbind outcome_bind]. rewrite put_at_live by (rewrite Hq; by eexists).
  cbn [mbind outcome_bind].
  apply NoDup_app in Hnd as (Hnd1 & Hd & [Hn2 Hnd2]%NoDup_cons).
  assert (Hnl : n ∉ l1) by (intros H; apply (Hd n H); left).
  assert (Hqn : q <> next_of n). { intros E. rewrite E in Hqin. apply elem_of_cons in Hqin as [?|Hqin]; [done|]. by apply next_in in Hqin. }
  assert (Hq2 : forall y, y ∈ l2 -> q <> next_of y).
  { intros y Hy E. rewrite E in Hqin. apply elem_of_cons in Hqin as [?|Hqin]; [done|]. apply next_in in Hqin. apply (Hd y Hqin). by right. }
  assert (Hl2' : hseg (Hlists (<[q:=head l2]> (at_ s)) (pprev s)) (next_of n) l2).
  { apply (hseg_same s); [done| |done]. intros r Hr. cbn. apply lookup_insert_ne. intros <-.
    apply elem_of_cons in Hr as [?|Hr]; [done|]. apply list_elem_of_fmap in Hr as (y & E & Hy). by apply (Hq2 y Hy). }
  rewrite (put_pprev_if_seg _ _ _ _ Hl2'). eexists. split; [reflexivity|]. split; [split|split; [|split]].
  - apply (hseg_replace s _ _ _ (n :: l2)); [done| | | |].
    + apply NoDup_cons. split; [apply first_not_in|]. by apply NoDup_fmap_2; [intros ?? [=]|].
    + intros r _ Hr. cbn. apply lookup_insert_ne. intros <-. by apply Hr.
    + intros x Hx. cbn. destruct l2 as [|y l2]; [done|]. cbn. apply lookup_insert_ne. intros ->. apply (Hd x Hx). right; left.
    + fold q. apply (hseg_relink s _ (next_of n)); [done|cbn; by cells| | |].
      * intros x Hx. destruct l2 as [|y l2]; [done|]. injection Hx as ->. cbn. by cells.
      * intros y Hy. cbn. specialize (Hq2 y Hy). by cells.
      * intros y Hy. destruct l2 as [|x l2]; [by apply elem_of_nil in Hy|]. cbn in *. apply NoDup_cons in Hnd2 as [Hx _]. by cells.
  - apply NoDup_app. split_and!; [done| |done]. intros x Hx Hx2. apply (Hd x Hx). by right.
  - split; cbn.
    + intros r Hr. apply lookup_insert_ne. intros <-. apply Hr. apply elem_of_cons in Hqin as [->|Hqin]; [left|].
      right. rewrite fmap_app, elem_of_app. by left.
    + intros x Hx. destruct l2 as [|y l2]; [done|]. cbn. apply lookup_insert_ne. set_solver.
  - split; cbn.
    + rewrite lookup_insert_ne by done. rewrite Hn. by eexists.
    + destruct l2 as [|y l2]; cbn; [by rewrite Hp|]. rewrite lookup_insert_ne by set_solver. by rewrite Hp.
  - by exists q.
Qed.

Lemma clear_spec s h n xs :
  hlist s h xs -> single s n -> n ∉ xs ->
  exists s', INIT_HLIST_NODE n s = Ret s' /\ hlist s' h xs /\ outside s s' h [n] /\ hlist_unhashed n s' = Ret true.
Proof.
  intros [Hs Hnd] [Hn1 Hn2] Hn. unfold INIT_HLIST_NODE. rewrite put_at_live by done. cbn [mbind outcome_bind].
  rewrite put_pprev_live by done. eexists. split; [reflexivity|]. split; [split; [|done]|split].
  - apply (hseg_same s); [done| |].
    + intros q Hq. cbn. apply lookup_insert_ne. intros <-. apply elem_of_cons in Hq as [?|Hq]; [done|]. by apply next_in in Hq.
    + intros x Hx. cbn. apply lookup_insert_ne. by intros ->.
  - split; cbn; intros; apply lookup_insert_ne; set_solver.
  - unfold hlist_unhashed, get_pprev. cbn. by rewrite lookup_insert_eq.
Qed.

Lemma outside_trans s s1 s2 h ls ms :
  outside s s1 h ls -> outside s1 s2 h ms -> ms ⊆ ls -> outside s s2 h ls.
Proof.
  intros [A1 P1] [A2 P2] Hsub. split.
  - intros q Hq. rewrite A2; [by apply A1|]. intros H. apply Hq. apply elem_of_cons in H as [->|H]; [left|right].
    apply list_elem_of_fmap in H as (x & -> & Hx). apply next_in. by apply Hsub.
  - intros x Hx. rewrite P2; [by apply P1|]. intros H. by apply Hx, Hsub.
Qed.

(** Both ways of taking an entry out: it is gone from the sequence, and knows it. *)
Lemma hlist_del_spec s h l1 n l2 :
  hlist s h (l1 ++ n :: l2) ->
  exists s', hlist_del n s = Ret s' /\ hlist_del_init n s = Ret s'
    /\ hlist s' h (l1 ++ l2) /\ outside s s' h (l1 ++ n :: l2) /\ hlist_unhashed n s' = Ret true.
Proof.
  intros H. destruct (hunlink_spec _ _ _ _ _ H) as (s1 & E & H1 & O1 & Hn & q & Hq).
  assert (Hni : n ∉ l1 ++ l2).
  { destruct H as [_ Hnd]. rewrite elem_of_app. apply NoDup_app in Hnd as (_ & Hd & [Hn2 _]%NoDup_cons).
    intros [Hx|Hx]; [|done]. apply (Hd n Hx). left. }
  destruct (clear_spec _ _ _ _ H1 Hn Hni) as (s2 & E2 & H2 & O2 & U). exists s2.
  unfold hlist_del, hlist_del_init. unfold hlist_unhashed at 1, get_pprev. rewrite Hq. cbn [of_option mbind outcome_bind].
  rewrite bool_decide_true by (by eexists). cbn [negb]. rewrite E. cbn [mbind outcome_bind]. split_and!; [exact E2|exact E2|done| |done].
  apply (outside_trans _ s1 _ _ _ [n]); [done|done|]. intros x. rewrite list_elem_of_singleton, elem_of_app. intros ->. right; left.
Qed.

(** An entry that is in no list may be taken out again. *)
Lemma hlist_del_init_again n s : pprev s !! n = Some None -> hlist_del_init n s = Ret s.
Proof. intros H. unfold hlist_del_init, hlist_unhashed, get_pprev. rewrite H. cbn. done. Qed.

Lemma hlist_add_before_spec s h l1 x l2 n :
  hlist s h (l1 ++ x :: l2) -> single s n -> n ∉ l1 ++ x :: l2 ->
  exists s', hlist_add_before n x s = Ret s' /\ hlist s' h (l1 ++ n :: x :: l2) /\ outside s s' h (l1 ++ n :: x :: l2).
Proof.
  intros [Hs Hnd] [Hn1 Hn2] Hn. pose proof (hseg_part _ _ _ _ Hs) as (Hq & Hp & Hl2). set (q := place_of (first_of h) l1) in *.
  pose proof (place_of_in (first_of h) l1) as Hqin. fold q in Hqin. rewrite elem_of_app, elem_of_cons in Hn.
  assert (Hnx : n <> x) by (intros ->; tauto).
  assert (Hqn : q <> next_of n). { intros E. rewrite E in Hqin. apply elem_of_cons in Hqin as [?|Hqin]; [done|]. apply next_in in Hqin. tauto. }
  assert (get_pprev x s = Ret (Some q)) as Eq by (unfold get_pprev; by rewrite Hp).
  unfold hlist_add_before. rewrite Eq. cbn [mbind outcome_bind]. rewrite put_pprev_live by done.
  cbn [mbind outcome_bind]. rewrite put_at_live by done. cbn [mbind outcome_bind]. rewrite put_pprev_live by (cbn; cells; by rewrite Hp).
  cbn [mbind outcome_bind]. unfold get_pprev. cbn [pprev]. rewrite lookup_insert_ne, lookup_insert_eq by done. cbn [of_option mbind outcome_bind].
  rewrite put_at_live by (cbn; cells; by rewrite Hq). eexists. split; [reflexivity|].
  assert (Hd : forall y, y ∈ x :: l2 -> q <> next_of y).
  { intros y Hy E. rewrite E in Hqin. apply elem_of_cons in Hqin as [?|Hqin]; [done|]. apply next_in in Hqin.
    apply NoDup_app in Hnd as (_ & Hd & _). by apply (Hd y). }
  assert (Hxl : x ∉ l1 /\ x ∉ l2). { apply NoDup_app in Hnd as (_ & D & [? _]%NoDup_cons). split; [|done]. intros Hx. apply (D x Hx). left. }
  split; [split|].
  - apply (hseg_replace s _ _ _ (x :: l2)); [done| | | |].
    + apply NoDup_app in Hnd as (Hnd & _). apply NoDup_cons. split; [apply first_not_in|]. by apply NoDup_fmap_2; [intros ?? [=]|].
    + intros r Hr Hne. cbn. rewrite lookup_insert_ne by (intros <-; by apply Hne). apply lookup_insert_ne. intros <-.
      apply elem_of_cons in Hr as [?|Hr]; [done|]. apply next_in in Hr. tauto.
    + intros y Hy. cbn. rewrite !lookup_insert_ne; [done| |]; intros ->; tauto.
    + fold q. split; [cbn; by cells|]. split; [cbn; by cells|]. split; [cbn; by cells|]. split; [cbn; by cells|].
      apply (hseg_same s); [done| |].
      * intros r Hr. change (r ∈ next_of <$> (x :: l2)) in Hr. apply list_elem_of_fmap in Hr as (y & -> & Hy). cbn. specialize (Hd y Hy).
        assert (n <> y) by (intros ->; rewrite elem_of_cons in Hy; tauto). by cells.
      * intros y Hy. cbn. rewrite !lookup_insert_ne; [done| |]; intros ->; tauto.
  - rewrite <- Permutation_middle. apply NoDup_cons. split; [rewrite elem_of_app, elem_of_cons; tauto|done].
  - split; cbn.
    + intros r Hr. rewrite !lookup_insert_ne; [done| |]; intros <-; apply Hr.
      * right. apply next_in. set_solver.
      * apply elem_of_cons in Hqin as [->|Hqin]; [left|]. right. rewrite fmap_app, elem_of_app. by left.
    + intros y Hy. rewrite !lookup_insert_ne; [done| |]; intros ->; apply Hy; set_solver.
Qed.

(** The new entry comes behind [n]. *)
Lemma hlist_add_after_spec s h l1 n l2 x :
  hlist s h (l1 ++ n :: l2) -> single s x -> x ∉ l1 ++ n :: l2 ->
  exists s', hlist_add_after n x s = Ret s' /\ hlist s' h (l1 ++ n :: x :: l2) /\ outside s s' h (l1 ++ n :: x :: l2).
Proof.
  intros [Hs Hnd] [Hx1 Hx2] Hx. pose proof (hseg_part _ _ _ _ Hs) as (Hq & Hp & Hl2). set (q := place_of (first_of h) l1) in *.
  pose proof (hseg_at _ _ _ Hl2) as Hat. pose proof (place_of_in (first_of h) l1) as Hqin. fold q in Hqin. rewrite elem_of_app, elem_of_cons in Hx.
  assert (Hnx : n <> x) by (intros ->; tauto).
  apply NoDup_app in Hnd as (Hnd1 & Hd & [Hn2 Hnd2]%NoDup_cons).
  assert (Hn1 : n ∉ l1) by (intros Hn; apply (Hd n Hn); left).
  assert (Hq' : q <> next_of n /\ q <> next_of x).
  { split; intros E; rewrite E in Hqin; (apply elem_of_cons in Hqin as [?|Hqin]; [done|]); apply next_in in Hqin; tauto. }
  destruct Hq' as [Hqn Hqx].
  assert (get_at (next_of n) s = Ret (head l2)) as Eat by (unfold get_at; by rewrite Hat).
  unfold hlist_add_after. rewrite Eat. cbn [mbind outcome_bind]. rewrite put_at_live by done. cbn [mbind outcome_bind].
  rewrite put_at_live by (cbn; cells; by rewrite Hat). cbn [mbind outcome_bind]. rewrite put_pprev_live by done. cbn [mbind outcome_bind].
  unfold get_at. cbn [at_]. rewrite lookup_insert_ne by (intros [=]; done). rewrite lookup_insert_eq. cbn [of_option mbind outcome_bind].
  assert (Hlx : x ∉ l2) by tauto.
  rewrite put_pprev_if_live.
  2: { intros y Hy. cbn. rewrite lookup_insert_ne; [by apply (hseg_head_live _ _ _ _ Hl2)|].
       intros ->. destruct l2 as [|z l2]; [done|]. injection Hy as ->. apply Hlx. left. }
  eexists. split; [reflexivity|]. split; [split|].
  - apply (hseg_replace s _ _ _ (n :: l2)); [done| | | |].
    + apply NoDup_cons. split; [apply first_not_in|]. by apply NoDup_fmap_2; [intros ?? [=]|].
    + intros r Hr Hne. cbn. rewrite !lookup_insert_ne; [done| |]; intros <-;
        (apply elem_of_cons in Hr as [?|Hr]; [done|]); apply next_in in Hr; tauto.
    + intros y Hy. cbn. destruct l2 as [|z l2]; cbn.
      * apply lookup_insert_ne. intros ->. tauto.
      * rewrite !lookup_insert_ne; [done| |]; intros ->; [tauto|]. apply (Hd y Hy). right; left.
    + fold q. split; [cbn; cells; done|]. split.
      { cbn. destruct l2 as [|z l2]; cbn; [by cells|]. rewrite lookup_insert_ne by set_solver. by cells. }
      split; [cbn; by cells|]. split.
      { cbn. destruct l2 as [|z l2]; cbn; [by cells|]. rewrite lookup_insert_ne by set_solver. by cells. }
      apply (hseg_relink s _ (next_of n)); [done|cbn; by cells| | |].
      * intros y Hy. cbn. rewrite Hy. by cells.
      * intros y Hy. assert (n <> y /\ x <> y) as [] by (split; intros ->; done). cbn. by cells.
      * intros y Hy. destruct l2 as [|z l2]; [by apply elem_of_nil in Hy|]. cbn in *. apply NoDup_cons in Hnd2 as [Hz _].
        assert (x <> y) by (intros ->; apply Hlx; by right). by cells.
  - apply NoDup_app. split; [done|]. split.
    + intros y Hy. rewrite !elem_of_cons. intros [-> |[->|Hy2]]; [done|tauto|]. apply (Hd y Hy). by right.
    + apply NoDup_cons. split; [rewrite elem_of_cons; intros [?|?]; done|]. by apply NoDup_cons.
  - split; cbn.
    + intros r Hr. rewrite !lookup_insert_ne; [done| |]; intros <-; apply Hr; right; apply next_in; set_solver.
    + intros y Hy. destruct l2 as [|z l2]; cbn; rewrite !lookup_insert_ne; try done; intros ->; apply Hy; set_solver.
Qed.

(** The entries change their head; the old one has none. *)
Lemma hlist_move_list_spec s old _new xs :
  hlist s old xs -> is_Some (at_ s !! first_of _new) -> old <> _new ->
  exists s', hlist_move_list old _new s = Ret s' /\ hlist s' _new xs /\ hlist s' old [].
Proof.
  intros [Hs Hnd] Hnew Hne. pose proof (hseg_at _ _ _ Hs) as Hat.
  assert (get_at (first_of old) s = Ret (head xs)) as Eat by (unfold get_at; by rewrite Hat).
  assert (Hp : first_of old <> first_of _new) by (intros [=]; done).
  unfold hlist_move_list. rewrite Eat. cbn [mbind outcome_bind]. rewrite put_at_live by done. cbn [mbind outcome_bind].
  rewrite put_pprev_if_live by (intros x Hx; cbn; by apply (hseg_head_live _ _ _ _ Hs)). cbn [mbind outcome_bind].
  rewrite put_at_live by (cbn; rewrite lookup_insert_ne by done; by rewrite Hat). eexists. split; [reflexivity|]. split; (split; [|done || constructor]).
  - apply (hseg_relink s _ (first_of old)); [done|cbn; by cells| | |].
    + intros x Hx. cbn. rewrite Hx. by cells.
    + intros y Hy. cbn. by rewrite !lookup_insert_ne.
    + intros y Hy. destruct xs as [|x xs]; [by apply elem_of_nil in Hy|]. cbn in *. apply NoDup_cons in Hnd as [Hx _]. by cells.
  - cbn. by rewrite lookup_insert_eq.
Qed.

Lemma INIT_HLIST_HEAD_spec s h : is_Some (at_ s !! first_of h) -> exists s', INIT_HLIST_HEAD h s = Ret s' /\ hlist s' h [].
Proof.
  intros H. unfold INIT_HLIST_HEAD. rewrite put_at_live by done. eexists. split; [done|]. split; [|constructor]. cbn. by rewrite lookup_insert_eq.
Qed.

Lemma hlist_empty_spec s h xs : hlist s h xs -> hlist_empty h s = Ret (bool_decide (xs = [])).
Proof. intros [Hs _]. unfold hlist_empty, get_at. rewrite (hseg_at _ _ _ Hs). by destruct xs. Qed.
