(* ===== verification/Atomic.v ===== *)
(** * Atomic counters outside the kernel (atomic.h)

    Three implementations of [atomic_t], chosen by the platform: gcc's builtins,
    Bionic's compare-and-exchange loops, and a mutex.  A call is a thread that
    moves through its steps; between two steps others may run. *)

From S2P Require Import Prelude.

Inductive impl := GCC | BIONIC | GENERIC.

(** [atomic_t]; only the generic one has the mutex. *)
Record atomic_t := Atomic { value : Z; mutex : bool }.

(** Where a call stands.  [i] is its argument, [old] what it has read. *)
Inductive thread :=
| Read (v : impl)
| AddReturn (v : impl) (i : Z)
| SubReturn (v : impl) (i : Z)
| SetTo (v : impl) (i : Z)
| GccSetCas (old i : Z) (** between [atomic_read] and the exchange *)
| BionicAddCas (old i : Z)
| BionicSubCas (old i : Z)
| GenericRead (** with the mutex *)
| GenericAdd (i : Z)
| GenericSub (i : Z)
| GenericUnlock (val : Z)
| Returned (r : Z).

Definition set_value (c : atomic_t) (x : Z) : atomic_t := Atomic (s32 x) (mutex c).
Definition set_mutex (c : atomic_t) (b : bool) : atomic_t := Atomic (value c) b.

(** [pthread_mutex_lock]: no step while another thread has it. *)
Definition take_mutex (c : atomic_t) (t : thread) : option (atomic_t * thread) :=
  if mutex c then None else Some (set_mutex c true, t).

(** The step of a call, [None] when it waits or has returned.  An exchange
    ([__sync_val_compare_and_swap], [__atomic_cmpxchg]) stores when it finds the
    value that was read; Bionic's loop starts again when it does not.  The
    generic functions do not look at [i]. *)
Definition next (t : thread) (c : atomic_t) : option (atomic_t * thread) :=
  let swap old new := if value c =? old then set_value c new else c in
  match t with
  | Read GENERIC => take_mutex c GenericRead
  | Read _ => Some (c, Returned (value c))
  | AddReturn GCC i => let c := set_value c (value c + i) in Some (c, Returned (value c))
  | AddReturn BIONIC i => Some (c, BionicAddCas (value c) i)
  | AddReturn GENERIC i => take_mutex c (GenericAdd i)
  | SubReturn GCC i => let c := set_value c (value c - i) in Some (c, Returned (value c))
  | SubReturn BIONIC i => Some (c, BionicSubCas (value c) i)
  | SubReturn GENERIC i => take_mutex c (GenericSub i)
  | SetTo GCC i => Some (c, GccSetCas (value c) i)
  | SetTo BIONIC i => Some (set_value c i, Returned (value c))
  | SetTo GENERIC i => Some (set_value c i, Returned (s32 i))
  | GccSetCas old i => Some (swap old i, Returned (value c))
  | BionicAddCas old i =>
      Some (swap old (old + i), if value c =? old then Returned (s32 (old + i)) else AddReturn BIONIC i)
  | BionicSubCas old i =>
      Some (swap old (old - i), if value c =? old then Returned (s32 (old - i)) else SubReturn BIONIC i)
  | GenericRead => Some (c, GenericUnlock (value c))
  | GenericAdd _ => let c := set_value c (value c + 1) in Some (c, GenericUnlock (value c))
  | GenericSub _ => let c := set_value c (value c - 1) in Some (c, GenericUnlock (value c))
  | GenericUnlock val => Some (set_mutex c false, Returned val)
  | Returned _ => None
  end.

(** ** The functions *)

Definition atomic_read (v : impl) : thread := Read v.
Definition atomic_add_return (v : impl) (i : Z) : thread := AddReturn v i.
Definition atomic_sub_return (v : impl) (i : Z) : thread := SubReturn v i.
Definition atomic_set (v : impl) (i : Z) : thread := SetTo v i.
Definition atomic_add (v : impl) (i : Z) : thread := atomic_add_return v i.
Definition atomic_sub (v : impl) (i : Z) : thread := atomic_sub_return v i.
Definition atomic_inc (v : impl) : thread := atomic_add_return v 1.
Definition atomic_dec (v : impl) : thread := atomic_sub_return v 1.
(** The answers of the functions that test the result of the call. *)
Definition atomic_add_negative (r : Z) : bool := r <? 0.
Definition atomic_sub_and_test (r : Z) : bool := r =? 0.

(** ** Interleavings *)

Inductive steps : atomic_t -> list thread -> atomic_t -> list thread -> Prop :=
| steps_nil c ts : steps c ts c ts
| steps_cons c ts j t c1 t1 c2 ts2 :
    ts !! j = Some t -> next t c = Some (c1, t1) -> steps c1 (<[j := t1]> ts) c2 ts2 -> steps c ts c2 ts2.

Definition returned (t : thread) : bool := match t with Returned _ => true | _ => false end.

(** What a call still adds to the counter. *)
Definition pending (t : thread) : Z :=
  match t with
  | AddReturn GENERIC _ | GenericAdd _ => 1
  | SubReturn GENERIC _ | GenericSub _ => -1
  | AddReturn _ i | BionicAddCas _ i => i
  | SubReturn _ i | BionicSubCas _ i => - i
  | _ => 0
  end.
Definition total (ts : list thread) : Z := foldr (λ t n, pending t + n) 0 ts.
Definition sets (t : thread) : bool := match t with SetTo _ _ | GccSetCas _ _ => true | _ => false end.

Lemma s32_mod x : s32 x mod 2 ^ 32 = x mod 2 ^ 32.
Proof.
  unfold s32. rewrite Zminus_mod, Zmod_mod, <- Zminus_mod. f_equal. lia.
Qed.
Lemma s32_range x : - 2 ^ 31 <= s32 x < 2 ^ 31.
Proof. unfold s32. pose proof (Z.mod_pos_bound (x + 2 ^ 31) (2 ^ 32)). lia. Qed.

Lemma total_insert ts j t t' : ts !! j = Some t -> total (<[j := t']> ts) = total ts - pending t + pending t'.
Proof.
  revert j. induction ts as [|u ts IH]; intros [|j] H; simplify_eq/=; [lia|]. rewrite (IH j H). lia.
Qed.

(** The value and what is still to be added are together as much as before. *)
Lemma next_conserves t c c' t' :
  next t c = Some (c', t') -> sets t = false ->
  (value c' + pending t') mod 2 ^ 32 = (value c + pending t) mod 2 ^ 32 /\ sets t' = false.
Proof.
  assert (Hs : forall x y, (s32 x + y) mod 2 ^ 32 = (x + y) mod 2 ^ 32).
  { intros x y. by rewrite Zplus_mod, s32_mod, <- Zplus_mod. }
  intros H Ht. destruct t as [v|v i|v i|v i|old i|old i|old i| |i|i|val|r]; try done; try destruct v; try done;
    cbn in H; unfold take_mutex in H; repeat case_match; zb; simplify_eq/=; (split; [|done]); rewrite ?Hs; try done; f_equal; lia.
Qed.

Lemma steps_conserve c ts c' ts' :
  steps c ts c' ts' -> Forall (λ t, sets t = false) ts ->
  (value c' + total ts') mod 2 ^ 32 = (value c + total ts) mod 2 ^ 32.
Proof.
  induction 1 as [|c ts j t c1 t1 c2 ts2 Hj Hn _ IH]; intros Hf; [done|].
  destruct (next_conserves t c c1 t1 Hn (Forall_lookup_1 _ _ _ _ Hf Hj)) as [E Ht1].
  rewrite IH by (by apply Forall_insert). rewrite (total_insert _ _ _ _ Hj).
  transitivity (((value c1 + pending t1) + (total ts - pending t)) mod 2 ^ 32); [f_equal; lia|].
  rewrite Zplus_mod, E, <- Zplus_mod. f_equal. lia.
Qed.

Lemma next_range t c c' t' : next t c = Some (c', t') -> - 2 ^ 31 <= value c < 2 ^ 31 -> - 2 ^ 31 <= value c' < 2 ^ 31.
Proof.
  intros H Hc. pose proof s32_range. destruct t as [v|v i|v i|v i|old i|old i|old i| |i|i|val|r]; try done; try destruct v; try done;
    cbn in H; unfold take_mutex in H; repeat case_match; simplify_eq/=; auto.
Qed.

(** *** The mutex *)

Definition holds (t : thread) : bool :=
  match t with GenericRead | GenericAdd _ | GenericSub _ | GenericUnlock _ => true | _ => false end.
Definition holders (ts : list thread) : Z := foldr (λ t n, Z.b2z (holds t) + n) 0 ts.
Definition excl (c : atomic_t) (ts : list thread) : Prop := holders ts = Z.b2z (mutex c).

Lemma holders_insert ts j t t' :
  ts !! j = Some t -> holders (<[j := t']> ts) = holders ts - Z.b2z (holds t) + Z.b2z (holds t').
Proof.
  revert j. induction ts as [|u ts IH]; intros [|j] H; simplify_eq/=; [lia|]. rewrite (IH j H). lia.
Qed.
Lemma holders_pos ts : 0 <= holders ts.
Proof. induction ts as [|t ts IH]; [done|]. cbn. fold (holders ts). destruct (holds t); cbn; lia. Qed.

Lemma next_excl t c c' t' :
  next t c = Some (c', t') -> (holds t = true -> mutex c = true) ->
  Z.b2z (mutex c') = Z.b2z (mutex c) - Z.b2z (holds t) + Z.b2z (holds t').
Proof.
  intros H Hm. destruct t as [v|v i|v i|v i|old i|old i|old i| |i|i|val|r]; try done; try destruct v; try done;
    cbn in H; unfold take_mutex in H; repeat case_match; simplify_eq/=; try lia; by rewrite Hm.
Qed.

Lemma holders_one ts j t : ts !! j = Some t -> holds t = true -> 1 <= holders ts.
Proof.
  revert j. induction ts as [|u ts IH]; intros [|j] H Ht; simplify_eq/=.
  - fold (holders ts). rewrite Ht. pose proof (holders_pos ts). cbn. lia.
  - fold (holders ts). specialize (IH j H Ht). destruct (holds u); cbn; lia.
Qed.

Lemma steps_excl c ts c' ts' : steps c ts c' ts' -> excl c ts -> excl c' ts'.
Proof.
  unfold excl. induction 1 as [|c ts j t c1 t1 c2 ts2 Hj Hn _ IH]; intros He; [done|]. apply IH.
  rewrite (holders_insert _ _ _ _ Hj), He. symmetry. apply (next_excl _ _ _ _ Hn).
  intros Ht. pose proof (holders_one _ _ _ Hj Ht). destruct (mutex c); [done|cbn in He; lia].
Qed.

(** A call that has not returned can go on, or another one has the mutex. *)
Lemma next_waits t c : next t c = None -> returned t = true \/ mutex c = true.
Proof.
  destruct t as [v|v i|v i|v i|old i|old i|old i| |i|i|val|r]; try done; try destruct v; try done; cbn; unfold take_mutex; try (by left).
  all: destruct (mutex c); [by right|done].
Qed.
Lemma holder_moves t c : holds t = true -> is_Some (next t c).
Proof. destruct t; try done; intros _; by eexists. Qed.
Lemma a_holder ts : 0 < holders ts -> exists j t, ts !! j = Some t /\ holds t = true.
Proof.
  induction ts as [|t ts IH]; [done|]. cbn. fold (holders ts). destruct (holds t) eqn:E; [by exists 0%nat, t|]. cbn.
  intros (j & u & H)%IH. by exists (S j), u.
Qed.

(** C40: Counters under concurrency.  Threads start calls of any of the three
    implementations that read the counter, add to it or subtract from it, and take
    their steps in any order, a thread that lost a race trying again.  Then they
    never block each other for good; and when all calls have returned the counter
    is the old value and all the amounts together, wrapped to an [int].  (For the
    generic implementation the amount is one, whatever the caller passed; the
    implementations of [atomic_set] are not among the calls.) *)
Theorem atomic_adds_sum c ts c' ts' :
  - 2 ^ 31 <= value c < 2 ^ 31 -> mutex c = false ->
  Forall (λ t, sets t = false /\ holds t = false) ts -> steps c ts c' ts' ->
  (Forall (λ t, returned t = true) ts' -> value c' = s32 (value c + total ts))
  /\ (Forall (λ t, returned t = true) ts' \/ exists j t, ts' !! j = Some t /\ is_Some (next t c')).
Proof.
  intros Hc Hm Hts Hst.
  assert (Hf : Forall (λ t, sets t = false) ts) by (eapply Forall_impl; [exact Hts|by intros ? []]).
  assert (He : excl c' ts').
  { apply (steps_excl _ _ _ _ Hst). unfold excl. rewrite Hm. clear -Hts. induction Hts as [|t ts [_ Ht] _ IH]; [done|]. cbn. fold (holders ts). rewrite Ht. exact IH. }
  split.
  - intros Hr. pose proof (steps_conserve _ _ _ _ Hst Hf) as E.
    assert (Ht : total ts' = 0). { clear -Hr. induction Hr as [|t ts Ht _ IH]; [done|]. cbn. fold (total ts). rewrite IH. by destruct t. }
    rewrite Ht, Z.add_0_r in E.
    assert (Hc' : - 2 ^ 31 <= value c' < 2 ^ 31).
    { clear -Hst Hc. induction Hst as [|c ts j t c1 t1 c2 ts2 Hj Hn _ IH]; [done|]. apply IH. by eapply next_range. }
    rewrite <- (s32_small (value c')) by done. unfold s32. by rewrite Zplus_mod, E, <- Zplus_mod.
  - destruct (decide (Forall (λ t, returned t = true) ts')) as [Hr|Hr]; [by left|right].
    destruct (mutex c') eqn:Hx.
    + destruct (a_holder ts') as (j & t & Hj & Ht); [unfold excl in He; rewrite He, Hx; done|].
      exists j, t. split; [done|]. by apply holder_moves.
    + apply not_Forall_Exists in Hr; [|intros t; apply _]. apply Exists_exists in Hr as (t & Hin & Hnr).
      apply list_elem_of_lookup in Hin as [j Hj]. exists j, t. split; [done|].
      destruct (next t c') as [x|] eqn:En; [by eexists|]. apply next_waits in En as [?|?]; [done|congruence].
Qed.

(** ** Runs *)

(** The threads take their steps in the order of the list. *)
Fixpoint run (js : list nat) (c : atomic_t) (ts : list thread) : option (atomic_t * list thread) :=
  match js with
  | [] => Some (c, ts)
  | j :: js =>
      match ts !! j with
      | Some t => match next t c with Some (c, t) => run js c (<[j := t]> ts) | None => None end
      | None => None
      end
  end.

Lemma run_steps js c ts c' ts' : run js c ts = Some (c', ts') -> steps c ts c' ts'.
Proof.
  revert c ts. induction js as [|j js IH]; intros c ts H; cbn in H; [injection H as <- <-; constructor|].
  destruct (ts !! j) as [t|] eqn:Hj; [|done]. destruct (next t c) as [[c1 t1]|] eqn:Hn; [|done]. econstructor; eauto.
Qed.

(** Two additions race on Bionic: the second one to exchange starts again. *)
Lemma atomic_adds_sum_witness :
  let ts := [atomic_add BIONIC 5; atomic_inc BIONIC; atomic_sub BIONIC 2] in
  exists c' ts', steps (Atomic 10 false) ts c' ts' /\ value c' = 14.
Proof.
  intros ts. destruct (run [0; 1; 0; 1; 1; 2; 1; 2; 2; 2]%nat (Atomic 10 false) ts) as [[c' ts']|] eqn:E; [|done].
  exists c', ts'. pose proof (run_steps _ _ _ _ _ E) as Hs. split; [exact Hs|].
  destruct (atomic_adds_sum (Atomic 10 false) ts c' ts') as [H _].
  - done.
  - done.
  - by repeat constructor.
  - exact Hs.
  - rewrite H; [reflexivity|]. vm_compute in E. injection E as _ <-. by repeat constructor.
Defined.

(** With gcc a store is lost when the counter changes between the read and the
    exchange: 7 is to be set while another thread adds 1, and 11 stays. *)
Example gcc_set_lost :
  run [0; 1; 0]%nat (Atomic 10 false) [atomic_set GCC 7; atomic_inc GCC] = Some (Atomic 11 false, [Returned 11; Returned 11]).
Proof. reflexivity. Qed.

(** Without it the set works. *)
Example gcc_set_alone : run [0; 0]%nat (Atomic 10 false) [atomic_set GCC 7] = Some (Atomic 7 false, [Returned 10]).
Proof. reflexivity. Qed.

(** The generic implementation adds one whatever it is asked to add. *)
Example generic_adds_one :
  run [0; 0; 0]%nat (Atomic 10 false) [atomic_add GENERIC 5] = Some (Atomic 11 false, [Returned 11]).
Proof. reflexivity. Qed.
