(* ===== verification/DebugLog.v ===== *)
(** * The debug log (debug.c)

    A ring buffer of characters that the program's messages go into and that a
    reader empties or looks at through /proc.  The lock is given up whenever a
    character goes to user memory, so messages logged meanwhile are an argument
    of the reading functions. *)

From S2P Require Import Prelude.

Definition DBG_LOG_BUF_LEN : Z := 16384.
Definition DBG_LOG_BUF_MASK : Z := DBG_LOG_BUF_LEN - 1.

(** The two indices and the count are [unsigned long]. *)
Record dlog := Dlog {
  dbg_log_buf : list Z;
  dbg_log_start : Z; (** the next character to be read *)
  dbg_log_end : Z; (** behind the last one written *)
  logged_chars : Z (** since the log was last cleared *)
}.

Definition dlog_init : dlog := Dlog (repeat 0 (Z.to_nat DBG_LOG_BUF_LEN)) 0 0 0.

Definition slot (idx : Z) : nat := Z.to_nat (Z.land idx DBG_LOG_BUF_MASK).
Definition DBG_LOG_BUF (d : dlog) (idx : Z) : outcome Z := deref (dbg_log_buf d !! slot idx).

(** ** Writing *)

Definition dsr_emit_log_char (c : Z) (d : dlog) : dlog :=
  let buf := <[slot (dbg_log_end d) := c]> (dbg_log_buf d) in
  let e := u64 (dbg_log_end d + 1) in
  let s := if u64 (e - dbg_log_start d) >? DBG_LOG_BUF_LEN then u64 (e - DBG_LOG_BUF_LEN) else dbg_log_start d in
  let n := if logged_chars d <? DBG_LOG_BUF_LEN then u64 (logged_chars d + 1) else logged_chars d in
  Dlog buf s e n.

Definition emit_all (cs : list Z) (d : dlog) : dlog := foldl (λ d c, dsr_emit_log_char c d) d cs.

(** [printk_buf], 1024 characters: the prefix, then as much of the message as
    fits in front of the NUL; the loop stops at the first NUL.  Returns the
    length the message would have had. *)
Definition until_nul (cs : list Z) : list Z :=
  take (match list_find (λ c, c = 0) cs with Some (i, _) => i | None => length cs end) cs.

Definition dsr_vprintk (prefix msg : list Z) (d : dlog) : Z * dlog :=
  (zlen msg, emit_all (until_nul (prefix ++ take (1023 - length prefix) msg)) d).

(** ** Reading *)

Section Read.
(** What is logged while the [i]-th character goes to user memory, what
    [__put_user] returns for it, and whether the copy within the user's buffer
    works there. *)
Context (others : Z -> list Z) (put_user : Z -> Z) (copy_user : Z -> bool).

(** [while (!error && (dbg_log_start != dbg_log_end) && i < len)]: [turns] is
    [len - i]; the user's buffer is [out]. *)
Fixpoint read_loop (turns : nat) (i : Z) (d : dlog) (out : list Z) : outcome (Z * dlog * list Z) :=
  match turns with
  | O => Ret (i, d, out)
  | S turns' =>
      if dbg_log_start d =? dbg_log_end d then Ret (i, d, out)
      else
        c ← DBG_LOG_BUF d (dbg_log_start d);
        let d := Dlog (dbg_log_buf d) (u64 (dbg_log_start d + 1)) (dbg_log_end d) (logged_chars d) in
        let d := emit_all (others i) d in
        let error := put_user i in
        if error =? 0 then read_loop turns' (i + 1) d (out ++ [c]) else Ret (error, d, out)
  end.

(** Case 3: from the last character backwards; [ub] is the user's buffer.  The
    result says whether a write to it failed, and how far the loop came. *)
Fixpoint last_loop (turns : nat) (count limit i : Z) (d : dlog) (ub : list Z) : outcome (Z * Z * dlog * list Z) :=
  match turns with
  | O => Ret (0, i, d, ub)
  | S turns' =>
      let j := u64 (limit - 1 - i) in
      if u64 (j + DBG_LOG_BUF_LEN) <? dbg_log_end d then Ret (0, i, d, ub)
      else
        c ← DBG_LOG_BUF d j;
        let error := put_user i in
        let d := emit_all (others i) d in
        if error =? 0 then last_loop turns' count limit (i + 1) d (<[Z.to_nat (count - 1 - i) := c]> ub)
        else Ret (error, i, d, ub)
  end.

(** Buffer overflow during the copy: the characters go to the front. *)
Fixpoint move_loop (turns : nat) (offset i : Z) (ub : list Z) : bool * list Z :=
  match turns with
  | O => (true, ub)
  | S turns' =>
      if copy_user i then move_loop turns' offset (i + 1) (<[Z.to_nat i := nth (Z.to_nat (i + offset)) ub 0]> ub)
      else (false, ub)
  end.

(** [buf] is NULL or the user's buffer, [access] what [access_ok] says of it,
    [wait] what [wait_event_interruptible] returns after [woken] was logged. *)
Definition do_dbglog (type : Z) (buf : option (list Z)) (len : Z) (access : bool) (wait : Z) (woken : list Z) (d : dlog)
  : outcome (Z * dlog * list Z) :=
  let ub := default [] buf in
  let check (k : outcome (Z * dlog * list Z)) : outcome (Z * dlog * list Z) :=
    if negb (bool_decide (is_Some buf)) || (len <? 0) then Ret (- EINVAL, d, ub)
    else if len =? 0 then Ret (0, d, ub)
    else if negb access then Ret (1, d, ub)
    else k in
  let last (clear : bool) :=
    check (
      let count := Z.min (Z.min len DBG_LOG_BUF_LEN) (logged_chars d) in
      let d := if clear then Dlog (dbg_log_buf d) (dbg_log_start d) (dbg_log_end d) 0 else d in
      '(error, i, d, ub) ← last_loop (Z.to_nat count) count (dbg_log_end d) 0 d ub;
      if negb (error =? 0) then Ret (error, d, ub)
      else if i =? count then Ret (i, d, ub)
      else let '(ok, ub) := move_loop (Z.to_nat i) (count - i) 0 ub in
           Ret (if (ok : bool) then i else - EFAULT, d, ub)) in
  if (type =? 0) || (type =? 1) then Ret (0, d, ub)
  else if type =? 2 then
    check (
      let d := emit_all woken d in
      if negb (wait =? 0) then Ret (wait, d, ub)
      else
        '(r, d, out) ← read_loop (Z.to_nat len) 0 d [];
        Ret (r, d, out ++ drop (length out) ub))
  else if type =? 3 then last false
  else if type =? 4 then last true
  else if type =? 5 then Ret (0, Dlog (dbg_log_buf d) (dbg_log_start d) (dbg_log_end d) 0, ub)
  else if type =? 6 then Ret (s32 (u64 (dbg_log_end d - dbg_log_start d)), d, ub)
  else if type =? 7 then Ret (DBG_LOG_BUF_LEN, d, ub)
  else Ret (- EINVAL, d, ub).

(** [dbg_log_read] *)
Definition dbg_log_read (nonblock : bool) (buf : list Z) (access : bool) (wait : Z) (woken : list Z) (d : dlog)
  : outcome (Z * dlog * list Z) :=
  '(n, _, _) ← do_dbglog 6 None 0 access wait woken d;
  if nonblock && (n =? 0) then Ret (- EAGAIN, d, buf)
  else do_dbglog 2 (Some buf) (zlen buf) access wait woken d.

(** [do_dbglog(type, NULL, 0)]: its result and the log. *)
Definition ask_log (type : Z) (d : dlog) : outcome (Z * dlog) :=
  '(r, d, _) ← do_dbglog type None 0 true 0 [] d; Ret (r, d).

Definition dbg_log_open (d : dlog) : outcome (Z * dlog) := ask_log 1 d.
Definition dbg_log_release (d : dlog) : outcome (Z * dlog) := '(_, d) ← ask_log 0 d; Ret (0, d).
(** [POLLIN] and [POLLRDNORM] when there is something to read. *)
Definition POLLIN : Z := 1.
Definition POLLRDNORM : Z := 64.
Definition dbg_log_poll (d : dlog) : outcome (Z * dlog) :=
  '(r, d) ← ask_log 6 d; Ret (if r =? 0 then 0 else Z.lor POLLIN POLLRDNORM, d).

(** [trace(func, fmt, ...)] of the kernel's build. *)
Definition trace (prefix msg : list Z) (d : dlog) : Z * dlog := dsr_vprintk prefix msg d.

(** The file in /proc/net, while it is registered, and what [create_proc_entry]
    answers: its failure is no error. *)
Definition dbg_init (entry : bool) : Z * bool := (0, entry).
Definition dbg_cleanup (registered : bool) : bool := false.
End Read.

(** ** What the log holds *)

(** [hist] is all that was ever logged: the buffer holds the last of it. *)
Record log_ok (hist : list Z) (d : dlog) : Prop := {
  lo_len : zlen (dbg_log_buf d) = DBG_LOG_BUF_LEN;
  lo_end : dbg_log_end d = zlen hist;
  lo_wide : zlen hist < 2 ^ 63;
  lo_start : 0 <= dbg_log_start d <= zlen hist /\ zlen hist - dbg_log_start d <= DBG_LOG_BUF_LEN;
  lo_chars : 0 <= logged_chars d <= Z.min DBG_LOG_BUF_LEN (zlen hist);
  lo_holds : forall k, 0 <= k < zlen hist -> zlen hist - DBG_LOG_BUF_LEN <= k ->
    dbg_log_buf d !! slot k = hist !! Z.to_nat k
}.

Lemma slot_mod k : slot k = Z.to_nat (k mod DBG_LOG_BUF_LEN).
Proof.
  unfold slot, DBG_LOG_BUF_MASK, DBG_LOG_BUF_LEN. change (16384 - 1) with (Z.ones 14).
  by rewrite Z.land_ones.
Qed.

Lemma slot_inj j k : 0 <= j -> 0 <= k -> Z.abs (j - k) < DBG_LOG_BUF_LEN -> slot j = slot k -> j = k.
Proof.
  rewrite !slot_mod. unfold DBG_LOG_BUF_LEN. intros Hj Hk Hd He. apply Z2Nat.inj in He; [|apply Z.mod_pos_bound; lia..].
  pose proof (Z.div_mod j 16384). pose proof (Z.div_mod k 16384). nia.
Qed.

Lemma log_init_ok : log_ok [] dlog_init.
Proof.
  constructor; unfold dlog_init; cbn [dbg_log_buf dbg_log_start dbg_log_end logged_chars].
  - unfold zlen. by rewrite repeat_length.
  - done.
  - by vm_compute.
  - by vm_compute.
  - by vm_compute.
  - intros k Hk. unfold zlen in Hk. simpl in Hk. lia.
Qed.

Lemma emit_ok hist d c : log_ok hist d -> zlen hist < 2 ^ 63 - 1 -> log_ok (hist ++ [c]) (dsr_emit_log_char c d).
Proof.
  intros [Hl He Hw Hs Hc Hh] Hb. pose proof (zlen_nonneg hist). unfold DBG_LOG_BUF_LEN in *.
  assert (Hz : zlen (hist ++ [c]) = zlen hist + 1) by (rewrite zlen_app; done).
  unfold dsr_emit_log_char. rewrite He. unfold DBG_LOG_BUF_LEN. rewrite (u64_small (zlen hist + 1)) by lia.
  rewrite (u64_small (zlen hist + 1 - _)) by lia.
  constructor; cbn [dbg_log_buf dbg_log_start dbg_log_end logged_chars]; rewrite ?Hz.
  - unfold zlen in *. by rewrite length_insert.
  - done.
  - lia.
  - destruct (_ >? 16384) eqn:E; zb; [rewrite u64_small by lia|]; unfold DBG_LOG_BUF_LEN; lia.
  - destruct (_ <? 16384) eqn:E; zb; [rewrite u64_small by lia|]; unfold DBG_LOG_BUF_LEN; lia.
  - unfold DBG_LOG_BUF_LEN. intros k Hk Hk2. assert (slot (zlen hist) < length (dbg_log_buf d))%nat.
    { rewrite slot_mod. unfold zlen in Hl. pose proof (Z.mod_pos_bound (zlen hist) DBG_LOG_BUF_LEN). unfold DBG_LOG_BUF_LEN in *. lia. }
    destruct (decide (k = zlen hist)) as [->|D].
    + rewrite list_lookup_insert_eq by done. unfold zlen. by rewrite Nat2Z.id, list_lookup_middle.
    + rewrite list_lookup_insert_ne.
      * rewrite Hh by lia. rewrite lookup_app_l; [done|]. unfold zlen in *. lia.
      * intros Hsl. apply D. symmetry. apply slot_inj; unfold DBG_LOG_BUF_LEN; lia || done.
Qed.

Lemma emit_all_ok hist d cs : log_ok hist d -> zlen hist + zlen cs < 2 ^ 63 -> log_ok (hist ++ cs) (emit_all cs d).
Proof.
  revert hist d. induction cs as [|c cs IH]; intros hist d Hd Hb; [by rewrite app_nil_r|].
  rewrite zlen_cons in Hb. pose proof (zlen_nonneg cs). rewrite (cons_middle c hist cs), app_assoc.
  apply IH; [apply emit_ok; [done|lia]|]. rewrite zlen_app. change (zlen [c]) with 1. lia.
Qed.

(** The reader's place only moves forward. *)
Lemma emit_all_start hist d cs :
  log_ok hist d -> zlen hist + zlen cs < 2 ^ 63 -> dbg_log_start d <= dbg_log_start (emit_all cs d).
Proof.
  revert hist d. induction cs as [|c cs IH]; intros hist d Hd Hb; [done|]. rewrite zlen_cons in Hb. pose proof (zlen_nonneg cs).
  assert (H1 : dbg_log_start d <= dbg_log_start (dsr_emit_log_char c d)).
  { destruct Hd as [_ He Hw Hs _ _]. unfold dsr_emit_log_char. cbn [dbg_log_start]. unfold DBG_LOG_BUF_LEN in *. rewrite He.
    pose proof (zlen_nonneg hist). rewrite (u64_small (zlen hist + 1)), (u64_small (zlen hist + 1 - _)) by lia.
    destruct (_ >? 16384) eqn:E; zb; [rewrite u64_small by lia|]; lia. }
  etrans; [exact H1|]. apply (IH (hist ++ [c])).
  - apply emit_ok; [done|lia].
  - rewrite zlen_app. change (zlen [c]) with 1. lia.
Qed.

(** A character that is still there. *)
Lemma read_held hist d k :
  log_ok hist d -> 0 <= k < zlen hist -> zlen hist - DBG_LOG_BUF_LEN <= k ->
  exists c, DBG_LOG_BUF d k = Ret c /\ hist !! Z.to_nat k = Some c.
Proof.
  intros Hd Hk Hk2. unfold DBG_LOG_BUF. rewrite (lo_holds _ _ Hd k Hk Hk2).
  destruct (hist !! Z.to_nat k) as [c|] eqn:E; [by exists c|]. apply lookup_ge_None in E. unfold zlen in *. lia.
Qed.

(** ** Reading the log *)

Section Reading.
Context (others : Z -> list Z) (put_user : Z -> Z) (copy_user : Z -> bool) (B : Z).
Context (put_ok : forall i, put_user i = 0) (copy_ok : forall i, copy_user i = true).
Context (others_short : forall i, zlen (others i) <= B).

(** What a reader gets comes in order, whatever is logged meanwhile. *)
Lemma read_loop_sublist turns i hist d out :
  log_ok hist d -> zlen hist + Z.of_nat turns * B < 2 ^ 63 ->
  exists got d' more, read_loop others put_user turns i d out = Ret (i + zlen got, d', out ++ got)
    /\ log_ok (hist ++ more) d' /\ got `sublist_of` drop (Z.to_nat (dbg_log_start d)) (hist ++ more)
    /\ ((forall j, others j = []) -> more = [] /\ got = take turns (drop (Z.to_nat (dbg_log_start d)) hist)
                                    /\ dbg_log_start d' = dbg_log_start d + zlen got).
Proof using put_ok others_short.
  revert i hist d out. induction turns as [|turns IH]; intros i hist d out Hd Hb.
  { exists [], d, []. rewrite !app_nil_r, Z.add_0_r. split_and!; [done..|apply sublist_nil_l|].
    intros _. rewrite take_0, Z.add_0_r. done. }
  pose proof (others_short i) as Hs. pose proof (zlen_nonneg (others i)). pose proof Hd as [_ He Hw [Hst1 Hst2] _ _]. cbn [read_loop]. rewrite He.
  destruct (dbg_log_start d =? zlen hist) eqn:E; zb.
  { exists [], d, []. rewrite !app_nil_r, Z.add_0_r. split_and!; [done..|apply sublist_nil_l|].
    intros _. rewrite E, drop_ge by (unfold zlen; lia). rewrite take_nil, Z.add_0_r. done. }
  destruct (read_held hist d (dbg_log_start d) Hd) as (c & Hc & Hcl); [lia..|]. rewrite Hc. cbn [mbind outcome_bind].
  rewrite (u64_small (dbg_log_start d + 1)) by lia. set (d1 := Dlog _ _ _ _).
  assert (Hd1 : log_ok hist d1).
  { destruct Hd as [G1 G2 G3 G4 G5 G6]. constructor; try done. cbn. rewrite ?G2. lia. }
  assert (Hd2 : log_ok (hist ++ others i) (emit_all (others i) d1)) by (apply emit_all_ok; [done|nia]).
  rewrite put_ok, Z.eqb_refl.
  destruct (IH (i + 1) _ _ (out ++ [c]) Hd2) as (got & d' & more & E' & Hd' & Hsub & Hq).
  { rewrite zlen_app. nia. }
  exists (c :: got), d', (others i ++ more). rewrite E', zlen_cons. rewrite <- !app_assoc in *.
  split_and!; [do 3 f_equal; lia|done| |].
  2: { intros Hno. destruct (Hq Hno) as (-> & -> & Hst). rewrite Hno in *. cbn [emit_all foldl] in *. rewrite app_nil_r in *.
       rewrite (drop_S hist c) by done. cbn [dbg_log_start d1] in *. rewrite ?app_nil_r; split_and!; [done| |lia].
       replace (Z.to_nat (dbg_log_start d + 1)) with (S (Z.to_nat (dbg_log_start d))) by lia. done. }
  assert (Hlow : dbg_log_start d + 1 <= dbg_log_start (emit_all (others i) d1)).
  { apply (emit_all_start hist d1 (others i)); [done|nia]. }
  rewrite (drop_S _ c) by (apply lookup_app_l_Some; done). apply sublist_skip.
  etrans; [exact Hsub|]. replace (Z.to_nat (dbg_log_start (emit_all _ _)))
    with (S (Z.to_nat (dbg_log_start d)) + (Z.to_nat (dbg_log_start (emit_all (others i) d1)) - S (Z.to_nat (dbg_log_start d))))%nat by lia.
  rewrite <- drop_drop. apply sublist_drop.
Qed.

(** The user's buffer holds, at its end, the last [i] of the first [limit]
    characters. *)
Definition holds_last (hist ub : list Z) (count limit i : Z) : Prop :=
  forall m, 0 <= m < i -> ub !! Z.to_nat (count - 1 - m) = hist !! Z.to_nat (limit - 1 - m).

Lemma last_loop_spec turns hist more count i d ub :
  log_ok (hist ++ more) d -> zlen hist + zlen more + Z.of_nat turns * B < 2 ^ 63 ->
  Z.of_nat turns = count - i -> 0 <= i -> count <= zlen ub -> count <= zlen hist ->
  holds_last hist ub count (zlen hist) i ->
  exists i' d' ub' more', last_loop others put_user turns count (zlen hist) i d ub = Ret (0, i', d', ub')
    /\ log_ok (hist ++ more') d' /\ i <= i' <= count /\ zlen ub' = zlen ub /\ holds_last hist ub' count (zlen hist) i'
    /\ ((forall j, others j = []) -> more = [] -> count <= DBG_LOG_BUF_LEN -> i' = count /\ more' = []).
Proof using put_ok others_short.
  revert more i d ub. induction turns as [|turns IH]; intros more i d ub Hd Hb Ht Hi Hu Hc Hh.
  { exists i, d, ub, more. split_and!; try done; [lia..|]. intros _ -> _. split; [lia|done]. }
  pose proof (others_short i) as Hs. pose proof (zlen_nonneg (others i)). pose proof (zlen_nonneg more).
  pose proof (lo_end _ _ Hd) as He. pose proof (lo_wide _ _ Hd) as Hw. rewrite zlen_app in He, Hw.
  cbn [last_loop]. rewrite (u64_small (zlen hist - 1 - i)) by lia. rewrite (u64_small (_ + DBG_LOG_BUF_LEN)) by (unfold DBG_LOG_BUF_LEN; lia).
  rewrite He. destruct (_ <? _) eqn:E; zb.
  { exists i, d, ub, more. split_and!; try done; [lia..|]. intros _ -> Hcl. change (zlen []) with 0 in E. lia. }
  destruct (read_held (hist ++ more) d (zlen hist - 1 - i) Hd) as (c & -> & Hcl); [rewrite zlen_app; lia..|].
  cbn [mbind outcome_bind]. rewrite put_ok, Z.eqb_refl.
  assert (Hin : (Z.to_nat (zlen hist - 1 - i) < length hist)%nat) by (unfold zlen in *; lia).
  rewrite lookup_app_l in Hcl by done.
  destruct (IH (more ++ others i) (i + 1) (emit_all (others i) d) (<[Z.to_nat (count - 1 - i) := c]> ub)) as
    (i' & d' & ub' & more' & -> & Hd' & Hi' & Hz & Hh' & Hq).
  - rewrite app_assoc. apply emit_all_ok; [done|]. rewrite zlen_app. nia.
  - rewrite zlen_app. nia.
  - lia.
  - lia.
  - unfold zlen in *. by rewrite length_insert.
  - done.
  - intros m Hm. destruct (decide (m = i)) as [->|D].
    + rewrite list_lookup_insert_eq; [done|]. unfold zlen in *. lia.
    + rewrite list_lookup_insert_ne by lia. apply Hh. lia.
  - exists i', d', ub', more'. split_and!; try done; [lia..| |].
    + rewrite Hz. unfold zlen. by rewrite length_insert.
    + intros Hno -> Hcl'. apply Hq; [done| |done]. by rewrite Hno.
Qed.

Lemma front_is_last (hist ub : list Z) n :
  0 <= n <= zlen hist -> n <= zlen ub ->
  (forall m, 0 <= m < n -> ub !! Z.to_nat (n - 1 - m) = hist !! Z.to_nat (zlen hist - 1 - m)) ->
  take (Z.to_nat n) ub = drop (Z.to_nat (zlen hist - n)) hist.
Proof.
  intros Hn Hu H. apply list_eq. intros k. destruct (decide (k < Z.to_nat n)%nat) as [D|D].
  - rewrite lookup_take_lt, lookup_drop by done. specialize (H (n - 1 - Z.of_nat k) ltac:(lia)).
    replace (Z.to_nat (n - 1 - (n - 1 - Z.of_nat k))) with k in H by lia. rewrite H. f_equal. lia.
  - rewrite lookup_take_ge by lia. symmetry. apply lookup_ge_None. rewrite length_drop. unfold zlen in *. lia.
Qed.

(** The characters move to the front of the user's buffer. *)
Lemma move_loop_spec turns offset i ub :
  0 <= i -> 0 < offset -> i + Z.of_nat turns + offset <= zlen ub ->
  exists ub', move_loop copy_user turns offset i ub = (true, ub') /\ zlen ub' = zlen ub
    /\ (forall k, 0 <= k -> k < i \/ i + Z.of_nat turns <= k -> ub' !! Z.to_nat k = ub !! Z.to_nat k)
    /\ (forall k, i <= k < i + Z.of_nat turns -> ub' !! Z.to_nat k = ub !! Z.to_nat (k + offset)).
Proof using copy_ok.
  revert i ub. induction turns as [|turns IH]; intros i ub Hi Ho Hl.
  { exists ub. split_and!; try done. intros. lia. }
  cbn [move_loop]. rewrite copy_ok. set (ub1 := <[_ := _]> ub).
  assert (Hz : zlen ub1 = zlen ub) by (unfold zlen, ub1; by rewrite length_insert).
  destruct (IH (i + 1) ub1) as (ub' & -> & Hz' & H1 & H2); [lia|lia|lia|].
  exists ub'. split_and!; [done|congruence|..].
  - intros k Hk Hki. rewrite H1 by lia. unfold ub1. rewrite list_lookup_insert_ne; [done|lia].
  - intros k Hk. destruct (decide (k = i)) as [->|D].
    + rewrite H1 by lia. unfold ub1. rewrite list_lookup_insert_eq by (unfold zlen in *; lia).
      destruct (nth_lookup_or_length ub (Z.to_nat (i + offset)) 0) as [->|]; [done|]. unfold zlen in *. lia.
    + rewrite H2 by lia. unfold ub1. rewrite list_lookup_insert_ne; [done|lia].
Qed.
End Reading.

(** C36: The log hands out what was logged, in order.  Take a log whose reader has
    come to place [start] of all that was ever logged, and read it into a buffer
    that takes all writes.  Whatever is logged meanwhile, the reader gets
    characters from [start] on, in the order they were logged, none of them
    garbled; the log then still holds the last of what was logged.  If nothing is
    logged meanwhile it gets the next characters, as many as are there and fit,
    and the reader has come that much further. *)
Theorem dbglog_read_fifo others put copy B hist d ub woken :
  log_ok hist d -> 0 < zlen ub -> (forall i, put i = 0) -> (forall i, zlen (others i) <= B) ->
  zlen hist + zlen woken + zlen ub * B < 2 ^ 63 ->
  exists got d' more,
    do_dbglog others put copy 2 (Some ub) (zlen ub) true 0 woken d = Ret (zlen got, d', got ++ drop (length got) ub)
    /\ log_ok (hist ++ more) d' /\ got `sublist_of` drop (Z.to_nat (dbg_log_start d)) (hist ++ more)
    /\ ((forall i, others i = []) -> woken = [] ->
         got = take (length ub) (drop (Z.to_nat (dbg_log_start d)) hist) /\ dbg_log_start d' = dbg_log_start d + zlen got).
Proof.
  intros Hd Hu Hp Hs Hb. pose proof (zlen_nonneg woken).
  assert (Hd1 : log_ok (hist ++ woken) (emit_all woken d)).
  { apply emit_all_ok; [done|]. pose proof (Hs 0). pose proof (zlen_nonneg (others 0)). nia. }
  destruct (read_loop_sublist others put B Hp Hs (Z.to_nat (zlen ub)) 0 _ _ [] Hd1) as (got & d' & more & E & Hd' & Hsub & Hq).
  { rewrite zlen_app, Z2Nat.id by lia. lia. }
  exists got, d', (woken ++ more). rewrite app_assoc. split_and!.
  - unfold do_dbglog. change (2 =? 0) with false. change (2 =? 1) with false. change (2 =? 2) with true. cbv iota zeta.
    cbn [orb default]. rewrite bool_decide_true by eauto. cbn [negb orb].
    rewrite (proj2 (Z.ltb_ge _ _)), (proj2 (Z.eqb_neq (zlen ub) 0)) by lia. rewrite Z.eqb_refl. cbn [negb].
    rewrite E. done.
  - done.
  - etrans; [exact Hsub|].
    assert (Hlow : dbg_log_start d <= dbg_log_start (emit_all woken d)).
    { apply (emit_all_start hist); [done|]. pose proof (Hs 0). pose proof (zlen_nonneg (others 0)). nia. }
    replace (Z.to_nat (dbg_log_start (emit_all woken d)))
      with (Z.to_nat (dbg_log_start d) + (Z.to_nat (dbg_log_start (emit_all woken d)) - Z.to_nat (dbg_log_start d)))%nat
      by (destruct Hd as [_ _ _ [? _] _ _]; lia).
    rewrite <- drop_drop. apply sublist_drop.
  - intros Hno ->. destruct (Hq Hno) as (_ & -> & Hst). rewrite app_nil_r. unfold zlen at 1. rewrite Nat2Z.id.
    rewrite app_nil_r in Hst. split; [done|exact Hst].
Qed.

(** A log with the characters 1, 2, 3 that are still to be read. *)
Definition log3 : dlog := emit_all [1; 2; 3] dlog_init.
Lemma log3_ok : log_ok [1; 2; 3] log3.
Proof. apply (emit_all_ok [] dlog_init [1; 2; 3]); [apply log_init_ok|by vm_compute]. Qed.

Lemma dbglog_read_fifo_witness :
  exists d', do_dbglog (λ _, []) (λ _, 0) (λ _, true) 2 (Some [0; 0]) 2 true 0 [] log3 = Ret (2, d', [1; 2])
    /\ dbg_log_start d' = 2.
Proof.
  destruct (dbglog_read_fifo (λ _, []) (λ _, 0) (λ _, true) 0 [1; 2; 3] log3 [0; 0] [] log3_ok) as (got & d' & more & E & _ & _ & Hq).
  - by vm_compute.
  - done.
  - done.
  - by vm_compute.
  - destruct (Hq ltac:(done) eq_refl) as [Hg Hst]. assert (Hs0 : dbg_log_start log3 = 0) by (vm_compute; reflexivity).
    rewrite Hs0 in Hg, Hst. simpl in Hg. subst got. exists d'. split; [exact E|exact Hst].
Defined.

(** Looking at the last messages gives them whole.  While the characters go
    backwards into the user's buffer the lock is given up, so messages logged
    meanwhile may overwrite what is still to be copied.  Whatever is logged, the
    call returns some number [n] and the [n] characters that were the last ones
    in the log when it began, in order and none of them garbled; if nothing is
    logged meanwhile [n] is all that fits and was logged since the last clear.
    The reader's place in the log is not moved by it. *)
Theorem dbglog_last_messages others put copy B hist d ub :
  log_ok hist d -> 0 < zlen ub -> (forall i, put i = 0) -> (forall i, copy i = true) -> (forall i, zlen (others i) <= B) ->
  zlen hist + DBG_LOG_BUF_LEN * B < 2 ^ 63 ->
  exists n d' ub' more,
    do_dbglog others put copy 3 (Some ub) (zlen ub) true 0 [] d = Ret (n, d', ub')
    /\ log_ok (hist ++ more) d' /\ 0 <= n <= Z.min (zlen ub) (logged_chars d)
    /\ take (Z.to_nat n) ub' = drop (Z.to_nat (zlen hist - n)) hist
    /\ ((forall i, others i = []) -> n = Z.min (zlen ub) (logged_chars d)).
Proof.
  intros Hd Hu Hp Hcp Hs Hb. pose proof Hd as [_ He Hw _ [Hc1 Hc2] _].
  set (count := Z.min (Z.min (zlen ub) DBG_LOG_BUF_LEN) (logged_chars d)).
  assert (Hcount : 0 <= count <= zlen ub /\ count <= zlen hist /\ count <= DBG_LOG_BUF_LEN /\ count <= logged_chars d).
  { unfold count, DBG_LOG_BUF_LEN in *. lia. }
  assert (Hmin : count = Z.min (zlen ub) (logged_chars d)) by (unfold count, DBG_LOG_BUF_LEN in *; lia).
  pose proof (Hs 0). pose proof (zlen_nonneg (others 0)).
  destruct (last_loop_spec others put B Hp Hs (Z.to_nat count) hist [] count 0 d ub) as (i & d' & ub1 & more & E & Hd' & Hi & Hz & Hh & Hq).
  { by rewrite app_nil_r. } { change (zlen []) with 0. rewrite Z2Nat.id by lia. nia. } { lia. } { lia. } { lia. } { lia. }
  { intros m Hm. lia. }
  assert (Hrun : exists ub', do_dbglog others put copy 3 (Some ub) (zlen ub) true 0 [] d = Ret (i, d', ub')
            /\ take (Z.to_nat i) ub' = drop (Z.to_nat (zlen hist - i)) hist).
  { unfold do_dbglog. change (3 =? 0) with false. change (3 =? 1) with false. change (3 =? 2) with false.
    change (3 =? 3) with true. cbv iota zeta. change (default [] (Some ub)) with ub. cbn [orb]. rewrite bool_decide_true by eauto. cbn [negb orb].
    rewrite (proj2 (Z.ltb_ge _ _)), (proj2 (Z.eqb_neq (zlen ub) 0)) by lia. cbn [negb]. fold count. rewrite He.
    rewrite E. cbn [mbind outcome_bind]. change (0 =? 0) with true. cbn [negb].
    destruct (i =? count) eqn:Ei; zb.
    - exists ub1. split; [done|]. apply front_is_last; [lia|lia|]. intros m Hm. rewrite Ei in *. by apply Hh.
    - destruct (move_loop_spec copy Hcp (Z.to_nat i) (count - i) 0 ub1) as (ub' & -> & Hz' & _ & Hmv); [lia..|].
      exists ub'. split; [done|]. apply front_is_last; [lia|lia|]. intros m Hm. rewrite <- Hh by done. rewrite Hmv by lia.
      f_equal. lia. }
  destruct Hrun as (ub' & Hrun & Htake). exists i, d', ub', more. split_and!; try done; [lia..|].
  intros Hno. destruct (Hq Hno eq_refl) as [-> _]; [lia|]. done.
Qed.

Lemma dbglog_last_messages_witness :
  exists d', do_dbglog (λ _, [9]) (λ _, 0) (λ _, true) 3 (Some [0; 0]) 2 true 0 [] log3 = Ret (2, d', [2; 3])
    /\ exists more, log_ok ([1; 2; 3] ++ more) d'.
Proof.
  destruct (dbglog_last_messages (λ _, [9]) (λ _, 0) (λ _, true) 1 [1; 2; 3] log3 [0; 0] log3_ok)
    as (n & d' & ub' & more & E & Hd' & Hn & Ht & _); try done.
  vm_compute in E. injection E as <- <- <-. eexists. split; [vm_compute; reflexivity|]. exists more. exact Hd'.
Defined.
