(* ===== verification/Mem.v ===== *)
(** * Byte buffers

    The memory a packet's options live in: a block of bytes read and written at
    offsets.  An access outside the block is a [BadAccess].  Multi-byte values
    are little-endian, as on the platform of the model. *)

From S2P Require Import Prelude.

Abbreviation bytes := (list Z).

Definition is_byte (x : Z) : Prop := 0 <= x < 256.
Definition is_word (x : Z) : Prop := 0 <= x < 4294967296.

Definition bytes16 (x : Z) : bytes := [x mod 256; x / 256 mod 256].
Definition bytes32 (x : Z) : bytes :=
  [x mod 256; x / 256 mod 256; x / 65536 mod 256; x / 16777216 mod 256].

(** [n] bytes from offset [off]. *)
Definition memread (b : bytes) (off n : Z) : outcome bytes :=
  if (0 <=? off) && (0 <=? n) && (off + n <=? zlen b)
  then Ret (take (Z.to_nat n) (drop (Z.to_nat off) b)) else Fault BadAccess.

(** [memcpy(b + off, src, ..)]: all of [src]. *)
Definition memwrite (b : bytes) (off : Z) (src : bytes) : outcome bytes :=
  if (0 <=? off) && (off + zlen src <=? zlen b)
  then Ret (take (Z.to_nat off) b ++ src ++ drop (Z.to_nat off + length src) b)
  else Fault BadAccess.

Definition load8 (b : bytes) (off : Z) : outcome Z :=
  l ← memread b off 1;
  match l with [x] => Ret x | _ => Fault BadAccess end.
Definition load16 (b : bytes) (off : Z) : outcome Z :=
  l ← memread b off 2;
  match l with [x; y] => Ret (x + 256 * y) | _ => Fault BadAccess end.
Definition load32 (b : bytes) (off : Z) : outcome Z :=
  l ← memread b off 4;
  match l with
  | [x; y; z; w] => Ret (x + 256 * y + 65536 * z + 16777216 * w)
  | _ => Fault BadAccess
  end.
Definition store8 (b : bytes) (off v : Z) : outcome bytes := memwrite b off [u8 v].
Definition store16 (b : bytes) (off v : Z) : outcome bytes := memwrite b off (bytes16 v).
Definition store32 (b : bytes) (off v : Z) : outcome bytes := memwrite b off (bytes32 v).

(** An array of [struct in_addr] laid over bytes: its whole words and the bytes
    after the last of them. *)
Fixpoint words_of_bytes (b : bytes) : list Z * bytes :=
  match b with
  | x :: y :: z :: w :: rest =>
      let '(ws, t) := words_of_bytes rest in
      ((x + 256 * y + 65536 * z + 16777216 * w) :: ws, t)
  | t => ([], t)
  end.

Fixpoint bytes_of_words (ws : list Z) : bytes :=
  match ws with [] => [] | w :: ws' => bytes32 w ++ bytes_of_words ws' end.

(** ** Lemmas *)

Lemma memread_Ret b off n l :
  memread b off n = Ret l <->
  0 <= off /\ 0 <= n /\ off + n <= zlen b /\ l = take (Z.to_nat n) (drop (Z.to_nat off) b).
Proof.
  unfold memread. case_if; [|].
  - split; [intros [= <-]; split_and!; done || lia | by intros (_ & _ & _ & ->)].
  - split; [done|]. intros (?&?&?&_). rewrite !andb_false_iff in Hif. destruct Hif as [[?|?]|?]; zb; lia.
Qed.

Lemma memread_len b off n l : memread b off n = Ret l -> zlen l = n.
Proof.
  intros (?&?&?& ->)%memread_Ret. unfold zlen in *. rewrite length_take, length_drop. lia.
Qed.

Lemma memwrite_Ret b off src b' :
  memwrite b off src = Ret b' <->
  0 <= off /\ off + zlen src <= zlen b
  /\ b' = take (Z.to_nat off) b ++ src ++ drop (Z.to_nat off + length src) b.
Proof.
  unfold memwrite. case_if.
  - split; [intros [= <-]; split_and!; done || lia | by intros (_ & _ & ->)].
  - split; [done|]. intros (?&?&_). rewrite !andb_false_iff in Hif. destruct Hif; zb; lia.
Qed.

Lemma memread_total b off n : 0 <= off -> 0 <= n -> off + n <= zlen b -> exists l, memread b off n = Ret l.
Proof.
  intros H1 H2 H3. unfold memread.
  rewrite (proj2 (Z.leb_le 0 off)), (proj2 (Z.leb_le 0 n)), (proj2 (Z.leb_le _ _)) by done. by eexists.
Qed.

Lemma memwrite_total b off src :
  0 <= off -> off + zlen src <= zlen b -> exists b', memwrite b off src = Ret b'.
Proof. intros. eexists. apply memwrite_Ret. by split_and!. Qed.

Lemma memwrite_len b off src b' : memwrite b off src = Ret b' -> zlen b' = zlen b.
Proof.
  intros (?&?& ->)%memwrite_Ret. unfold zlen in *.
  rewrite !length_app, length_take, length_drop. lia.
Qed.

Lemma memread_memwrite_same b off src b' :
  memwrite b off src = Ret b' -> memread b' off (zlen src) = Ret src.
Proof.
  intros H. pose proof (memwrite_len _ _ _ _ H) as Hl. apply memwrite_Ret in H as (?&?& ->).
  apply memread_Ret. pose proof (zlen_nonneg src). split_and!; [lia..|].
  rewrite drop_app_length' by (unfold zlen in *; rewrite length_take; lia).
  unfold zlen. by rewrite Nat2Z.id, take_app_length.
Qed.

(** A read that does not overlap a write sees what was there before. *)
Lemma memread_memwrite_disjoint b off src b' o n :
  memwrite b off src = Ret b' -> o + n <= off \/ off + zlen src <= o ->
  memread b' o n = memread b o n.
Proof.
  intros H Hd. pose proof (memwrite_len _ _ _ _ H) as Hl. apply memwrite_Ret in H as (Ho&Hs& ->).
  unfold memread. rewrite Hl. case_if; [|done]. f_equal.
  unfold zlen in *. destruct Hd as [Hd|Hd].
  - rewrite !take_drop_commute. f_equal. rewrite take_app_le by (rewrite length_take; lia).
    rewrite take_take. f_equal. lia.
  - f_equal. rewrite drop_app_ge by (rewrite length_take; lia).
    rewrite length_take, drop_app_ge by lia. rewrite drop_drop. f_equal. lia.
Qed.

(** A read inside a block that was read whole. *)
(** Writing elsewhere leaves a byte alone. *)
Lemma load8_memwrite b off src b' o :
  memwrite b off src = Ret b' -> o < off \/ off + zlen src <= o -> load8 b' o = load8 b o.
Proof. intros H Ho. unfold load8. by rewrite (memread_memwrite_disjoint _ _ _ _ o 1 H ltac:(lia)). Qed.

Lemma memread_sub b off n l o m :
  memread b off n = Ret l -> 0 <= o -> 0 <= m -> o + m <= n ->
  memread b (off + o) m = memread l o m.
Proof.
  intros H Ho Hm Hn. pose proof (memread_len _ _ _ _ H) as Hl. apply memread_Ret in H as (?&?&?&Hb).
  assert (memread b (off + o) m = Ret (take (Z.to_nat m) (drop (Z.to_nat (off + o)) b))) as ->
    by (apply memread_Ret; split_and!; done || lia).
  symmetry. apply memread_Ret. split_and!; [lia..|].
  rewrite Hb, skipn_firstn_comm, take_take, drop_drop.
  f_equal; [lia|]. f_equal. lia.
Qed.

(** Two reads side by side. *)
Lemma memread_join b off n x y :
  memread b off n = Ret x -> memread b (off + n) (zlen y) = Ret y ->
  memread b off (n + zlen y) = Ret (x ++ y).
Proof.
  intros Hx Hy. pose proof (memread_len _ _ _ _ Hx) as Hn.
  apply memread_Ret in Hx as (?&?&?&Ex). apply memread_Ret in Hy as (?&?&?&Ey).
  apply memread_Ret. split_and!; [lia..|].
  rewrite Z2Nat.inj_add by lia. rewrite <- take_take_drop, drop_drop.
  rewrite Ex at 1. rewrite Ey at 1. do 3 f_equal. lia.
Qed.

Lemma bytes16_range x : Forall is_byte (bytes16 x).
Proof. repeat constructor; apply Z.mod_pos_bound; lia. Qed.
Lemma bytes32_range x : Forall is_byte (bytes32 x).
Proof. repeat constructor; apply Z.mod_pos_bound; lia. Qed.

(** Lays a fixed number of base-256 digits back together. *)
Ltac digits x :=
  pose proof (Z.div_mod x 256 ltac:(lia)); pose proof (Z.div_mod (x / 256) 256 ltac:(lia));
  pose proof (Z.div_mod (x / 256 / 256) 256 ltac:(lia));
  pose proof (Z.mod_pos_bound x 256 ltac:(lia));
  pose proof (Z.mod_pos_bound (x / 256) 256 ltac:(lia));
  pose proof (Z.mod_pos_bound (x / 256 / 256) 256 ltac:(lia)).

Lemma le16_bytes16 x : 0 <= x < 65536 -> x mod 256 + 256 * (x / 256 mod 256) = x.
Proof. intros. rewrite (Z.mod_small (x / 256)) by (split; [apply Z.div_pos | apply Z.div_lt_upper_bound]; lia).
  pose proof (Z.div_mod x 256). lia. Qed.

Lemma le32_bytes32 x : is_word x ->
  x mod 256 + 256 * (x / 256 mod 256) + 65536 * (x / 65536 mod 256)
  + 16777216 * (x / 16777216 mod 256) = x.
Proof.
  intros Hx. unfold is_word in Hx.
  replace (x / 16777216) with (x / 256 / 256 / 256) by (rewrite !Z.div_div by lia; done).
  replace (x / 65536) with (x / 256 / 256) by (rewrite Z.div_div by lia; done).
  rewrite (Z.mod_small (x / 256 / 256 / 256)).
  2: { rewrite !Z.div_div by lia. split; [apply Z.div_pos | apply Z.div_lt_upper_bound]; lia. }
  digits x. lia.
Qed.

Lemma words_of_bytes_app ws t :
  Forall is_word ws -> (length t < 4)%nat -> words_of_bytes (bytes_of_words ws ++ t) = (ws, t).
Proof.
  intros Hw Ht. induction Hw as [|w ws Hw _ IH]; simpl.
  - destruct t as [|? [|? [|? [|]]]]; simpl in *; done || lia.
  - rewrite IH. by rewrite le32_bytes32.
Qed.

Lemma words_of_bytes_inv b ws t :
  Forall is_byte b -> words_of_bytes b = (ws, t) ->
  b = bytes_of_words ws ++ t /\ Forall is_word ws /\ (length t < 4)%nat.
Proof.
  remember (length b) as n eqn:Hn. revert b ws t Hn.
  induction n as [n IH] using lt_wf_ind. intros b ws t Hn Hb Hw.
  destruct b as [|x [|y [|z [|w b]]]];
    try (simpl in Hw; injection Hw as <- <-; simpl; split_and!; [done | constructor | simpl; lia]).
  simpl in Hw. destruct (words_of_bytes b) as [ws' t'] eqn:E. injection Hw as <- <-.
  inversion Hb as [|? ? Hx Hb1]; subst. inversion Hb1 as [|? ? Hy Hb2]; subst.
  inversion Hb2 as [|? ? Hz Hb3]; subst. inversion Hb3 as [|? ? Hww Hb4]; subst.
  destruct (IH (length b) ltac:(simpl; lia) b ws' t' eq_refl Hb4 E) as (-> & Hws & Ht).
  unfold is_byte in *. split_and!; [|constructor; [unfold is_word; lia | done] | done].
  simpl. unfold bytes32.
  set (v := x + 256 * y + 65536 * z + 16777216 * w).
  assert (Hv : v = x + 256 * (y + 256 * (z + 256 * w))) by (unfold v; lia).
  replace (v / 16777216) with (v / 256 / 256 / 256) by (rewrite !Z.div_div by lia; done).
  replace (v / 65536) with (v / 256 / 256) by (rewrite Z.div_div by lia; done).
  assert (forall q r, 0 <= r < 256 -> (r + 256 * q) mod 256 = r /\ (r + 256 * q) / 256 = q) as Hd.
  { intros q r Hr. split.
    - rewrite Z.mul_comm, Z_mod_plus_full. by apply Z.mod_small.
    - rewrite Z.mul_comm, Z.div_add by lia. rewrite Z.div_small; lia. }
  rewrite Hv. destruct (Hd (y + 256 * (z + 256 * w)) x Hx) as [-> ->].
  destruct (Hd (z + 256 * w) y Hy) as [-> ->]. destruct (Hd w z Hz) as [-> ->].
  rewrite (Z.mod_small w) by lia. done.
Qed.

Lemma bytes_of_words_len ws : zlen (bytes_of_words ws) = 4 * zlen ws.
Proof. induction ws as [|w ws IH]; [done|]. simpl. autorewrite with dsr_rw. lia. Qed.

Lemma bytes_of_words_app ws vs : bytes_of_words (ws ++ vs) = bytes_of_words ws ++ bytes_of_words vs.
Proof. induction ws as [|w ws IH]; [done|]. simpl. by rewrite IH. Qed.

Lemma bytes_of_words_range ws : Forall is_byte (bytes_of_words ws).
Proof.
  induction ws as [|w ws IH]; simpl; [constructor|].
  repeat constructor; try apply Z.mod_pos_bound; try lia. done.
Qed.
#[export] Hint Rewrite bytes_of_words_len : dsr_rw.
#[export] Hint Resolve bytes_of_words_range bytes16_range bytes32_range : dsr_arith.
