(* ===== verification/Dev.v ===== *)
(** * The virtual device (dsr-dev.c)

    The life of the module's own network device: how it is created and taken
    down, how it finds the slave device that carries its packets, and what the
    kernel's notifications about devices and addresses do to both.  A device is
    known by a number; the slave's name is the array the code compares. *)

From S2P Require Import Prelude Mem Config.

(** ** What the kernel keeps *)

(** The two settings of a device's [struct in_device] that are changed. *)
Record in_cnf := InCnf { rp_filter_of : Z; forwarding_of : Z }.

(** What the calls into the kernel leave there: for each device the references
    taken by [dev_hold] and [in_dev_get] and not yet given back, the settings of
    its [in_device], how often it was made promiscuous; and the device whose
    packets go to [dsr_dev_llrecv]. *)
Record kernel := Kernel {
  refs : Z -> Z;
  in_refs : Z -> Z;
  cnf : Z -> in_cnf;
  promisc_of : Z -> Z;
  pack : option Z
}.

Definition upd {A} (f : Z -> A) (d : Z) (v : A) : Z -> A := λ x, if x =? d then v else f x.

Definition add_ref (d n : Z) (k : kernel) : kernel := Kernel (upd (refs k) d (refs k d + n)) (in_refs k) (cnf k) (promisc_of k) (pack k).
Definition add_in_ref (d n : Z) (k : kernel) : kernel := Kernel (refs k) (upd (in_refs k) d (in_refs k d + n)) (cnf k) (promisc_of k) (pack k).
Definition set_cnf (d : Z) (c : in_cnf) (k : kernel) : kernel := Kernel (refs k) (in_refs k) (upd (cnf k) d c) (promisc_of k) (pack k).
Definition add_promisc (d n : Z) (k : kernel) : kernel := Kernel (refs k) (in_refs k) (cnf k) (upd (promisc_of k) d (promisc_of k d + n)) (pack k).
Definition set_pack (p : option Z) (k : kernel) : kernel := Kernel (refs k) (in_refs k) (cnf k) (promisc_of k) p.

(** A [struct net_device]: its number, its name and its MTU. *)
Record net_device := NetDevice { nd_id : Z; nd_name : bytes; nd_mtu : Z }.

(** ** The state *)

(** The device's [struct dsr_node] with the fields only dsr-dev.c uses, the
    variables of the file and the kernel. *)
Record dev_st := DevSt {
  dsr_dev : Z;
  dev_mtu : Z;
  dev_addr : bytes;
  dev_running : bool; (** its queue is started *)
  dnode : dsr_node;
  dsr_node_set : bool; (** the global [dsr_node] is not NULL *)
  slave_ifname : bytes;
  slave : option Z; (** [slave_dev] *)
  slave_indev : option Z; (** the device of the [in_device] *)
  rp_filter : Z;
  forwarding : Z;
  pt_func : bool; (** [dsr_packet_type.func] is not NULL *)
  pt_dev : option Z; (** [dsr_packet_type.dev] *)
  kern : kernel
}.

Definition set_mtu (s : dev_st) v := DevSt (dsr_dev s) v (dev_addr s) (dev_running s) (dnode s) (dsr_node_set s) (slave_ifname s) (slave s) (slave_indev s) (rp_filter s) (forwarding s) (pt_func s) (pt_dev s) (kern s).
Definition set_hw (s : dev_st) v := DevSt (dsr_dev s) (dev_mtu s) v (dev_running s) (dnode s) (dsr_node_set s) (slave_ifname s) (slave s) (slave_indev s) (rp_filter s) (forwarding s) (pt_func s) (pt_dev s) (kern s).
Definition set_running (s : dev_st) v := DevSt (dsr_dev s) (dev_mtu s) (dev_addr s) v (dnode s) (dsr_node_set s) (slave_ifname s) (slave s) (slave_indev s) (rp_filter s) (forwarding s) (pt_func s) (pt_dev s) (kern s).
Definition set_dnode (s : dev_st) v := DevSt (dsr_dev s) (dev_mtu s) (dev_addr s) (dev_running s) v (dsr_node_set s) (slave_ifname s) (slave s) (slave_indev s) (rp_filter s) (forwarding s) (pt_func s) (pt_dev s) (kern s).
Definition set_slave (s : dev_st) v := DevSt (dsr_dev s) (dev_mtu s) (dev_addr s) (dev_running s) (dnode s) (dsr_node_set s) (slave_ifname s) v (slave_indev s) (rp_filter s) (forwarding s) (pt_func s) (pt_dev s) (kern s).
Definition set_indev (s : dev_st) v := DevSt (dsr_dev s) (dev_mtu s) (dev_addr s) (dev_running s) (dnode s) (dsr_node_set s) (slave_ifname s) (slave s) v (rp_filter s) (forwarding s) (pt_func s) (pt_dev s) (kern s).
Definition set_saved (s : dev_st) r f := DevSt (dsr_dev s) (dev_mtu s) (dev_addr s) (dev_running s) (dnode s) (dsr_node_set s) (slave_ifname s) (slave s) (slave_indev s) r f (pt_func s) (pt_dev s) (kern s).
Definition set_pt (s : dev_st) f d := DevSt (dsr_dev s) (dev_mtu s) (dev_addr s) (dev_running s) (dnode s) (dsr_node_set s) (slave_ifname s) (slave s) (slave_indev s) (rp_filter s) (forwarding s) f d (kern s).
Definition set_gone (s : dev_st) := DevSt (dsr_dev s) (dev_mtu s) (dev_addr s) (dev_running s) (dnode s) false (slave_ifname s) (slave s) (slave_indev s) (rp_filter s) (forwarding s) (pt_func s) (pt_dev s) (kern s).
Definition on_kern (f : kernel -> kernel) (s : dev_st) := DevSt (dsr_dev s) (dev_mtu s) (dev_addr s) (dev_running s) (dnode s) (dsr_node_set s) (slave_ifname s) (slave s) (slave_indev s) (rp_filter s) (forwarding s) (pt_func s) (pt_dev s) (f (kern s)).

(** [ConfVal(PromiscOperation)] *)
Definition promisc_conf (s : dev_st) : bool :=
  negb (get_confval (if dsr_node_set s then Some (dnode s) else None) PromiscOperation =? 0).

(** [strcmp(a, b) == 0] *)
Fixpoint strcmp_eq (a b : bytes) : outcome bool :=
  match a, b with
  | x :: a', y :: b' => if x =? y then (if x =? 0 then Ret true else strcmp_eq a' b') else Ret false
  | _, _ => Fault BadAccess
  end.

(** ** Notifications *)

Inductive netdev_event := NETDEV_REGISTER | NETDEV_CHANGE | NETDEV_UP | NETDEV_UNREGISTER | NETDEV_DOWN | NETDEV_OTHER.

(** A [struct in_ifaddr]; [ifa_dev] is the device of its [in_device]. *)
Record in_ifaddr := InIfaddr { ifa_address : Z; ifa_broadcast : Z; ifa_dev : option Z }.

Section Dev.
(** Whether a device has an [in_device], what [is_valid_ether_addr] and
    [get_random_bytes] answer. *)
Context (has_in : Z -> bool) (is_valid_ether_addr : bytes -> bool).

(** [in_dev_get(dev)]; it reads through [dev]. *)
Definition in_dev_get (d : option Z) (s : dev_st) : outcome (option Z * dev_st) :=
  d ← deref d;
  Ret (if has_in d then (Some d, on_kern (add_in_ref d 1) s) else (None, s)).

Definition dsr_dev_inetaddr_event (event : netdev_event) (ifa : option in_ifaddr) (s : dev_st) : outcome dev_st :=
  match ifa with
  | None => Ret s
  | Some ifa =>
      match ifa_dev ifa with
      | None => Ret s
      | Some indev =>
          match event with
          | NETDEV_UP =>
              if indev =? dsr_dev s then
                let s := set_dnode s (DsrNode (ifa_address ifa) (ifa_broadcast ifa) (confvals (dnode s))) in
                '(i, s) ← in_dev_get (slave s) s;
                let s := set_indev s i in
                (* Disable rp_filter and enable forwarding *)
                Ret (match i with
                     | Some d =>
                         let c := cnf (kern s) d in
                         on_kern (set_cnf d (InCnf 0 1)) (set_saved s (rp_filter_of c) (forwarding_of c))
                     | None => s
                     end)
              else Ret s
          | _ => Ret s
          end
      end
  end.

(** The settings go back and the [in_device] is given up. *)
Definition restore_slave (s : dev_st) : dev_st :=
  match slave_indev s with
  | Some d => set_indev (on_kern (λ k, add_in_ref d (-1) (set_cnf d (InCnf (rp_filter s) (forwarding s)) k)) s) None
  | None => s
  end.

Definition dsr_dev_netdev_event (event : netdev_event) (dev : option net_device) (s : dev_st) : outcome dev_st :=
  match dev with
  | None => Ret s
  | Some dev =>
      match event with
      | NETDEV_REGISTER =>
          found ← (match slave s with None => strcmp_eq (nd_name dev) (slave_ifname s) | Some _ => Ret false end);
          if (found : bool) then
            let s := on_kern (add_ref (nd_id dev) 1) (set_slave s (Some (nd_id dev))) in
            (* Reduce the MTU to allow DSR options *)
            let s := set_mtu s (u32 (nd_mtu dev - DSR_OPTS_MAX_SIZE)) in
            Ret (on_kern (set_pack (Some (nd_id dev))) (set_pt s true (Some (nd_id dev))))
          else Ret s
      | NETDEV_UP =>
          if promisc_conf s && (nd_id dev =? dsr_dev s) then
            Ret (match slave s with Some d => on_kern (add_promisc d 1) s | None => s end)
          else Ret s
      | NETDEV_UNREGISTER =>
          if decide (Some (nd_id dev) = slave s) then
            let s := set_pt (on_kern (set_pack None) s) false (pt_dev s) in
            Ret (set_slave (on_kern (add_ref (nd_id dev) (-1)) s) None)
          else Ret s
      | NETDEV_DOWN =>
          if nd_id dev =? dsr_dev s then
            let s := match slave s with
                     | Some d => if promisc_conf s then on_kern (add_promisc d (-1)) s else s
                     | None => s
                     end in
            Ret (restore_slave s)
          else if decide (Some (nd_id dev) = slave s) then Ret (restore_slave s)
          else Ret s
      | NETDEV_CHANGE | NETDEV_OTHER => Ret s
      end
  end.

(** ** The device's own operations *)

Definition dsr_dev_set_address (sa_data : bytes) (s : dev_st) : outcome (Z * dev_st) :=
  if is_valid_ether_addr sa_data then
    a ← memread sa_data 0 6; Ret (0, set_hw s a)
  else Ret (- EADDRNOTAVAIL, s).

Definition dsr_dev_open (s : dev_st) : Z * dev_st := (0, set_running s true).
Definition dsr_dev_stop (s : dev_st) : Z * dev_st := (0, set_running s false).

(** [slave_dev] and [slave_indev] keep their values: their memory goes next. *)
Definition dsr_dev_uninit (s : dev_st) : dev_st :=
  let s := match slave s with Some d => on_kern (add_ref d (-1)) s | None => s end in
  let s := match slave_indev s with Some d => on_kern (add_in_ref d (-1)) s | None => s end in
  let s := if pt_func s then set_pt (on_kern (set_pack None) s) false (pt_dev s) else s in
  set_gone (on_kern (add_ref (dsr_dev s) (-1)) s).

(** The configuration command for PromiscOperation with a value that is 0 or 1;
    [dev_set_promiscuity] reads through its argument. *)
Definition config_promisc (val : Z) (s : dev_st) : outcome dev_st :=
  if dsr_node_set s then
    let val_prev := get_confval (Some (dnode s)) PromiscOperation in
    let s := match set_confval (Some (dnode s)) PromiscOperation val with (_, Some n) => set_dnode s n | _ => s end in
    if val_prev =? val then Ret s
    else d ← deref (slave s); Ret (on_kern (add_promisc d (if val =? 0 then -1 else 1)) s)
  else Ret s.

(** ** Setting up and taking down *)

(** What the kernel answers while the device is set up: the new device with
    zeroed memory and a random address, the devices there are (with whether they
    are wireless), the results of the registrations, and what it reports when the
    notifier is registered. *)
Record init_ans := InitAns {
  a_netdev : option (Z * bytes);
  a_devs : list (bool * net_device);
  a_register : Z;
  a_notifier : Z;
  a_replay : list (netdev_event * net_device);
  a_inetaddr : Z
}.

Fixpoint netdev_events (l : list (netdev_event * net_device)) (s : dev_st) : outcome dev_st :=
  match l with
  | [] => Ret s
  | (e, d) :: l' => s ← dsr_dev_netdev_event e (Some d) s; netdev_events l' s
  end.

Definition IFNAMSIZ : Z := 16.

(** [alloc_netdev] with [dsr_dev_setup], and [dsr_node_init].  An old value of
    [dsr_packet_type] is left as it is until the device is registered. *)
Definition dev_alloc (d : Z) (addr name : bytes) (k : kernel) : dev_st :=
  DevSt d 1500 addr false (dsr_node_init (DsrNode 0 0 [])) true name None None 0 0 false None k.

(** The name of the slave: the one given, or that of the first wireless device. *)
Definition slave_name (ifname : option bytes) (devs : list (bool * net_device)) : outcome (option bytes) :=
  match ifname with
  | Some b => n ← memread b 0 IFNAMSIZ; Ret (Some n)
  | None =>
      match find fst devs with
      | Some (_, dev) => n ← memread (nd_name dev) 0 IFNAMSIZ; Ret (Some n)
      | None => Ret None
      end
  end.

(** [unregister_netdev] closes the device and calls back. *)
Definition unregister_netdev (s : dev_st) : dev_st := dsr_dev_uninit (dsr_dev_stop s).2.

(** The result, and the device's state and the kernel's.  [free_netdev] ends the
    former. *)
Definition dsr_dev_init (ifname : option bytes) (a : init_ans) (k : kernel) : outcome (Z * option dev_st * kernel) :=
  match a_netdev a with
  | None => Ret (- ENOMEM, None, k)
  | Some (d, addr) =>
      name ← slave_name ifname (a_devs a);
      match name with
      | None => (* No preferred slave device found *) Ret (-1, None, k)
      | Some name =>
          let s := dev_alloc d addr name k in
          if a_register a <? 0 then Ret (a_register a, None, kern s)
          else if a_notifier a <? 0 then Ret (a_notifier a, None, kern (unregister_netdev s))
          else
            s ← netdev_events (a_replay a) s;
            if a_inetaddr a <? 0 then Ret (a_inetaddr a, None, kern (unregister_netdev s))
            else (* We increment usage count since we hold a reference *)
              let s := on_kern (add_ref (dsr_dev s) 1) s in Ret (0, Some s, kern s)
      end
  end.

(** The notifiers are gone when the device goes. *)
Definition dsr_dev_cleanup (s : dev_st) : kernel := kern (unregister_netdev s).

(** ** What the kernel and the user do *)

Inductive dev_event :=
| DevInetaddr (ev : netdev_event) (ifa : option in_ifaddr)
| DevNetdev (ev : netdev_event) (dev : option net_device)
| DevAddress (sa_data : bytes)
| DevOpen
| DevStop
| DevPromisc (val : Z).

Definition dev_handle (e : dev_event) (s : dev_st) : outcome dev_st :=
  match e with
  | DevInetaddr ev ifa => dsr_dev_inetaddr_event ev ifa s
  | DevNetdev ev dev => dsr_dev_netdev_event ev dev s
  | DevAddress sa => '(_, s) ← dsr_dev_set_address sa s; Ret s
  | DevOpen => Ret (dsr_dev_open s).2
  | DevStop => Ret (dsr_dev_stop s).2
  | DevPromisc val => config_promisc val s
  end.

Fixpoint dev_run (l : list dev_event) (s : dev_st) : outcome dev_st :=
  match l with [] => Ret s | e :: l' => s ← dev_handle e s; dev_run l' s end.
End Dev.

(** ** References and settings *)

Lemma upd_eq {A} (f : Z -> A) d v : upd f d v d = v.
Proof. unfold upd. by rewrite Z.eqb_refl. Qed.
Lemma upd_ne {A} (f : Z -> A) d v x : x <> d -> upd f d v x = f x.
Proof. intros H. unfold upd. by rewrite (proj2 (Z.eqb_neq _ _) H). Qed.

(** How often [d] is in [o]. *)
Definition held (o : option Z) (d : Z) : Z := if decide (o = Some d) then 1 else 0.

Lemma held_None d : held None d = 0.
Proof. done. Qed.
Lemma held_Some d x : held (Some d) x = if x =? d then 1 else 0.
Proof. unfold held. case_decide as H; case_if; zb; naive_solver. Qed.

(** Between the calls from the kernel: the packet type is registered on the
    slave; the module holds one reference to the slave, and [own] to its own device; and only the slave in use has other settings than the administrator's,
    [orig], which the module remembers. *)
Record dev_ok (orig : Z -> in_cnf) (own : Z) (s : dev_st) : Prop := {
  dk_pack : pack (kern s) = slave s;
  dk_func : pt_func s = bool_decide (is_Some (slave s));
  dk_refs d : refs (kern s) d = held (slave s) d + own * held (Some (dsr_dev s)) d;
  dk_indev d : slave_indev s = Some d -> slave s = Some d;
  dk_in_refs d : in_refs (kern s) d = held (slave_indev s) d;
  dk_cnf d : cnf (kern s) d = if decide (slave_indev s = Some d) then InCnf 0 1 else orig d;
  dk_saved d : slave_indev s = Some d -> orig d = InCnf (rp_filter s) (forwarding s)
}.

(** The kernel and the user keep to this: the device gets an address when it has
    a slave and no address yet; a device is down before it goes away; names and
    hardware addresses are whole; PromiscOperation is set when there is a slave. *)
Definition orderly (s : dev_st) (e : dev_event) : Prop :=
  match e with
  | DevInetaddr NETDEV_UP (Some i) => ifa_dev i = Some (dsr_dev s) -> is_Some (slave s) /\ slave_indev s = None
  | DevNetdev NETDEV_REGISTER (Some d) => exists b, strcmp_eq (nd_name d) (slave_ifname s) = Ret b
  | DevNetdev NETDEV_UNREGISTER (Some d) => slave s = Some (nd_id d) -> slave_indev s = None
  | DevAddress sa => 6 <= zlen sa
  | DevPromisc _ => is_Some (slave s)
  | _ => True
  end.

Lemma dev_ok_restore orig own s : dev_ok orig own s -> dev_ok orig own (restore_slave s).
Proof.
  intros [H1 H2 H3 H4 H5 H6 H7]. unfold restore_slave. destruct (slave_indev s) as [d|] eqn:E; [|by split; rewrite ?E].
  split; cbn; try done.
  - intros x. unfold upd. rewrite !H5, !held_Some, held_None. destruct (x =? d) eqn:Ex; zb; [|done]. by rewrite Z.eqb_refl.
  - intros x. unfold upd. destruct (x =? d) eqn:Ex; zb.
    + subst x. symmetry. by apply H7.
    + rewrite H6, decide_False; [done|congruence].
Qed.

Lemma dev_ok_promisc orig own s d n : dev_ok orig own s -> dev_ok orig own (on_kern (add_promisc d n) s).
Proof. by intros []. Qed.

Section Invariant.
Context (has_in : Z -> bool) (is_valid_ether_addr : bytes -> bool).

Lemma inetaddr_up_ok orig own s i :
  dev_ok orig own s -> orderly s (DevInetaddr NETDEV_UP (Some i)) ->
  exists s', dsr_dev_inetaddr_event has_in NETDEV_UP (Some i) s = Ret s' /\ dev_ok orig own s'.
Proof.
  intros Hok Ho. unfold dsr_dev_inetaddr_event. destruct (ifa_dev i) as [dv|] eqn:Ei; [|by exists s].
  destruct (dv =? dsr_dev s) eqn:E; zb; [|by exists s]. subst dv. destruct (Ho Ei) as [[d Hd] Hi].
  cbn. rewrite Hd. cbn. destruct Hok as [H1 H2 H3 H4 H5 H6 H7].
  assert (Hno : forall x, slave_indev s <> Some x) by congruence.
  destruct (has_in d); cbn; (eexists; split; [reflexivity|]).
  - split; cbn; try done.
    + intros x [= <-]. done.
    + intros x. unfold upd. rewrite held_Some, !H5, Hi, !held_None. by destruct (x =? d).
    + intros x. unfold upd. rewrite H6, Hi. destruct (x =? d) eqn:E; zb; repeat case_decide; congruence.
    + intros x [= <-]. rewrite H6, decide_False by done. by destruct (orig d).
  - split; cbn; try done.
    + intros x. rewrite H5. by rewrite Hi.
    + intros x. by rewrite H6, Hi.
Qed.

Lemma register_ok orig own s d :
  dev_ok orig own s -> orderly s (DevNetdev NETDEV_REGISTER (Some d)) ->
  exists s', dsr_dev_netdev_event NETDEV_REGISTER (Some d) s = Ret s' /\ dev_ok orig own s'.
Proof.
  intros Hok [b Hb]. cbn. destruct (slave s) as [x|] eqn:Es; [by exists s|]. rewrite Hb. cbn.
  destruct b; [|by exists s]. eexists; split; [reflexivity|].
  destruct Hok as [H1 H2 H3 H4 H5 H6 H7].
  assert (Hno : slave_indev s = None) by (destruct (slave_indev s) as [y|]; [by rewrite (H4 y) in Es|done]).
  split; cbn; try done.
  - intros x. unfold upd. rewrite !H3, Es, !held_None, !held_Some. repeat (case_if; zb; subst); lia.
  - intros x Hx. congruence.
Qed.

Lemma unregister_ok orig own s d :
  dev_ok orig own s -> orderly s (DevNetdev NETDEV_UNREGISTER (Some d)) ->
  exists s', dsr_dev_netdev_event NETDEV_UNREGISTER (Some d) s = Ret s' /\ dev_ok orig own s'.
Proof.
  intros Hok Ho. cbn in *. case_decide as E; [|by exists s]. symmetry in E. specialize (Ho E).
  eexists; split; [reflexivity|]. destruct Hok as [H1 H2 H3 H4 H5 H6 H7]. split; cbn; try done.
  - intros x. unfold upd. rewrite !H3, E, !held_None, !held_Some. repeat (case_if; zb; subst); lia.
  - intros x Hx. congruence.
Qed.

(** Every call from the kernel ends well and keeps the account in order. *)
Lemma dev_handle_ok orig own s e :
  dev_ok orig own s -> orderly s e -> exists s', dev_handle has_in is_valid_ether_addr e s = Ret s' /\ dev_ok orig own s'.
Proof.
  intros Hok Ho. destruct e as [ev ifa|ev dev|sa| | |v]; unfold dev_handle.
  - destruct ifa as [i|]; [|by exists s]. destruct ev; try (exists s; split; [|done]; cbn; by destruct (ifa_dev i)).
    by apply inetaddr_up_ok.
  - destruct dev as [d|]; [|by exists s]. destruct ev; try by exists s.
    + by apply register_ok.
    + cbn. case_if; [|by exists s]. destruct (slave s); eexists; split; try done. by apply dev_ok_promisc.
    + by apply unregister_ok.
    + cbn. case_if.
      * eexists; split; [done|]. apply dev_ok_restore. destruct (slave s); [|done]. case_if; [|done]. by apply dev_ok_promisc.
      * case_decide; [|by exists s]. eexists; split; [done|]. by apply dev_ok_restore.
  - unfold dsr_dev_set_address. case_if; [|by exists s]. cbn in Ho.
    destruct (memread_total sa 0 6) as [a ->]; [lia..|]. cbn. eexists; split; [done|]. by destruct Hok.
  - eexists; split; [done|]. by destruct Hok.
  - eexists; split; [done|]. by destruct Hok.
  - unfold config_promisc. destruct Ho as [d Hd]. case_if; [|by exists s]. cbn -[get_confval]. rewrite Hd.
    case_if; cbn -[get_confval]; eexists; (split; [reflexivity|]); [|apply dev_ok_promisc]; by destruct Hok.
Qed.

(** Runs of such calls. *)
Fixpoint orderly_run (l : list dev_event) (s : dev_st) : Prop :=
  match l with
  | [] => True
  | e :: l' => orderly s e /\ forall s', dev_handle has_in is_valid_ether_addr e s = Ret s' -> orderly_run l' s'
  end.

Lemma dev_run_ok orig own l s :
  dev_ok orig own s -> orderly_run l s -> exists s', dev_run has_in is_valid_ether_addr l s = Ret s' /\ dev_ok orig own s'.
Proof.
  revert s. induction l as [|e l IH]; intros s Hok Hl; [by exists s|]. destruct Hl as [He Hl].
  destruct (dev_handle_ok orig own s e Hok He) as (s' & E & Hok'). cbn. rewrite E. cbn. by apply IH, Hl.
Qed.

Lemma netdev_events_run l s :
  netdev_events l s = dev_run has_in is_valid_ether_addr ((λ e, DevNetdev e.1 (Some e.2)) <$> l) s.
Proof. revert s. induction l as [|[e d] l IH]; intros s; [done|]. cbn. apply bind_ext, IH. Qed.

(** A kernel in which the module has left no trace. *)
Record untouched (k : kernel) : Prop := {
  ut_refs d : refs k d = 0;
  ut_in_refs d : in_refs k d = 0;
  ut_promisc d : promisc_of k d = 0;
  ut_pack : pack k = None
}.

Lemma dev_alloc_ok d addr name k : untouched k -> dev_ok (cnf k) 0 (dev_alloc d addr name k).
Proof. intros []. by split. Qed.

Lemma unregister_netdev_ok orig own s :
  dev_ok orig own s ->
  let k := kern (unregister_netdev s) in
  (forall d, refs k d = (own - 1) * held (Some (dsr_dev s)) d) /\ (forall d, in_refs k d = 0) /\ pack k = None
  /\ forall d, cnf k d = if decide (slave_indev s = Some d) then InCnf 0 1 else orig d.
Proof.
  intros [H1 H2 H3 H4 H5 H6 H7]. unfold unregister_netdev, dsr_dev_uninit, dsr_dev_stop. cbn.
  destruct (slave s) as [x|] eqn:Es, (slave_indev s) as [y|] eqn:Ei; cbn; rewrite Ei; cbn; rewrite H2; cbn;
    (split_and!; [intros d; unfold upd; rewrite !H3, ?held_Some, ?held_None; repeat (case_if; zb; subst); lia
                 |intros d; unfold upd; rewrite ?H5, ?held_Some, ?held_None; repeat (case_if; zb; subst); lia
                 |congruence|done]).
Qed.

(** What the kernel reports while the notifier is registered. *)
Definition replayed (a : init_ans) : list dev_event := (λ e, DevNetdev e.1 (Some e.2)) <$> a_replay a.

(** The device while the notifier is being registered. *)
Lemma replay_ok d addr name a k :
  untouched k -> orderly_run (replayed a) (dev_alloc d addr name k) ->
  exists s, netdev_events (a_replay a) (dev_alloc d addr name k) = Ret s /\ dev_ok (cnf k) 0 s.
Proof. intros Hk Hl. rewrite netdev_events_run. by apply dev_run_ok; [apply dev_alloc_ok|]. Qed.

(** The reports are orderly, too. *)
Definition replay_orderly (ifname : option bytes) (a : init_ans) (k : kernel) : Prop :=
  forall d addr name, a_netdev a = Some (d, addr) -> slave_name ifname (a_devs a) = Ret (Some name) ->
    orderly_run (replayed a) (dev_alloc d addr name k).

Lemma dsr_dev_init_ok ifname a k s0 k0 :
  untouched k -> dsr_dev_init ifname a k = Ret (0, Some s0, k0) -> replay_orderly ifname a k -> dev_ok (cnf k) 1 s0.
Proof.
  intros Hk Hi Ha. unfold dsr_dev_init in Hi. destruct (a_netdev a) as [[d addr]|] eqn:Ed; [|done].
  obind Hi as n En. destruct n as [name|]; [|done]. case_match; [done|]. case_match; [done|].
  destruct (replay_ok d addr name a k Hk (Ha _ _ _ Ed En)) as (s1 & E & Hok). rewrite E in Hi. cbn in Hi.
  case_match; [done|]. injection Hi as <- <-. destruct Hok as [A1 A2 A3 A4 A5 A6 A7]. split; cbn; try done.
  intros x. unfold upd. rewrite !A3, !held_Some. repeat (case_if; zb; subst); lia.
Qed.


(** The devices' notifications leave the device itself, and one without address
    data, what it is. *)
Lemma netdev_event_keeps e d s s' :
  dsr_dev_netdev_event e (Some d) s = Ret s' ->
  dsr_dev s' = dsr_dev s /\ (slave_indev s = None -> slave_indev s' = None).
Proof.
  unfold dsr_dev_netdev_event, restore_slave. intros E. destruct e.
  1: obind E as f Ef; destruct f; by injection E as <-.
  all: repeat (case_match; simplify_eq/=; try done).
  all: by injection E as <-.
Qed.

Lemma netdev_events_keep l s s' :
  netdev_events l s = Ret s' -> dsr_dev s' = dsr_dev s /\ (slave_indev s = None -> slave_indev s' = None).
Proof.
  revert s. induction l as [|[e d] l IH]; intros s; cbn; [by intros [= <-]|]. intros H. obind H as s1 E.
  apply netdev_event_keeps in E as [E1 E2]. apply IH in H as [H1 H2]. split; [congruence|auto].
Qed.

(** Whether [dsr_dev_init] registers the device. *)
Definition registers (ifname : option bytes) (a : init_ans) : bool :=
  match slave_name ifname (a_devs a) with Ret (Some _) => negb (a_register a <? 0) | _ => false end.

(** A failure is a negative result and leaves no device. *)
Lemma dsr_dev_init_result ifname a k res o k' :
  dsr_dev_init ifname a k = Ret (res, o, k') -> (res < 0 /\ o = None) \/ (res = 0 /\ exists s, o = Some s).
Proof.
  unfold dsr_dev_init. intros H. destruct (a_netdev a) as [[d addr]|]; [|injection H as <- <- <-; left; split; [unfold ENOMEM; lia|done]].
  obind H as n En. destruct n as [name|]; [|injection H as <- <- <-; left; split; [lia|done]].
  destruct (a_register a <? 0) eqn:E1; [injection H as <- <- <-; zb; by left|].
  destruct (a_notifier a <? 0) eqn:E2; [injection H as <- <- <-; zb; by left|].
  obind H as s Es. destruct (a_inetaddr a <? 0) eqn:E3; injection H as <- <- <-; zb; [by left|right; split; [done|by eexists]].
Qed.

(** Setting up may fail.  Then nothing is left registered, no setting is
    changed and no reference kept; but when it fails after the device was
    registered, one reference too many to it is given back, since
    [dsr_dev_uninit] drops the one that is only taken at the end of
    [dsr_dev_init]. *)
Theorem dsr_dev_init_fails ifname a k res o k' :
  untouched k -> dsr_dev_init ifname a k = Ret (res, o, k') -> res <> 0 ->
  replay_orderly ifname a k ->
  o = None /\ res < 0 /\ pack k' = None
  /\ forall d, in_refs k' d = 0 /\ cnf k' d = cnf k d
       /\ refs k' d = if registers ifname a then - held (fst <$> a_netdev a) d else 0.
Proof.
  intros Hk Hi Hne Ha. unfold dsr_dev_init, registers in *. destruct (a_netdev a) as [[d addr]|] eqn:Ed.
  2: { injection Hi as <- <- <-. split_and!; try done; [by apply ut_pack|]. intros d. split_and!; [by apply ut_in_refs|done|].
       rewrite ut_refs by done. by destruct (slave_name _ _) as [[n|]|]; [destruct (negb _)|..]. }
  destruct (slave_name ifname (a_devs a)) as [[name|]|] eqn:Esn; cbn in Hi; [|injection Hi as <- <- <-; by destruct Hk|done].
  destruct (a_register a <? 0) eqn:Er; zb; [injection Hi as <- <- <-; by destruct Hk|]. cbn [negb fmap option_fmap option_map fst].
  destruct (a_notifier a <? 0) eqn:En; zb.
  - injection Hi as <- <- <-.
    destruct (unregister_netdev_ok _ _ _ (dev_alloc_ok d addr name k Hk)) as (R1 & R2 & R3 & R4).
    split_and!; [done..|]. intros x. split_and!; [done|by rewrite R4|]. rewrite R1. cbn [dsr_dev dev_alloc]. lia.
  - destruct (replay_ok d addr name a k Hk (Ha _ _ _ Ed Esn)) as (s1 & E & Hok). rewrite E in Hi. cbn in Hi.
    case_match; [|by injection Hi as <- <- <-]. zb. injection Hi as <- <- <-.
    destruct (netdev_events_keep _ _ _ E) as [Hd Hno]. specialize (Hno eq_refl).
    destruct (unregister_netdev_ok _ _ _ Hok) as (R1 & R2 & R3 & R4).
    split_and!; [done..|]. intros x. split_and!; [done|by rewrite R4, Hno|]. rewrite R1, Hd. cbn [dsr_dev dev_alloc]. lia.
Qed.

(** A second address while the device has one: the module forgets what the
    slave's settings were, and one reference is never given back. *)
Lemma second_address_loses orig s i d :
  dev_ok orig 1 s -> slave_indev s = Some d -> has_in d = true -> ifa_dev i = Some (dsr_dev s) ->
  exists s1, dsr_dev_inetaddr_event has_in NETDEV_UP (Some i) s = Ret s1
    /\ let s2 := restore_slave s1 in
       slave_indev s2 = None /\ in_refs (kern s2) d = 1 /\ cnf (kern s2) d = InCnf 0 1.
Proof.
  intros [H1 H2 H3 H4 H5 H6 H7] Hd Hi Ha. unfold dsr_dev_inetaddr_event. rewrite Ha, Z.eqb_refl.
  unfold in_dev_get. cbn. rewrite (H4 d Hd). cbn. rewrite Hi. cbn. eexists. split; [reflexivity|]. cbn.
  rewrite !upd_eq, H5, H6, Hd. unfold held. by rewrite !decide_True.
Qed.

(** ** Promiscuous mode *)

(** The device is up after the event. *)
Definition up_after (e : dev_event) (s : dev_st) (up : bool) : bool :=
  match e with
  | DevNetdev NETDEV_UP (Some d) => (nd_id d =? dsr_dev s) || up
  | DevNetdev NETDEV_DOWN (Some d) => negb (nd_id d =? dsr_dev s) && up
  | _ => up
  end.

(** The device goes up and down in turn, the slave comes and goes while it is
    down, and PromiscOperation is set, to 0 or 1, while it is up. *)
Definition tidy (e : dev_event) (s : dev_st) (up : bool) : Prop :=
  match e with
  | DevNetdev NETDEV_UP (Some d) => nd_id d = dsr_dev s -> up = false
  | DevNetdev NETDEV_DOWN (Some d) => nd_id d = dsr_dev s -> up = true
  | DevNetdev NETDEV_REGISTER _ => up = false
  | DevNetdev NETDEV_UNREGISTER _ => up = false
  | DevPromisc v => up = true /\ (v = 0 \/ v = 1)
  | _ => True
  end.
Inductive tidily : dev_st -> bool -> dev_st -> bool -> Prop :=
| tidily_nil s up : tidily s up s up
| tidily_cons e s up s1 s' up' :
    tidy e s up -> dev_handle has_in is_valid_ether_addr e s = Ret s1 ->
    tidily s1 (up_after e s up) s' up' -> tidily s up s' up'.

(** The slave is promiscuous once if the device is up and the configuration says so. *)
Record prom_ok (s : dev_st) (up : bool) : Prop := {
  pk_count d : promisc_of (kern s) d = if up && promisc_conf s then held (slave s) d else 0;
  pk_conf : dsr_node_set s = true /\ length (confvals (dnode s)) = CONFVAL_MAX
            /\ get_confval (Some (dnode s)) PromiscOperation ∈ [0; 1]
}.

Lemma prom_ok_restore s up : prom_ok s up -> prom_ok (restore_slave s) up.
Proof. intros []. unfold restore_slave. destruct (slave_indev s); by split. Qed.

Lemma prom_netdev ev d s s' up :
  prom_ok s up -> tidy (DevNetdev ev (Some d)) s up -> dsr_dev_netdev_event ev (Some d) s = Ret s' ->
  prom_ok s' (up_after (DevNetdev ev (Some d)) s up).
Proof.
  intros Hp Ht E. destruct ev; cbn in *; try by injection E as <-.
  - obind E as f Ef. subst up. destruct Hp as [Hc Hv]. destruct f; injection E as <-; by split.
  - destruct (nd_id d =? dsr_dev s) eqn:Ed; zb; rewrite ?andb_false_r, ?andb_true_r in E; [|by injection E as <-].
    destruct Hp as [Hc Hv]. rewrite (Ht Ed) in *. destruct (promisc_conf s) eqn:Ep; cbn in *.
    + injection E as <-. split; [|by destruct (slave s)]. intros x.
      assert (promisc_conf (match slave s with Some x => on_kern (add_promisc x 1) s | None => s end) = true) as ->
        by (by destruct (slave s)).
      destruct (slave s) as [y|] eqn:Es; cbn; [|by rewrite Hc, Es]. unfold upd. rewrite !Hc, Es, held_Some.
      by destruct (x =? y).
    + injection E as <-. split; [|done]. intros x. by rewrite Ep, Hc.
  - case_decide; injection E as <-; [|done]. subst up. destruct Hp as [Hc Hv]. by split.
  - destruct (nd_id d =? dsr_dev s) eqn:Ed; zb; cbn in *.
    + injection E as <-. apply prom_ok_restore. destruct Hp as [Hc Hv]. rewrite (Ht Ed) in *. cbn in *.
      destruct (slave s) as [y|] eqn:Es; [|split; [|done]; intros x; rewrite Hc, Es; by destruct (promisc_conf s)].
      destruct (promisc_conf s) eqn:Ep; (split; [|done]); intros x; cbn; rewrite ?Hc; [|done].
      unfold upd. rewrite !Hc, !held_Some. destruct (x =? y) eqn:Ex; zb; [|done]. by rewrite Z.eqb_refl.
    + case_decide; injection E as <-; [by apply prom_ok_restore|done].
Qed.

Lemma promisc_conf_addr s a b : promisc_conf (set_dnode s (DsrNode a b (confvals (dnode s)))) = promisc_conf s.
Proof. unfold promisc_conf. cbn. by destruct (dsr_node_set s). Qed.

Lemma get_set_confval n cv v :
  length (confvals n) = CONFVAL_MAX -> get_confval (set_confval (Some n) cv v).2 cv = v.
Proof. intros Hl. cbn. rewrite list_lookup_insert_eq; [done|]. rewrite Hl. apply confval_ix_lt. Qed.

Lemma prom_step e s up s' :
  prom_ok s up -> tidy e s up -> dev_handle has_in is_valid_ether_addr e s = Ret s' -> prom_ok s' (up_after e s up).
Proof.
  intros Hp Ht E. destruct e as [ev ifa|ev [d|]|sa| | |v]; cbn [up_after] in *.
  - unfold dev_handle, dsr_dev_inetaddr_event, in_dev_get in E. destruct Hp as [Hc Hv].
    destruct ifa as [i|]; [|by injection E as <-]. destruct (ifa_dev i); [|by injection E as <-].
    destruct ev; try by injection E as <-. destruct (_ =? _); [|by injection E as <-].
    obind E as [o s1] E1. obind E1 as y Ey. destruct (has_in y); simplify_eq/=; (split; [|exact Hv]);
      intros x; rewrite <- (promisc_conf_addr s (ifa_address i) (ifa_broadcast i)) in Hc; exact (Hc x).
  - by apply (prom_netdev ev d s).
  - injection E as <-. by destruct ev.
  - unfold dev_handle, dsr_dev_set_address in E. obind E as [r s1] E1. injection E as <-.
    destruct (is_valid_ether_addr sa); [obind E1 as a Ea|]; injection E1 as <- <-; by destruct Hp.
  - injection E as <-. by destruct Hp.
  - injection E as <-. by destruct Hp.
  - unfold dev_handle, config_promisc in E. destruct Hp as [Hc (Hs & Hl & Hv)], Ht as [-> Ht]. rewrite Hs in E.
    pose proof (get_set_confval (dnode s) PromiscOperation v Hl) as Hg. cbn -[get_confval] in E.
    set (n := DsrNode _ _ _) in *. change (get_confval (Some n) PromiscOperation = v) in Hg.
    assert (Hn : length (confvals n) = CONFVAL_MAX) by (cbn; by rewrite length_insert).
    assert (Hvb : get_confval (Some n) PromiscOperation ∈ [0; 1]) by (rewrite Hg; destruct Ht as [-> | ->]; set_solver).
    assert (Hp : promisc_conf (set_dnode s n) = negb (v =? 0)) by (unfold promisc_conf; cbn -[get_confval]; by rewrite Hs, Hg).
    assert (Hq : promisc_conf s = negb (get_confval (Some (dnode s)) PromiscOperation =? 0)) by (unfold promisc_conf; by rewrite Hs).
    set (v0 := get_confval (Some (dnode s)) PromiscOperation) in *.
    assert (v0 = 0 \/ v0 = 1) as Hv0 by set_solver. rewrite Hq in Hc. clear Hv. clearbody v0 n.
    destruct (v0 =? v) eqn:Ev; zb.
    + injection E as <-. split; [|done]. intros x. rewrite Hp, <- Ev. apply Hc.
    + clear Hg. obind E as y Ey. injection E as <-. unfold deref in Ey. destruct (slave s) as [y'|] eqn:Es; simplify_eq/=.
      split; [|done]. intros x. change (promisc_conf (on_kern ?f ?s)) with (promisc_conf s). rewrite Hp. cbn.
      rewrite ?Es. unfold upd. rewrite !Hc, ?Es, !held_Some.
      rewrite Z.eqb_refl. by destruct (x =? y), Hv0 as [-> | ->], Ht as [-> | ->].
Qed.

(** Promiscuous mode is switched on and off in pairs.  After any sequence of
    calls in which the device goes up and down in turn, the slave comes and goes
    only while the device is down, and PromiscOperation is set only while it is up,
    the slave is promiscuous exactly when the device is up and PromiscOperation is
    on, and then once; no other device is. *)
Theorem promisc_balanced s up s' up' :
  tidily s up s' up' -> prom_ok s up -> prom_ok s' up'.
Proof. induction 1 as [|e s up s1 s' up' He E _ IH]; [done|]. intros Hp. by apply IH, (prom_step e s). Qed.
End Invariant.

(** ** Examples *)

Definition eth0 : net_device := NetDevice 2 ([101; 116; 104; 48] ++ repeat 0 12) 1500.
Definition dsr0 : net_device := NetDevice 9 ([100; 115; 114; 48] ++ repeat 0 12) 1450.
Definition quiet_kernel : kernel := Kernel (λ _, 0) (λ _, 0) (λ _, InCnf 1 0) (λ _, 0) None.
Definition eth0_ans : init_ans := InitAns (Some (9, repeat 2 6)) [] 0 0 [(NETDEV_REGISTER, eth0)] 0.
Definition dsr0_addr : option in_ifaddr := Some (InIfaddr 1 255 (Some 9)).

Lemma quiet_untouched : untouched quiet_kernel.
Proof. by split. Qed.
Lemma eth0_replay : replay_orderly (λ _, true) (λ _, true) (Some (nd_name eth0)) eth0_ans quiet_kernel.
Proof. intros d addr name [= <- <-] [= <-]. cbn. split; [by eexists|done]. Qed.


(** The kernel refuses the second notifier. *)
Lemma dsr_dev_init_fails_witness :
  exists k', dsr_dev_init (Some (nd_name eth0)) (InitAns (Some (9, repeat 2 6)) [] 0 0 [(NETDEV_REGISTER, eth0)] (-12)) quiet_kernel
    = Ret (-12, None, k') /\ refs k' 9 = -1.
Proof.
  eexists. 
  destruct (dsr_dev_init_fails (λ _, true) (λ _, true) (Some (nd_name eth0))
    (InitAns (Some (9, repeat 2 6)) [] 0 0 [(NETDEV_REGISTER, eth0)] (-12)) quiet_kernel (-12) None _ quiet_untouched eq_refl)
    as (_ & _ & _ & H).
  - lia.
  - intros d addr name [= <- <-] [= <-]. cbn. split; [by eexists|done].
  - split; [reflexivity|]. apply (H 9).
Defined.

(** The device goes up and down. *)
Lemma promisc_balanced_witness :
  let s0 := set_slave (dev_alloc 9 (repeat 2 6) (nd_name eth0) quiet_kernel) (Some 2) in
  exists s1 s2, dsr_dev_netdev_event NETDEV_UP (Some dsr0) s0 = Ret s1 /\ promisc_of (kern s1) 2 = 1
    /\ dsr_dev_netdev_event NETDEV_DOWN (Some dsr0) s1 = Ret s2 /\ promisc_of (kern s2) 2 = 0.
Proof.
  intros s0. eexists _, _. split; [reflexivity|].
  assert (H0 : prom_ok s0 false).
  { split; [done|]. split; [done|]. split; [done|]. vm_compute. set_solver. }
  split; [|split; [reflexivity|]].
  - refine (pk_count _ true (promisc_balanced (λ _, true) (λ _, true) s0 false _ true _ H0) 2).
    by eapply (tidily_cons _ _ (DevNetdev NETDEV_UP (Some dsr0))); [| |constructor].
  - refine (pk_count _ false (promisc_balanced (λ _, true) (λ _, true) s0 false _ false _ H0) 2).
    eapply (tidily_cons _ _ (DevNetdev NETDEV_UP (Some dsr0))); [done|reflexivity|].
    by eapply (tidily_cons _ _ (DevNetdev NETDEV_DOWN (Some dsr0))); [| |constructor].
Defined.

(** PromiscOperation is switched off while the device is down: the slave's count
    goes below what it was. *)
Example promisc_unbalanced :
  let s0 := set_slave (dev_alloc 9 (repeat 2 6) (nd_name eth0) quiet_kernel) (Some 2) in
  exists s1, config_promisc 0 s0 = Ret s1 /\ promisc_of (kern s1) 2 = -1.
Proof. eexists. split; reflexivity. Qed.
