(* ===== verification/ModInit.v ===== *)
(** * Loading and unloading the module (dsr-module.c)

    [dsr_module_init] sets the parts of the module up one after the other and
    takes down, through a chain of labels, those that are there when one fails;
    [dsr_module_cleanup] takes all of them down.  The device is that of Dev.v; of
    the other parts it counts that they are there: a table with its entry under
    /proc, a hook or a protocol handler known to the kernel. *)

From S2P Require Import Prelude Mem Config Dev.

Inductive part :=
| SendBufPart | RreqTblPart | GratRrepPart | NeighTblPart | PreRoutingHook | ForwardHook | MaintBufPart
| ConfigProc | InetProtocol.
#[export] Instance part_eq_dec : EqDecision part.
Proof. solve_decision. Defined.

Definition all_parts : list part :=
  [InetProtocol; ConfigProc; MaintBufPart; ForwardHook; PreRoutingHook; NeighTblPart; GratRrepPart; RreqTblPart; SendBufPart].

(** [live]: the parts that are there, latest first. *)
Record module_st := ModuleSt { md_dev : option dev_st; md_kern : kernel; live : list part }.

(** The answers: of the kernel while the device is set up, and the result of
    setting up each other part (for [ConfigProc], whether the entry was made). *)
Record load_ans := LoadAns { la_dev : init_ans; la_part : part -> Z }.

Section ModInit.
Context (ifname : option bytes) (a : load_ans).

(** An init function: it answers a negative number and sets nothing up, or the
    part is there. *)
Definition part_init (x : part) (m : module_st) : Z * module_st :=
  (la_part a x, if la_part a x <? 0 then m else ModuleSt (md_dev m) (md_kern m) (x :: live m)).
Definition part_cleanup (x : part) (m : module_st) : module_st :=
  ModuleSt (md_dev m) (md_kern m) (filter (.≠ x) (live m)).

Definition dev_cleanup (m : module_st) : module_st :=
  match md_dev m with
  | Some s => ModuleSt None (dsr_dev_cleanup s) (live m)
  | None => m
  end.

(** The labels: each goes on with the next. *)
Definition cleanup_dsr_dev (m : module_st) : module_st := dev_cleanup m.
Definition cleanup_send_buf (m : module_st) : module_st := cleanup_dsr_dev (part_cleanup SendBufPart m).
Definition cleanup_rreq_tbl (m : module_st) : module_st := cleanup_send_buf (part_cleanup RreqTblPart m).
Definition cleanup_grat_rrep_tbl (m : module_st) : module_st := cleanup_rreq_tbl (part_cleanup GratRrepPart m).
Definition cleanup_neigh_tbl (m : module_st) : module_st := cleanup_grat_rrep_tbl (part_cleanup NeighTblPart m).
Definition cleanup_nf_hook2 (m : module_st) : module_st := cleanup_neigh_tbl (part_cleanup PreRoutingHook m).
Definition cleanup_nf_hook1 (m : module_st) : module_st := cleanup_nf_hook2 (part_cleanup ForwardHook m).
Definition cleanup_maint_buf (m : module_st) : module_st := cleanup_nf_hook1 (part_cleanup MaintBufPart m).
Definition cleanup_proc (m : module_st) : module_st := cleanup_maint_buf (part_cleanup ConfigProc m).

Definition dsr_module_init (k : kernel) : outcome (Z * module_st) :=
  '(res, s, k) ← dsr_dev_init ifname (la_dev a) k;
  let m := ModuleSt s k [] in
  Ret (
  if res <? 0 then (- EAGAIN, m) else
  let '(res, m) := part_init SendBufPart m in
  if res <? 0 then (res, cleanup_dsr_dev m) else
  let '(res, m) := part_init RreqTblPart m in
  if res <? 0 then (res, cleanup_send_buf m) else
  let '(res, m) := part_init GratRrepPart m in
  if res <? 0 then (res, cleanup_grat_rrep_tbl m) else
  let '(res, m) := part_init NeighTblPart m in
  if res <? 0 then (res, cleanup_rreq_tbl m) else
  let '(res, m) := part_init PreRoutingHook m in
  if res <? 0 then (res, cleanup_neigh_tbl m) else
  let '(res, m) := part_init ForwardHook m in
  if res <? 0 then (res, cleanup_nf_hook2 m) else
  let '(res, m) := part_init MaintBufPart m in
  if res <? 0 then (res, cleanup_nf_hook1 m) else
  (* [create_proc_entry] sets no result *)
  let '(proc, m) := part_init ConfigProc m in
  if proc <? 0 then (res, cleanup_maint_buf m) else
  let '(res, m) := part_init InetProtocol m in
  if res <? 0 then (res, cleanup_proc m) else
  (0, m)).

Definition dsr_module_cleanup (m : module_st) : module_st :=
  let m := part_cleanup InetProtocol m in
  let m := part_cleanup PreRoutingHook m in
  let m := part_cleanup ForwardHook m in
  let m := dev_cleanup m in
  let m := part_cleanup ConfigProc m in
  let m := part_cleanup RreqTblPart m in
  let m := part_cleanup GratRrepPart m in
  let m := part_cleanup NeighTblPart m in
  let m := part_cleanup MaintBufPart m in
  part_cleanup SendBufPart m.

(** The first part that cannot be set up, once the device is there. *)
Definition first_failing : option part := find (λ x, la_part a x <? 0) (rev all_parts).
End ModInit.

(** ** What is left *)

Section Unwind.
Context (ifname : option bytes) (a : load_ans).

(** The device is set up, then the parts. *)
Lemma parts_init s k1 res m k :
  dsr_dev_init ifname (la_dev a) k = Ret (0, Some s, k1) ->
  dsr_module_init ifname a k = Ret (res, m) ->
  match first_failing a with
  | None => res = 0 /\ m = ModuleSt (Some s) k1 all_parts
  | Some x => m = ModuleSt None (dsr_dev_cleanup s) (if decide (x = NeighTblPart) then [GratRrepPart] else [])
              /\ (res < 0 <-> x <> ConfigProc)
  end.
Proof.
  intros Hd H. unfold dsr_module_init in H. rewrite Hd in H. cbn [mbind outcome_bind] in H.
  change (0 <? 0) with false in H. cbv iota zeta in H. injection H as H.
  unfold first_failing, all_parts. cbn [rev app find]. revert H. unfold part_init.
  repeat match goal with |- (if ?b then _ else _) = _ -> _ => destruct b eqn:?E; cbv beta iota zeta; cbn [md_dev md_kern live] end.
  all: intros [= <- <-]; zb; split; [reflexivity|]; try done; split; try done; intros; lia.
Qed.

End Unwind.


(** The entry of the configuration cannot be made: loading reports a success. *)
Example config_entry_fails :
  let a := LoadAns eth0_ans (λ x, if decide (x = ConfigProc) then -1 else 1) in
  exists m, dsr_module_init (Some (nd_name eth0)) a quiet_kernel = Ret (1, m) /\ md_dev m = None /\ live m = [].
Proof. eexists. by split_and!. Qed.
