(* ===== verification/Srt.v ===== *)
(** * Source routes (dsr-srt.c, dsr-srt.h)

    The internal source route and the functions that walk, copy, cut, join and
    check it.  [srt_path] is the route as the list of nodes from the source to
    the destination; the theorems say what each function does to it. *)

From S2P Require Import Prelude Mem.

(** [addrs] is the flexible array as whole [struct in_addr] words, [atail] the
    bytes of it after the last whole word (fewer than four; routes made from a
    received option may have some, since their length comes from the wire).
    [laddrs] is in bytes.  No constructor sets [flags]: a new block reads as
    zeros in the model. *)
Record dsr_srt := DsrSrt {
  src : Z;
  dst : Z;
  flags : Z;
  laddrs : Z;
  addrs : list Z;
  atail : bytes
}.

#[export] Instance dsr_srt_eq_dec : EqDecision dsr_srt.
Proof. solve_decision. Defined.

Definition SRT_BIDIR : Z := 1.
Definition DSR_SRT_HDR_LEN : Z := 4.
Definition DSR_SRT_OPT_LEN (srt : dsr_srt) : Z := DSR_SRT_HDR_LEN + laddrs srt.

(** [srt->laddrs / sizeof(struct in_addr)]. *)
Definition srt_n (srt : dsr_srt) : Z := s32 (laddrs srt / 4).

Definition srt_addr (srt : dsr_srt) (i : Z) : outcome Z := deref (znth (addrs srt) i).

Definition dsr_srt_next_hop (srt : dsr_srt) (sleft : Z) : outcome Z :=
  let n := srt_n srt in
  if sleft <=? 0 then Ret (dst srt) else srt_addr srt (n - sleft).

Definition dsr_srt_prev_hop (srt : dsr_srt) (sleft : Z) : outcome Z :=
  let n := srt_n srt in
  if n - 1 =? sleft then Ret (src srt) else srt_addr srt (n - 2 - sleft).

(** [for (; sleft > 0; sleft--)]: as many turns as [sleft] counts. *)
Fixpoint find_addr_loop (srt : dsr_srt) (addr n : Z) (turns : nat) (sleft : Z) : outcome bool :=
  match turns with
  | O => Ret false
  | S turns' =>
      a ← srt_addr srt (n - sleft);
      if a =? addr then Ret true else find_addr_loop srt addr n turns' (sleft - 1)
  end.

Definition dsr_srt_find_addr (srt : dsr_srt) (addr sleft : Z) : outcome Z :=
  let n := srt_n srt in
  if (n =? 0) || (n <? sleft) || (sleft <? 1) then Ret 0
  else
    found ← find_addr_loop srt addr n (Z.to_nat sleft) sleft;
    if (found : bool) then Ret 1
    else if addr =? dst srt then Ret 1 else Ret 0.

(** [mem]: whether the allocator has the block.  [a] is the [char *addrs] the
    caller passes, NULL or a place in a buffer; [length] is an [unsigned int]. *)
Definition dsr_srt_new (mem : bool) (src dst length : Z) (a : option (bytes * Z))
  : outcome (option dsr_srt) :=
  if negb mem then Ret None
  else
    match a with
    | Some (b, off) =>
        if length =? 0 then Ret (Some (DsrSrt src dst 0 0 [] []))
        else
          l ← memread b off length;
          let '(ws, t) := words_of_bytes l in
          Ret (Some (DsrSrt src dst 0 length ws t))
    | None =>
        Ret (Some (DsrSrt src dst 0 length (repeat 0 (Z.to_nat (length / 4)))
                          (repeat 0 (Z.to_nat (length mod 4)))))
    end.

(** [for (i = 0; i < n; i++) srt_rev->addrs[i] = srt->addrs[n - 1 - i]]. *)
Fixpoint rev_loop (srt : dsr_srt) (n : Z) (turns : nat) (i : Z) (out : list Z) : outcome (list Z) :=
  match turns with
  | O => Ret out
  | S turns' =>
      a ← srt_addr srt (n - 1 - i);
      out' ← zset out i a;
      rev_loop srt n turns' (i + 1) out'
  end.

Definition dsr_srt_new_rev (mem : bool) (srt : option dsr_srt) : outcome (option dsr_srt) :=
  match srt with
  | None => Ret None
  | Some srt =>
      if negb mem then Ret None
      else
        let n := srt_n srt in
        a ← rev_loop srt n (Z.to_nat n) 0 (repeat 0 (Z.to_nat n));
        Ret (Some (DsrSrt (dst srt) (src srt) 0 (laddrs srt) a
                          (repeat 0 (Z.to_nat (laddrs srt mod 4)))))
  end.

(** The index of the first intermediate node with this address. *)
Fixpoint split_find (srt : dsr_srt) (addr : Z) (turns : nat) (i : Z) : outcome (option Z) :=
  match turns with
  | O => Ret None
  | S turns' =>
      a ← srt_addr srt i;
      if addr =? a then Ret (Some i) else split_find srt addr turns' (i + 1)
  end.

Definition dsr_srt_new_split (mem : bool) (srt : option dsr_srt) (addr : Z)
  : outcome (option dsr_srt) :=
  match srt with
  | None => Ret None
  | Some srt =>
      let n := srt_n srt in
      if n =? 0 then Ret None
      else
        r ← split_find srt addr (Z.to_nat n) 0;
        match r with
        | None => (* Split address not found - Nothing to split *) Ret None
        | Some i =>
            if negb mem then Ret None
            else
              d ← srt_addr srt i;
              Ret (Some (DsrSrt (src srt) d 0 (4 * i) (take (Z.to_nat i) (addrs srt)) []))
        end
  end.

Definition dsr_srt_new_split_rev (mem1 mem2 : bool) (srt : option dsr_srt) (addr : Z)
  : outcome (option dsr_srt) :=
  srt_split ← dsr_srt_new_split mem1 srt addr;
  match srt_split with
  | None => Ret None
  | Some _ => dsr_srt_new_rev mem2 srt_split
  end.

(** The loop that finds the places of the two shortcut nodes; it ends with
    [i = n]. *)
Fixpoint shortcut_find (srt : dsr_srt) (a1 a2 : Z) (turns : nat) (i a1_num a2_num : Z)
  : outcome (Z * Z) :=
  match turns with
  | O => Ret (a1_num, a2_num)
  | S turns' =>
      a ← srt_addr srt i;
      shortcut_find srt a1 a2 turns' (i + 1)
        (if a =? a1 then i + 1 else a1_num) (if a =? a2 then i + 1 else a2_num)
  end.

Fixpoint shortcut_copy (srt : dsr_srt) (a1_num a2_num : Z) (turns : nat) (i j : Z) (out : list Z)
  : outcome (list Z) :=
  match turns with
  | O => Ret out
  | S turns' =>
      if (a1_num <? i + 1) && (i + 1 <? a2_num) then
        shortcut_copy srt a1_num a2_num turns' (i + 1) j out
      else
        a ← srt_addr srt i;
        out' ← zset out j a;
        shortcut_copy srt a1_num a2_num turns' (i + 1) (j + 1) out'
  end.

Definition dsr_srt_shortcut (mem : bool) (srt : option dsr_srt) (a1 a2 : Z)
  : outcome (option dsr_srt) :=
  match srt with
  | None => Ret None
  | Some srt =>
      let n := srt_n srt in
      let a1_num := if src srt =? a1 then 0 else -1 in
      '(a1_num, a2_num) ← shortcut_find srt a1 a2 (Z.to_nat n) 0 a1_num (-1);
      let a2_num := if dst srt =? a2 then n + 1 else a2_num in
      let n_cut := n - (a2_num - a1_num - 1) in
      if negb mem then Ret None
      else
        let cut := repeat 0 (Z.to_nat n_cut) in
        let laddrs_cut := u32 (n_cut * 4) in
        if laddrs_cut =? 0 then Ret (Some (DsrSrt (src srt) (dst srt) 0 laddrs_cut cut []))
        else
          out ← shortcut_copy srt a1_num a2_num (Z.to_nat n) 0 0 cut;
          Ret (Some (DsrSrt (src srt) (dst srt) 0 laddrs_cut out []))
  end.

(** The array copies [n1] and [n2] whole words out of the two routes. *)
Definition take_words (srt : dsr_srt) (n : Z) : outcome (list Z) :=
  if n <=? zlen (addrs srt) then Ret (take (Z.to_nat n) (addrs srt)) else Fault BadAccess.

Definition dsr_srt_concatenate (mem : bool) (srt1 srt2 : option dsr_srt)
  : outcome (option dsr_srt) :=
  match srt1, srt2 with
  | Some srt1, Some srt2 =>
      let n1 := srt_n srt1 in
      let n2 := srt_n srt2 in
      (* We assume that the end node of the first srt is the same as the start
         of the second. We therefore only count that node once. *)
      let n := n1 + n2 + 1 in
      if negb mem then Ret None
      else
        w1 ← take_words srt1 n1;
        w2 ← take_words srt2 n2;
        Ret (Some (DsrSrt (src srt1) (dst srt2) 0 (u32 (n * 4)) (w1 ++ src srt2 :: w2) []))
  | _, _ => Ret None
  end.

(** [for (j = 0; j < i + 1; j++) if (buf[j] == a)]: [buf] holds what was copied
    so far. *)
Definition in_buf (buf : list Z) (a : Z) : bool := existsb (fun x => x =? a) buf.

Fixpoint dup_loop (srt : dsr_srt) (turns : nat) (i : Z) (buf : list Z) : outcome (option (list Z)) :=
  match turns with
  | O => Ret (Some buf)
  | S turns' =>
      a ← srt_addr srt i;
      if in_buf buf a then Ret None else dup_loop srt turns' (i + 1) (buf ++ [a])
  end.

Definition dsr_srt_check_duplicate (mem : bool) (srt : dsr_srt) : outcome Z :=
  let n := srt_n srt in
  if negb mem then Ret (-1)
  else
    r ← dup_loop srt (Z.to_nat n) 0 [src srt];
    match r with
    | None => Ret 1
    | Some buf => if in_buf buf (dst srt) then Ret 1 else Ret 0
    end.

(** ** The route as a path *)

Definition srt_path (srt : dsr_srt) : list Z := src srt :: addrs srt ++ [dst srt].

(** What the constructors establish: the array has the length [laddrs] says. *)
Definition srt_wf (srt : dsr_srt) : Prop :=
  laddrs srt = 4 * zlen (addrs srt) + zlen (atail srt) /\ zlen (atail srt) < 4
  /\ laddrs srt < 2 ^ 31.

(** A route with no partial word, as every route computed locally is. *)
Definition srt_aligned (srt : dsr_srt) : Prop := srt_wf srt /\ atail srt = [].

Lemma srt_n_wf srt : srt_wf srt -> srt_n srt = zlen (addrs srt).
Proof.
  intros (Hl & Ht & Hb). unfold srt_n. pose proof (zlen_nonneg (addrs srt)).
  pose proof (zlen_nonneg (atail srt)).
  assert (laddrs srt / 4 = zlen (addrs srt)) as ->.
  { rewrite Hl, Z.mul_comm, Z.div_add_l, (Z.div_small (zlen (atail srt))) by lia. lia. }
  rewrite s32_small; lia.
Qed.

Lemma srt_addr_nat srt (i : nat) a : addrs srt !! i = Some a -> srt_addr srt (Z.of_nat i) = Ret a.
Proof. intros H. unfold srt_addr. by rewrite znth_of_nat, H. Qed.

Lemma srt_addr_oob srt i : i < 0 \/ zlen (addrs srt) <= i -> srt_addr srt i = Fault BadAccess.
Proof. intros H. unfold srt_addr. by rewrite (proj2 (znth_None _ _) H). Qed.

Lemma path_lookup_addr srt (i : nat) :
  (i < length (addrs srt))%nat -> srt_path srt !! S i = addrs srt !! i.
Proof. intros. unfold srt_path. simpl. by rewrite lookup_app_l. Qed.

Lemma path_lookup_last srt : srt_path srt !! S (length (addrs srt)) = Some (dst srt).
Proof. unfold srt_path. simpl. rewrite lookup_app_r, Nat.sub_diag by lia. done. Qed.

Lemma next_hop_path srt (k : nat) :
  srt_wf srt -> (k <= length (addrs srt))%nat ->
  exists a, srt_path srt !! S k = Some a
    /\ dsr_srt_next_hop srt (zlen (addrs srt) - Z.of_nat k) = Ret a.
Proof.
  intros Hwf Hk. unfold dsr_srt_next_hop. rewrite srt_n_wf by done. unfold zlen in *. case_if.
  - assert (k = length (addrs srt)) as -> by lia. exists (dst srt). by rewrite path_lookup_last.
  - destruct (addrs srt !! k) as [a|] eqn:E; [|apply lookup_ge_None in E; lia].
    exists a. rewrite path_lookup_addr by lia. split; [done|].
    rewrite <- (srt_addr_nat _ _ _ E). f_equal. lia.
Qed.

Lemma hops_spec srt (k : nat) :
  srt_wf srt ->
  let n := zlen (addrs srt) in
  let sleft := n - Z.of_nat k in
  ((k <= length (addrs srt))%nat ->
    exists me prev, srt_path srt !! S k = Some me /\ srt_path srt !! k = Some prev
      /\ dsr_srt_next_hop srt sleft = Ret me
      /\ dsr_srt_prev_hop srt (sleft - 1) = Ret prev
      /\ (exists nxt, dsr_srt_next_hop srt (sleft - 1) = Ret nxt
            /\ srt_path srt !! Nat.min (S (S k)) (S (length (addrs srt))) = Some nxt))
  /\ (forall s, n < s -> dsr_srt_next_hop srt s = Fault BadAccess).
Proof.
  intros Hwf n sleft. subst n sleft. split; [intros Hk|].
  - destruct (next_hop_path srt k Hwf Hk) as (me & Hme & Hnme).
    destruct (srt_path srt !! k) as [prev|] eqn:Hp.
    2: { apply lookup_ge_None in Hp. unfold srt_path in Hp. simpl in Hp. rewrite length_app in Hp. lia. }
    exists me, prev. split_and!; try done.
    + unfold dsr_srt_prev_hop. rewrite srt_n_wf by done. unfold zlen. case_if.
      * assert (k = O) as -> by lia. simpl in Hp. by injection Hp as <-.
      * destruct k as [|k]; [lia|]. rewrite path_lookup_addr in Hp by lia.
        rewrite <- (srt_addr_nat _ _ _ Hp). f_equal. lia.
    + destruct (decide (k = length (addrs srt))) as [->|Hne].
      * exists (dst srt). unfold dsr_srt_next_hop. rewrite Nat.min_r by lia. rewrite path_lookup_last.
        case_if; [done|]. unfold zlen in *. lia.
      * destruct (next_hop_path srt (S k) Hwf ltac:(lia)) as (nxt & Hn & Hnn).
        exists nxt. rewrite Nat.min_l by lia. split; [|done]. rewrite <- Hnn. f_equal. lia.
  - intros s Hs. unfold dsr_srt_next_hop. rewrite srt_n_wf by done.
    pose proof (zlen_nonneg (addrs srt)). case_if; [lia|]. apply srt_addr_oob. lia.
Qed.

(** a packet crosses a source route hop by hop.  On the [k]-th hop the
    option says [sleft = n - k]; the receiver then finds itself as the intended
    next hop, the previous node of the route as the previous hop, and the next
    node of the route as the next hop (the destination once none is left).  With
    [sleft] above the number of intermediate nodes the lookup leaves the array:
    the code evaluates it before it compares [sleft] with [n]. *)
Theorem dsr_srt_hops srt (k : nat) :
  srt_wf srt ->
  let n := zlen (addrs srt) in
  let sleft := n - Z.of_nat k in
  ((k <= length (addrs srt))%nat ->
    exists me prev, srt_path srt !! S k = Some me /\ srt_path srt !! k = Some prev
      /\ dsr_srt_next_hop srt sleft = Ret me
      /\ dsr_srt_prev_hop srt (sleft - 1) = Ret prev
      /\ (exists nxt, dsr_srt_next_hop srt (sleft - 1) = Ret nxt
            /\ srt_path srt !! Nat.min (S (S k)) (S (length (addrs srt))) = Some nxt))
  /\ (forall s, n < s -> dsr_srt_next_hop srt s = Fault BadAccess).
Proof. apply hops_spec. Qed.

Lemma dsr_srt_hops_witness :
  let srt := DsrSrt 10 40 0 8 [20; 30] [] in
  dsr_srt_prev_hop srt (1 - 1) = Ret 20 /\ dsr_srt_next_hop srt 3 = Fault BadAccess.
Proof.
  intros srt. assert (Hwf : srt_wf srt) by (unfold srt_wf, zlen; simpl; lia).
  destruct (dsr_srt_hops srt 1%nat Hwf) as [H1 H2]. split.
  - destruct H1 as (me & prev & _ & Hp & _ & Hprev & _); [simpl; lia|].
    vm_compute in Hp. injection Hp as <-. exact Hprev.
  - apply H2. vm_compute. reflexivity.
Defined.

(** ** Reversal *)

Lemma rev_loop_spec srt (turns i : nat) out :
  srt_wf srt -> (turns + i = length (addrs srt))%nat -> length out = length (addrs srt) ->
  rev_loop srt (zlen (addrs srt)) turns (Z.of_nat i) out
  = Ret (take i out ++ reverse (take turns (addrs srt))).
Proof.
  intros Hwf. revert i out. induction turns as [|turns IH]; intros i out Hi Hl; simpl.
  - rewrite take_ge, app_nil_r by lia. done.
  - destruct (addrs srt !! turns) as [a|] eqn:E; [|apply lookup_ge_None in E; lia].
    replace (zlen (addrs srt) - 1 - Z.of_nat i) with (Z.of_nat turns) by (unfold zlen; lia).
    rewrite (srt_addr_nat _ _ _ E). simpl. unfold zset, zlen.
    case_if; [|rewrite andb_false_iff in Hif; destruct Hif; zb; lia].
    simpl. rewrite Nat2Z.id. replace (Z.of_nat i + 1) with (Z.of_nat (S i)) by lia.
    rewrite IH by (rewrite ?length_insert; lia).
    rewrite (take_S_r _ _ _ E), reverse_snoc.
    rewrite (take_S_r _ i a) by (apply list_lookup_insert_eq; lia).
    rewrite take_insert_ge by lia. by rewrite <- app_assoc.
Qed.

Lemma new_rev_spec srt :
  srt_wf srt ->
  dsr_srt_new_rev true (Some srt)
  = Ret (Some (DsrSrt (dst srt) (src srt) 0 (laddrs srt) (reverse (addrs srt))
                      (repeat 0 (Z.to_nat (laddrs srt mod 4))))).
Proof.
  intros Hwf. simpl. rewrite srt_n_wf by done.
  rewrite (rev_loop_spec srt (Z.to_nat (zlen (addrs srt))) 0) by (done || (unfold zlen; rewrite ?repeat_length; lia)).
  simpl. unfold zlen. rewrite Nat2Z.id, take_ge by lia. done.
Qed.

Lemma mod4_tail srt : srt_wf srt -> laddrs srt mod 4 = zlen (atail srt).
Proof.
  intros (Hl & Ht & _). pose proof (zlen_nonneg (atail srt)).
  rewrite Hl, Z.mul_comm, Z.add_comm, Z_mod_plus_full. by apply Z.mod_small.
Qed.

(** C34: the reversed route visits the same nodes in the opposite order, is again
    well formed, and reversing it again gives the original path; only a failed
    allocation yields no route. *)
Theorem dsr_srt_new_rev_path srt :
  srt_wf srt ->
  dsr_srt_new_rev false (Some srt) = Ret None
  /\ exists rev, dsr_srt_new_rev true (Some srt) = Ret (Some rev)
    /\ srt_path rev = reverse (srt_path srt) /\ srt_wf rev /\ laddrs rev = laddrs srt
    /\ exists rev2, dsr_srt_new_rev true (Some rev) = Ret (Some rev2) /\ srt_path rev2 = srt_path srt.
Proof.
  intros Hwf. split; [done|]. rewrite new_rev_spec by done. eexists. split; [done|].
  assert (Hwf' : srt_wf (DsrSrt (dst srt) (src srt) 0 (laddrs srt) (reverse (addrs srt))
                      (repeat 0 (Z.to_nat (laddrs srt mod 4))))).
  { pose proof Hwf as (Hl & Ht & Hb). pose proof (mod4_tail _ Hwf) as Hm.
    unfold srt_wf. simpl. autorewrite with dsr_rw.
    unfold zlen at 2 3. rewrite repeat_length. pose proof (zlen_nonneg (atail srt)). lia. }
  split_and!; [|done|done|].
  - unfold srt_path. simpl. rewrite reverse_cons, reverse_app. done.
  - rewrite new_rev_spec by done. eexists. split; [done|].
    unfold srt_path. simpl. by rewrite reverse_involutive.
Qed.

Lemma dsr_srt_new_rev_path_witness :
  exists rev, dsr_srt_new_rev true (Some (DsrSrt 10 40 0 8 [20; 30] [])) = Ret (Some rev)
    /\ srt_path rev = [40; 30; 20; 10].
Proof.
  destruct (dsr_srt_new_rev_path (DsrSrt 10 40 0 8 [20; 30] [])) as (_ & rev & H & Hp & _).
  { unfold srt_wf, zlen; simpl; lia. }
  exists rev. split; [exact H | exact Hp].
Defined.

(** ** Cutting a route at a node *)

Lemma srt_addr_drop srt (i : nat) :
  (i < length (addrs srt))%nat ->
  exists a, srt_addr srt (Z.of_nat i) = Ret a /\ drop i (addrs srt) = a :: drop (S i) (addrs srt).
Proof.
  intros Hi. destruct (addrs srt !! i) as [a|] eqn:E; [|apply lookup_ge_None in E; lia].
  exists a. split; [by apply srt_addr_nat | by apply drop_S].
Qed.

Lemma split_find_spec srt addr (turns i : nat) :
  (turns + i = length (addrs srt))%nat ->
  split_find srt addr turns (Z.of_nat i)
  = Ret (match find_pos (fun a => addr =? a) (drop i (addrs srt)) with
         | Some (k, _) => Some (Z.of_nat (i + k)) | None => None end).
Proof.
  revert i. induction turns as [|turns IH]; intros i Hi; simpl.
  - by rewrite drop_ge by lia.
  - destruct (srt_addr_drop srt i ltac:(lia)) as (a & -> & ->). simpl.
    destruct (addr =? a) eqn:E; [by rewrite Nat.add_0_r|].
    replace (Z.of_nat i + 1) with (Z.of_nat (S i)) by lia. rewrite IH by lia.
    destruct (find_pos _ (drop (S i) (addrs srt))) as [[k y]|]; do 3 f_equal. lia.
Qed.

Lemma srt_aligned_laddrs srt : srt_aligned srt -> laddrs srt = 4 * zlen (addrs srt).
Proof. intros [(-> & _) Ht]. rewrite Ht, zlen_nil. lia. Qed.

Lemma new_split_spec srt addr :
  srt_wf srt ->
  (addr ∉ addrs srt -> dsr_srt_new_split true (Some srt) addr = Ret None)
  /\ (addr ∈ addrs srt -> exists s i,
        dsr_srt_new_split true (Some srt) addr = Ret (Some s)
        /\ addrs srt !! i = Some addr /\ (addr ∉ take i (addrs srt))
        /\ srt_path s = take (S (S i)) (srt_path srt) /\ srt_aligned s).
Proof.
  intros Hwf. unfold dsr_srt_new_split. rewrite srt_n_wf by done.
  pose proof (split_find_spec srt addr (length (addrs srt)) 0 ltac:(lia)) as Hf.
  change (Z.of_nat 0) with 0 in Hf. rewrite drop_0 in Hf.
  unfold zlen. rewrite Nat2Z.id, Hf. clear Hf.
  destruct (find_pos _ (addrs srt)) as [[i y]|] eqn:E; simpl.
  - apply find_pos_Some in E as (Esplit & Hy & Hno & _ & Hl). zb. subst y.
    assert (Hi : addr ∈ addrs srt) by (eapply list_elem_of_lookup_2; eauto).
    split; [done|intros _]. case_if; [rewrite Esplit, length_app in Hif; simpl in Hif; lia|].
    rewrite (srt_addr_nat _ _ _ Hl). simpl.
    pose proof (lookup_lt_Some _ _ _ Hl). destruct Hwf as (Hla & Ht & Hb).
    eexists. exists i. split_and!; [done|done|..].
    + intros Hin. rewrite Forall_forall in Hno. specialize (Hno _ Hin). simpl in Hno.
      zb. done.
    + unfold srt_path. simpl. do 2 f_equal. rewrite Nat2Z.id.
      rewrite firstn_app. rewrite (take_S_r _ _ _ Hl), <- app_assoc. f_equal. simpl.
      by replace (S i - length (addrs srt))%nat with O by lia.
    + pose proof (zlen_nonneg (atail srt)). unfold srt_aligned, srt_wf, zlen in *. simpl.
      rewrite Nat2Z.id, length_take. split; [lia|done].
  - apply find_pos_None in E. rewrite Forall_forall in E.
    assert (addr ∉ addrs srt) by (intros H; specialize (E _ H); simpl in E; zb; done).
    split; [intros _; by case_if | done].
Qed.

(** Splitting a route at an intermediate node gives the part of the path
    from the source to the first visit of that node, well formed and with no
    partial word; when the node is not an intermediate one there is nothing to
    split and the result is NULL. *)
Theorem dsr_srt_new_split_path srt addr :
  srt_wf srt ->
  (addr ∉ addrs srt -> dsr_srt_new_split true (Some srt) addr = Ret None)
  /\ (addr ∈ addrs srt -> exists s i,
        dsr_srt_new_split true (Some srt) addr = Ret (Some s)
        /\ addrs srt !! i = Some addr /\ (addr ∉ take i (addrs srt))
        /\ srt_path s = take (S (S i)) (srt_path srt) /\ srt_aligned s).
Proof. apply new_split_spec. Qed.

Lemma dsr_srt_new_split_path_witness :
  dsr_srt_new_split true (Some (DsrSrt 10 40 0 12 [20; 30; 35] [])) 36 = Ret None
  /\ exists s i, dsr_srt_new_split true (Some (DsrSrt 10 40 0 12 [20; 30; 35] [])) 30 = Ret (Some s)
      /\ srt_path s = take (S (S i)) [10; 20; 30; 35; 40].
Proof.
  assert (Hwf : srt_wf (DsrSrt 10 40 0 12 [20; 30; 35] [])) by (unfold srt_wf, zlen; simpl; lia).
  split.
  - apply (dsr_srt_new_split_path _ 36 Hwf). by apply (bool_decide_unpack _).
  - destruct (proj2 (dsr_srt_new_split_path _ 30 Hwf)) as (s & i & H1 & _ & _ & H2 & _).
    { by apply (bool_decide_unpack _). }
    exists s, i. split; [exact H1 | exact H2].
Defined.

(** ** Shortcutting a route *)

(** The last place, counted from one, at which [a] occurs from [i] on. *)
Fixpoint last_num (a : Z) (l : list Z) (i d : Z) : Z :=
  match l with
  | [] => d
  | x :: l' => last_num a l' (i + 1) (if x =? a then i + 1 else d)
  end.

Lemma last_num_not_in a l i d : a ∉ l -> last_num a l i d = d.
Proof.
  revert i d. induction l as [|x l IH]; intros i d Hn; simpl; [done|].
  apply not_elem_of_cons in Hn as [Hx Hl]. rewrite IH by done.
  destruct (x =? a) eqn:E; zb; congruence.
Qed.

Lemma last_num_split a l1 l2 i d :
  a ∉ l2 -> last_num a (l1 ++ a :: l2) i d = i + zlen l1 + 1.
Proof.
  revert i d. induction l1 as [|x l1 IH]; intros i d Hn; simpl.
  - rewrite Z.eqb_refl, last_num_not_in by done. rewrite zlen_nil. lia.
  - rewrite IH by done. rewrite zlen_cons. lia.
Qed.

Lemma last_num_lookup a l (k : nat) i d :
  NoDup l -> l !! k = Some a -> last_num a l i d = i + Z.of_nat k + 1.
Proof.
  intros Hnd Hk. pose proof (lookup_lt_Some _ _ _ Hk).
  rewrite <- (take_drop_middle _ _ _ Hk) in Hnd |- *.
  apply NoDup_app in Hnd as (_ & _ & Hnd). apply NoDup_cons in Hnd as [Hnd _].
  rewrite last_num_split by done. unfold zlen. rewrite length_take. lia.
Qed.

Lemma shortcut_find_spec srt a1 a2 (turns i : nat) x y :
  (turns + i = length (addrs srt))%nat ->
  shortcut_find srt a1 a2 turns (Z.of_nat i) x y
  = Ret (last_num a1 (drop i (addrs srt)) (Z.of_nat i) x,
         last_num a2 (drop i (addrs srt)) (Z.of_nat i) y).
Proof.
  revert i x y. induction turns as [|turns IH]; intros i x y Hi; simpl.
  - by rewrite drop_ge by lia.
  - destruct (srt_addr_drop srt i ltac:(lia)) as (a & -> & ->). simpl.
    replace (Z.of_nat i + 1) with (Z.of_nat (S i)) by lia. by rewrite IH by lia.
Qed.

(** What the copying loop keeps of the nodes from place [i] on. *)
Fixpoint kept (p q : nat) (l : list Z) (i : nat) : list Z :=
  match l with
  | [] => []
  | x :: l' => if decide (p <= i /\ S i < q)%nat then kept p q l' (S i) else x :: kept p q l' (S i)
  end.

Lemma kept_take_drop p q l i :
  (p < q)%nat -> kept p q l i = take (p - i) l ++ drop (q - 1 - i) l.
Proof.
  intros Hpq. revert i. induction l as [|x l IH]; intros i; simpl.
  - by rewrite take_nil, drop_nil.
  - rewrite IH. case_decide.
    + replace (p - i)%nat with O by lia. replace (p - S i)%nat with O by lia.
      by replace (q - 1 - i)%nat with (S (q - 1 - S i))%nat by lia.
    + destruct (decide (S i <= p)%nat).
      * replace (p - i)%nat with (S (p - S i))%nat by lia.
        by replace (q - 1 - i)%nat with (S (q - 1 - S i))%nat by lia.
      * replace (p - i)%nat with O by lia. replace (p - S i)%nat with O by lia.
        replace (q - 1 - i)%nat with O by lia. by replace (q - 1 - S i)%nat with O by lia.
Qed.

Lemma shortcut_copy_spec srt (p q turns i j : nat) out :
  (turns + i = length (addrs srt))%nat ->
  length out = (j + length (kept p q (drop i (addrs srt)) i))%nat ->
  shortcut_copy srt (Z.of_nat p) (Z.of_nat q) turns (Z.of_nat i) (Z.of_nat j) out
  = Ret (take j out ++ kept p q (drop i (addrs srt)) i).
Proof.
  revert i j out. induction turns as [|turns IH]; intros i j out Hi Hl; simpl.
  - rewrite drop_ge in * by lia. simpl in *. by rewrite take_ge, app_nil_r by lia.
  - destruct (srt_addr_drop srt i ltac:(lia)) as (a & Ha & Hd). rewrite Hd in *. simpl in *.
    replace (Z.of_nat i + 1) with (Z.of_nat (S i)) by lia.
    case_decide as Hk; case_if; try lia.
    + by rewrite IH by lia.
    + rewrite andb_false_iff in Hif. destruct Hif; zb; lia.
    + rewrite Ha. simpl in *. unfold zset, zlen. case_if.
      2: { rewrite andb_false_iff in Hif0. destruct Hif0; zb; lia. }
      simpl. rewrite Nat2Z.id. replace (Z.of_nat j + 1) with (Z.of_nat (S j)) by lia.
      rewrite IH by (rewrite ?length_insert; lia).
      rewrite (take_S_r _ j a) by (apply list_lookup_insert_eq; lia).
      rewrite take_insert_ge by lia. by rewrite <- app_assoc.
Qed.

Lemma NoDup_lookup_eq {A} (l : list A) i j x :
  NoDup l -> l !! i = Some x -> l !! j = Some x -> i = j.
Proof. rewrite NoDup_alt. eauto. Qed.

(** The places the search of [dsr_srt_shortcut] ends with, on a path with no
    node twice. *)
Lemma shortcut_places srt a1 a2 (p q : nat) :
  srt_wf srt -> NoDup (srt_path srt) -> srt_path srt !! p = Some a1 ->
  srt_path srt !! q = Some a2 -> (p < q)%nat ->
  let n := length (addrs srt) in
  last_num a1 (addrs srt) 0 (if src srt =? a1 then 0 else -1) = Z.of_nat p
  /\ (if dst srt =? a2 then Z.of_nat n + 1 else last_num a2 (addrs srt) 0 (-1)) = Z.of_nat q
  /\ (q <= S n)%nat.
Proof.
  intros Hwf Hnd Hp Hq Hpq n. subst n.
  assert (Hnda : NoDup (addrs srt)).
  { unfold srt_path in Hnd. apply NoDup_cons in Hnd as [_ Hnd]. by apply NoDup_app in Hnd as (? & _). }
  pose proof (lookup_lt_Some _ _ _ Hq) as Hql. unfold srt_path in Hql. simpl in Hql.
  rewrite length_app in Hql. simpl in Hql.
  assert (H0 : srt_path srt !! O = Some (src srt)) by done.
  split_and!; [| |lia].
  - destruct p as [|k].
    + injection Hp as <-. rewrite Z.eqb_refl, last_num_not_in; [done|].
      unfold srt_path in Hnd. apply NoDup_cons in Hnd as [Hnd _]. set_solver.
    + rewrite path_lookup_addr in Hp by lia. rewrite (last_num_lookup _ _ k) by done. lia.
  - destruct q as [|k]; [lia|]. destruct (decide (k = length (addrs srt))) as [->|Hne].
    + rewrite path_lookup_last in Hq. injection Hq as <-. rewrite Z.eqb_refl. lia.
    + destruct (dst srt =? a2) eqn:E; zb.
      * rewrite <- E in Hq.
        pose proof (NoDup_lookup_eq _ _ _ _ Hnd Hq (path_lookup_last srt)). lia.
      * rewrite path_lookup_addr in Hq by lia. rewrite (last_num_lookup _ _ k) by done. lia.
Qed.

Lemma shortcut_path_eq srt (p q : nat) :
  (p < q)%nat -> (q <= S (length (addrs srt)))%nat ->
  src srt :: (take p (addrs srt) ++ drop (q - 1) (addrs srt)) ++ [dst srt]
  = take (S p) (srt_path srt) ++ drop q (srt_path srt).
Proof.
  intros Hpq Hq. unfold srt_path. destruct q as [|q]; [lia|]. simpl.
  rewrite Nat.sub_0_r. rewrite take_app_le by lia. rewrite drop_app_le by lia. by rewrite app_assoc.
Qed.

(** C33: on a path that visits no node twice, the shortcut from the node at place
    [p] to the node at a later place [q] removes exactly the nodes strictly
    between them and keeps the rest of the path in order; the result is well
    formed. *)
Theorem dsr_srt_shortcut_path srt a1 a2 (p q : nat) :
  srt_wf srt -> NoDup (srt_path srt) -> srt_path srt !! p = Some a1 ->
  srt_path srt !! q = Some a2 -> (p < q)%nat ->
  exists s, dsr_srt_shortcut true (Some srt) a1 a2 = Ret (Some s)
    /\ srt_path s = take (S p) (srt_path srt) ++ drop q (srt_path srt)
    /\ srt_aligned s.
Proof.
  intros Hwf Hnd Hp Hq Hpq.
  destruct (shortcut_places srt a1 a2 p q Hwf Hnd Hp Hq Hpq) as (Hn1 & Hn2 & Hqn).
  pose proof Hwf as (Hl & Ht & Hb). pose proof (zlen_nonneg (atail srt)).
  unfold dsr_srt_shortcut. rewrite srt_n_wf by done. replace (Z.to_nat (zlen (addrs srt))) with (length (addrs srt)) by (unfold zlen; lia).
  pose proof (shortcut_find_spec srt a1 a2 (length (addrs srt)) 0
    (if src srt =? a1 then 0 else -1) (-1) ltac:(lia)) as Hf.
  change (Z.of_nat 0) with 0 in Hf. rewrite drop_0 in Hf. rewrite Hf. cbn -[shortcut_copy u32].
  unfold zlen in Hl, Hb |- *. rewrite Hn1, Hn2.
  set (K := kept p q (addrs srt) 0).
  assert (HK : K = take p (addrs srt) ++ drop (q - 1) (addrs srt)).
  { unfold K. rewrite kept_take_drop by lia. by rewrite !Nat.sub_0_r. }
  assert (HKl : length K = (length (addrs srt) - (q - p - 1))%nat).
  { rewrite HK, length_app, length_take, length_drop. lia. }
  replace (Z.of_nat (length (addrs srt)) - (Z.of_nat q - Z.of_nat p - 1)) with (Z.of_nat (length K)) by lia.
  rewrite Nat2Z.id, u32_small by lia.
  assert (Hal : forall L, L = K -> srt_path (DsrSrt (src srt) (dst srt) 0 (Z.of_nat (length K) * 4) L [])
      = take (S p) (srt_path srt) ++ drop q (srt_path srt)
      /\ srt_aligned (DsrSrt (src srt) (dst srt) 0 (Z.of_nat (length K) * 4) L [])).
  { intros L ->. split.
    - rewrite <- shortcut_path_eq by lia. rewrite <- HK. done.
    - unfold srt_aligned, srt_wf, zlen. simpl. split; [lia|done]. }
  case_if.
  - eexists. split; [done|]. apply Hal. assert (length K = O) as E by lia. rewrite E. simpl.
    by destruct K.
  - pose proof (shortcut_copy_spec srt p q (length (addrs srt)) 0 0 (repeat 0 (length K)) ltac:(lia)
      ltac:(rewrite drop_0, repeat_length; done)) as Hc.
    rewrite drop_0 in Hc. fold K in Hc. change (Z.of_nat 0) with 0 in Hc. rewrite Hc.
    simpl. eexists. split; [done|]. by apply Hal.
Qed.

Lemma dsr_srt_shortcut_path_witness :
  exists s, dsr_srt_shortcut true (Some (DsrSrt 10 50 0 12 [20; 30; 40] [])) 10 40 = Ret (Some s)
    /\ srt_path s = [10; 40; 50].
Proof.
  destruct (dsr_srt_shortcut_path (DsrSrt 10 50 0 12 [20; 30; 40] []) 10 40 0 3) as (s & H & Hp & _).
  - unfold srt_wf, zlen; simpl; lia.
  - by apply (bool_decide_unpack _).
  - reflexivity.
  - reflexivity.
  - lia.
  - exists s. split; [exact H | exact Hp].
Defined.

(** ** Joining two routes *)

Lemma take_words_all srt : take_words srt (zlen (addrs srt)) = Ret (addrs srt).
Proof. unfold take_words. case_if; [|lia]. unfold zlen. by rewrite Nat2Z.id, take_ge by lia. Qed.

Lemma concatenate_spec srt1 srt2 :
  srt_wf srt1 -> srt_wf srt2 -> dst srt1 = src srt2 ->
  zlen (addrs srt1) + zlen (addrs srt2) + 1 < 2 ^ 29 ->
  exists s, dsr_srt_concatenate true (Some srt1) (Some srt2) = Ret (Some s)
    /\ srt_path s = srt_path srt1 ++ tail (srt_path srt2)
    /\ srt_aligned s
    /\ dsr_srt_concatenate false (Some srt1) (Some srt2) = Ret None.
Proof.
  intros H1 H2 Hd Hl. simpl. rewrite !srt_n_wf, !take_words_all by done. simpl.
  pose proof (zlen_nonneg (addrs srt1)). pose proof (zlen_nonneg (addrs srt2)).
  eexists. rewrite u32_small by lia. split_and!; [done| |split; [|done]|done].
  - unfold srt_path. simpl. by rewrite Hd, <- !app_assoc.
  - unfold srt_wf. simpl. autorewrite with dsr_rw. lia.
Qed.

(** Joining a route that ends at a node with one that starts there gives
    the route along both paths, the shared node once; the result is well formed
    whenever its length fits. *)
Theorem dsr_srt_concatenate_path srt1 srt2 :
  srt_wf srt1 -> srt_wf srt2 -> dst srt1 = src srt2 ->
  zlen (addrs srt1) + zlen (addrs srt2) + 1 < 2 ^ 29 ->
  exists s, dsr_srt_concatenate true (Some srt1) (Some srt2) = Ret (Some s)
    /\ srt_path s = srt_path srt1 ++ tail (srt_path srt2)
    /\ srt_aligned s
    /\ dsr_srt_concatenate false (Some srt1) (Some srt2) = Ret None.
Proof. apply concatenate_spec. Qed.

Lemma dsr_srt_concatenate_path_witness :
  exists s, dsr_srt_concatenate true (Some (DsrSrt 10 30 0 4 [20] [])) (Some (DsrSrt 30 50 0 4 [40] [])) = Ret (Some s)
    /\ srt_path s = [10; 20; 30; 40; 50].
Proof.
  destruct (dsr_srt_concatenate_path (DsrSrt 10 30 0 4 [20] []) (DsrSrt 30 50 0 4 [40] []))
    as (s & H & Hp & _).
  - unfold srt_wf, zlen; simpl; lia.
  - unfold srt_wf, zlen; simpl; lia.
  - reflexivity.
  - vm_compute. reflexivity.
  - exists s. split; [exact H | exact Hp].
Defined.

(** ** Loops in a route *)

Lemma in_buf_spec buf a : in_buf buf a = bool_decide (a ∈ buf).
Proof.
  unfold in_buf. apply Bool.eq_iff_eq_true. rewrite existsb_exists, bool_decide_eq_true.
  split; [intros (x & Hx & He); zb; subst; by apply list_elem_of_In|].
  intros Hin. exists a. split; [by apply list_elem_of_In | apply Z.eqb_refl].
Qed.

Lemma dup_loop_spec srt (turns i : nat) buf :
  (turns + i = length (addrs srt))%nat -> NoDup buf ->
  dup_loop srt turns (Z.of_nat i) buf
  = Ret (if decide (NoDup (buf ++ drop i (addrs srt))) then Some (buf ++ drop i (addrs srt)) else None).
Proof.
  revert i buf. induction turns as [|turns IH]; intros i buf Hi Hb; simpl.
  - rewrite drop_ge, app_nil_r by lia. by rewrite decide_True.
  - destruct (srt_addr_drop srt i ltac:(lia)) as (a & -> & ->). simpl.
    rewrite in_buf_spec. case_bool_decide as Hin.
    + rewrite decide_False; [done|]. rewrite NoDup_app. intros (_ & Hx & _).
      apply (Hx _ Hin). left.
    + replace (Z.of_nat i + 1) with (Z.of_nat (S i)) by lia.
      assert (Hb' : NoDup (buf ++ [a])).
      { apply NoDup_app. split_and!; [done|set_solver|apply NoDup_singleton]. }
      rewrite IH by (done || lia). by rewrite <- app_assoc.
Qed.

Lemma check_duplicate_spec srt :
  srt_wf srt ->
  dsr_srt_check_duplicate true srt = Ret (if decide (NoDup (srt_path srt)) then 0 else 1)
  /\ dsr_srt_check_duplicate false srt = Ret (-1).
Proof.
  intros Hwf. split; [|done]. unfold dsr_srt_check_duplicate. rewrite srt_n_wf by done.
  unfold zlen. rewrite Nat2Z.id. simpl.
  pose proof (dup_loop_spec srt (length (addrs srt)) 0 [src srt] ltac:(lia) (NoDup_singleton _)) as Hd.
  change (Z.of_nat 0) with 0 in Hd. rewrite drop_0 in Hd. rewrite Hd. clear Hd. simpl.
  change (srt_path srt) with ((src srt :: addrs srt) ++ [dst srt]).
  case_decide as H1.
  - rewrite in_buf_spec. case_bool_decide as H2; case_decide as H3; try done.
    + apply NoDup_app in H3 as (_ & H3 & _). exfalso. apply (H3 _ H2). left.
    + exfalso. apply H3. apply NoDup_app. split_and!; [done|set_solver|by apply NoDup_singleton].
  - case_decide as H3; [|done]. apply NoDup_app in H3 as (H3 & _). done.
Qed.

(** [dsr_srt_check_duplicate] answers 1 exactly when some node occurs twice
    on the path, end points included, and 0 when none does; only a failed
    allocation gives -1. *)
Theorem dsr_srt_check_duplicate_NoDup srt :
  srt_wf srt ->
  dsr_srt_check_duplicate true srt = Ret (if decide (NoDup (srt_path srt)) then 0 else 1)
  /\ dsr_srt_check_duplicate false srt = Ret (-1).
Proof. apply check_duplicate_spec. Qed.

Lemma dsr_srt_check_duplicate_NoDup_witness :
  dsr_srt_check_duplicate true (DsrSrt 10 20 0 8 [20; 30] []) = Ret 1
  /\ dsr_srt_check_duplicate true (DsrSrt 10 40 0 8 [20; 30] []) = Ret 0.
Proof.
  split.
  - refine (eq_trans (proj1 (dsr_srt_check_duplicate_NoDup (DsrSrt 10 20 0 8 [20; 30] []) _)) _);
      [unfold srt_wf, zlen; simpl; lia | vm_compute; reflexivity].
  - refine (eq_trans (proj1 (dsr_srt_check_duplicate_NoDup (DsrSrt 10 40 0 8 [20; 30] []) _)) _);
      [unfold srt_wf, zlen; simpl; lia | vm_compute; reflexivity].
Defined.
