(* ===== verification/Text.v ===== *)
(** * Text (debug.h, timer.h, dsr-srt.h, link-cache.c)

    What [sprintf] makes of a number, the helpers that print an address, a time or
    a route into buffers of their own, and printing into the page that a read of a
    /proc file gives.  Characters are their codes, a string ends at its NUL.  The
    helpers return a pointer into a static buffer: the text behind it lasts until
    the helper comes round to the same place again. *)

From Stdlib Require Import String Ascii.
From S2P Require Import Prelude Timer Mem Srt.

Fixpoint chars (s : string) : list Z :=
  match s with EmptyString => [] | String a s' => Z.of_nat (nat_of_ascii a) :: chars s' end.

(** ** Formats *)

(** The digits of a number below [base]^[fuel]. *)
Fixpoint digits (base : Z) (dig : Z -> Z) (fuel : nat) (x : Z) (acc : list Z) : list Z :=
  match fuel with
  | O => acc
  | S fuel' =>
      let acc := dig (x mod base) :: acc in if x / base =? 0 then acc else digits base dig fuel' (x / base) acc
  end.
(** [%u], [%lu]; [%lX]; [%02x]. *)
Definition dec (x : Z) : list Z := digits 10 (λ d, 48 + d) 20 x [].
Definition hex (x : Z) : list Z := digits 16 (λ d, if d <? 10 then 48 + d else 55 + d) 16 x [].
Definition hexdigit (d : Z) : Z := if d <? 10 then 48 + d else 87 + d.
Definition hex2 (x : Z) : list Z := [hexdigit (x / 16); hexdigit (x mod 16)].

(** [%d], [%ld], and [%0wld]: the sign counts. *)
Definition sdec (x : Z) : list Z := if x <? 0 then 45 :: dec (- x) else dec x.
Definition zdec (w : nat) (x : Z) : list Z :=
  if x <? 0 then 45 :: repeat 48 (w - 1 - length (dec (- x))) ++ dec (- x) else repeat 48 (w - length (dec x)) ++ dec x.

(** [%-ws] and [%ws]: padded with blanks to [w] places. *)
Definition ljust (w : nat) (s : list Z) : list Z := s ++ repeat 32 (w - length s).
Definition rjust (w : nat) (s : list Z) : list Z := repeat 32 (w - length s) ++ s.

(** [sprintf(b + off, ..)]: the text and its NUL. *)
Definition sprintf (b : bytes) (off : Z) (s : list Z) : outcome bytes := memwrite b off (s ++ [0]).
(** [snprintf(b + off, size, ..)]: not more than [size] bytes, NUL included. *)
Definition snprintf (b : bytes) (off size : Z) (s : list Z) : outcome bytes :=
  memwrite b off (take (Z.to_nat (size - 1)) s ++ [0]).

(** The string at an offset. *)
Fixpoint to_nul (b : bytes) : outcome (list Z) :=
  match b with
  | [] => Fault BadAccess
  | c :: b' => if c =? 0 then Ret [] else s ← to_nul b'; Ret (c :: s)
  end.
Definition cstr (b : bytes) (off : Z) : outcome (list Z) := to_nul (drop (Z.to_nat off) b).

(** ** The helpers' buffers *)

Definition BUFLEN : Z := 256.

Record statics := Statics {
  ip_buf : bytes; ip_index : Z;
  eth_buf : bytes;
  tv_buf : bytes; tv_n : Z;
  srt_buf : bytes;
  hops_buf : bytes; cost_buf : bytes
}.

(** As the linker leaves them. *)
Definition statics_init : statics :=
  Statics (repeat 0 64) 0 (repeat 0 30) (repeat 0 3136) 0 (repeat 0 (Z.to_nat BUFLEN)) (repeat 0 18) (repeat 0 18).

(** A pointer the helpers return: which buffer, and where in it. *)
Inductive text_ptr := InIp (off : Z) | InEth | InTv (n : Z) | InSrt | InHops | InCost.

Definition text_at (st : statics) (p : text_ptr) : outcome (list Z) :=
  match p with
  | InIp off => cstr (ip_buf st) off
  | InEth => cstr (eth_buf st) 0
  | InTv n => cstr (tv_buf st) (56 * n)
  | InSrt => cstr (srt_buf st) 0
  | InHops => cstr (hops_buf st) 0
  | InCost => cstr (cost_buf st) 0
  end.

(** [0x0ff & addr] is the first number: addresses are in network order. *)
Definition ip_text (addr : Z) : list Z :=
  dec (Z.land 255 addr) ++ [46] ++ dec (Z.land 255 (Z.shiftr addr 8)) ++ [46]
  ++ dec (Z.land 255 (Z.shiftr addr 16)) ++ [46] ++ dec (Z.land 255 (Z.shiftr addr 24)).

Definition print_ip (addr : Z) (st : statics) : outcome (text_ptr * statics) :=
  b ← sprintf (ip_buf st) (ip_index st) (ip_text addr);
  let str := InIp (ip_index st) in
  let index := ip_index st + 16 in
  let index := Z.rem index 64 in
  Ret (str, Statics b index (eth_buf st) (tv_buf st) (tv_n st) (srt_buf st) (hops_buf st) (cost_buf st)).

Definition eth_text (a0 a1 a2 a3 a4 a5 : Z) : list Z :=
  hex2 a0 ++ [58] ++ hex2 a1 ++ [58] ++ hex2 a2 ++ [58] ++ hex2 a3 ++ [58] ++ hex2 a4 ++ [58] ++ hex2 a5.

Definition print_eth (addr : bytes) (st : statics) : outcome (text_ptr * statics) :=
  a0 ← load8 addr 0; a1 ← load8 addr 1; a2 ← load8 addr 2; a3 ← load8 addr 3; a4 ← load8 addr 4; a5 ← load8 addr 5;
  b ← sprintf (eth_buf st) 0 (eth_text a0 a1 a2 a3 a4 a5);
  Ret (InEth, Statics (ip_buf st) (ip_index st) b (tv_buf st) (tv_n st) (srt_buf st) (hops_buf st) (cost_buf st)).

Definition tv_text (tv : timeval) : list Z :=
  sdec (Z.quot (tv_sec tv) 60) ++ [58] ++ zdec 2 (Z.rem (tv_sec tv) 60) ++ [58] ++ zdec 3 (Z.quot (tv_usec tv) 1000).

(** The bound it gives [snprintf] is that of the whole array. *)
Definition print_timeval (tv : timeval) (st : statics) : outcome (text_ptr * statics) :=
  let n := Z.rem (tv_n st + 1) 2 in
  b ← snprintf (tv_buf st) (56 * n) (56 * 56) (tv_text tv);
  Ret (InTv n, Statics (ip_buf st) (ip_index st) (eth_buf st) b n (srt_buf st) (hops_buf st) (cost_buf st)).

Definition set_srt_buf (st : statics) (b : bytes) : statics :=
  Statics (ip_buf st) (ip_index st) (eth_buf st) (tv_buf st) (tv_n st) b (hops_buf st) (cost_buf st).

(** An address and what follows it, at [len] of the route's buffer. *)
Definition print_hop (a : Z) (sep : list Z) (len : Z) (st : statics) : outcome (Z * statics) :=
  '(p, st) ← print_ip a st;
  s ← text_at st p;
  b ← sprintf (srt_buf st) len (s ++ sep);
  Ret (zlen (s ++ sep), set_srt_buf st b).

(** The addresses from the [i]th on, while there seems to be room. *)
Fixpoint print_srt_loop (turns : nat) (srt : dsr_srt) (i len : Z) (st : statics) : outcome (Z * statics) :=
  match turns with
  | O => Ret (len, st)
  | S turns' =>
      if (i <? laddrs srt / 4) && (len + 16 <? BUFLEN) then
        a ← deref (znth (addrs srt) i);
        '(k, st) ← print_hop a (chars "<->") len st;
        print_srt_loop turns' srt (i + 1) (len + k) st
      else Ret (len, st)
  end.

Definition print_srt (srt : option dsr_srt) (st : statics) : outcome (option text_ptr * statics) :=
  match srt with
  | None => Ret (None, st)
  | Some srt =>
      '(len, st) ← print_hop (src srt) (chars "<->") 0 st;
      '(len, st) ← print_srt_loop (S (Z.to_nat (laddrs srt / 4))) srt 0 len st;
      if len + 16 <? BUFLEN then '(_, st) ← print_hop (dst srt) [] len st; Ret (Some InSrt, st)
      else Ret (Some InSrt, st)
  end.

(** [print_hops] and [print_cost] of link-cache.c. *)
Definition count_text (inf x : Z) : list Z := if x =? inf then chars "INF" else dec x.

(** ** Printing into a page *)

Definition PAGE_SIZE : Z := 4096.

Section Print.
Context {S : Type}.

(** The buffer, how much of it is filled, and the rest of the state. *)
Abbreviation out := (bytes * Z * S)%type.

(** [len += sprintf(buf + len, ..)]. *)
Definition put (s : list Z) (o : out) : outcome out :=
  let '(b, len, st) := o in b ← sprintf b len s; Ret (b, len + zlen s, st).

(** A loop over a list. *)
Fixpoint print_each {A} (row : A -> out -> outcome out) (l : list A) (o : out) : outcome out :=
  match l with [] => Ret o | x :: l' => o ← row x o; print_each row l' o end.

(** The end of every file's handler: what it says there is of the text. *)
Definition proc_len (len offset length : Z) : Z :=
  let len := s32 (len - offset) in if len >? length then length else if len <? 0 then 0 else len.

(** A handler: the page afterwards, [*start] as an offset in it, and the result. *)
Definition handler_t : Type := bytes -> Z -> Z -> S -> outcome (bytes * Z * Z * S).

(** The kernel's part of one read: a page, and what of it goes to the reader. *)
Definition proc_read (handler : handler_t) (page : bytes) (offset length : Z) (st : S) : outcome (list Z * S) :=
  '(b, start, len, st) ← handler page offset length st;
  if len <=? 0 then Ret ([], st) else x ← memread b start len; Ret (x, st).

(** Reading on in pieces of these lengths. *)
Fixpoint read_pieces (handler : handler_t) (page : bytes) (offset : Z) (ls : list Z) (st : S) : outcome (list Z * S) :=
  match ls with
  | [] => Ret ([], st)
  | l :: ls' =>
      '(x, st) ← proc_read handler page offset l st;
      '(y, st) ← read_pieces handler page (offset + zlen x) ls' st; Ret (x ++ y, st)
  end.
End Print.
Arguments handler_t _ : clear implicits.

(** ** Numbers *)

Definition plain (s : list Z) : Prop := Forall (λ c, c <> 0) s.

Section Digits.
Context (base : Z) (dig : Z -> Z) (base_ge : 2 <= base).

Lemma digits_acc fuel x acc : digits base dig fuel x acc = digits base dig fuel x [] ++ acc.
Proof.
  revert x acc. induction fuel as [|fuel IH]; intros x acc; [done|]. cbn. case_if; [done|].
  rewrite IH, (IH (x / base) [_]), <- app_assoc. done.
Qed.

Lemma digits_some fuel x : digits base dig (S fuel) x [] <> [].
Proof. cbn [digits]. case_if; [done|]. rewrite digits_acc. by destruct (digits _ _ _ _ _). Qed.

Lemma digits_chars (P : Z -> Prop) fuel x :
  (forall d, 0 <= d < base -> P (dig d)) -> Forall P (digits base dig fuel x []).
Proof using base_ge.
  intros HP. revert x. induction fuel as [|fuel IH]; intros x; cbn [digits]; [done|].
  assert (P (dig (x mod base))) by (apply HP, Z.mod_pos_bound; lia).
  case_if; [by constructor|]. rewrite digits_acc. apply Forall_app. split; [apply IH|by constructor].
Qed.

Lemma digits_length fuel (k : nat) x :
  (k <= fuel)%nat -> (0 < k)%nat -> 0 <= x < base ^ Z.of_nat k -> (length (digits base dig fuel x []) <= k)%nat.
Proof using base_ge.
  revert k x. induction fuel as [|fuel IH]; intros k x Hk Hk0 Hx; cbn [digits]; [lia|].
  case_if; [cbn; lia|]. rewrite digits_acc, length_app. cbn. destruct k as [|k]; [lia|].
  rewrite Nat2Z.inj_succ, Z.pow_succ_r in Hx by lia.
  assert (0 <= x / base < base ^ Z.of_nat k) by (split; [apply Z.div_pos; lia|apply Z.div_lt_upper_bound; lia]).
  destruct k as [|k]; [change (base ^ Z.of_nat 0) with 1 in *; lia|]. specialize (IH (S k) (x / base)). lia.
Qed.

Lemma digits_full fuel x : (length (digits base dig fuel x []) <= fuel)%nat.
Proof.
  revert x. induction fuel as [|fuel IH]; intros x; cbn [digits]; [done|]. case_if; [cbn; lia|].
  rewrite digits_acc, length_app. specialize (IH (x / base)). cbn. lia.
Qed.
End Digits.

(** The length of a number, and its characters. *)
Lemma dec_digits x : Forall (λ c, 48 <= c <= 57) (dec x).
Proof. apply digits_chars; lia. Qed.
Lemma dec_length x : (1 <= length (dec x) <= 20)%nat.
Proof.
  pose proof (digits_some 10 (λ d, 48 + d) 19 x) as H. pose proof (digits_full 10 (λ d, 48 + d) 20 x). fold (dec x) in *.
  destruct (dec x); [done|]. cbn in *. lia.
Qed.
Lemma dec_short (k : nat) x : (0 < k <= 20)%nat -> 0 <= x < 10 ^ Z.of_nat k -> (length (dec x) <= k)%nat.
Proof. intros. apply digits_length; lia. Qed.
Lemma hex_length x : (1 <= length (hex x) <= 16)%nat.
Proof.
  pose proof (digits_some 16 (λ d, if d <? 10 then 48 + d else 55 + d) 15 x) as H.
  pose proof (digits_full 16 (λ d, if d <? 10 then 48 + d else 55 + d) 16 x). fold (hex x) in *.
  destruct (hex x); [done|]. cbn in *. lia.
Qed.

Lemma plain_app s t : plain (s ++ t) <-> plain s /\ plain t.
Proof. apply Forall_app. Qed.
Lemma plain_dec x : plain (dec x).
Proof. eapply Forall_impl; [apply dec_digits|]. cbn. lia. Qed.
Lemma plain_repeat c n : c <> 0 -> plain (repeat c n).
Proof. intros Hc. induction n; by constructor. Qed.

Lemma ljust_length w s : length (ljust w s) = Nat.max w (length s).
Proof. unfold ljust. rewrite length_app, repeat_length. lia. Qed.
Lemma rjust_length w s : length (rjust w s) = Nat.max w (length s).
Proof. unfold rjust. rewrite length_app, repeat_length. lia. Qed.

Lemma land_byte a : 0 <= Z.land 255 a < 256.
Proof. rewrite Z.land_comm. change 255 with (Z.ones 8). rewrite Z.land_ones by lia. apply Z.mod_pos_bound. lia. Qed.

Lemma ip_text_length a : (7 <= length (ip_text a) <= 15)%nat.
Proof.
  assert (H : forall x, (1 <= length (dec (Z.land 255 x)) <= 3)%nat).
  { intros x. split; [apply dec_length|]. apply dec_short; [lia|]. pose proof (land_byte x). change (10 ^ Z.of_nat 3) with 1000. lia. }
  unfold ip_text. rewrite !length_app. cbn [length].
  pose proof (H a). pose proof (H (Z.shiftr a 8)). pose proof (H (Z.shiftr a 16)). pose proof (H (Z.shiftr a 24)). lia.
Qed.
Lemma plain_ip a : plain (ip_text a).
Proof. unfold ip_text. rewrite !plain_app. split_and!; first [apply plain_dec|by repeat constructor]. Qed.

Lemma plain_sdec x : plain (sdec x).
Proof. unfold sdec. case_if; [constructor; [done|]|]; apply plain_dec. Qed.
Lemma plain_zdec w x : plain (zdec w x).
Proof.
  unfold zdec. case_if; [constructor; [done|]|]; apply plain_app; (split; [by apply plain_repeat|apply plain_dec]).
Qed.
Lemma plain_hexdigit d : hexdigit d <> 0 \/ d < 0.
Proof. unfold hexdigit. case_if; lia. Qed.
Lemma plain_eth a0 a1 a2 a3 a4 a5 :
  Forall is_byte [a0; a1; a2; a3; a4; a5] -> plain (eth_text a0 a1 a2 a3 a4 a5).
Proof.
  intros H. unfold eth_text. rewrite !plain_app.
  assert (Hh : forall x, is_byte x -> plain (hex2 x)).
  { intros x [Hx _]. pose proof (Z.div_pos x 16 Hx). pose proof (Z.mod_pos_bound x 16).
    repeat constructor; [destruct (plain_hexdigit (x / 16))|destruct (plain_hexdigit (x mod 16))]; lia || done. }
  do 6 (apply Forall_cons in H as [? H]). split_and!; first [by apply Hh|by repeat constructor].
Qed.

Lemma sdec_length x : (1 <= length (sdec x) <= 21)%nat.
Proof. unfold sdec. pose proof (dec_length x). pose proof (dec_length (- x)). case_if; cbn [length]; lia. Qed.
Lemma sdec_short k x : (0 < k <= 20)%nat -> Z.abs x < 10 ^ Z.of_nat k -> (length (sdec x) <= S k)%nat.
Proof. intros. unfold sdec. case_if; cbn [length]; [apply le_n_S|apply le_S]; apply dec_short; lia. Qed.
Lemma zdec_short w k x :
  (0 < k <= 20)%nat -> Z.abs x < 10 ^ Z.of_nat k -> (length (zdec w x) <= Nat.max w (S k))%nat.
Proof.
  intros Hk Hx. unfold zdec. assert (Hd : forall y, Z.abs y = Z.abs x -> 0 <= y -> (length (dec y) <= k)%nat)
    by (intros; apply dec_short; lia).
  case_if; cbn [length]; rewrite length_app, repeat_length; [specialize (Hd (- x))|specialize (Hd x)]; lia.
Qed.

(** Every time fits into a row of the array of [print_timeval]. *)
Definition is_long (x : Z) : Prop := - 2 ^ 63 <= x < 2 ^ 63.
Lemma quot_small x b c : 0 < b -> is_long x -> 2 ^ 63 < b * c -> Z.abs (Z.quot x b) < c.
Proof.
  intros Hb Hx Hc. unfold is_long in Hx. pose proof (Z.quot_abs x b ltac:(lia)) as H. rewrite (Z.abs_eq b) in H by lia.
  rewrite <- H, Z.quot_div_nonneg by lia. apply Z.div_lt_upper_bound; lia.
Qed.
Lemma tv_text_length tv : is_long (tv_sec tv) -> is_long (tv_usec tv) -> (length (tv_text tv) <= 42)%nat.
Proof.
  intros H1 H2. unfold tv_text. rewrite !length_app. cbn [length].
  assert ((length (sdec (Z.quot (tv_sec tv) 60)) <= 19)%nat) by (apply sdec_short; [lia|]; apply quot_small; done).
  assert ((length (zdec 2 (Z.rem (tv_sec tv) 60)) <= 3)%nat).
  { apply (zdec_short 2 2); [lia|]. change (10 ^ Z.of_nat 2) with 100.
    pose proof (Z.rem_bound_abs (tv_sec tv) 60 ltac:(done)) as Hr. change (Z.abs 60) with 60 in Hr. lia. }
  assert ((length (zdec 3 (Z.quot (tv_usec tv) 1000)) <= 17)%nat) by (apply (zdec_short 3 16); [lia|]; apply quot_small; done).
  lia.
Qed.
Lemma plain_tv tv : plain (tv_text tv).
Proof. unfold tv_text. rewrite !plain_app. split_and!; first [apply plain_sdec|apply plain_zdec|by repeat constructor]. Qed.

(** ** Texts in buffers *)

(** The string [s] stands at [off]. *)
Definition holds (b : bytes) (off : Z) (s : list Z) : Prop := memread b off (zlen s + 1) = Ret (s ++ [0]) /\ plain s.

Lemma to_nul_app s b : plain s -> to_nul (s ++ 0 :: b) = Ret s.
Proof.
  induction 1 as [|c s Hc _ IH]; cbn [to_nul app]; [done|]. rewrite (proj2 (Z.eqb_neq _ _)), IH by done. done.
Qed.
Lemma holds_cstr b off s : holds b off s -> cstr b off = Ret s.
Proof.
  intros [H Hp]. apply memread_Ret in H as (H1 & H2 & H3 & H4). unfold cstr.
  rewrite <- (take_drop (Z.to_nat (zlen s + 1)) (drop _ b)), <- H4, <- app_assoc. by apply to_nul_app.
Qed.

Lemma sprintf_total b off s :
  plain s -> 0 <= off -> off + zlen s + 1 <= zlen b ->
  exists b', sprintf b off s = Ret b' /\ zlen b' = zlen b /\ holds b' off s
    /\ forall off' s', holds b off' s' -> off' + zlen s' + 1 <= off \/ off + zlen s + 1 <= off' -> holds b' off' s'.
Proof.
  intros Hp H1 H2. unfold sprintf. destruct (memwrite_total b off (s ++ [0])) as [b' E]; [done|rewrite zlen_app; change (zlen [0]) with 1; lia|].
  exists b'. split; [done|]. split; [by eapply memwrite_len|].
  split; [split; [|done]; apply memread_memwrite_same in E; by rewrite zlen_app in E|].
  intros off' s' [Hs Hp'] Hd. split; [|done]. rewrite <- Hs. eapply memread_memwrite_disjoint; [exact E|].
  rewrite zlen_app. change (zlen [0]) with 1. destruct Hd; [left|right]; lia.
Qed.
Lemma sprintf_long b off s : zlen b < off + zlen s + 1 -> sprintf b off s = Fault BadAccess.
Proof.
  intros H. unfold sprintf, memwrite. rewrite zlen_app. change (zlen [0]) with 1.
  rewrite (proj2 (Z.leb_gt (off + (zlen s + 1)) (zlen b))) by lia. by rewrite andb_false_r.
Qed.

(** ** The helpers *)

Record statics_ok (st : statics) : Prop := {
  st_ip : zlen (ip_buf st) = 64;
  st_index : exists k, 0 <= k < 4 /\ ip_index st = 16 * k;
  st_eth : zlen (eth_buf st) = 30;
  st_tv : zlen (tv_buf st) = 3136;
  st_n : tv_n st = 0 \/ tv_n st = 1;
  st_srt : zlen (srt_buf st) = BUFLEN;
  st_hops : zlen (hops_buf st) = 18;
  st_cost : zlen (cost_buf st) = 18
}.

Lemma statics_init_ok : statics_ok statics_init.
Proof. split; try done; [exists 0; split; [lia|done]|by left]. Qed.

(** The text [s] is behind the pointer [p], within its share of the buffer. *)
Definition shows (st : statics) (p : text_ptr) (s : list Z) : Prop :=
  match p with
  | InIp off => holds (ip_buf st) off s /\ (exists k, 0 <= k < 4 /\ off = 16 * k) /\ zlen s <= 15
  | InEth => holds (eth_buf st) 0 s
  | InTv n => holds (tv_buf st) (56 * n) s /\ (n = 0 \/ n = 1) /\ zlen s <= 55
  | InSrt => holds (srt_buf st) 0 s
  | InHops => holds (hops_buf st) 0 s
  | InCost => holds (cost_buf st) 0 s
  end.

Lemma shows_text st p s : shows st p s -> text_at st p = Ret s.
Proof. destruct p; cbn; intros H; apply holds_cstr; first [apply H|exact H]. Qed.

(** What a helper does: the text behind its pointer, and every other text kept. *)
Record prints (m : statics -> outcome (text_ptr * statics)) (at_ : statics -> text_ptr) (s : list Z) : Prop := {
  pr_run st : statics_ok st -> exists st', m st = Ret (at_ st, st') /\ statics_ok st' /\ shows st' (at_ st) s
    /\ (forall p s', shows st p s' -> p <> at_ st -> shows st' p s')
    /\ ip_index st' = (match at_ st with InIp _ => (ip_index st + 16) mod 64 | _ => ip_index st end)
    /\ tv_n st' = (match at_ st with InTv n => n | _ => tv_n st end) /\ srt_buf st' = srt_buf st
}.

Lemma print_ip_prints a : prints (print_ip a) (λ st, InIp (ip_index st)) (ip_text a).
Proof.
  split. intros st [H1 (k & Hk & Hi) H2 H3 H4 H5 H6 H7]. unfold print_ip. pose proof (ip_text_length a) as Hl.
  destruct (sprintf_total (ip_buf st) (ip_index st) (ip_text a)) as (b & -> & Hb & Hs & Hf); [apply plain_ip|lia|unfold zlen in *; lia|].
  cbn [mbind outcome_bind]. eexists. split; [reflexivity|].
  rewrite Z.rem_mod_nonneg by lia. split_and!; try done.
  - split; cbn; try done; [lia|]. rewrite Hi. exists ((k + 1) mod 4). split; [apply Z.mod_pos_bound; lia|].
    replace (16 * k + 16) with (16 * (k + 1)) by lia. change 64 with (16 * 4). by rewrite Z.mul_mod_distr_l.
  - split; [done|]. split; [by exists k|]. unfold zlen. lia.
  - intros p s' Hp Hne. destruct p as [off| | | | |]; try exact Hp. destruct Hp as (Hh & (k' & Hk' & ->) & Hs').
    split; [|split; [by exists k'|done]]. apply Hf; [done|]. assert (k' <> k) by congruence. unfold zlen in *. lia.
Qed.

Lemma print_eth_prints a0 a1 a2 a3 a4 a5 rest :
  Forall is_byte [a0; a1; a2; a3; a4; a5] ->
  prints (print_eth (a0 :: a1 :: a2 :: a3 :: a4 :: a5 :: rest)) (λ _, InEth) (eth_text a0 a1 a2 a3 a4 a5).
Proof.
  intros Ha. split. intros st [H1 Hi H2 H3 H4 H5 H6 H7]. unfold print_eth.
  set (hw := a0 :: _). assert (Hld : forall i x, (i < 6)%nat -> hw !! i = Some x -> load8 hw (Z.of_nat i) = Ret x).
  { intros i x Hi6 Hx. unfold load8. pose proof (zlen_nonneg rest). assert (Hz : zlen hw = zlen rest + 6) by (unfold hw; by rewrite !zlen_cons, <- !Z.add_assoc).
    destruct (memread_total hw (Z.of_nat i) 1) as [l E]; [lia..|]. rewrite E. apply memread_Ret in E as (_ & _ & _ & ->).
    rewrite Nat2Z.id, (drop_S _ _ _ Hx). done. }
  pose proof (Hld 0%nat a0 ltac:(lia) eq_refl) as E0. pose proof (Hld 1%nat a1 ltac:(lia) eq_refl) as E1.
  pose proof (Hld 2%nat a2 ltac:(lia) eq_refl) as E2. pose proof (Hld 3%nat a3 ltac:(lia) eq_refl) as E3.
  pose proof (Hld 4%nat a4 ltac:(lia) eq_refl) as E4. pose proof (Hld 5%nat a5 ltac:(lia) eq_refl) as E5.
  clearbody hw. change (Z.of_nat 0) with 0 in E0. change (Z.of_nat 1) with 1 in E1. change (Z.of_nat 2) with 2 in E2.
  change (Z.of_nat 3) with 3 in E3. change (Z.of_nat 4) with 4 in E4. change (Z.of_nat 5) with 5 in E5.
  rewrite E0, E1, E2, E3, E4, E5. cbn [mbind outcome_bind].
  destruct (sprintf_total (eth_buf st) 0 (eth_text a0 a1 a2 a3 a4 a5)) as (b & -> & Hb & Hs & Hf);
    [by apply plain_eth|lia|change (zlen (eth_text a0 a1 a2 a3 a4 a5)) with 17; lia|].
  cbn [mbind outcome_bind]. eexists. split; [reflexivity|]. split_and!; try done.
  - split; cbn; try done. lia.
  - intros p s' Hp Hne. by destruct p.
Qed.

Lemma print_timeval_prints tv :
  is_long (tv_sec tv) -> is_long (tv_usec tv) -> prints (print_timeval tv) (λ st, InTv (1 - tv_n st)) (tv_text tv).
Proof.
  intros L1 L2. split. intros st [H1 Hi H2 H3 H4 H5 H6 H7]. unfold print_timeval, snprintf.
  pose proof (tv_text_length tv L1 L2) as Hl.
  rewrite take_ge by lia. assert (Hn : Z.rem (tv_n st + 1) 2 = 1 - tv_n st) by (destruct H4 as [-> | ->]; done). rewrite Hn.
  destruct (sprintf_total (tv_buf st) (56 * (1 - tv_n st)) (tv_text tv)) as (b & E & Hb & Hs & Hf); [apply plain_tv|lia|unfold zlen in *; lia|].
  unfold sprintf in E. rewrite E. cbn [mbind outcome_bind]. eexists. split; [reflexivity|].
  split_and!; try done.
  - split; cbn; try done; lia.
  - cbn. split; [done|]. split; [lia|]. unfold zlen. lia.
  - intros p s' Hp Hne. destruct p as [|  |n| | |]; try exact Hp. destruct Hp as (Hh & Hn' & Hs').
    split; [|done]. apply Hf; [done|]. assert (n <> 1 - tv_n st) by congruence. unfold zlen in *. lia.
Qed.

(** Several addresses in one statement. *)
Fixpoint print_ips (l : list Z) (st : statics) : outcome (list text_ptr * statics) :=
  match l with [] => Ret ([], st) | a :: l' => '(p, st) ← print_ip a st; '(ps, st) ← print_ips l' st; Ret (p :: ps, st) end.

Lemma print_ips_shows l st :
  statics_ok st -> (length l <= 4)%nat ->
  exists ps st', print_ips l st = Ret (ps, st') /\ statics_ok st' /\ Forall2 (shows st') ps (ip_text <$> l)
    /\ (forall p, p ∈ ps -> exists j, 0 <= j < zlen l /\ p = InIp ((ip_index st + 16 * j) mod 64))
    /\ (forall p s, shows st p s -> (p ∉ ps) -> shows st' p s).
Proof.
  revert st. induction l as [|a l IH]; intros st Hst Hl; cbn [length] in Hl.
  { exists [], st. split; [done|]. split; [done|]. split; [constructor|]. split; [intros p Hp; by apply elem_of_nil in Hp|auto]. }
  destruct (pr_run _ _ _ (print_ip_prints a) st Hst) as (st1 & E1 & H1 & S1 & F1 & N1 & _).
  destruct (IH st1 H1 ltac:(lia)) as (ps & st2 & E2 & H2 & S2 & P2 & F2).
  cbn [print_ips]. rewrite E1. cbn [mbind outcome_bind]. rewrite E2. cbn [mbind outcome_bind].
  eexists _, st2. split; [reflexivity|]. split; [done|].
  destruct (st_index _ Hst) as (k & Hk & Hi).
  assert (Hstep : forall j, (ip_index st1 + 16 * j) mod 64 = (ip_index st + 16 * (j + 1)) mod 64).
  { intros j. rewrite N1, Zplus_mod_idemp_l. f_equal. lia. }
  assert (Hidx : ip_index st = (ip_index st + 16 * 0) mod 64) by (rewrite Z.mod_small; lia).
  assert (Hnew : InIp (ip_index st) ∉ ps).
  { intros Hin. destruct (P2 _ Hin) as (j & Hj & [= Heq]). rewrite Hstep in Heq. unfold zlen in Hj.
    assert (Hm : (16 * (j + 1)) mod 64 = 0).
    { replace (16 * (j + 1)) with (ip_index st + 16 * (j + 1) - ip_index st) by lia.
      rewrite Zminus_mod, <- Heq, (Z.mod_small (ip_index st)), Z.sub_diag by lia. done. }
    rewrite Z.mod_small in Hm by lia. lia. }
  split; [constructor; [by apply F2|done]|]. split.
  - intros p [-> | Hp]%elem_of_cons; [exists 0; rewrite zlen_cons; pose proof (zlen_nonneg l); split; [lia|congruence]|].
    destruct (P2 p Hp) as (j & Hj & ->). exists (j + 1). rewrite zlen_cons, Hstep. split; [lia|done].
  - intros p s Hp [Hne Hnot]%not_elem_of_cons. apply F2; [by apply F1|done].
Qed.

(** Up to four addresses can be printed for one statement: whatever was
    printed before, the four texts behind the pointers that [print_ip] returned
    are those of the four addresses, in order, although they share one buffer. *)
Theorem print_ip_four l st :
  statics_ok st -> (length l <= 4)%nat ->
  exists ps st', print_ips l st = Ret (ps, st') /\ statics_ok st'
    /\ Forall2 (λ p a, text_at st' p = Ret (ip_text a)) ps l.
Proof.
  intros Hst Hl. destruct (print_ips_shows l st Hst Hl) as (ps & st' & E & Hok & Hs & _).
  exists ps, st'. split; [done|]. split; [done|]. rewrite Forall2_fmap_r in Hs.
  eapply Forall2_impl; [exact Hs|]. cbn. intros p a. apply shows_text.
Qed.

(** The fifth address takes the place of the first. *)
Lemma print_ip_four_witness :
  exists ps st', print_ips [16777343; 33554442; 1; 0] statics_init = Ret (ps, st') /\ statics_ok st'
    /\ Forall2 (λ p a, text_at st' p = Ret (ip_text a)) ps [16777343; 33554442; 1; 0].
Proof. apply (print_ip_four [16777343; 33554442; 1; 0] statics_init statics_init_ok). cbn. lia. Defined.
Example print_ip_fifth :
  exists p ps st', print_ips [16777343; 2; 3; 4; 5] statics_init = Ret (p :: ps, st')
    /\ ip_text 16777343 = chars "127.0.0.1" /\ text_at st' p = Ret (chars "5.0.0.0").
Proof. eexists _, _, _. split; [vm_compute; reflexivity|]. by vm_compute. Qed.

(** ** Routes *)

Lemma sprintf_after b s t b' :
  memread b 0 (zlen s) = Ret s -> sprintf b (zlen s) t = Ret b' ->
  zlen b' = zlen b /\ memread b' 0 (zlen s + zlen t) = Ret (s ++ t)
  /\ memread b' 0 (zlen s + zlen t + 1) = Ret (s ++ t ++ [0]).
Proof.
  intros Hs E. unfold sprintf in E. split; [by eapply memwrite_len|].
  pose proof (zlen_nonneg s). pose proof (zlen_nonneg t).
  assert (Hall : memread b' 0 (zlen s + zlen (t ++ [0])) = Ret (s ++ t ++ [0])).
  { apply memread_join; [rewrite <- Hs; eapply memread_memwrite_disjoint; [exact E|left; lia]|].
    by eapply memread_memwrite_same. }
  rewrite zlen_app in Hall. change (zlen [0]) with 1 in Hall. rewrite Z.add_assoc in Hall. split; [|done].
  pose proof (memread_sub _ _ _ _ 0 (zlen s + zlen t) Hall) as Hsub. rewrite Z.add_0_r in Hsub. rewrite Hsub by lia.
  apply memread_Ret. rewrite !zlen_app. change (zlen [0]) with 1. split_and!; [lia..|].
  rewrite drop_0, app_assoc. symmetry. apply take_app_length'. rewrite length_app. unfold zlen. lia.
Qed.

Definition hop_text (a : Z) : list Z := ip_text a ++ chars "<->".
Definition srt_text (r : dsr_srt) : list Z := hop_text (src r) ++ concat (hop_text <$> addrs r) ++ ip_text (dst r).

Lemma hop_text_length a : 10 <= zlen (hop_text a) <= 18.
Proof. pose proof (ip_text_length a). unfold hop_text, zlen. rewrite length_app. cbn [length chars]. lia. Qed.

Lemma print_hop_run a sep s st :
  statics_ok st -> plain s -> plain sep -> memread (srt_buf st) 0 (zlen s) = Ret s ->
  zlen s + zlen (ip_text a ++ sep) < BUFLEN ->
  exists st', print_hop a sep (zlen s) st = Ret (zlen (ip_text a ++ sep), st') /\ statics_ok st'
    /\ memread (srt_buf st') 0 (zlen s + zlen (ip_text a ++ sep)) = Ret (s ++ ip_text a ++ sep)
    /\ shows st' InSrt (s ++ ip_text a ++ sep).
Proof.
  intros Hst Hps Hp Hs Hl. unfold print_hop.
  destruct (pr_run _ _ _ (print_ip_prints a) st Hst) as (st1 & -> & H1 & S1 & F1 & _ & _ & Hk). cbn [mbind outcome_bind].
  rewrite (shows_text _ _ _ S1). cbn [mbind outcome_bind]. set (t := ip_text a ++ sep) in *.
  assert (Hpt : plain t) by (apply plain_app; split; [apply plain_ip|done]). pose proof (zlen_nonneg s).
  destruct (sprintf_total (srt_buf st1) (zlen s) t) as (b & E & Hb & _); [done|lia|rewrite (st_srt _ H1); lia|].
  rewrite E. cbn [mbind outcome_bind]. rewrite <- Hk in Hs.
  destruct (sprintf_after _ _ _ _ Hs E) as (_ & Hr & Hr'). eexists. split; [reflexivity|].
  split; [destruct H1; split; try done; cbn; congruence|].
  split; [exact Hr|]. split; [|by apply plain_app]. cbn [srt_buf set_srt_buf]. rewrite zlen_app, <- app_assoc. exact Hr'.
Qed.

Lemma plain_hop a : plain (hop_text a).
Proof. apply plain_app. split; [apply plain_ip|by repeat constructor]. Qed.
Lemma plain_hops l : plain (concat (hop_text <$> l)).
Proof. induction l as [|a l IH]; [constructor|]. cbn. apply plain_app. split; [apply plain_hop|done]. Qed.

Lemma print_srt_loop_run r turns (i : nat) s st :
  statics_ok st -> laddrs r = 4 * zlen (addrs r) -> (length (addrs r) < i + turns)%nat -> plain s ->
  memread (srt_buf st) 0 (zlen s) = Ret s -> zlen (s ++ concat (hop_text <$> drop i (addrs r))) < 240 ->
  exists st', print_srt_loop turns r (Z.of_nat i) (zlen s) st = Ret (zlen (s ++ concat (hop_text <$> drop i (addrs r))), st')
    /\ statics_ok st' /\ memread (srt_buf st') 0 (zlen (s ++ concat (hop_text <$> drop i (addrs r)))) = Ret (s ++ concat (hop_text <$> drop i (addrs r))).
Proof.
  intros Hst Hla. revert i s st Hst. induction turns as [|turns IH]; intros i s st Hst Ht Hp Hs Hl.
  { rewrite drop_ge in * by lia. cbn. rewrite app_nil_r. by exists st. }
  cbn [print_srt_loop]. rewrite Hla, Z.mul_comm, Z.div_mul by lia.
  destruct (addrs r !! i) as [a|] eqn:Ea.
  - pose proof (lookup_lt_Some _ _ _ Ea) as Hil. rewrite (drop_S _ _ _ Ea) in *. cbn [fmap list_fmap concat] in *.
    rewrite app_assoc in *. set (rest := concat _) in *. rewrite !zlen_app in Hl.
    pose proof (hop_text_length a) as Hha. pose proof (zlen_nonneg rest) as Hrn. pose proof (zlen_nonneg s) as Hsn.
    rewrite (proj2 (Z.ltb_lt _ _)) by (unfold zlen; lia). rewrite (proj2 (Z.ltb_lt _ _)) by (unfold BUFLEN; lia). cbn [andb].
    rewrite znth_of_nat, Ea. cbn [of_option mbind outcome_bind].
    destruct (print_hop_run a (chars "<->") s st) as (st1 & E & H1 & Hr & Hsh); try done; [by repeat constructor|fold (hop_text a); unfold BUFLEN; lia|].
    rewrite E. cbn [mbind outcome_bind]. fold (hop_text a) in *.
    replace (Z.of_nat i + 1) with (Z.of_nat (Datatypes.S i)) by lia. rewrite <- zlen_app in *.
    apply IH; try done; [lia|apply plain_app; split; [done|apply plain_hop]|].
    rewrite zlen_app. exact Hl.
  - apply lookup_ge_None in Ea. rewrite drop_ge in * by done. cbn. rewrite app_nil_r.
    rewrite (proj2 (Z.ltb_ge _ _)) by (unfold zlen; lia). by exists st.
Qed.

(** A route is printed whole when its source and its hops take less than 240
    characters, which up to twelve hops always do: the text behind the pointer is
    that of all its addresses, and nothing outside the buffer is written. *)
Theorem print_srt_whole r st :
  statics_ok st -> laddrs r = 4 * zlen (addrs r) -> zlen (hop_text (src r) ++ concat (hop_text <$> addrs r)) < 240 ->
  exists st', print_srt (Some r) st = Ret (Some InSrt, st') /\ statics_ok st' /\ text_at st' InSrt = Ret (srt_text r).
Proof.
  intros Hst Hla Hl. unfold print_srt. pose proof (hop_text_length (src r)) as Hh. rewrite zlen_app in Hl.
  assert (Hc : zlen (concat (hop_text <$> addrs r)) >= 0) by (pose proof (zlen_nonneg (concat (hop_text <$> addrs r))); lia).
  destruct (print_hop_run (src r) (chars "<->") [] st Hst) as (st1 & E & H1 & Hr & _);
    [constructor|by repeat constructor|apply memread_Ret; rewrite (st_srt _ Hst); by repeat split|fold (hop_text (src r)); unfold BUFLEN; change (zlen []) with 0; lia|].
  change (zlen []) with 0 in *. rewrite E. cbn [mbind outcome_bind app] in *. fold (hop_text (src r)) in *. rewrite Z.add_0_l in Hr.
  pose proof (plain_hop (src r)) as Hpl.
  destruct (print_srt_loop_run r (S (Z.to_nat (laddrs r / 4))) 0 (hop_text (src r)) st1) as (st2 & E2 & H2 & Hr2); try done.
  { rewrite Hla, Z.mul_comm, Z.div_mul by lia. unfold zlen. lia. }
  { rewrite drop_0, zlen_app. lia. }
  rewrite drop_0 in *. change (Z.of_nat 0) with 0 in E2. rewrite E2. cbn [mbind outcome_bind].
  rewrite (proj2 (Z.ltb_lt _ _)) by (rewrite zlen_app; unfold BUFLEN; lia).
  set (s := hop_text (src r) ++ _) in *.
  assert (Hps : plain s).
  { apply plain_app. split; [done|apply plain_hops]. }
  pose proof (ip_text_length (dst r)) as Hd.
  destruct (print_hop_run (dst r) [] s st2) as (st3 & E3 & H3 & _ & Hsh); try done; [constructor| |].
  { rewrite app_nil_r. unfold s. rewrite zlen_app. unfold BUFLEN, zlen in *. lia. }
  rewrite E3. cbn [mbind outcome_bind]. eexists. split; [reflexivity|]. split; [done|].
  rewrite (shows_text _ _ _ Hsh). unfold srt_text, s. by rewrite app_nil_r, app_assoc.
Qed.

(** Three nodes. *)
Lemma print_srt_whole_witness :
  exists st', print_srt (Some (DsrSrt 1 3 0 4 [2] [])) statics_init = Ret (Some InSrt, st') /\ statics_ok st'
    /\ text_at st' InSrt = Ret (chars "1.0.0.0<->2.0.0.0<->3.0.0.0").
Proof.
  destruct (print_srt_whole (DsrSrt 1 3 0 4 [2] []) statics_init statics_init_ok) as (st' & E & H & Ht).
  - reflexivity.
  - vm_compute. reflexivity.
  - exists st'. split; [exact E|]. split; [exact H|]. rewrite Ht. vm_compute. reflexivity.
Defined.

(** The test of the loop leaves 16 bytes, an address and its arrow take up to 19:
    fourteen hops whose texts end at the 238th byte lead outside the buffer. *)
Example print_srt_overflows :
  let long := 4294967295 in
  print_srt (Some (DsrSrt 0 9 0 56 (repeat long 12 ++ [2570; long]) [])) statics_init = Fault BadAccess.
Proof. vm_compute. reflexivity. Qed.

(** ** Printing into the page *)

Section Page.
Context {S : Type}.
Abbreviation out := (bytes * Z * S)%type.

(** A page of [n] bytes that holds the text [s] so far. *)
Definition wrote (n : Z) (I : S -> Prop) (s : list Z) (o : out) : Prop :=
  let '(b, len, st) := o in zlen b = n /\ len = zlen s /\ memread b 0 len = Ret s /\ I st.

(** [m] adds the text [t] and its NUL if there is room, and else leads outside. *)
Definition writes (I I' : S -> Prop) (m : out -> outcome out) (t : list Z) : Prop := forall n s o,
  wrote n I s o ->
  (zlen s + zlen t < n -> exists o', m o = Ret o' /\ wrote n I' (s ++ t) o')
  /\ (zlen s < n -> n <= zlen s + zlen t -> m o = Fault BadAccess).

Lemma writes_put (I : S -> Prop) t : writes I I (put t) t.
Proof.
  intros n s [[b len] st] (Hb & -> & Hs & HI). unfold put. split.
  - intros Hn. destruct (memwrite_total b (zlen s) (t ++ [0])) as [b' E];
      [apply zlen_nonneg|rewrite zlen_app; change (zlen [0]) with 1; lia|].
    fold (sprintf b (zlen s) t) in E. rewrite E. cbn [mbind outcome_bind]. eexists. split; [reflexivity|].
    destruct (sprintf_after _ _ _ _ Hs E) as (Hl & Hr & _). rewrite <- zlen_app in *. repeat split; try done. lia.
  - intros _ Hn. rewrite sprintf_long by lia. done.
Qed.

(** Calls of the helpers in front of it. *)
Lemma writes_after (I I' I'' : S -> Prop) m k t :
  writes I' I'' k t -> (forall st, I st -> exists st', I' st' /\ forall b len, m (b, len, st) = k (b, len, st')) -> writes I I'' m t.
Proof.
  intros Hk Hm n s [[b len] st] (Hb & Hl & Hs & HI). destruct (Hm st HI) as (st' & HI' & ->). by apply Hk.
Qed.

Lemma writes_seq (I I1 I2 : S -> Prop) m1 m2 t1 t2 :
  writes I I1 m1 t1 -> writes I1 I2 m2 t2 -> writes I I2 (λ o, m1 o ≫= m2) (t1 ++ t2).
Proof.
  intros H1 H2 n s o Ho. rewrite zlen_app. pose proof (zlen_nonneg t1). pose proof (zlen_nonneg t2).
  destruct (H1 n s o Ho) as [R1 F1]. split.
  - intros Hn. destruct R1 as (o1 & -> & Ho1); [lia|]. cbn [mbind outcome_bind].
    rewrite app_assoc. apply (H2 n (s ++ t1) o1 Ho1). rewrite zlen_app. lia.
  - intros Hs Hn. destruct (decide (n <= zlen s + zlen t1)) as [Hle|Hgt]; [by rewrite F1|].
    destruct R1 as (o1 & -> & Ho1); [lia|]. cbn [mbind outcome_bind].
    apply (H2 n (s ++ t1) o1 Ho1); rewrite zlen_app; lia.
Qed.

Lemma writes_nil (I : S -> Prop) : writes I I Ret [].
Proof. intros n s o Ho. change (zlen []) with 0. split; [intros _; exists o; by rewrite app_nil_r|lia]. Qed.

Lemma writes_each {A} (I : S -> Prop) (row : A -> out -> outcome out) (f : A -> list Z) l :
  (forall x, x ∈ l -> writes I I (row x) (f x)) -> writes I I (print_each row l) (concat (f <$> l)).
Proof.
  induction l as [|x l IH]; intros Hrow; [apply writes_nil|]. cbn [print_each fmap list_fmap concat].
  apply (writes_seq I I I); [by apply Hrow, list_elem_of_here|apply IH; intros y Hy; by apply Hrow, list_elem_of_further].
Qed.

(** What a function that prints a table makes of a page. *)
Definition prints_page (I : S -> Prop) (t : list Z) (print : bytes -> S -> outcome out) : Prop := forall b st,
  I st -> 0 < zlen b ->
  (zlen t < zlen b -> exists b' st', print b st = Ret (b', zlen t, st') /\ zlen b' = zlen b
                                    /\ memread b' 0 (zlen t) = Ret t /\ I st')
  /\ (zlen b <= zlen t -> print b st = Fault BadAccess).

Lemma writes_start (I I' : S -> Prop) m t b st :
  writes I I' m t -> I st -> 0 < zlen b ->
  (zlen t < zlen b -> exists b' st', m (b, 0, st) = Ret (b', zlen t, st') /\ zlen b' = zlen b
                                    /\ memread b' 0 (zlen t) = Ret t /\ I' st')
  /\ (zlen b <= zlen t -> m (b, 0, st) = Fault BadAccess).
Proof.
  intros Hm HI Hb. destruct (Hm (zlen b) [] (b, 0, st)) as [R F].
  { repeat split; try done. apply memread_Ret. change (zlen []) with 0. split_and!; lia || done. }
  change (zlen []) with 0 in *. split.
  - intros Ht. destruct (R ltac:(lia)) as ([[b' len] st'] & E & H1 & -> & H2 & H3). exists b', st'. by split_and!.
  - intros Ht. apply F; lia.
Qed.
Lemma writes_prints (I : S -> Prop) m t : writes I I m t -> prints_page I t (λ b st, m (b, 0, st)).
Proof. intros Hm b st HI Hb. by apply (writes_start I I). Qed.

(** *** Reading a file *)

(** A file's handler, from what it calls to print. *)
Definition proc_info (print : bytes -> S -> outcome out) : handler_t S := fun buffer offset length st =>
  '(b, len, st) ← print buffer st;
  Ret (b, offset, proc_len len offset length, st).

Lemma proc_read_run (I : S -> Prop) t print page offset length st :
  prints_page I t print -> I st -> zlen page = PAGE_SIZE -> zlen t < PAGE_SIZE -> 0 <= offset < 2 ^ 31 -> 0 < length ->
  exists st', proc_read (proc_info print) page offset length st = Ret (take (Z.to_nat length) (drop (Z.to_nat offset) t), st') /\ I st'.
Proof.
  intros Hp HI Hpg Ht Ho Hl. unfold PAGE_SIZE in *. unfold proc_read, proc_info.
  destruct (Hp page st HI ltac:(lia)) as [R _]. destruct R as (b' & st' & -> & Hb & Hr & HI'); [lia|].
  cbn [mbind outcome_bind]. pose proof (zlen_nonneg t) as Hn. apply memread_Ret in Hr as (_ & _ & _ & Htk).
  change (Z.to_nat 0) with 0%nat in Htk. rewrite drop_0 in Htk.
  unfold proc_len. rewrite s32_small by lia. exists st'. split; [|done].
  destruct (decide (zlen t <= offset)) as [Hge|Hlt].
  - assert (Hle : ((if zlen t - offset >? length then length else if zlen t - offset <? 0 then 0 else zlen t - offset) <=? 0) = true).
    { apply Z.leb_le. repeat case_if; zb; lia. }
    rewrite Hle, drop_ge by (unfold zlen in *; lia). by rewrite take_nil.
  - set (k := if _ >? _ then _ else _). assert (Hk : k = Z.min length (zlen t - offset)) by (unfold k; repeat case_if; zb; lia).
    clearbody k. rewrite (proj2 (Z.leb_gt _ _)) by lia. unfold memread.
    rewrite (proj2 (Z.leb_le 0 offset)), (proj2 (Z.leb_le 0 k)), (proj2 (Z.leb_le _ _)) by lia. cbn [andb mbind outcome_bind].
    f_equal. f_equal. rewrite Htk. rewrite skipn_firstn_comm, firstn_firstn. f_equal. unfold zlen in *. lia.
Qed.

(** Reading in pieces gives the text from its start, without gaps. *)
Lemma read_pieces_run (I : S -> Prop) t print page ls st :
  prints_page I t print -> I st -> zlen page = PAGE_SIZE -> zlen t < PAGE_SIZE -> Forall (λ l, 0 < l) ls ->
  exists st', read_pieces (proc_info print) page 0 ls st = Ret (take (Z.to_nat (foldr Z.add 0 ls)) t, st') /\ I st'.
Proof.
  intros Hp HI Hpg Ht Hls.
  assert (H : forall off st, I st -> 0 <= off <= zlen t ->
            exists st', read_pieces (proc_info print) page off ls st = Ret (take (Z.to_nat (foldr Z.add 0 ls)) (drop (Z.to_nat off) t), st') /\ I st').
  2: { apply (H 0); [done|]. pose proof (zlen_nonneg t). lia. }
  clear st HI. unfold PAGE_SIZE in *. induction Hls as [|l ls Hl Hls IH]; intros off st HI Ho; [by exists st|]. cbn [read_pieces foldr].
  assert (Hsum : 0 <= foldr Z.add 0 ls) by (clear IH; induction Hls; cbn; lia).
  destruct (proc_read_run I t print page off l st) as (st1 & -> & HI1); try done; [lia|]. cbn [mbind outcome_bind].
  set (x := take (Z.to_nat l) _). assert (Hx : zlen x = Z.min l (zlen t - off)) by (unfold x, zlen in *; rewrite length_take, length_drop; lia).
  destruct (IH (off + zlen x) st1) as (st2 & -> & HI2); [done|lia|]. cbn [mbind outcome_bind]. exists st2. split; [|done].
  f_equal. f_equal. rewrite (Z2Nat.inj_add l) by lia. rewrite <- take_take_drop, drop_drop. fold x.
  f_equal. destruct (decide (l <= zlen t - off)) as [Hd|Hd].
  - do 2 f_equal. lia.
  - rewrite !drop_ge by (unfold zlen in *; lia). by rewrite !take_nil.
Qed.
End Page.

Lemma concat_bound {A B} (f : A -> list B) lo hi l :
  (forall x, x ∈ l -> lo <= zlen (f x) <= hi) -> lo * zlen l <= zlen (concat (f <$> l)) <= hi * zlen l.
Proof.
  induction l as [|x l IH]; intros Hf; cbn [fmap list_fmap concat]; [change (lo * 0 <= 0 <= hi * 0); lia|].
  rewrite zlen_app, zlen_cons. specialize (Hf x) as Hx. specialize (IH (λ y Hy, Hf y (list_elem_of_further _ _ _ Hy))).
  specialize (Hx (list_elem_of_here _ _)). lia.
Qed.
