(* ===== verification/RtcSimple.v ===== *)
(** * The simple route cache (dsr-rtc-simple.c)

    The cache of whole routes that the link cache took the place of: a list of
    routes in the order they expire, one for each destination, with a counter
    beside it and a timer for the first.  Time is in jiffies. *)

From S2P Require Import Prelude Mem Srt.

Definition RTC_MAX_LEN : Z := 1024.

(** [e_room]: the bytes that were allocated for the addresses. *)
Record rtc_entry := RtcEntry { e_expires : Z; e_flags : Z; e_srt : dsr_srt; e_room : Z }.
Record rtc := Rtc { rtc_head : list rtc_entry; rtc_len : Z; rtc_timer : option Z }.

Definition set_head (r : rtc) v := Rtc v (rtc_len r) (rtc_timer r).
Definition set_len (r : rtc) v := Rtc (rtc_head r) v (rtc_timer r).
Definition arm (r : rtc) v := Rtc (rtc_head r) (rtc_len r) (Some v).
Definition disarm (r : rtc) := Rtc (rtc_head r) (rtc_len r) None.

Definition rtc_init : rtc := Rtc [] 0 None.

Section Rtc.
Context (TimeNow HZ : Z).

Definition __dsr_rtc_set_next_timeout (r : rtc) : rtc :=
  match rtc_head r with [] => r | ne :: _ => arm r (e_expires ne) end.

(** The loop of [dsr_rtc_timeout]: [time] is an [int], the comparison one of
    [unsigned long]. *)
Fixpoint rtc_timeout_loop (time : Z) (l : list rtc_entry) (n : Z) : list rtc_entry * Z :=
  match l with
  | [] => ([], n)
  | e :: l' => if e_expires e >? u64 time then (l, n) else rtc_timeout_loop time l' (u32 (n - 1))
  end.

(** The timer has fired, so it is not pending. *)
Definition dsr_rtc_timeout (r : rtc) : rtc :=
  let time := s32 TimeNow in
  let '(l, n) := rtc_timeout_loop time (rtc_head r) (rtc_len r) in
  __dsr_rtc_set_next_timeout (Rtc l n None).

Fixpoint rtc_flush_loop (l : list rtc_entry) (n : Z) : Z :=
  match l with [] => n | _ :: l' => rtc_flush_loop l' (u32 (n - 1)) end.
Definition __dsr_rtc_flush (r : rtc) : rtc := Rtc [] (rtc_flush_loop (rtc_head r) (rtc_len r)) (rtc_timer r).

Fixpoint rtc_insert (e : rtc_entry) (l : list rtc_entry) : list rtc_entry :=
  match l with
  | [] => [e]
  | curr :: l' => if e_expires curr >? e_expires e then e :: l else curr :: rtc_insert e l'
  end.
(** [list_is_first(e)] once [e] is inserted. *)
Definition first_in (e : rtc_entry) (l : list rtc_entry) : bool :=
  match l with [] => true | curr :: _ => e_expires curr >? e_expires e end.

Definition __dsr_rtc_add (e : rtc_entry) (r : rtc) : Z * rtc :=
  if rtc_len r >=? RTC_MAX_LEN then (- ENOSPC, r)
  else (1, set_head r (rtc_insert e (rtc_head r))).

Definition __dsr_rtc_find (daddr : Z) (r : rtc) : option (nat * rtc_entry) :=
  find_pos (λ e, dst (e_srt e) =? daddr) (rtc_head r).

(** The entry is at place [i]. *)
Definition __dsr_rtc_del (i : nat) (r : rtc) : rtc :=
  let r := set_head r (delete i (rtc_head r)) in
  match i, rtc_head r with
  | O, f :: _ => (* Update the timer *) arm r (e_expires f)
  | _, _ => r
  end.

Definition dsr_rtc_del (src dst : Z) (r : rtc) : Z * rtc :=
  match __dsr_rtc_find dst r with
  | None => (0, r)
  | Some (i, _) => (1, __dsr_rtc_del i r)
  end.

(** A copy; the block for it is used before it is looked at. *)
Definition dsr_rtc_find (src dst : Z) (mem : oracle) (r : rtc) : outcome (option dsr_srt * oracle) :=
  match __dsr_rtc_find dst r with
  | Some (_, e) => let '(ok, mem) := kmalloc mem in if ok then Ret (Some (e_srt e), mem) else Fault BadAccess
  | None => Ret (None, mem)
  end.

Definition expiry (time : Z) : Z := u64 (TimeNow + u64 (time * HZ) / 1000).

(** The copy [dsr_rtc_find] makes is not freed. *)
Definition dsr_rtc_add (srt : option dsr_srt) (time flags : Z) (mem : oracle) (r : rtc) : outcome (Z * rtc * oracle) :=
  match srt with
  | None => Ret (0, r, mem)
  | Some srt =>
      '(there, mem) ← dsr_rtc_find (src srt) (dst srt) mem r;
      match there with
      | Some _ => Ret (0, r, mem)
      | None =>
          let '(ok, mem) := kmalloc mem in
          if negb ok then Ret (- ENOMEM, r, mem)
          else
            let e := RtcEntry (expiry time) flags srt (laddrs srt) in
            let first := first_in e (rtc_head r) in
            let '(status, r) := __dsr_rtc_add e r in
            (* counted whatever the status, which is not 0 *)
            let r := if negb (status =? 0) then set_len r (u32 (rtc_len r + 1)) else r in
            let r := if (0 <? status) && first then arm r (e_expires e) else r in
            Ret (status, r, mem)
      end
  end.

(** The new addresses go where the old ones are; what [__dsr_rtc_add] answers is
    not looked at. *)
Definition dsr_rtc_update (srt : option dsr_srt) (time flags : Z) (r : rtc) : outcome rtc :=
  match srt with
  | None => Ret r
  | Some srt =>
      match __dsr_rtc_find (dst srt) r with
      | None => Ret r
      | Some (i, e) =>
          if laddrs srt >? e_room e then Fault BadAccess
          else
            let e := RtcEntry (expiry time) flags srt (e_room e) in
            let r := set_head r (delete i (rtc_head r)) in
            Ret (__dsr_rtc_set_next_timeout (__dsr_rtc_add e r).2)
      end
  end.

Definition dsr_rtc_flush (r : rtc) : rtc := __dsr_rtc_flush (disarm r).
End Rtc.

(** ** A map from destinations to entries *)

Definition e_dst (e : rtc_entry) : Z := dst (e_srt e).
Definition rtc_map (l : list rtc_entry) : gmap Z rtc_entry := list_to_map ((λ e, (e_dst e, e)) <$> l).

(** One entry for each destination, in the order they expire, each with room for
    its addresses. *)
Record rtc_wf (l : list rtc_entry) : Prop := {
  rw_nd : NoDup (e_dst <$> l);
  rw_sorted : StronglySorted (λ a b, e_expires a <= e_expires b) l;
  rw_room : Forall (λ e, laddrs (e_srt e) <= e_room e) l
}.

(** All of them are counted, and the timer is due with the first. *)
Record rtc_ok (r : rtc) : Prop := {
  ro_wf : rtc_wf (rtc_head r);
  ro_len : zlen (rtc_head r) <= rtc_len r < 2 ^ 32 - 1;
  ro_timer : forall e, head (rtc_head r) = Some e -> rtc_timer r = Some (e_expires e)
}.

Lemma rtc_map_lookup l a e : NoDup (e_dst <$> l) -> rtc_map l !! a = Some e <-> e ∈ l /\ e_dst e = a.
Proof.
  intros Hnd. unfold rtc_map. rewrite <- elem_of_list_to_map, list_elem_of_fmap.
  - split; [intros (x & [= -> ->] & Hx); done|]. intros [He <-]. by exists e.
  - by rewrite <- list_fmap_compose.
Qed.

Lemma rtc_find_map r a : NoDup (e_dst <$> rtc_head r) -> snd <$> __dsr_rtc_find a r = rtc_map (rtc_head r) !! a.
Proof.
  intros Hnd. unfold __dsr_rtc_find. destruct (find_pos _ _) as [[i e]|] eqn:E; cbn.
  - apply find_pos_Some in E as (_ & He & _ & _ & Hl). symmetry. apply rtc_map_lookup; [done|].
    split; [by eapply list_elem_of_lookup_2|]. by apply Z.eqb_eq.
  - apply find_pos_None in E. symmetry. apply eq_None_ne_Some_2. intros e He.
    apply rtc_map_lookup in He as [He <-]; [|done]. rewrite Forall_forall in E. specialize (E e He). by apply Z.eqb_neq in E.
Qed.

(** *** Inserting and deleting *)

Lemma rtc_insert_perm e l : rtc_insert e l ≡ₚ e :: l.
Proof. induction l as [|c l IH]; cbn; [done|]. destruct (_ >? _); [done|]. rewrite IH. apply Permutation_swap. Qed.

Lemma rtc_insert_sorted e l :
  StronglySorted (λ a b, e_expires a <= e_expires b) l -> StronglySorted (λ a b, e_expires a <= e_expires b) (rtc_insert e l).
Proof.
  induction l as [|c l IH]; cbn; intros Hs; [by repeat constructor|]. apply StronglySorted_inv in Hs as [Hs Hc].
  destruct (_ >? _) eqn:E; zb.
  - constructor; [by constructor|]. constructor; [lia|]. eapply Forall_impl; [exact Hc|]. cbn. lia.
  - constructor; [by apply IH|]. rewrite rtc_insert_perm. by constructor.
Qed.

Lemma rtc_insert_head e l : head (rtc_insert e l) = if first_in e l then Some e else head l.
Proof. destruct l as [|c l]; cbn; [done|]. by destruct (_ >? _). Qed.

Lemma rtc_map_perm l1 l2 : NoDup (e_dst <$> l1) -> l1 ≡ₚ l2 -> rtc_map l1 = rtc_map l2.
Proof.
  intros Hnd Hp. apply list_to_map_proper; [|by rewrite Hp]. by rewrite <- list_fmap_compose.
Qed.

Lemma rtc_delete_perm (l : list rtc_entry) i e : l !! i = Some e -> l ≡ₚ e :: delete i l.
Proof. intros H. by apply delete_Permutation. Qed.

Lemma rtc_map_delete l i e :
  NoDup (e_dst <$> l) -> l !! i = Some e -> rtc_map (delete i l) = base.delete (e_dst e) (rtc_map l).
Proof.
  intros Hnd Hi. pose proof (rtc_delete_perm l i e Hi) as Hp. rewrite (rtc_map_perm l (e :: delete i l)) by done.
  rewrite Hp in Hnd. apply NoDup_cons in Hnd as [Hno _]. unfold rtc_map at 2. cbn. rewrite delete_insert_eq.
  symmetry. apply delete_id. apply not_elem_of_list_to_map_1. rewrite <- list_fmap_compose. exact Hno.
Qed.

Lemma sorted_delete {A} (R : A -> A -> Prop) i l : StronglySorted R l -> StronglySorted R (delete i l).
Proof.
  revert i. induction l as [|x l IH]; intros [|i] Hs; cbn; try done; apply StronglySorted_inv in Hs as [Hs Hx]; [done|].
  constructor; [by apply IH|]. by apply Forall_delete.
Qed.

Lemma rtc_insert_wf e l :
  rtc_wf l -> rtc_map l !! e_dst e = None -> laddrs (e_srt e) <= e_room e ->
  rtc_wf (rtc_insert e l) /\ zlen (rtc_insert e l) = zlen l + 1 /\ rtc_map (rtc_insert e l) = <[e_dst e := e]> (rtc_map l).
Proof.
  intros [H1 H2 H3] Hno Hroom. pose proof (rtc_insert_perm e l) as Hp.
  assert (Hnd : NoDup (e_dst <$> e :: l)).
  { cbn. apply NoDup_cons. split; [|done]. intros (x & Hx & Hin)%list_elem_of_fmap.
    assert (rtc_map l !! e_dst e = Some x) as E by (apply rtc_map_lookup; auto). congruence. }
  split; [split|split].
  - by rewrite Hp.
  - by apply rtc_insert_sorted.
  - rewrite Hp. by constructor.
  - unfold zlen. rewrite Hp. cbn. lia.
  - rewrite (rtc_map_perm (rtc_insert e l) (e :: l)); [reflexivity|by rewrite Hp|done].
Qed.

Lemma rtc_delete_wf l i e :
  rtc_wf l -> l !! i = Some e ->
  rtc_wf (base.delete i l) /\ zlen l = zlen (base.delete i l) + 1 /\ rtc_map (base.delete i l) = base.delete (e_dst e) (rtc_map l).
Proof.
  intros [H1 H2 H3] Hi. pose proof (rtc_delete_perm _ _ _ Hi) as Hp. split; [split|split].
  - rewrite Hp in H1. by apply NoDup_cons in H1 as [_ H1].
  - by apply sorted_delete.
  - by apply Forall_delete.
  - unfold zlen. rewrite Hp at 1. cbn. lia.
  - by apply rtc_map_delete.
Qed.

Section Ops.
Context (TimeNow HZ : Z).

Lemma rtc_add_ok e r :
  rtc_ok r -> rtc_map (rtc_head r) !! e_dst e = None -> rtc_len r < RTC_MAX_LEN -> laddrs (e_srt e) <= e_room e ->
  let r' := Rtc (rtc_insert e (rtc_head r)) (rtc_len r + 1) (if first_in e (rtc_head r) then Some (e_expires e) else rtc_timer r) in
  rtc_ok r' /\ rtc_map (rtc_head r') = <[e_dst e := e]> (rtc_map (rtc_head r)).
Proof.
  intros [H1 H2 H3] Hno Hlt Hroom. unfold RTC_MAX_LEN in Hlt.
  destruct (rtc_insert_wf e _ H1 Hno Hroom) as (W & L & M). split; [split; cbn [rtc_head rtc_len rtc_timer]|done].
  - done.
  - lia.
  - intros x. rewrite rtc_insert_head. destruct (first_in e _); [by intros [= ->]|]. apply H3.
Qed.

Lemma rtc_del_ok r i e :
  rtc_ok r -> rtc_head r !! i = Some e ->
  let r' := __dsr_rtc_del i r in
  rtc_ok r' /\ rtc_len r' = rtc_len r /\ rtc_map (rtc_head r') = base.delete (e_dst e) (rtc_map (rtc_head r)).
Proof.
  intros [H1 H2 H3] Hi r'. destruct (rtc_delete_wf _ i e H1 Hi) as (W & L & M).
  assert (Hh : rtc_head r' = base.delete i (rtc_head r) /\ rtc_len r' = rtc_len r).
  { unfold r', __dsr_rtc_del. destruct i; [|done]. by destruct (rtc_head r) as [|y [|z l]]. }
  destruct Hh as [Hh Hl]. split; [split; rewrite ?Hh, ?Hl|by rewrite Hh].
  - done.
  - lia.
  - intros x Hx. unfold r', __dsr_rtc_del. destruct i; cbn in *.
    + destruct (rtc_head r) as [|y l]; [done|]. cbn in *. destruct l as [|z l]; [done|]. by injection Hx as ->.
    + destruct (rtc_head r) as [|y l]; [done|]. cbn in *. by apply H3.
Qed.

(** Refreshing. *)
Lemma rtc_refresh_ok e e' r i :
  rtc_ok r -> rtc_head r !! i = Some e -> e_dst e' = e_dst e -> laddrs (e_srt e') <= e_room e' ->
  let r' := __dsr_rtc_set_next_timeout (__dsr_rtc_add e' (set_head r (base.delete i (rtc_head r)))).2 in
  rtc_ok r' /\ rtc_map (rtc_head r') = if decide (rtc_len r < RTC_MAX_LEN) then <[e_dst e := e']> (rtc_map (rtc_head r))
                                      else base.delete (e_dst e) (rtc_map (rtc_head r)).
Proof.
  intros [H1 H2 H3] Hi He Hroom. destruct (rtc_delete_wf _ i e H1 Hi) as (W & L & M).
  assert (Hno : rtc_map (base.delete i (rtc_head r)) !! e_dst e' = None) by (rewrite M, He; apply lookup_delete_eq).
  destruct (rtc_insert_wf e' _ W Hno Hroom) as (W' & L' & M').
  assert (Hset : forall l n t, rtc_wf l -> zlen l <= n < 2 ^ 32 - 1 -> let q := __dsr_rtc_set_next_timeout (Rtc l n t) in
            rtc_ok q /\ rtc_head q = l).
  { intros l n t Hw Hn. unfold __dsr_rtc_set_next_timeout. destruct l as [|x l]; cbn [rtc_head]; (split; [|done]); split; try done.
    by intros y [= ->]. }
  unfold __dsr_rtc_add. cbn [rtc_len set_head]. case_decide as Hd; [rewrite Z.geb_leb, (proj2 (Z.leb_gt _ _)) by done|
    rewrite Z.geb_leb, (proj2 (Z.leb_le _ _)) by lia]; cbn [snd rtc_head set_head].
  - destruct (Hset _ (rtc_len r) (rtc_timer r) W' ltac:(lia)) as [A B]. split; [exact A|]. unfold set_head.
    cbn [rtc_len rtc_timer]. rewrite B, M', M, He. apply insert_delete_eq.
  - destruct (Hset _ (rtc_len r) (rtc_timer r) W ltac:(lia)) as [A B]. split; [exact A|]. unfold set_head. by rewrite B.
Qed.

(** The loop takes off a front part of the list. *)
Lemma rtc_timeout_loop_spec time l n :
  0 <= n - zlen l -> n < 2 ^ 32 ->
  exists l1 l2, l = l1 ++ l2 /\ rtc_timeout_loop time l n = (l2, n - zlen l1)
    /\ Forall (λ e, e_expires e <= u64 time) l1 /\ forall e, head l2 = Some e -> u64 time < e_expires e.
Proof.
  revert n. induction l as [|e l IH]; intros n H1 H2; cbn.
  { exists [], []. split_and!; try done. by rewrite Z.sub_0_r. }
  pose proof (zlen_nonneg l). rewrite zlen_cons in H1. destruct (_ >? _) eqn:E; zb.
  - exists [], (e :: l). split_and!; try done; [by rewrite Z.sub_0_r|]. intros x [= <-]. lia.
  - rewrite u32_small by lia. destruct (IH (n - 1)) as (l1 & l2 & -> & -> & F1 & F2); [lia|lia|].
    exists (e :: l1), l2. split_and!; try done; [rewrite zlen_cons; f_equal; lia|]. by constructor.
Qed.

Lemma rtc_flush_loop_spec l n : 0 <= n - zlen l -> n < 2 ^ 32 -> rtc_flush_loop l n = n - zlen l.
Proof.
  revert n. induction l as [|e l IH]; intros n H1 H2; cbn; [by rewrite Z.sub_0_r|]. rewrite zlen_cons in *.
  pose proof (zlen_nonneg l). rewrite u32_small, IH by lia. lia.
Qed.

Lemma sorted_head_all t l :
  StronglySorted (λ a b, e_expires a <= e_expires b) l -> (forall e, head l = Some e -> t < e_expires e) ->
  Forall (λ e, t < e_expires e) l.
Proof.
  intros Hs Hh. destruct l as [|x l]; [done|]. apply StronglySorted_inv in Hs as [_ Hx]. specialize (Hh x eq_refl).
  constructor; [done|]. eapply Forall_impl; [exact Hx|]. cbn. lia.
Qed.

Lemma rtc_map_app l1 l2 : rtc_map (l1 ++ l2) = rtc_map l1 ∪ rtc_map l2.
Proof. unfold rtc_map. by rewrite fmap_app, list_to_map_app. Qed.

(** Splitting the list splits the map. *)
Lemma rtc_map_filter (P : rtc_entry -> Prop) `{!forall e, Decision (P e)} l1 l2 :
  NoDup (e_dst <$> l1 ++ l2) -> Forall (λ e, ~ P e) l1 -> Forall P l2 ->
  filter (λ kv, P kv.2) (rtc_map (l1 ++ l2)) = rtc_map l2.
Proof.
  intros Hnd H1 H2. apply map_eq. intros a. apply option_eq. intros e.
  assert (Hnd2 : NoDup (e_dst <$> l2)) by (rewrite fmap_app in Hnd; by apply NoDup_app in Hnd as (_ & _ & Hnd)).
  rewrite map_lookup_filter_Some, !rtc_map_lookup, elem_of_app by done. rewrite Forall_forall in H1, H2. cbn. naive_solver.
Qed.

Lemma rtc_timeout_ok r :
  rtc_ok r -> let r' := dsr_rtc_timeout TimeNow r in
  rtc_ok r' /\ rtc_map (rtc_head r') = filter (λ kv, u64 (s32 TimeNow) < e_expires kv.2) (rtc_map (rtc_head r)).
Proof.
  intros [[H1 H2 H4] H3 H5].
  destruct (rtc_timeout_loop_spec (s32 TimeNow) (rtc_head r) (rtc_len r)) as (l1 & l2 & El & E & F1 & F2); [lia|lia|].
  assert (dsr_rtc_timeout TimeNow r = Rtc l2 (rtc_len r - zlen l1) (e_expires <$> head l2)) as ->
    by (unfold dsr_rtc_timeout, __dsr_rtc_set_next_timeout; rewrite E; by destruct l2).
  cbn [rtc_head]. rewrite El in *.
  assert (Hs2 : StronglySorted (λ a b, e_expires a <= e_expires b) l2).
  { clear - H2. induction l1 as [|x l1 IH]; [done|]. apply IH. by apply StronglySorted_inv in H2 as [H2 _]. }
  split; [split; [split| |]; cbn [rtc_head rtc_len rtc_timer]|].
  - rewrite fmap_app in H1. by apply NoDup_app in H1 as (_ & _ & H1).
  - done.
  - by apply Forall_app in H4 as [_ H4].
  - unfold zlen in *. rewrite length_app in H3. lia.
  - by intros e ->.
  - symmetry. refine (rtc_map_filter (λ e, u64 (s32 TimeNow) < e_expires e) l1 l2 H1 _ (sorted_head_all _ _ Hs2 F2)).
    eapply Forall_impl; [exact F1|]. cbn. lia.
Qed.

Lemma rtc_empty_wf : rtc_wf [].
Proof. split; [apply NoDup_nil_2|constructor|constructor]. Qed.


(** A route is stored and deleted again, [k] times. *)
Fixpoint rounds (srt : dsr_srt) (time fl a : Z) (k : nat) (r : rtc) : outcome rtc :=
  match k with
  | O => Ret r
  | S k' => r ← rounds srt time fl a k' r; '(_, r, _) ← dsr_rtc_add TimeNow HZ (Some srt) time fl [] r;
            Ret (dsr_rtc_del a (dst srt) r).2
  end.

(** That wears the cache out: the counter keeps the number of the rounds, and in
    the end an empty cache refuses everything. *)
Lemma rtc_wears_out srt time fl a (k : nat) :
  Z.of_nat k <= RTC_MAX_LEN ->
  exists r, rounds srt time fl a k rtc_init = Ret r /\ rtc_head r = [] /\ rtc_len r = Z.of_nat k.
Proof.
  induction k as [|k IH]; intros Hk; [by exists rtc_init|]. destruct IH as (r & E & Hh & Hl); [lia|].
  cbn [rounds]. rewrite E. cbn [mbind outcome_bind]. unfold dsr_rtc_add, dsr_rtc_find, __dsr_rtc_find, __dsr_rtc_add.
  rewrite Hh, Hl. unfold RTC_MAX_LEN in *. cbn. rewrite Z.geb_leb, (proj2 (Z.leb_gt _ _)) by lia. cbn.
  rewrite Hl, u32_small by lia. eexists. split; [reflexivity|].
  unfold dsr_rtc_del, __dsr_rtc_find. cbn. rewrite Z.eqb_refl. cbn. split; [done|lia].
Qed.
End Ops.

Lemma rtc_init_ok : rtc_ok rtc_init.
Proof. split; [apply rtc_empty_wf|done|done]. Qed.

