(* ===== verification/LinkCache.v ===== *)
(** * The link cache (link-cache.c, link-cache.h)

    A directed graph of nodes and links.  Both tables hold pointers; the nodes
    and links themselves live in two heaps, so that a link shares its end nodes
    with the table, [pred] may dangle and a block that left its table is seen as
    freed or as leaked.  Addresses of blocks are never reused.  The build has no
    LC_TIMER: the garbage collector is not compiled. *)

From S2P Require Import Prelude Timer Tbl Srt.


Definition LC_NODES_MAX : Z := 500.
Definition LC_LINKS_MAX : Z := 100.
Definition LC_COST_INF : Z := UINT_MAX.
Definition LC_HOPS_INF : Z := UINT_MAX.

Record lc_node := LcNode {
  n_addr : Z;
  n_links : Z;
  n_cost : Z;
  n_hops : Z;
  n_pred : option ptr
}.

Record lc_link := LcLink {
  l_src : ptr;
  l_dst : ptr;
  l_status : Z;
  l_cost : Z;
  l_expires : timeval
}.

Abbreviation node_heap := (gmap ptr lc_node).
Abbreviation link_heap := (gmap ptr lc_link).

Record lc_graph := LcGraph {
  lc_nodes : tbl ptr;
  lc_links : tbl ptr;
  lc_src : option ptr;
  lc_locked : bool;
  nheap : node_heap;
  lheap : link_heap;
  lc_next : ptr
}.

Definition set_nodes (lc : lc_graph) (t : tbl ptr) (h : node_heap) : lc_graph :=
  LcGraph t (lc_links lc) (lc_src lc) (lc_locked lc) h (lheap lc) (lc_next lc).
Definition set_links (lc : lc_graph) (t : tbl ptr) (h : link_heap) : lc_graph :=
  LcGraph (lc_nodes lc) t (lc_src lc) (lc_locked lc) (nheap lc) h (lc_next lc).
Definition set_src (lc : lc_graph) (s : option ptr) : lc_graph :=
  LcGraph (lc_nodes lc) (lc_links lc) s (lc_locked lc) (nheap lc) (lheap lc) (lc_next lc).
Definition set_next (lc : lc_graph) (p : ptr) : lc_graph :=
  LcGraph (lc_nodes lc) (lc_links lc) (lc_src lc) (lc_locked lc) (nheap lc) (lheap lc) p.

Definition lc_lock (lc : lc_graph) : outcome lc_graph :=
  if lc_locked lc then Fault Deadlock
  else Ret (LcGraph (lc_nodes lc) (lc_links lc) (lc_src lc) true (nheap lc) (lheap lc) (lc_next lc)).
Definition lc_unlock (lc : lc_graph) : lc_graph :=
  LcGraph (lc_nodes lc) (lc_links lc) (lc_src lc) false (nheap lc) (lheap lc) (lc_next lc).

Definition set_nlinks (n : lc_node) (k : Z) : lc_node :=
  LcNode (n_addr n) k (n_cost n) (n_hops n) (n_pred n).
Definition set_path (n : lc_node) (cost hops : Z) (pred : option ptr) : lc_node :=
  LcNode (n_addr n) (n_links n) cost hops pred.

(** [__tbl_del(&lc->nodes, &n->l)]: off the table, and the block is freed. *)
Definition lc_node_free (lc : lc_graph) (p : ptr) : outcome lc_graph :=
  '(r, t) ← __tbl_del (lc_nodes lc) (fun x => x =? p);
  Ret (set_nodes lc t (if r =? 1 then delete p (nheap lc) else nheap lc)).

(** [--node->links], and the node is freed when none is left. *)
Definition node_unlink (lc : lc_graph) (p : ptr) : outcome lc_graph :=
  n ← deref (nheap lc !! p);
  let k := u32 (n_links n - 1) in
  let lc1 := set_nodes lc (lc_nodes lc) (<[p := set_nlinks n k]> (nheap lc)) in
  if k =? 0 then lc_node_free lc1 p else Ret lc1.

Definition __lc_link_del (lc : lc_graph) (link : ptr) : outcome lc_graph :=
  (* Also free the nodes if they lack other links *)
  l ← deref (lheap lc !! link);
  lc1 ← node_unlink lc (l_src l);
  l' ← deref (lheap lc1 !! link);
  lc2 ← node_unlink lc1 (l_dst l');
  '(r, t) ← __tbl_del (lc_links lc2) (fun x => x =? link);
  Ret (set_links lc2 t (if r =? 1 then delete link (lheap lc2) else lheap lc2)).

Definition crit_addr (h : node_heap) : criteria_t ptr Z := fun pos a =>
  p ← deref (h !! pos);
  Ret (n_addr p =? a).

Definition crit_link_query (nh : node_heap) (lh : link_heap) : criteria_t ptr (Z * Z) :=
  fun pos q =>
    p ← deref (lh !! pos);
    s ← deref (nh !! l_src p);
    if n_addr s =? q.1 then
      d ← deref (nh !! l_dst p);
      Ret (n_addr d =? q.2)
    else Ret false.

Definition do_lowest_cost (h : node_heap) : do_t ptr (option ptr) := fun pos cn =>
  n ← deref (h !! pos);
  if negb (n_cost n =? LC_COST_INF) then
    match cn with
    | None => Ret (0, pos, Some pos)
    | Some c => c' ← deref (h !! c);
                Ret (0, pos, if n_cost n <? n_cost c' then Some pos else cn)
    end
  else Ret (0, pos, cn).

(** The node [u] being relaxed is fixed; the data of the walk is the heap. *)
Definition do_relax (lh : link_heap) (u : ptr) : do_t ptr node_heap := fun pos h =>
  link ← deref (lh !! pos);
  let v := l_dst link in
  (* If u and v have a link between them, update cost if cheaper *)
  if l_src link =? u then
    let w := l_cost link in
    un ← deref (h !! u);
    vn ← deref (h !! v);
    if u32 (n_cost un + w) <? n_cost vn then
      Ret (1, pos, <[v := set_path vn (u32 (n_cost un + w)) (u32 (n_hops un + 1)) (Some u)]> h)
    else Ret (0, pos, h)
  else Ret (0, pos, h).

Definition do_init (a : Z) : do_t ptr node_heap := fun pos h =>
  n ← deref (h !! pos);
  Ret (0, pos,
       <[pos := if n_addr n =? a then set_path n 0 0 (Some pos)
                else set_path n LC_COST_INF LC_HOPS_INF None]> h).

Definition lc_node_create (lc : lc_graph) (mem : oracle) (addr : Z)
  : option ptr * lc_graph * oracle :=
  let '(ok, mem') := kmalloc mem in
  if ok then
    let p := lc_next lc in
    (Some p, set_next (set_nodes lc (lc_nodes lc)
       (<[p := LcNode addr 0 LC_COST_INF 0 None]> (nheap lc))) (p + 1), mem')
  else (None, lc, mem').

Definition __lc_link_find (lc : lc_graph) (src dst : Z) : outcome (option ptr) :=
  __tbl_find (lc_links lc) (src, dst) (crit_link_query (nheap lc) (lheap lc)).

(** [node->links++] *)
Definition node_link (lc : lc_graph) (p : ptr) : outcome lc_graph :=
  n ← deref (nheap lc !! p);
  Ret (set_nodes lc (lc_nodes lc) (<[p := set_nlinks n (u32 (n_links n + 1))]> (nheap lc))).

(** [link->status = status; link->cost = cost; ...] *)
Definition link_update (lc : lc_graph) (link : ptr) (now : timeval) (timeout status cost : Z)
  : outcome lc_graph :=
  l ← deref (lheap lc !! link);
  Ret (set_links lc (lc_links lc)
    (<[link := LcLink (l_src l) (l_dst l) status (u32 cost) (timeval_add_usecs now timeout)]> (lheap lc))).

Definition __lc_link_tbl_add (lc : lc_graph) (mem : oracle) (now : timeval) (src dst : option ptr)
    (timeout status cost : Z) : outcome (Z * lc_graph * oracle) :=
  match src, dst with
  | Some src, Some dst =>
      sn ← deref (nheap lc !! src);
      dn ← deref (nheap lc !! dst);
      link ← __lc_link_find lc (n_addr sn) (n_addr dn);
      match link with
      | None =>
          let '(ok, mem') := kmalloc mem in
          if ok then
            let link := lc_next lc in
            let '(_, t) := __tbl_add_tail (lc_links lc) link in
            let lc1 := set_next (set_links lc t
                         (<[link := LcLink src dst 0 0 (Timeval 0 0)]> (lheap lc))) (link + 1) in
            lc2 ← node_link lc1 src;
            lc3 ← node_link lc2 dst;
            lc4 ← link_update lc3 link now timeout status cost;
            Ret (1, lc4, mem')
          else Ret (-1, lc, mem')
      | Some link =>
          lc1 ← link_update lc link now timeout status cost;
          Ret (0, lc1, mem)
      end
  | _, _ => Ret (-1, lc, mem)
  end.

(** The node with this address, made and put last on the table if there is
    none.  What [__tbl_add_tail] returns is not looked at. *)
Definition lc_node_get (lc : lc_graph) (mem : oracle) (addr : Z)
  : outcome (option ptr * lc_graph * oracle) :=
  n ← __tbl_find (lc_nodes lc) addr (crit_addr (nheap lc));
  match n with
  | Some p => Ret (Some p, lc, mem)
  | None =>
      let '(p, lc1, mem1) := lc_node_create lc mem addr in
      match p with
      | None => Ret (None, lc1, mem1)
      | Some p => let '(_, t) := __tbl_add_tail (lc_nodes lc1) p in
                  Ret (Some p, set_nodes lc1 t (nheap lc1), mem1)
      end
  end.

Definition __lc_link_add (lc : lc_graph) (mem : oracle) (now : timeval) (src dst timeout status cost : Z)
  : outcome (Z * lc_graph * oracle) :=
  '(sn, lc1, mem1) ← lc_node_get lc mem src;
  match sn with
  | None => (* Could not allocate nodes *) Ret (-1, lc1, mem1)
  | Some _ =>
      '(dn, lc2, mem2) ← lc_node_get lc1 mem1 dst;
      match dn with
      | None => Ret (-1, lc2, mem2)
      | Some _ =>
          '(_, lc3, mem3) ← __lc_link_tbl_add lc2 mem2 now sn dn timeout status cost;
          Ret (0, lc3, mem3)
      end
  end.

Definition lc_link_add (lc : lc_graph) (mem : oracle) (now : timeval) (src dst timeout status cost : Z)
  : outcome (Z * lc_graph * oracle) :=
  lc1 ← lc_lock lc;
  '(res, lc2, mem') ← __lc_link_add lc1 mem now src dst timeout status cost;
  Ret (res, lc_unlock lc2, mem').

Definition lc_link_del (lc : lc_graph) (src dst : Z) : outcome (Z * lc_graph) :=
  lc1 ← lc_lock lc;
  link ← __lc_link_find lc1 src dst;
  match link with
  | None => Ret (-1, lc_unlock (set_src lc1 None))
  | Some link =>
      lc2 ← __lc_link_del lc1 link;
      (* Assume bidirectional links for now *)
      link2 ← __lc_link_find lc2 dst src;
      match link2 with
      | None => Ret (-1, lc_unlock (set_src lc2 None))
      | Some link2 =>
          lc3 ← __lc_link_del lc2 link2;
          Ret (1, lc_unlock (set_src lc3 None))
      end
  end.

Definition __dijkstra_init_single_source (t : tbl ptr) (h : node_heap) (src : Z)
  : outcome (tbl ptr * node_heap) :=
  '(_, t', h') ← __tbl_do_for_each t h (do_init src);
  Ret (t', h').

Definition __dijkstra_find_lowest_cost_node (t : tbl ptr) (h : node_heap) : outcome (option ptr) :=
  '(_, _, cn) ← __tbl_do_for_each t None (do_lowest_cost h);
  Ret cn.

(** [while (!TBL_EMPTY(from))] *)
Fixpoint __lc_move (fuel : nat) (to from : tbl ptr) : outcome (tbl ptr * tbl ptr) :=
  if TBL_EMPTY from then Ret (to, from)
  else
    match fuel with
    | O => Fault OutOfFuel
    | S fuel' =>
        let '(n, from1) := __tbl_detach_first from in
        p ← deref n;
        let '(_, to1) := __tbl_add_tail to p in
        __lc_move fuel' to1 from1
    end.

(** The main loop: [nodes] still to settle, [S] the settled ones. *)
Fixpoint dijkstra_loop (fuel : nat) (links : tbl ptr) (lh : link_heap) (nodes s : tbl ptr) (h : node_heap)
  : outcome (tbl ptr * tbl ptr * node_heap) :=
  u ← __dijkstra_find_lowest_cost_node nodes h;
  match u with
  | None => Ret (nodes, s, h)
  | Some u =>
      match fuel with
      | O => Fault OutOfFuel
      | S fuel' =>
          '(_, nodes1) ← __tbl_detach nodes (fun x => x =? u);
          (* Add to S *)
          let '(_, s1) := __tbl_add_tail s u in
          '(_, _, h1) ← __tbl_do_for_each links h (do_relax lh u);
          dijkstra_loop fuel' links lh nodes1 s1 h1
      end
  end.

Definition __dijkstra (lc : lc_graph) (src : Z) : outcome lc_graph :=
  let fuel := length (elems (lc_nodes lc)) in
  if TBL_EMPTY (lc_nodes lc) then (* No nodes in Link Cache *) Ret lc
  else
    '(t, h) ← __dijkstra_init_single_source (lc_nodes lc) (nheap lc) src;
    src_node ← __tbl_find t src (crit_addr h);
    match src_node with
    | None => Ret (set_nodes lc t h)
    | Some src_node =>
        '(rest, s, h') ← dijkstra_loop fuel (lc_links lc) (lheap lc) t (INIT_TBL LC_NODES_MAX) h;
        (* Restore the nodes in the LC graph *)
        '(t', _) ← __lc_move fuel rest s;
        (* Set currently calculated source *)
        Ret (set_src (set_nodes lc t' h') (Some src_node))
    end.

(** [for (n = dst_node->pred; n != n->pred; n = n->pred)] *)
Fixpoint fill_route (fuel : nat) (h : node_heap) (n : option ptr) (k i : Z) (addrs : list Z)
  : outcome (list Z * Z) :=
  p ← deref n;
  nd ← deref (h !! p);
  if bool_decide (Some p = n_pred nd) then Ret (addrs, i)
  else
    match fuel with
    | O => Fault OutOfFuel
    | S fuel' =>
        addrs' ← zset addrs (k - i - 1) (n_addr nd);
        fill_route fuel' h (n_pred nd) k (i + 1) addrs'
    end.

Definition lc_srt_find (lc : lc_graph) (mem : oracle) (src dst : Z)
  : outcome (option dsr_srt * lc_graph * oracle) :=
  if src =? dst then Ret (None, lc, mem)
  else
    lc1 ← lc_lock lc;
    lc2 ← __dijkstra lc1 src;
    dst_node ← __tbl_find (lc_nodes lc2) dst (crit_addr (nheap lc2));
    match dst_node with
    | None => (* not found *) Ret (None, lc_unlock lc2, mem)
    | Some d =>
        dn ← deref (nheap lc2 !! d);
        if negb (n_cost dn =? LC_COST_INF) && bool_decide (is_Some (n_pred dn)) then
          let k := s32 (u32 (n_hops dn - 1)) in
          let '(ok, mem') := kmalloc mem in
          if ok then
            (* Fill in the source route by traversing the nodes starting from
               the destination predecessor *)
            '(a, i) ← fill_route (length (elems (lc_nodes lc2))) (nheap lc2) (n_pred dn) k 0
                                 (repeat 0 (Z.to_nat k));
            if negb (i + 1 =? s32 (n_hops dn)) then
              (* hop count ERROR *) Ret (None, lc_unlock lc2, mem')
            else Ret (Some (DsrSrt src dst 0 (u32 (k * 4)) a []), lc_unlock lc2, mem')
          else Ret (None, lc_unlock lc2, mem')
        else Ret (None, lc_unlock lc2, mem)
    end.

(** One step of a route: the link, and the link back when the route is marked
    bidirectional.  The results of [__lc_link_add] are not looked at. *)
Definition srt_add_hop (bidir : bool) (lc : lc_graph) (mem : oracle) (now : timeval)
    (addr1 addr2 timeout : Z) : outcome (Z * lc_graph * oracle) :=
  '(_, lc1, mem1) ← __lc_link_add lc mem now addr1 addr2 timeout 0 1;
  if bidir then
    '(_, lc2, mem2) ← __lc_link_add lc1 mem1 now addr2 addr1 timeout 0 1;
    Ret (2, lc2, mem2)
  else Ret (1, lc1, mem1).

(** [turns] counts down from [n]. *)
Fixpoint srt_add_loop (srt : dsr_srt) (bidir : bool) (turns : nat) (i : Z) (lc : lc_graph) (mem : oracle)
    (now : timeval) (addr1 timeout links : Z) : outcome (Z * Z * lc_graph * oracle) :=
  match turns with
  | O => Ret (addr1, links, lc, mem)
  | S turns' =>
      addr2 ← srt_addr srt i;
      '(k, lc1, mem1) ← srt_add_hop bidir lc mem now addr1 addr2 timeout;
      srt_add_loop srt bidir turns' (i + 1) lc1 mem1 now addr2 timeout (links + k)
  end.

Definition lc_srt_add (lc : lc_graph) (mem : oracle) (now : timeval) (srt : option dsr_srt) (timeout : Z)
  : outcome (Z * lc_graph * oracle) :=
  match srt with
  | None => Ret (-1, lc, mem)
  | Some srt =>
      let n := srt_n srt in
      let bidir := negb (Z.land (flags srt) SRT_BIDIR =? 0) in
      lc1 ← lc_lock lc;
      '(addr1, links, lc2, mem2) ← srt_add_loop srt bidir (Z.to_nat n) 0 lc1 mem now (src srt) timeout 0;
      '(k, lc3, mem3) ← srt_add_hop bidir lc2 mem2 now addr1 (dst srt) timeout;
      Ret (links + k, lc_unlock lc3, mem3)
  end.

Definition lc_srt_del (src dst : Z) : Z := 0.

(** [__tbl_flush(.., NULL)] frees every element. *)
Definition lc_flush (lc : lc_graph) : outcome lc_graph :=
  lc1 ← lc_lock lc;
  let '(lt, lh) := __tbl_flush (lc_links lc1) (Some (fun p h => delete p h)) (lheap lc1) in
  let '(nt, nh) := __tbl_flush (lc_nodes lc1) (Some (fun p h => delete p h)) (nheap lc1) in
  Ret (lc_unlock (set_src (set_nodes (set_links lc1 lt lh) nt nh) None)).

(** The graph is a static object, so its fields start as zeros. *)
Definition lc_init : lc_graph :=
  LcGraph (INIT_TBL LC_NODES_MAX) (INIT_TBL LC_LINKS_MAX) None false ∅ ∅ 1.
