(* ===== verification/Dijkstra.v ===== *)
(** * Shortest paths in the link cache (the loops of [__dijkstra], link-cache.c)

    The loops run over the heaps.  This file proves, for a table of links with
    costs up to [W] between at most 500 nodes, that the relaxation loop ends, that
    the costs it leaves are the lengths of shortest walks, and that the [pred]
    pointers form a tree of such walks rooted at the source. *)

From S2P Require Import Prelude Timer Tbl Srt LinkCache.

Definition cost (h : node_heap) (v : ptr) : Z := from_option n_cost LC_COST_INF (h !! v).
Definition hops (h : node_heap) (v : ptr) : Z := from_option n_hops LC_HOPS_INF (h !! v).
Definition pred (h : node_heap) (v : ptr) : option ptr := from_option n_pred None (h !! v).
Definition addr_of (h : node_heap) (v : ptr) : option Z := n_addr <$> h !! v.
Definition links_of (h : node_heap) (v : ptr) : option Z := n_links <$> h !! v.

(** [h'] differs from [h] in the path fields only. *)
Definition frame (h h' : node_heap) : Prop :=
  forall v, addr_of h' v = addr_of h v /\ links_of h' v = links_of h v.

Lemma frame_refl h : frame h h.
Proof. done. Qed.

Lemma frame_trans h1 h2 h3 : frame h1 h2 -> frame h2 h3 -> frame h1 h3.
Proof. intros H1 H2 v. destruct (H1 v), (H2 v). split; congruence. Qed.

Lemma frame_is_Some h h' v : frame h h' -> is_Some (h !! v) -> is_Some (h' !! v).
Proof.
  intros Hf [n Hn]. destruct (Hf v) as [Ha _]. unfold addr_of in Ha. rewrite Hn in Ha.
  destruct (h' !! v); [eauto | done].
Qed.

Lemma cost_insert h v n x : cost (<[v := n]> h) x = if decide (v = x) then n_cost n else cost h x.
Proof. unfold cost. case_decide; subst; [by rewrite lookup_insert_eq | by rewrite lookup_insert_ne]. Qed.
Lemma hops_insert h v n x : hops (<[v := n]> h) x = if decide (v = x) then n_hops n else hops h x.
Proof. unfold hops. case_decide; subst; [by rewrite lookup_insert_eq | by rewrite lookup_insert_ne]. Qed.
Lemma pred_insert h v n x : pred (<[v := n]> h) x = if decide (v = x) then n_pred n else pred h x.
Proof. unfold pred. case_decide; subst; [by rewrite lookup_insert_eq | by rewrite lookup_insert_ne]. Qed.

Lemma frame_set_path h v n c k p :
  h !! v = Some n -> frame h (<[v := set_path n c k p]> h).
Proof.
  intros Hn x. unfold addr_of, links_of. destruct (decide (v = x)) as [<-|].
  - by rewrite lookup_insert_eq, Hn.
  - by rewrite lookup_insert_ne.
Qed.

Lemma cost_Some h v n : h !! v = Some n -> cost h v = n_cost n.
Proof. unfold cost. by intros ->. Qed.
Lemma hops_Some h v n : h !! v = Some n -> hops h v = n_hops n.
Proof. unfold hops. by intros ->. Qed.
Lemma pred_Some h v n : h !! v = Some n -> pred h v = n_pred n.
Proof. unfold pred. by intros ->. Qed.

(** ** The initialisation pass *)

Lemma do_init_pass a rest h r :
  (forall v, v ∈ rest -> is_Some (h !! v)) ->
  exists h', do_for_each (do_init a) h r rest = Ret (match rest with [] => r | _ => s32 r end, rest, h')
    /\ frame h h'
    /\ (forall v, v ∉ rest -> h' !! v = h !! v)
    /\ (forall v, v ∈ rest ->
          if decide (addr_of h v = Some a)
          then cost h' v = 0 /\ hops h' v = 0 /\ pred h' v = Some v
          else cost h' v = LC_COST_INF /\ hops h' v = LC_HOPS_INF /\ pred h' v = None).
Proof.
  revert h r. induction rest as [|v rest IH]; intros h r Hp; simpl.
  - exists h. split_and!; try done. set_solver.
  - destruct (Hp v ltac:(set_solver)) as [n Hn].
    set (h1 := <[v := if n_addr n =? a then set_path n 0 0 (Some v)
                      else set_path n LC_COST_INF LC_HOPS_INF None]> h).
    assert (do_init a v h = Ret (0, v, h1)) as -> by (unfold do_init; by rewrite Hn).
    simpl. rewrite Z.add_0_r.
    assert (Hf1 : frame h h1) by (unfold h1; destruct (n_addr n =? a); by apply frame_set_path).
    destruct (IH h1 (s32 r)) as (h' & -> & Hf & Hout & Hin).
    { intros x Hx. eapply frame_is_Some; [exact Hf1|]. apply Hp. set_solver. }
    simpl. exists h'. split_and!.
    + do 3 f_equal. destruct rest; [done|]. unfold s32. f_equal.
      replace ((r + 2 ^ 31) mod 2 ^ 32 - 2 ^ 31 + 2 ^ 31) with ((r + 2 ^ 31) mod 2 ^ 32) by lia.
      by rewrite Z.mod_mod by lia.
    + eapply frame_trans; eauto.
    + intros x Hx. rewrite Hout by set_solver. unfold h1. rewrite lookup_insert_ne; [done|set_solver].
    + intros x Hx. destruct (decide (x ∈ rest)) as [Hr|Hr].
      * specialize (Hin x Hr). by rewrite (proj1 (Hf1 x)) in Hin.
      * assert (x = v) as -> by set_solver. unfold cost, hops, pred. rewrite Hout by done.
        unfold h1, addr_of. rewrite lookup_insert_eq, Hn. simpl.
        destruct (n_addr n =? a) eqn:E; zb; case_decide as D; simpl; try done.
        -- subst. done.
        -- by injection D.
Qed.

(** ** Finding the cheapest node *)

Lemma do_lowest_pass h rest cn :
  (forall v, v ∈ rest -> is_Some (h !! v)) ->
  match cn with None => True | Some c => is_Some (h !! c) /\ cost h c <> LC_COST_INF end ->
  exists r, do_for_each (do_lowest_cost h) cn 0 rest = Ret (0, rest, r)
    /\ match r with
       | None => cn = None /\ forall y, y ∈ rest -> cost h y = LC_COST_INF
       | Some u => (u ∈ rest \/ cn = Some u) /\ cost h u <> LC_COST_INF
           /\ (forall y, y ∈ rest \/ cn = Some y -> cost h y = LC_COST_INF \/ cost h u <= cost h y)
       end.
Proof.
  revert cn. induction rest as [|v rest IH]; intros cn Hp Hcn; simpl.
  - exists cn. split; [done|]. destruct cn; [|split; [done|set_solver]].
    split_and!; [by right | apply Hcn |]. intros y [Hy|[= <-]]; [set_solver|]. right. lia.
  - destruct (Hp v ltac:(set_solver)) as [n Hn].
    assert (Hgo : exists cn', do_lowest_cost h v cn = Ret (0, v, cn')
      /\ match cn' with
         | None => cn = None /\ cost h v = LC_COST_INF
         | Some c => is_Some (h !! c) /\ cost h c <> LC_COST_INF /\ (c = v \/ cn = Some c)
             /\ (cost h v = LC_COST_INF \/ cost h c <= cost h v)
             /\ (forall y, cn = Some y -> cost h c <= cost h y)
         end).
    { unfold do_lowest_cost. rewrite Hn. simpl. rewrite <- (cost_Some _ _ _ Hn).
      destruct (cost h v =? LC_COST_INF) eqn:E; simpl; zb.
      - exists cn. split; [done|]. destruct cn; [|done]. destruct Hcn. split_and!; auto.
        intros y [= <-]. lia.
      - destruct cn as [c|].
        + destruct Hcn as [[c' Hc] Hne]. rewrite Hc. simpl. rewrite <- (cost_Some _ _ _ Hc).
          eexists. split; [done|]. destruct (cost h v <? cost h c) eqn:E2; zb.
          * split_and!; eauto; try (right; lia); intros y [= <-]; lia.
          * split_and!; eauto; try (right; lia); intros y [= <-]; lia.
        + exists (Some v). split; [done|]. split_and!; eauto; try done; right; lia. }
    destruct Hgo as (cn' & -> & Hcn'). cbn -[s32]. replace (s32 _) with 0 by done.
    destruct (IH cn') as (r & -> & Hr).
    { intros x Hx. apply Hp. set_solver. }
    { destruct cn'; [|done]. split; apply Hcn'. }
    simpl. exists r. split; [done|]. destruct r as [u|].
    + destruct Hr as (Hu & Hne & Hmin). split_and!; [|done|].
      * destruct Hu as [Hu | ->]; [left; by right|].
        destruct Hcn' as (_ & _ & [-> | ->] & _); [left; by left | by right].
      * intros y Hy. destruct (decide (y ∈ rest)) as [Hr|Hr]; [auto|].
        destruct cn' as [c|].
        -- destruct Hcn' as (_ & Hnc & _ & Hv & Hcy).
           destruct (Hmin c (or_intror eq_refl)) as [|Hle]; [done|].
           destruct Hy as [Hy|Hy]; [|right; specialize (Hcy y Hy); lia].
           assert (y = v) as -> by set_solver. destruct Hv; [by left|right; lia].
        -- destruct Hcn' as [-> Hv]. destruct Hy as [Hy|]; [|done].
           assert (y = v) as -> by set_solver. by left.
    + destruct Hr as [-> Hr]. destruct Hcn' as [-> Hv]. split; [done|].
      intros y Hy. apply elem_of_cons in Hy as [->|Hy]; auto.
Qed.

(** ** The relaxation of one node *)

Section Graph.
Context (lh : link_heap) (L N : list ptr) (W : Z).
Context (HW : 0 <= W /\ W * LC_NODES_MAX < LC_COST_INF).
Context (HN : zlen N <= LC_NODES_MAX) (HNd : NoDup N).
Context (HL : forall p, p ∈ L -> exists l, lh !! p = Some l /\ l_src l ∈ N /\ l_dst l ∈ N
                /\ 0 <= l_cost l <= W).

Definition edge (u v : ptr) (w : Z) : Prop :=
  exists p l, p ∈ L /\ lh !! p = Some l /\ l_src l = u /\ l_dst l = v /\ l_cost l = w.

Lemma edge_bounds u v w : edge u v w -> u ∈ N /\ v ∈ N /\ 0 <= w <= W.
Proof using HW HN HNd HL.
  intros (p & l & Hp & Hl & <- & <- & <-). destruct (HL p Hp) as (l' & Hl' & H).
  rewrite Hl in Hl'. injection Hl' as <-. done.
Qed.

(** What relaxing [u] against the links of [done] has made of the heap [h0]. *)
Record relaxed (h0 : node_heap) (u : ptr) (done : list ptr) (h : node_heap) : Prop := {
  rx_frame : frame h0 h;
  rx_step : forall v,
    (cost h v = cost h0 v /\ hops h v = hops h0 v /\ pred h v = pred h0 v)
    \/ (exists w, edge u v w /\ cost h v = cost h0 u + w /\ hops h v = hops h0 u + 1
          /\ pred h v = Some u /\ cost h v < cost h0 v);
  rx_done : forall p l, p ∈ done -> lh !! p = Some l -> l_src l = u ->
    cost h (l_dst l) <= cost h0 u + l_cost l
}.

Lemma relaxed_le h0 u d h v : relaxed h0 u d h -> cost h v <= cost h0 v.
Proof. intros H. destruct (rx_step _ _ _ _ H v) as [(-> & _)|(w & _ & _ & _ & _ & ?)]; lia. Qed.

Lemma relaxed_self h0 u d h :
  relaxed h0 u d h -> cost h u = cost h0 u /\ hops h u = hops h0 u /\ pred h u = pred h0 u.
Proof using HW HN HNd HL.
  intros H. destruct (rx_step _ _ _ _ H u) as [?|(w & He & ? & _ & _ & ?)]; [done|].
  apply edge_bounds in He. lia.
Qed.

Lemma do_relax_step h0 u d p h :
  (forall v, v ∈ N -> is_Some (h0 !! v)) -> u ∈ N -> p ∈ L ->
  0 <= cost h0 u -> cost h0 u + W < LC_COST_INF -> 0 <= hops h0 u < LC_HOPS_INF ->
  relaxed h0 u d h ->
  exists r h', do_relax lh u p h = Ret (r, p, h') /\ relaxed h0 u (d ++ [p]) h' /\ 0 <= r <= 1.
Proof using HW HN HNd HL.
  intros Hpres Hu Hp Hc0 HcW Hh Hr. destruct (HL p Hp) as (l & Hl & Hsrc & Hdst & Hw).
  pose proof (relaxed_self _ _ _ _ Hr) as (Hcu & Hhu & _).
  pose proof (rx_frame _ _ _ _ Hr) as Hf.
  destruct (frame_is_Some _ _ u Hf (Hpres u Hu)) as [un Hun].
  destruct (frame_is_Some _ _ _ Hf (Hpres _ Hdst)) as [vn Hvn].
  unfold do_relax. rewrite Hl. simpl.
  assert (Hkeep : (l_src l = u -> cost h (l_dst l) <= cost h0 u + l_cost l) -> relaxed h0 u (d ++ [p]) h).
  { intros Hk. split; [apply Hr | apply Hr |]. intros p' l' Hp' Hl' Hs.
    apply elem_of_app in Hp' as [Hp'|Hp']; [by eapply rx_done|].
    assert (p' = p) as -> by set_solver. rewrite Hl in Hl'. injection Hl' as <-. auto. }
  destruct (l_src l =? u) eqn:Es; zb.
  2: { exists 0, h. split_and!; [done | by apply Hkeep | lia | lia]. }
  rewrite Hun. simpl. rewrite Hvn. simpl.
  rewrite <- (cost_Some _ _ _ Hun), <- (cost_Some _ _ _ Hvn), <- (hops_Some _ _ _ Hun), Hcu, Hhu.
  unfold LC_COST_INF, LC_HOPS_INF, UINT_MAX in *.
  rewrite !u32_small by lia.
  destruct (cost h0 u + l_cost l <? cost h (l_dst l)) eqn:E; zb.
  2: { exists 0, h. split_and!; [done | by apply Hkeep | lia | lia]. }
  eexists 1, _. split_and!; [done | | lia | lia].
  pose proof (relaxed_le _ _ _ _ (l_dst l) Hr) as Hle.
  split.
  - eapply frame_trans; [exact Hf|]. by apply frame_set_path.
  - intros v. rewrite cost_insert, hops_insert, pred_insert. case_decide as D; [|by apply Hr].
    subst v. right. exists (l_cost l). simpl. split_and!; try done; [|lia].
    exists p, l. by split_and!.
  - intros p' l' Hp' Hl' Hs. rewrite cost_insert. case_decide as D.
    + simpl. apply elem_of_app in Hp' as [Hp'|Hp'].
      * pose proof (rx_done _ _ _ _ Hr p' l' Hp' Hl' Hs) as Hd. rewrite <- D in Hd. lia.
      * assert (p' = p) as -> by set_solver. rewrite Hl in Hl'. injection Hl' as <-. lia.
    + apply elem_of_app in Hp' as [Hp'|Hp']; [by eapply rx_done|].
      assert (p' = p) as -> by set_solver. rewrite Hl in Hl'. by injection Hl' as <-.
Qed.

Lemma do_relax_pass h0 u d rest h r :
  (forall v, v ∈ N -> is_Some (h0 !! v)) -> u ∈ N -> rest ⊆ L ->
  0 <= cost h0 u -> cost h0 u + W < LC_COST_INF -> 0 <= hops h0 u < LC_HOPS_INF ->
  relaxed h0 u d h ->
  exists r' h', do_for_each (do_relax lh u) h r rest = Ret (r', rest, h') /\ relaxed h0 u (d ++ rest) h'.
Proof using HW HN HNd HL.
  intros Hpres Hu. revert d h r. induction rest as [|p rest IH]; intros d h r Hsub Hc0 HcW Hh Hr.
  - exists r, h. split; [done|]. by rewrite app_nil_r.
  - destruct (do_relax_step h0 u d p h) as (b & h1 & Hs & Hr1 & _); try done; [apply Hsub; by left|].
    destruct (IH (d ++ [p]) h1 (s32 (r + b))) as (r' & h' & E & Hr'); try done.
    { intros x Hx. apply Hsub. by right. }
    exists r', h'. simpl. rewrite Hs. simpl. rewrite E. simpl. split; [done|].
    by rewrite <- app_assoc in Hr'.
Qed.

(** ** The invariant of the main loop

    [S] holds the settled nodes, [Q] the others. *)

Record dinv (h0 : node_heap) (s : ptr) (h : node_heap) (Q S : list ptr) : Prop := {
  di_frame : frame h0 h;
  di_perm : N ≡ₚ Q ++ S;
  di_src : cost h s = 0 /\ hops h s = 0 /\ pred h s = Some s;
  di_tree : forall v, v ∈ N -> v <> s ->
    (cost h v = LC_COST_INF /\ pred h v = None)
    \/ (exists u w, u ∈ S /\ edge u v w /\ pred h v = Some u
          /\ cost h v = cost h u + w /\ hops h v = hops h u + 1);
  di_relaxed : forall u v w, u ∈ S -> edge u v w -> cost h v <= cost h u + w;
  di_order : forall x y, x ∈ S -> y ∈ Q -> cost h x <= cost h y;
  di_fin : forall x, x ∈ S -> cost h x <> LC_COST_INF;
  di_bound : forall v, v ∈ N -> cost h v = LC_COST_INF
    \/ (0 <= cost h v <= W * hops h v /\ 0 <= hops h v <= zlen S);
  di_settled : forall v, v ∈ S -> hops h v < zlen S
}.

Lemma dinv_small h0 s h Q S v :
  dinv h0 s h Q S -> v ∈ N -> cost h v <> LC_COST_INF ->
  0 <= cost h v /\ cost h v <= W * hops h v /\ 0 <= hops h v <= zlen S
  /\ W * hops h v + W <= W * (zlen S + 1).
Proof using HW HN HNd HL.
  intros Hd Hv Hne. destruct (di_bound _ _ _ _ _ Hd v Hv) as [|[Hc Hh]]; [done|].
  split_and!; try lia. nia.
Qed.

Lemma dinv_room h0 s h Q S u :
  dinv h0 s h Q S -> u ∈ Q -> zlen S + 1 <= LC_NODES_MAX.
Proof using HW HN HNd HL.
  intros Hd Hu. pose proof (di_perm _ _ _ _ _ Hd) as Hp. apply Permutation_length in Hp.
  rewrite length_app in Hp. destruct Q; [set_solver|]. simpl in Hp. unfold zlen in *. lia.
Qed.

(** The settled nodes and [u] itself keep their costs. *)
Lemma settled_fixed h0 s h Q S u h' x :
  dinv h0 s h Q S -> u ∈ Q -> cost h u <> LC_COST_INF -> relaxed h u L h' -> x ∈ S \/ x = u ->
  cost h' x = cost h x /\ hops h' x = hops h x /\ pred h' x = pred h x.
Proof using HW HN HNd HL.
  intros Hd Hu Hne Hr [Hx| ->]; [|by eapply relaxed_self].
  destruct (rx_step _ _ _ _ Hr x) as [?|(w & He & _ & _ & _ & Hlt)]; [done|].
  pose proof (di_order _ _ _ _ _ Hd x u Hx Hu). apply edge_bounds in He.
  destruct (rx_step _ _ _ _ Hr x) as [?|(w' & He' & Hc & _ & _ & _)]; [done|].
  apply edge_bounds in He'. lia.
Qed.

Lemma dinv_step h0 s h Q S u Q' h' :
  dinv h0 s h Q S -> Q ≡ₚ u :: Q' -> cost h u <> LC_COST_INF ->
  (forall y, y ∈ Q -> cost h y = LC_COST_INF \/ cost h u <= cost h y) ->
  relaxed h u L h' -> dinv h0 s h' Q' (S ++ [u]).
Proof using HW HN HNd HL.
  intros Hd HQ Hne Hmin Hr.
  assert (Hu : u ∈ Q) by (rewrite HQ; by left).
  assert (HuN : u ∈ N) by (rewrite (di_perm _ _ _ _ _ Hd); set_solver).
  destruct (dinv_small _ _ _ _ _ u Hd HuN Hne) as (Hcu & HcW & Hhu & HWh).
  pose proof (dinv_room _ _ _ _ _ _ Hd Hu) as Hroom.
  pose proof (zlen_nonneg S) as HS0.
  assert (Hfix : forall x, x ∈ S ++ [u] -> cost h' x = cost h x /\ hops h' x = hops h x /\ pred h' x = pred h x).
  { intros x Hx. eapply (settled_fixed h0 s h Q S u); try done. set_solver. }
  assert (Hzl : zlen (S ++ [u]) = zlen S + 1) by (by autorewrite with dsr_rw).
  split.
  - eapply frame_trans; [apply Hd | apply Hr].
  - rewrite (di_perm _ _ _ _ _ Hd), HQ. rewrite (Permutation_cons_append Q' u) at 1.
    rewrite <- app_assoc. apply Permutation_app_head. by rewrite Permutation_app_comm.
  - destruct (di_src _ _ _ _ _ Hd) as (Hs0 & Hs1 & Hs2).
    destruct (rx_step _ _ _ _ Hr s) as [(E1 & E2 & E3)|(w & He & Hc & _ & _ & Hlt)].
    + rewrite E1, E2, E3. done.
    + apply edge_bounds in He. lia.
  - intros v Hv Hvs. destruct (rx_step _ _ _ _ Hr v) as [(E1 & E2 & E3)|(w & He & Hc & Hh & Hp & _)].
    + rewrite E1, E2, E3. destruct (di_tree _ _ _ _ _ Hd v Hv Hvs) as [?|(x & w & Hx & He & Hp & Hc & Hh)].
      * by left.
      * right. exists x, w. destruct (Hfix x ltac:(set_solver)) as (-> & -> & _).
        split_and!; try done. set_solver.
    + right. exists u, w. destruct (Hfix u ltac:(set_solver)) as (-> & -> & _).
      split_and!; try done. set_solver.
  - intros x v w Hx He. destruct (Hfix x Hx) as (-> & _ & _).
    apply elem_of_app in Hx as [Hx|Hx].
    + pose proof (di_relaxed _ _ _ _ _ Hd x v w Hx He). pose proof (relaxed_le _ _ _ _ v Hr). lia.
    + assert (x = u) as -> by set_solver. destruct He as (p & l & Hp & Hl & Hs & <- & <-).
      exact (rx_done _ _ _ _ Hr p l Hp Hl Hs).
  - intros x y Hx Hy. destruct (Hfix x Hx) as (-> & _ & _).
    assert (HyQ : y ∈ Q) by (rewrite HQ; by right).
    assert (Hxu : cost h x <= cost h u /\ cost h x <= cost h y).
    { apply elem_of_app in Hx as [Hx|Hx].
      - split; by apply (di_order _ _ _ _ _ Hd).
      - assert (x = u) as -> by set_solver. split; [lia|].
        destruct (Hmin y HyQ) as [->|]; [|done]. unfold zlen, LC_COST_INF, UINT_MAX, LC_NODES_MAX in *. nia. }
    destruct (rx_step _ _ _ _ Hr y) as [(-> & _)|(w & He & -> & _)]; [lia|].
    apply edge_bounds in He. lia.
  - intros x Hx. destruct (Hfix x Hx) as (-> & _ & _).
    apply elem_of_app in Hx as [Hx|Hx]; [by eapply di_fin|]. by assert (x = u) as -> by set_solver.
  - intros v Hv. rewrite Hzl. destruct (rx_step _ _ _ _ Hr v) as [(-> & -> & _)|(w & He & -> & -> & _)].
    + destruct (di_bound _ _ _ _ _ Hd v Hv) as [|[]]; [by left | right; lia].
    + right. apply edge_bounds in He. split; lia.
  - intros v Hv. destruct (Hfix v Hv) as (_ & -> & _). rewrite Hzl.
    apply elem_of_app in Hv as [Hv|Hv].
    + pose proof (di_settled _ _ _ _ _ Hd v Hv). lia.
    + assert (v = u) as -> by set_solver. lia.
Qed.

Lemma find_lowest_spec t h :
  (forall v, v ∈ elems t -> is_Some (h !! v)) ->
  exists r, __dijkstra_find_lowest_cost_node t h = Ret r
    /\ match r with
       | None => forall y, y ∈ elems t -> cost h y = LC_COST_INF
       | Some u => u ∈ elems t /\ cost h u <> LC_COST_INF
           /\ (forall y, y ∈ elems t -> cost h y = LC_COST_INF \/ cost h u <= cost h y)
       end.
Proof.
  intros Hp. unfold __dijkstra_find_lowest_cost_node, __tbl_do_for_each.
  destruct (do_lowest_pass h (elems t) None Hp I) as (r & -> & Hr). simpl. exists r. split; [done|].
  destruct r as [u|]; [|by destruct Hr]. destruct Hr as ([Hu|] & Hne & Hmin); [|done]. auto.
Qed.

(** The loop ends with at most one turn per node that is not settled yet, and
    keeps the invariant; what is left unsettled cannot be reached. *)
Lemma dijkstra_loop_spec fuel links t st h0 s h :
  elems links = L -> (forall v, v ∈ N -> is_Some (h0 !! v)) ->
  dinv h0 s h (elems t) (elems st) -> tbl_wf t -> tbl_wf st -> max_len st = LC_NODES_MAX ->
  (length (elems t) <= fuel)%nat ->
  exists t' st' h', dijkstra_loop fuel links lh t st h = Ret (t', st', h')
    /\ dinv h0 s h' (elems t') (elems st')
    /\ (forall y, y ∈ elems t' -> cost h' y = LC_COST_INF)
    /\ tbl_wf t' /\ tbl_wf st' /\ max_len t' = max_len t /\ locked t' = locked t.
Proof using HW HN HNd HL.
  intros HLe Hpres. revert t st h. induction fuel as [|fuel IH]; intros t st h Hd Hwt Hws Hms Hfuel.
  all: assert (Hph : forall v, v ∈ elems t -> is_Some (h !! v))
    by (intros v Hv; eapply frame_is_Some; [apply Hd|]; apply Hpres; rewrite (di_perm _ _ _ _ _ Hd); set_solver).
  all: destruct (find_lowest_spec t h Hph) as (r & Hfl & Hr).
  all: destruct r as [u|].
  2,4: exists t, st, h; simpl; rewrite Hfl; simpl; by split_and!.
  - destruct Hr as [Hr _]. destruct (elems t); [set_solver | simpl in Hfuel; lia].
  - destruct Hr as (Hu & Hne & Hmin). simpl. rewrite Hfl. simpl.
    destruct (tbl_detach_ptr t u Hwt Hu) as (t1 & -> & Hp1 & _ & Hw1 & Hm1 & Hk1). simpl.
    pose proof (dinv_room _ _ _ _ _ _ Hd Hu) as Hroom.
    assert (Hlen : len st < max_len st) by (destruct Hws as (-> & _ & _); rewrite Hms; lia).
    destruct (tbl_add_tail_room st u Hws Hlen) as (r1 & s1 & -> & He1 & Hws1 & Hms1 & _). simpl.
    assert (HuN : u ∈ N) by (rewrite (di_perm _ _ _ _ _ Hd); set_solver).
    destruct (dinv_small _ _ _ _ _ u Hd HuN Hne) as (Hc0 & HcW & Hh0 & HWh).
    destruct (do_relax_pass h u [] L h 0) as (r2 & h1 & Hpass & Hrx).
    { intros v Hv. eapply frame_is_Some; [apply Hd|]. by apply Hpres. }
    { done. }
    { done. }
    { done. }
    { unfold zlen, LC_NODES_MAX, LC_COST_INF, UINT_MAX in *. nia. }
    { unfold LC_HOPS_INF, UINT_MAX, LC_NODES_MAX in *. lia. }
    { split; [done | by left | set_solver]. }
    unfold __tbl_do_for_each. rewrite HLe, Hpass. simpl.
    destruct (IH t1 s1 h1) as (t' & st' & h' & E & Hd' & Hinf & Hwt' & Hws' & Hmt' & Hlt'); try done.
    + rewrite He1. eapply dinv_step; eauto.
    + congruence.
    + apply Permutation_length in Hp1. simpl in Hp1. lia.
    + exists t', st', h'. rewrite E. split_and!; try done; congruence.
Qed.

(** ** Shortest walks *)

Inductive walk (s : ptr) : ptr -> Z -> Prop :=
| walk_nil : walk s s 0
| walk_snoc u v c w : walk s u c -> edge u v w -> walk s v (c + w).

(** When nothing reachable is left unsettled, the costs are lower bounds. *)
Lemma dinv_shortest h0 s h Q S v c :
  dinv h0 s h Q S -> s ∈ N -> (forall y, y ∈ Q -> cost h y = LC_COST_INF) ->
  walk s v c -> v ∈ S /\ cost h v <= c.
Proof using HW HN HNd HL.
  intros Hd Hs Hinf Hw.
  assert (Hin : forall x, x ∈ N -> cost h x <> LC_COST_INF -> x ∈ S).
  { intros x Hx Hne. rewrite (di_perm _ _ _ _ _ Hd) in Hx. apply elem_of_app in Hx as [Hx|]; [|done].
    by rewrite Hinf in Hne. }
  induction Hw as [|u v c w Hw [Hu Hc] He].
  - destruct (di_src _ _ _ _ _ Hd) as (H0 & _). rewrite H0. split; [|lia].
    apply Hin; [done|]. by rewrite H0.
  - pose proof (di_relaxed _ _ _ _ _ Hd u v w Hu He) as Hle.
    pose proof (edge_bounds _ _ _ He) as (HuN & HvN & Hwb).
    destruct (dinv_small _ _ _ _ _ u Hd HuN (di_fin _ _ _ _ _ Hd u Hu)) as (Hc0 & HcW & Hh0 & HWh).
    pose proof (di_settled _ _ _ _ _ Hd u Hu) as Hset.
    assert (zlen S <= zlen N).
    { pose proof (Permutation_length (di_perm _ _ _ _ _ Hd)) as Hp. rewrite length_app in Hp.
      unfold zlen. lia. }
    split; [|lia]. apply Hin; [done|].
    unfold LC_COST_INF, UINT_MAX, LC_NODES_MAX in *. nia.
Qed.

(** The nodes after [s] on the way to [v] along the [pred] pointers. *)
Inductive tree_path (h : node_heap) (s : ptr) : ptr -> list ptr -> Prop :=
| tp_root : pred h s = Some s -> tree_path h s s []
| tp_step u v l w : tree_path h s u l -> pred h v = Some u -> u <> v -> edge u v w ->
    cost h v = cost h u + w -> tree_path h s v (l ++ [v]).

Lemma dinv_tree_path h0 s h Q S v :
  dinv h0 s h Q S -> v ∈ S ->
  exists l, tree_path h s v l /\ zlen l = hops h v /\ l ⊆ S /\ NoDup (s :: l)
    /\ Forall (fun x => 1 <= hops h x <= hops h v) l.
Proof using HW HN HNd HL.
  intros Hd Hv.
  assert (HSN : forall x, x ∈ S -> x ∈ N) by (intros x Hx; rewrite (di_perm _ _ _ _ _ Hd); set_solver).
  assert (Hpos : forall x, x ∈ S -> 0 <= hops h x).
  { intros x Hx. by apply (dinv_small _ _ _ _ _ x Hd (HSN x Hx) (di_fin _ _ _ _ _ Hd x Hx)). }
  remember (Z.to_nat (hops h v)) as k eqn:Hk. revert v Hv Hk.
  induction k as [k IH] using lt_wf_ind. intros v Hv Hk.
  destruct (di_src _ _ _ _ _ Hd) as (Hs0 & Hs1 & Hs2).
  destruct (decide (v = s)) as [->|Hvs].
  - exists []. split_and!; [by constructor | by rewrite Hs1 | set_solver | apply NoDup_singleton | by constructor].
  - destruct (di_tree _ _ _ _ _ Hd v (HSN v Hv) Hvs) as [[Hinf _]|(u & w & Hu & He & Hp & Hc & Hh)].
    { by apply (di_fin _ _ _ _ _ Hd) in Hv. }
    pose proof (Hpos u Hu). pose proof (Hpos v Hv).
    destruct (IH (Z.to_nat (hops h u)) ltac:(lia) u Hu eq_refl) as (l & Ht & Hl & Hsub & Hnd & Hr).
    exists (l ++ [v]). split_and!.
    + eapply tp_step; eauto. intros ->. lia.
    + autorewrite with dsr_rw. lia.
    + intros x [Hx|Hx]%elem_of_app; [auto|]. by assert (x = v) as -> by set_solver.
    + rewrite app_comm_cons. apply NoDup_app. split_and!; [done| |apply NoDup_singleton].
      intros x Hx Hxv. assert (x = v) as -> by set_solver.
      apply elem_of_cons in Hx as [->|Hx]; [done|].
      rewrite Forall_forall in Hr. specialize (Hr v Hx). simpl in Hr. lia.
    + apply Forall_app. split; [|constructor; [lia|constructor]].
      eapply Forall_impl; [exact Hr|]. simpl. lia.
Qed.

Lemma tree_path_nonroot h s v l : tree_path h s v l -> l <> [] -> exists u, pred h v = Some u /\ u <> v.
Proof. destruct 1; [done|eauto]. Qed.

(** The route-filling loop copies the addresses of the path from the back. *)
Lemma fill_route_spec h s v l fuel k i (a : list Z) :
  tree_path h s v l -> (forall x, x ∈ s :: l -> is_Some (h !! x)) ->
  (length l <= fuel)%nat -> zlen l = k - i -> 0 <= i -> k <= zlen a ->
  exists ws, map (addr_of h) l = map Some ws
    /\ fill_route fuel h (Some v) k i a = Ret (ws ++ drop (length l) a, k).
Proof using HW HN HNd HL.
  intros Ht. revert fuel i a. induction Ht as [Hp|u v l w Ht IH Hp Huv He Hc]; intros fuel i a Hh Hf Hk Hi Ha.
  - destruct (Hh s ltac:(by left)) as [n Hn]. exists []. split; [done|].
    rewrite (pred_Some _ _ _ Hn) in Hp.
    destruct fuel; simpl; rewrite Hn; simpl; rewrite Hp, bool_decide_eq_true_2 by done;
      unfold zlen in Hk; simpl in Hk; do 2 f_equal; lia.
  - destruct (Hh v ltac:(set_solver)) as [n Hn]. rewrite (pred_Some _ _ _ Hn) in Hp.
    rewrite length_app in Hf. simpl in Hf. destruct fuel as [|fuel]; [lia|].
    rewrite zlen_app in Hk. unfold zlen at 2 in Hk. simpl in Hk.
    simpl. rewrite Hn. simpl. rewrite Hp, bool_decide_eq_false_2 by congruence.
    unfold zset at 1. pose proof (zlen_nonneg l).
    destruct ((0 <=? k - i - 1) && (k - i - 1 <? zlen a)) eqn:Hb; [|apply andb_false_iff in Hb as [Hb|Hb]; zb; lia].
    simpl. replace (Z.to_nat (k - i - 1)) with (length l) by (unfold zlen in *; lia).
    destruct (IH fuel (i + 1) (<[length l:=n_addr n]> a)) as (ws & Hws & E).
    + set_solver.
    + lia.
    + lia.
    + lia.
    + unfold zlen in *. rewrite length_insert. lia.
    + exists (ws ++ [n_addr n]). rewrite !map_app, Hws. simpl. unfold addr_of. rewrite Hn.
      split; [done|]. rewrite E. do 2 f_equal. rewrite <- app_assoc. f_equal. simpl.
      rewrite length_app. simpl. rewrite Nat.add_1_r.
      rewrite (drop_S _ (n_addr n) (length l)) by (apply list_lookup_insert_eq; unfold zlen in *; lia).
      f_equal. rewrite drop_insert_lt by lia. done.
Qed.
End Graph.
