(* ===== verification/LinkCacheInv.v ===== *)
(** * The link cache as a set of links: invariant and operations

    [view] reads the cache as a map from pairs of addresses to costs.  Under the
    invariant [lc_inv] every operation of link-cache.c that changes the graph is
    an operation on that map. *)

From S2P Require Import Prelude Timer Tbl Srt LinkCache Dijkstra.

(** ** Counting links at a node *)

Definition ends_at (l : lc_link) (p : ptr) : Z :=
  (if l_src l =? p then 1 else 0) + (if l_dst l =? p then 1 else 0).

Definition link_ends (lh : link_heap) (q p : ptr) : Z :=
  match lh !! q with Some l => ends_at l p | None => 0 end.

Fixpoint incident (lh : link_heap) (L : list ptr) (p : ptr) : Z :=
  match L with [] => 0 | q :: L' => link_ends lh q p + incident lh L' p end.

Lemma ends_at_nonneg l p : 0 <= ends_at l p <= 2.
Proof. unfold ends_at. destruct (l_src l =? p), (l_dst l =? p); lia. Qed.

Lemma link_ends_nonneg lh q p : 0 <= link_ends lh q p <= 2.
Proof. unfold link_ends. destruct (lh !! q); [apply ends_at_nonneg | lia]. Qed.

Lemma incident_nonneg lh L p : 0 <= incident lh L p <= 2 * zlen L.
Proof.
  induction L as [|q L IH]; simpl; [unfold zlen; simpl; lia|].
  rewrite zlen_cons. pose proof (link_ends_nonneg lh q p). lia.
Qed.

Lemma incident_perm lh L L' p : L ≡ₚ L' -> incident lh L p = incident lh L' p.
Proof. induction 1; simpl; lia. Qed.

Lemma incident_ext lh lh' L p :
  (forall q, q ∈ L -> link_ends lh' q p = link_ends lh q p) -> incident lh' L p = incident lh L p.
Proof.
  induction L as [|q L IH]; intros H; simpl; [done|].
  rewrite IH, H; [done | by left | intros x Hx; apply H; by right].
Qed.

Lemma incident_app lh L L' p : incident lh (L ++ L') p = incident lh L p + incident lh L' p.
Proof. induction L as [|q L IH]; simpl; lia. Qed.

Lemma incident_pos lh L p q l :
  q ∈ L -> lh !! q = Some l -> l_src l = p \/ l_dst l = p -> 1 <= incident lh L p.
Proof.
  intros Hq Hl Hp. induction Hq as [q L|q x L Hq IH]; simpl.
  - pose proof (incident_nonneg lh L p). unfold link_ends. rewrite Hl. unfold ends_at.
    destruct (l_src l =? p) eqn:E1, (l_dst l =? p) eqn:E2; zb; lia.
  - pose proof (link_ends_nonneg lh x p). specialize (IH Hl). lia.
Qed.

Lemma incident_zero lh L p :
  (forall q l, q ∈ L -> lh !! q = Some l -> l_src l <> p /\ l_dst l <> p) -> incident lh L p = 0.
Proof.
  induction L as [|q L IH]; intros H; simpl; [done|].
  rewrite IH by (intros x l Hx; apply H; by right). unfold link_ends.
  destruct (lh !! q) as [l|] eqn:E; [|done]. destruct (H q l ltac:(by left) E) as [H1 H2].
  unfold ends_at. apply Z.eqb_neq in H1, H2. by rewrite H1, H2.
Qed.

(** ** The invariant *)

Record nodes_ok (t : tbl ptr) (h : node_heap) (c : ptr -> Z) : Prop := {
  no_wf : tbl_wf t;
  no_max : max_len t = LC_NODES_MAX;
  no_nd : NoDup (elems t);
  no_count : forall p, p ∈ elems t -> links_of h p = Some (c p);
  no_addr : forall p q, p ∈ elems t -> q ∈ elems t -> addr_of h p = addr_of h q -> p = q
}.

Record links_ok (ns : list ptr) (lh : link_heap) (L : list ptr) : Prop := {
  lo_nd : NoDup L;
  lo_link : forall p, p ∈ L -> exists l, lh !! p = Some l /\ l_src l ∈ ns /\ l_dst l ∈ ns
              /\ 0 <= l_cost l < 2 ^ 32;
  lo_uniq : forall p q l m, p ∈ L -> q ∈ L -> lh !! p = Some l -> lh !! q = Some m ->
              l_src l = l_src m -> l_dst l = l_dst m -> p = q
}.

(** Both tables respect their bounds; the nodes are live and have different
    addresses; a link's end nodes are in the table and no two links join the
    same pair; [node->links] counts the link ends at the node; blocks that were
    never allocated are not in the heaps. *)
Record lc_inv (lc : lc_graph) : Prop := {
  inv_nodes : nodes_ok (lc_nodes lc) (nheap lc) (incident (lheap lc) (elems (lc_links lc)));
  inv_links : links_ok (elems (lc_nodes lc)) (lheap lc) (elems (lc_links lc));
  inv_lwf : tbl_wf (lc_links lc);
  inv_lmax : max_len (lc_links lc) = LC_LINKS_MAX;
  inv_fresh : forall p, lc_next lc <= p -> nheap lc !! p = None /\ lheap lc !! p = None
}.

Lemma no_live t h c p : nodes_ok t h c -> p ∈ elems t -> is_Some (h !! p).
Proof.
  intros H Hp. pose proof (no_count _ _ _ H p Hp) as Hc. unfold links_of in Hc.
  destruct (h !! p); [eauto|done].
Qed.

Lemma no_addr_Some t h c p : nodes_ok t h c -> p ∈ elems t -> exists a, addr_of h p = Some a.
Proof. intros H Hp. destruct (no_live _ _ _ _ H Hp) as [n Hn]. unfold addr_of. rewrite Hn. eauto. Qed.

(** ** The map of links *)

Definition entry (nh : node_heap) (lh : link_heap) (q : ptr) : option (Z * Z * Z) :=
  l ← lh !! q; a ← addr_of nh (l_src l); b ← addr_of nh (l_dst l); Some (a, b, l_cost l).

Definition entries (nh : node_heap) (lh : link_heap) (L : list ptr) : gmap (Z * Z) Z :=
  list_to_map (omap (entry nh lh) L).

Definition view (lc : lc_graph) : gmap (Z * Z) Z :=
  entries (nheap lc) (lheap lc) (elems (lc_links lc)).

Lemma entry_Some nh lh q a b w :
  entry nh lh q = Some (a, b, w) <->
  exists l, lh !! q = Some l /\ addr_of nh (l_src l) = Some a /\ addr_of nh (l_dst l) = Some b
    /\ l_cost l = w.
Proof.
  unfold entry. destruct (lh !! q) as [l|]; simpl; [|naive_solver].
  destruct (addr_of nh (l_src l)) eqn:Ea; simpl; [|naive_solver].
  destruct (addr_of nh (l_dst l)) eqn:Eb; simpl; naive_solver.
Qed.

Lemma entry_key_inj t nh c lh L q q' k w w' :
  nodes_ok t nh c -> links_ok (elems t) lh L -> q ∈ L -> q' ∈ L ->
  entry nh lh q = Some (k, w) -> entry nh lh q' = Some (k, w') -> q = q'.
Proof.
  intros Hn Hl Hq Hq' H H'. destruct k as [a b].
  apply entry_Some in H as (l & El & Ea & Eb & _). apply entry_Some in H' as (l' & El' & Ea' & Eb' & _).
  destruct (lo_link _ _ _ Hl q Hq) as (m & Em & Hs & Hd & _). rewrite El in Em. injection Em as <-.
  destruct (lo_link _ _ _ Hl q' Hq') as (m & Em & Hs' & Hd' & _). rewrite El' in Em. injection Em as <-.
  eapply (lo_uniq _ _ _ Hl); eauto; eapply (no_addr _ _ _ Hn); eauto; congruence.
Qed.

Lemma entries_lookup t nh c lh L k w :
  nodes_ok t nh c -> links_ok (elems t) lh L ->
  entries nh lh L !! k = Some w <-> exists q, q ∈ L /\ entry nh lh q = Some (k, w).
Proof.
  intros Hn Hl. unfold entries.
  assert (Hkeys : forall L', L' ⊆ L -> NoDup L' -> NoDup (omap (entry nh lh) L').*1).
  { induction L' as [|q L' IH]; intros Hsub Hnd; simpl; [constructor|].
    apply NoDup_cons in Hnd as [Hq Hnd].
    assert (IH' : NoDup (omap (entry nh lh) L').*1) by (apply IH; [set_solver|done]).
    destruct (entry nh lh q) as [[k' w']|] eqn:E; simpl; [|done]. apply NoDup_cons. split; [|done].
    intros ([k2 w2] & -> & Hin)%list_elem_of_fmap. apply list_elem_of_omap in Hin as (q2 & Hq2 & E2).
    simpl in *. assert (q = q2) as -> by (eapply entry_key_inj; eauto; set_solver). done. }
  rewrite <- elem_of_list_to_map by (apply Hkeys; [done | apply (lo_nd _ _ _ Hl)]).
  by rewrite list_elem_of_omap.
Qed.

Lemma view_lookup lc k w :
  lc_inv lc -> view lc !! k = Some w <->
  exists q, q ∈ elems (lc_links lc) /\ entry (nheap lc) (lheap lc) q = Some (k, w).
Proof. intros H. eapply entries_lookup; apply H. Qed.

(** Equal maps from equal lookups of present keys. *)
Lemma gmap_Some_eq (m1 m2 : gmap (Z * Z) Z) :
  (forall k w, m1 !! k = Some w <-> m2 !! k = Some w) -> m1 = m2.
Proof.
  intros H. apply map_eq. intros k. destruct (m2 !! k) as [w|] eqn:E; [by apply H|].
  destruct (m1 !! k) as [w|] eqn:E1; [|done]. apply H in E1. congruence.
Qed.

Lemma entry_frame nh nh' lh q : frame nh nh' -> entry nh' lh q = entry nh lh q.
Proof. intros Hf. unfold entry. destruct (lh !! q); simpl; [|done]. by rewrite !(proj1 (Hf _)). Qed.

Lemma entries_ext nh lh nh' lh' L :
  (forall q, q ∈ L -> entry nh' lh' q = entry nh lh q) -> entries nh' lh' L = entries nh lh L.
Proof.
  intros H. unfold entries. f_equal. induction L as [|q L IH]; [done|].
  assert (IH' : omap (entry nh' lh') L = omap (entry nh lh) L) by (apply IH; intros; apply H; by right).
  simpl in *. rewrite (H q) by (by left). destruct (entry nh lh q); [f_equal|]; exact IH'.
Qed.

(** Changing path fields and the order of the nodes keeps the invariant and the
    map. *)
Lemma lc_inv_frame lc t h :
  lc_inv lc -> frame (nheap lc) h -> elems t ≡ₚ elems (lc_nodes lc) -> tbl_wf t ->
  max_len t = LC_NODES_MAX ->
  lc_inv (set_nodes lc t h) /\ view (set_nodes lc t h) = view lc.
Proof.
  intros Hi Hf Hp Hwf Hm. destruct (inv_nodes _ Hi) as [H1 H2 H3 H4 H5].
  destruct (inv_links _ Hi) as [K1 K2 K3]. split; [split; simpl; [| |apply (inv_lwf _ Hi)|apply (inv_lmax _ Hi)|]|].
  - split; try done.
    + by rewrite Hp.
    + intros p. rewrite Hp. intros Hx. rewrite (proj2 (Hf p)). auto.
    + intros p q. rewrite Hp. rewrite !(proj1 (Hf _)). auto.
  - split; try done. intros p Hx. destruct (K2 p Hx) as (l & ?). exists l. by rewrite Hp.
  - intros p Hge. destruct (inv_fresh _ Hi p Hge) as [Hn Hl]. split; [|done].
    destruct (h !! p) eqn:E; [|done]. destruct (Hf p) as [Ha _]. unfold addr_of in Ha.
    rewrite E, Hn in Ha. done.
  - apply entries_ext. intros q _. by apply entry_frame.
Qed.

(** ** Looking up nodes and links *)

Lemma find_node_spec t h c a :
  nodes_ok t h c ->
  exists r, __tbl_find t a (crit_addr h) = Ret r
    /\ match r with
       | Some p => p ∈ elems t /\ addr_of h p = Some a
       | None => forall p, p ∈ elems t -> addr_of h p <> Some a
       end.
Proof.
  intros Hn.
  destruct (tbl_find_total t a (crit_addr h) (fun p => bool_decide (addr_of h p = Some a))) as (r & Hr & Hm).
  { intros p Hp. destruct (no_live _ _ _ _ Hn Hp) as [n E]. unfold crit_addr, addr_of. rewrite E. simpl.
    f_equal. destruct (n_addr n =? a) eqn:Ea; zb; case_bool_decide; naive_solver. }
  exists r. split; [done|]. destruct r as [p|].
  - destruct Hm as [? Hb]. by apply bool_decide_eq_true in Hb.
  - intros p Hp. specialize (Hm p Hp). by apply bool_decide_eq_false in Hm.
Qed.

Lemma find_link_spec lc a b :
  lc_inv lc ->
  exists r, __lc_link_find lc a b = Ret r
    /\ match r with
       | Some q => q ∈ elems (lc_links lc) /\ exists w, entry (nheap lc) (lheap lc) q = Some (a, b, w)
       | None => view lc !! (a, b) = None
       end.
Proof.
  intros Hi. pose proof (inv_nodes _ Hi) as Hn. pose proof (inv_links _ Hi) as Hl.
  destruct (tbl_find_total (lc_links lc) (a, b) (crit_link_query (nheap lc) (lheap lc))
    (fun q => bool_decide (fst <$> entry (nheap lc) (lheap lc) q = Some (a, b)))) as (r & Hr & Hm).
  { intros q Hq. destruct (lo_link _ _ _ Hl q Hq) as (l & E & Hs & Hd & _).
    destruct (no_live _ _ _ _ Hn Hs) as [s Es]. destruct (no_live _ _ _ _ Hn Hd) as [d Ed].
    unfold crit_link_query, entry, addr_of. rewrite E. simpl. rewrite Es. simpl. rewrite Ed. simpl.
    destruct (n_addr s =? a) eqn:E1; [|zb; rewrite bool_decide_eq_false_2; [done|naive_solver]].
    f_equal. destruct (n_addr d =? b) eqn:E2; zb; case_bool_decide; naive_solver. }
  exists r. split; [done|]. destruct r as [q|].
  - destruct Hm as [? Hb]. split; [done|]. apply bool_decide_eq_true in Hb.
    destruct (entry _ _ q) as [[k w]|]; [|done]. exists w. simpl in Hb. congruence.
  - destruct (view lc !! (a, b)) as [w|] eqn:E; [|done]. exfalso.
    apply view_lookup in E as (q & Hq & E); [|done]. specialize (Hm q Hq). rewrite E in Hm.
    by apply bool_decide_eq_false in Hm.
Qed.

(** ** Making a node *)

(** What an operation that may add nodes leaves alone. *)
Record grown (lc lc' : lc_graph) : Prop := {
  gr_nodes : forall q, q ∈ elems (lc_nodes lc) ->
    q ∈ elems (lc_nodes lc') /\ addr_of (nheap lc') q = addr_of (nheap lc) q;
  gr_links : lc_links lc' = lc_links lc;
  gr_lheap : lheap lc' = lheap lc;
  gr_locked : lc_locked lc' = lc_locked lc;
  gr_view : view lc' = view lc;
  gr_len : len (lc_nodes lc') <= len (lc_nodes lc) + 1
}.

Lemma grown_refl lc : grown lc lc.
Proof. split; try done. lia. Qed.

(** The state after [lc_node_create] and [__tbl_add_tail] with room. *)
Lemma node_added_inv lc a t :
  lc_inv lc -> (forall p, p ∈ elems (lc_nodes lc) -> addr_of (nheap lc) p <> Some a) ->
  elems t = elems (lc_nodes lc) ++ [lc_next lc] -> tbl_wf t -> max_len t = LC_NODES_MAX ->
  len t = len (lc_nodes lc) + 1 ->
  let lc' := set_next (set_nodes lc t (<[lc_next lc := LcNode a 0 LC_COST_INF 0 None]> (nheap lc)))
               (lc_next lc + 1) in
  lc_inv lc' /\ grown lc lc' /\ addr_of (nheap lc') (lc_next lc) = Some a.
Proof.
  intros Hi Hna He Hwf Hm Hlen lc'. pose proof (inv_nodes _ Hi) as Hn. pose proof (inv_links _ Hi) as Hl.
  set (p := lc_next lc) in *.
  set (h' := <[p := LcNode a 0 LC_COST_INF 0 None]> (nheap lc)) in *. destruct (inv_fresh _ Hi p ltac:(done)) as [Hpn Hpl].
  assert (Hp : p ∉ elems (lc_nodes lc)).
  { intros Hp. destruct (no_live _ _ _ _ Hn Hp) as [n E]. congruence. }
  assert (Haddr : forall q, q ∈ elems (lc_nodes lc) -> addr_of h' q = addr_of (nheap lc) q
            /\ links_of h' q = links_of (nheap lc) q).
  { intros q Hq. unfold h', addr_of, links_of.
    by rewrite lookup_insert_ne by (intros <-; done). }
  assert (Hnew : addr_of h' p = Some a).
  { unfold h', addr_of. by rewrite lookup_insert_eq. }
  assert (Hinc : incident (lheap lc) (elems (lc_links lc)) p = 0).
  { apply incident_zero. intros q l Hq E. destruct (lo_link _ _ _ Hl q Hq) as (m & E' & Hs & Hd & _).
    rewrite E in E'. injection E' as <-. split; congruence. }
  split; [split|split; [split|done]].
  - split; simpl; try done.
    + rewrite He. apply NoDup_app. split_and!; [apply Hn | set_solver | apply NoDup_singleton].
    + intros q. rewrite He. intros [Hq|Hq]%elem_of_app.
      * rewrite <- (no_count _ _ _ Hn q Hq). apply (Haddr q Hq).
      * assert (q = p) as -> by set_solver. rewrite Hinc. unfold links_of, h'. by rewrite lookup_insert_eq.
    + intros x y. rewrite He, !elem_of_app, !list_elem_of_singleton.
      intros [Hx| ->] [Hy| ->] Hxy; try done.
      * rewrite (proj1 (Haddr x Hx)), (proj1 (Haddr y Hy)) in Hxy. by apply (no_addr _ _ _ Hn).
      * rewrite (proj1 (Haddr x Hx)), Hnew in Hxy. by apply Hna in Hx.
      * rewrite (proj1 (Haddr y Hy)), Hnew in Hxy. symmetry in Hxy. by apply Hna in Hy.
  - split; simpl; [apply Hl | | apply (lo_uniq _ _ _ Hl)].
    intros q Hq. destruct (lo_link _ _ _ Hl q Hq) as (l & ? & ? & ? & ?). exists l. rewrite He. set_solver.
  - apply Hi.
  - apply (inv_lmax _ Hi).
  - simpl. intros q Hq. unfold h'. rewrite lookup_insert_ne by (unfold p; lia). apply (inv_fresh _ Hi). lia.
  - intros q Hq. simpl. rewrite He. split; [set_solver|]. apply (Haddr q Hq).
  - done.
  - done.
  - done.
  - apply entries_ext. intros q Hq. destruct (lo_link _ _ _ Hl q Hq) as (l & E & Hs & Hd & _).
    unfold entry. simpl. rewrite E. simpl.
    change (<[p:=LcNode a 0 LC_COST_INF 0 None]> (nheap lc)) with h'.
    by rewrite (proj1 (Haddr _ Hs)), (proj1 (Haddr _ Hd)).
  - simpl. lia.
Qed.

Definition node_room (lc : lc_graph) (a : Z) : Prop :=
  (exists p, p ∈ elems (lc_nodes lc) /\ addr_of (nheap lc) p = Some a)
  \/ len (lc_nodes lc) < LC_NODES_MAX.

Lemma kmalloc_ok mem ok mem' :
  kmalloc mem = (ok, mem') -> (ok = false -> false ∈ mem) /\ (false ∉ mem -> false ∉ mem').
Proof.
  destruct mem as [|b mem0]; simpl; intros [= <- <-]; [done|].
  split; [intros ->; left | set_solver].
Qed.

Lemma node_get_spec lc mem a :
  lc_inv lc -> node_room lc a ->
  exists r lc' mem', lc_node_get lc mem a = Ret (r, lc', mem')
    /\ lc_inv lc' /\ grown lc lc' /\ (false ∉ mem -> false ∉ mem')
    /\ match r with
       | Some p => p ∈ elems (lc_nodes lc') /\ addr_of (nheap lc') p = Some a
       | None => false ∈ mem
       end.
Proof.
  intros Hi Hroom. unfold lc_node_get.
  destruct (find_node_spec _ _ _ a (inv_nodes _ Hi)) as (r & -> & Hr). simpl.
  destruct r as [p|].
  - exists (Some p), lc, mem. split_and!; try done; [apply grown_refl | apply Hr..].
  - unfold lc_node_create. destruct (kmalloc mem) as [ok mem'] eqn:Ek.
    destruct (kmalloc_ok _ _ _ Ek) as [Hf Hm]. destruct ok.
    + destruct Hroom as [(p & Hp & Ha)|Hlt]; [by apply Hr in Hp|]. cbn [lc_nodes set_next set_nodes].
      destruct (tbl_add_tail_room (lc_nodes lc) (lc_next lc)) as (r & t & E & He & Hwf & Hmx & _).
      { apply (inv_nodes _ Hi). }
      { by rewrite (no_max _ _ _ (inv_nodes _ Hi)). }
      rewrite E. eexists (Some _), _, _. split; [done|].
      destruct (node_added_inv lc a t) as (H1 & H2 & H3); try done.
      * rewrite Hmx. apply (inv_nodes _ Hi).
      * destruct Hwf as (-> & _). destruct (no_wf _ _ _ (inv_nodes _ Hi)) as (-> & _).
        rewrite He. by autorewrite with dsr_rw.
      * split_and!; try done. simpl. rewrite He. set_solver.
    + exists None, lc, mem'. split_and!; try done; [apply grown_refl | by apply Hf].
Qed.

(** ** Making or refreshing a link *)

Lemma entry_update nh lh q l st c e x :
  lh !! q = Some l ->
  entry nh (<[q := LcLink (l_src l) (l_dst l) st c e]> lh) x
  = if decide (q = x) then (fun k => (k.1, c)) <$> entry nh lh x else entry nh lh x.
Proof.
  intros Hl. unfold entry. case_decide as D.
  - subst x. rewrite lookup_insert_eq, Hl. simpl.
    destruct (addr_of nh (l_src l)); simpl; [|done]. by destruct (addr_of nh (l_dst l)).
  - by rewrite lookup_insert_ne.
Qed.

Lemma link_update_inv lc q a b w now timeout st c :
  lc_inv lc -> q ∈ elems (lc_links lc) -> entry (nheap lc) (lheap lc) q = Some (a, b, w) ->
  exists lc', link_update lc q now timeout st c = Ret lc'
    /\ lc_inv lc' /\ view lc' = <[(a, b) := u32 c]> (view lc)
    /\ lc_nodes lc' = lc_nodes lc /\ lc_links lc' = lc_links lc /\ lc_locked lc' = lc_locked lc
    /\ nheap lc' = nheap lc.
Proof.
  intros Hi Hq He. pose proof (inv_nodes _ Hi) as Hn. pose proof (inv_links _ Hi) as Hl.
  destruct (lo_link _ _ _ Hl q Hq) as (l & El & Hs & Hd & _).
  unfold link_update. rewrite El. simpl. eexists. split; [done|].
  set (lh' := <[q := _]> (lheap lc)).
  assert (Hlk : forall x m', lh' !! x = Some m' -> exists m, lheap lc !! x = Some m
            /\ l_src m' = l_src m /\ l_dst m' = l_dst m).
  { intros x m'. unfold lh'. rewrite lookup_insert. case_decide as D; [|eauto].
    subst x. intros [= <-]. exists l. by split_and!. }
  assert (Hi' : lc_inv (set_links lc (lc_links lc) lh')).
  { split; simpl; [| |apply (inv_lwf _ Hi)|apply (inv_lmax _ Hi)|].
    - destruct Hn as [N1 N2 N3 N4 N5]. split; try done. intros p Hp. rewrite N4 by done. f_equal.
      symmetry. apply incident_ext. intros x _. unfold link_ends, lh'. rewrite lookup_insert.
      case_decide as D; [|done]. subst x. by rewrite El.
    - split; [apply Hl| |].
      + intros x Hx. destruct (lo_link _ _ _ Hl x Hx) as (m & Em & Hms & Hmd & Hmc).
        unfold lh'. rewrite lookup_insert. case_decide as D; [|eauto].
        eexists. split; [done|]. simpl. split_and!; try done; apply u32_range.
      + intros x y m n Hx Hy Hm Hm' Es Ed. apply Hlk in Hm as (m0 & Hm0 & E1 & E2).
        apply Hlk in Hm' as (n0 & Hn0 & E3 & E4). eapply (lo_uniq _ _ _ Hl); eauto; congruence.
    - intros p Hp. destruct (inv_fresh _ Hi p Hp) as [? Hf]. split; [done|].
      unfold lh'. rewrite lookup_insert_ne; [done|]. intros ->. congruence. }
  split; [done|]. split; [|done]. apply gmap_Some_eq. intros k v.
  rewrite view_lookup by done. simpl. rewrite lookup_insert. split.
  - intros (x & Hx & E). unfold lh' in E. rewrite (entry_update _ _ _ _ _ _ _ _ El) in E.
    case_decide as D.
    + subst x. rewrite He in E. simpl in E. injection E as <- <-. by rewrite decide_True.
    + rewrite decide_False; [apply view_lookup; eauto|]. intros <-. apply D. by eapply entry_key_inj.
  - case_decide as D.
    + intros [= <-]. subst k. exists q. split; [done|]. unfold lh'.
      rewrite (entry_update _ _ _ _ _ _ _ _ El), decide_True, He by done. done.
    + intros (x & Hx & E)%view_lookup; [|done]. exists x. split; [done|]. unfold lh'.
      rewrite (entry_update _ _ _ _ _ _ _ _ El). rewrite decide_False; [done|].
      intros <-. rewrite He in E. by injection E.
Qed.

Lemma node_link_spec lc p k :
  links_of (nheap lc) p = Some k -> 0 <= k < 2 ^ 32 - 1 ->
  exists h', node_link lc p = Ret (set_nodes lc (lc_nodes lc) h')
    /\ (forall x, addr_of h' x = addr_of (nheap lc) x)
    /\ (forall x, links_of h' x = if decide (p = x) then Some (k + 1) else links_of (nheap lc) x).
Proof.
  intros Hk Hb. unfold links_of in Hk. destruct (nheap lc !! p) as [n|] eqn:E; [|done].
  injection Hk as <-. unfold node_link. rewrite E. simpl. eexists. split; [done|].
  rewrite u32_small by lia. split; intros x; unfold addr_of, links_of; rewrite lookup_insert;
    case_decide as D; subst; [by rewrite E | done | done | done].
Qed.

Lemma is_None_addr_of h x : h !! x = None <-> addr_of h x = None.
Proof. unfold addr_of. by rewrite fmap_None. Qed.

(** The run that makes a link, whatever [__tbl_add_tail] does with it. *)
Lemma link_tbl_add_new lc mem mem' now s d a b timeout st c :
  lc_inv lc -> s ∈ elems (lc_nodes lc) -> d ∈ elems (lc_nodes lc) ->
  addr_of (nheap lc) s = Some a -> addr_of (nheap lc) d = Some b ->
  view lc !! (a, b) = None -> kmalloc mem = (true, mem') ->
  let q := lc_next lc in
  exists h' e,
    let new := LcLink s d st (u32 c) e in
    __lc_link_tbl_add lc mem now (Some s) (Some d) timeout st c
    = Ret (1, set_nodes (set_next (set_links lc (__tbl_add_tail (lc_links lc) q).2
                           (<[q := new]> (lheap lc))) (q + 1)) (lc_nodes lc) h', mem')
    /\ (forall x, addr_of h' x = addr_of (nheap lc) x)
    /\ (forall x, x ∈ elems (lc_nodes lc) ->
          links_of h' x = Some (incident (lheap lc) (elems (lc_links lc)) x + ends_at new x)).
Proof.
  intros Hi Hs Hd Ha Hb Hv Hk q. pose proof (inv_nodes _ Hi) as Hn.
  set (inc := incident (lheap lc) (elems (lc_links lc))) in *.
  assert (Hsm : forall x, 0 <= inc x <= 200).
  { intros x. pose proof (incident_nonneg (lheap lc) (elems (lc_links lc)) x). fold inc in H.
    destruct (inv_lwf _ Hi) as (_ & Hm & _). rewrite (inv_lmax _ Hi) in Hm. unfold LC_LINKS_MAX in Hm. lia. }
  unfold __lc_link_tbl_add.
  destruct (no_live _ _ _ _ Hn Hs) as [sn Es]. destruct (no_live _ _ _ _ Hn Hd) as [dn Ed].
  unfold addr_of in Ha, Hb. rewrite Es in Ha. rewrite Ed in Hb. injection Ha as Ha. injection Hb as Hb.
  rewrite Es. simpl. rewrite Ed. simpl. rewrite Ha, Hb.
  destruct (find_link_spec lc a b Hi) as (r & -> & Hr). simpl.
  destruct r as [q'|].
  { destruct Hr as (Hq & w & He). exfalso. assert (view lc !! (a, b) = Some w); [|congruence].
    apply view_lookup; eauto. }
  rewrite Hk. fold q. destruct (__tbl_add_tail (lc_links lc) q) as [r t]. simpl.
  match goal with |- context [node_link ?l s] => set (lc1 := l) end.
  destruct (node_link_spec lc1 s (inc s)) as (h1 & E1 & Ha1 & Hl1).
  { by apply (no_count _ _ _ Hn). }
  { pose proof (Hsm s). lia. }
  rewrite E1. simpl.
  destruct (node_link_spec (set_nodes lc1 (lc_nodes lc) h1) d (inc d + if decide (s = d) then 1 else 0))
    as (h2 & E2 & Ha2 & Hl2).
  { simpl. rewrite Hl1. case_decide; [by subst|]. rewrite Z.add_0_r. by apply (no_count _ _ _ Hn). }
  { pose proof (Hsm d). case_decide; lia. }
  rewrite E2. simpl. unfold link_update. simpl. rewrite lookup_insert_eq. simpl.
  exists h2, (timeval_add_usecs now timeout). split_and!.
  - unfold set_links, set_nodes, set_next. simpl. by rewrite insert_insert_eq.
  - intros x. rewrite Ha2. simpl. apply Ha1.
  - intros x Hx. rewrite Hl2. simpl. rewrite Hl1. simpl.
    rewrite (no_count _ _ _ Hn x Hx). fold inc. unfold ends_at. simpl.
    destruct (Z.eqb_spec d x) as [Hdx|Hdx], (Z.eqb_spec s x) as [Hsx|Hsx];
      [rewrite !decide_True by congruence | rewrite decide_True, decide_False by congruence
      | rewrite decide_False, decide_True by congruence | rewrite !decide_False by congruence];
      subst; f_equal; lia.
Qed.

(** The state with a new link between two nodes of the table. *)
Section Added.
Context (lc : lc_graph) (s d a b : Z) (l : lc_link) (h' : node_heap) (t : tbl ptr).
Local Abbreviation q := (lc_next lc).
Local Abbreviation lh' := (<[q := l]> (lheap lc)).
Context (Hi : lc_inv lc) (Hs : s ∈ elems (lc_nodes lc)) (Hd : d ∈ elems (lc_nodes lc)).
Context (Ha : addr_of (nheap lc) s = Some a) (Hb : addr_of (nheap lc) d = Some b) (Hv : view lc !! (a, b) = None).
Context (Hls : l_src l = s) (Hld : l_dst l = d) (Hc : 0 <= l_cost l < 2 ^ 32).
Context (Haddr : forall x, addr_of h' x = addr_of (nheap lc) x).
Context (Hcnt : forall x, x ∈ elems (lc_nodes lc) ->
  links_of h' x = Some (incident (lheap lc) (elems (lc_links lc)) x + ends_at l x)).
Context (He : elems t = elems (lc_links lc) ++ [q]) (Hwf : tbl_wf t) (Hm : max_len t = LC_LINKS_MAX).

Definition with_link : lc_graph :=
  set_nodes (set_next (set_links lc t lh') (q + 1)) (lc_nodes lc) h'.

Lemma added_old x : x ∈ elems (lc_links lc) -> lh' !! x = lheap lc !! x.
Proof using Hi.
  intros Hx. rewrite lookup_insert_ne; [done|]. intros <-.
  destruct (lo_link _ _ _ (inv_links _ Hi) q Hx) as (m & E & _).
  destruct (inv_fresh _ Hi q) as [_ Hqf]; [lia|congruence].
Qed.
Lemma added_new : lh' !! q = Some l.
Proof. by rewrite lookup_insert_eq. Qed.

(** No other link joins the two nodes. *)
Lemma added_key x m : x ∈ elems (lc_links lc) -> lheap lc !! x = Some m -> l_src m = s -> l_dst m = d -> False.
Proof using Hi Ha Hb Hv.
  intros Hx E E1 E2. assert (view lc !! (a, b) = Some (l_cost m)); [|congruence].
  apply view_lookup; [done|]. exists x. split; [done|]. apply entry_Some. exists m.
  rewrite E1, E2. by split_and!.
Qed.

Lemma added_inv : lc_inv with_link.
Proof using All.
  pose proof (inv_nodes _ Hi) as Hn. pose proof (inv_links _ Hi) as Hl.
  split; simpl; [| |done|done|].
  - destruct Hn as [N1 N2 N3 N4 N5]. split; try done.
    + intros x Hx. rewrite Hcnt by done. f_equal. rewrite He, incident_app. simpl.
      unfold link_ends at 1. rewrite added_new.
      rewrite (incident_ext (lheap lc) lh'); [lia|]. intros y Hy. unfold link_ends. by rewrite added_old.
    + intros x y Hx Hy. rewrite !Haddr. auto.
  - split.
    + rewrite He. apply NoDup_app. split_and!; [apply Hl | | apply NoDup_singleton].
      intros x Hx Hxq. assert (x = q) as -> by set_solver. pose proof (added_old q Hx) as E. rewrite added_new in E.
      destruct (inv_fresh _ Hi q) as [_ Hqf]; [lia|congruence].
    + intros x. rewrite He. intros [Hx|Hx]%elem_of_app.
      * rewrite added_old by done. by apply (lo_link _ _ _ Hl).
      * assert (x = q) as -> by set_solver. exists l. rewrite Hls, Hld. split_and!; done || lia || apply added_new.
    + intros x y m n. rewrite He, !elem_of_app, !list_elem_of_singleton.
      intros [Hx| ->] [Hy| ->] Hm1 Hm2 E1 E2; [| | |done].
      * rewrite added_old in Hm1, Hm2 by done. by eapply (lo_uniq _ _ _ Hl).
      * rewrite added_old in Hm1 by done. rewrite added_new in Hm2. injection Hm2 as <-.
        exfalso. eapply added_key; eauto; congruence.
      * rewrite added_old in Hm2 by done. rewrite added_new in Hm1. injection Hm1 as <-.
        exfalso. eapply (added_key y n); eauto; congruence.
  - intros x Hx. destruct (inv_fresh _ Hi x ltac:(lia)) as [Hf1 Hf2].
    split; [by rewrite is_None_addr_of, Haddr, <- is_None_addr_of|]. rewrite lookup_insert_ne; [done|]. lia.
Qed.

Lemma added_view : view with_link = <[(a, b) := l_cost l]> (view lc).
Proof using All.
  apply gmap_Some_eq. intros k w. rewrite (view_lookup _ _ _ added_inv). simpl. rewrite lookup_insert.
  assert (Hent : forall x, x ∈ elems (lc_links lc) -> entry h' lh' x = entry (nheap lc) (lheap lc) x).
  { intros x Hx. unfold entry. rewrite added_old by done. destruct (lheap lc !! x); simpl; [|done]. by rewrite !Haddr. }
  assert (Hentq : entry h' lh' q = Some (a, b, l_cost l)).
  { apply entry_Some. exists l. rewrite !Haddr, Hls, Hld. split_and!; try done. apply added_new. }
  split.
  - intros (x & Hx & E). rewrite He in Hx. apply elem_of_app in Hx as [Hx|Hx].
    + rewrite Hent in E by done. rewrite decide_False; [apply view_lookup; eauto|].
      intros <-. assert (view lc !! (a, b) = Some w); [apply view_lookup; eauto|congruence].
    + assert (x = q) as -> by set_solver. rewrite Hentq in E. injection E as <- <-. by rewrite decide_True.
  - case_decide as D.
    + intros [= <-]. subst k. exists q. rewrite He. split; [set_solver|done].
    + intros (x & Hx & E)%view_lookup; [|done]. exists x. rewrite He, Hent by done. set_solver.
Qed.
Lemma link_added_inv : lc_inv with_link /\ view with_link = <[(a, b) := l_cost l]> (view lc).
Proof using All. split; [apply added_inv | apply added_view]. Qed.
End Added.

(** ** Deleting a link *)

(** [node_unlink] takes one off the node's counter, and the node off the table
    when that was the last. *)
Lemma node_unlink_spec lc p c :
  nodes_ok (lc_nodes lc) (nheap lc) c -> p ∈ elems (lc_nodes lc) -> 1 <= c p < 2 ^ 32 ->
  exists t h', node_unlink lc p = Ret (set_nodes lc t h')
    /\ nodes_ok t h' (fun q => c q - (if decide (q = p) then 1 else 0))
    /\ (forall q, q ∈ elems t <-> q ∈ elems (lc_nodes lc) /\ ~ (q = p /\ c p = 1))
    /\ (forall q, q ∈ elems t -> addr_of h' q = addr_of (nheap lc) q)
    /\ (forall q, nheap lc !! q = None -> h' !! q = None).
Proof.
  intros Hn Hp Hc. pose proof (no_count _ _ _ Hn p Hp) as Hk. unfold links_of in Hk.
  destruct (nheap lc !! p) as [n|] eqn:E; [|done]. injection Hk as Hk.
  unfold node_unlink. rewrite E. simpl. rewrite Hk, u32_small by lia.
  set (h1 := <[p := set_nlinks n (c p - 1)]> (nheap lc)).
  assert (Hh1 : forall q, q <> p -> h1 !! q = nheap lc !! q).
  { intros q Hq. unfold h1. by rewrite lookup_insert_ne. }
  assert (Hh1p : h1 !! p = Some (set_nlinks n (c p - 1))) by (unfold h1; by rewrite lookup_insert_eq).
  assert (Ha1 : forall q, addr_of h1 q = addr_of (nheap lc) q).
  { intros q. unfold addr_of. destruct (decide (q = p)) as [->|Hq]; [by rewrite Hh1p, E | by rewrite Hh1]. }
  assert (Hl1 : forall q, q ∈ elems (lc_nodes lc) ->
            links_of h1 q = Some (c q - (if decide (q = p) then 1 else 0))).
  { intros q Hq. unfold links_of. case_decide as D; [subst; by rewrite Hh1p|].
    rewrite Hh1, Z.sub_0_r by done. by apply (no_count _ _ _ Hn). }
  assert (Hf1 : forall q, nheap lc !! q = None -> h1 !! q = None).
  { intros q Hq. rewrite Hh1; [done|]. congruence. }
  destruct (c p - 1 =? 0) eqn:Ez; zb.
  - unfold lc_node_free, __tbl_del. simpl.
    destruct (tbl_detach_ptr _ p (no_wf _ _ _ Hn) Hp) as (t & -> & Hperm & Hsub & Hwf & Hm & _). simpl.
    assert (Hpt : p ∉ elems t).
    { pose proof (no_nd _ _ _ Hn) as Hnd. rewrite Hperm in Hnd. by apply NoDup_cons in Hnd as [? _]. }
    assert (Hin : forall q, q ∈ elems t <-> q ∈ elems (lc_nodes lc) /\ ~ (q = p /\ c p = 1)).
    { intros q. rewrite Hperm, elem_of_cons. split; [|naive_solver lia].
      intros Hq. split; [by right|]. intros [-> _]. done. }
    assert (Hdel : forall q, q ∈ elems t -> delete p h1 !! q = h1 !! q).
    { intros q Hq. rewrite lookup_delete_ne; [done|]. intros <-. done. }
    eexists t, _. split; [done|]. split_and!; try done.
    + split; try done.
      * rewrite Hm. apply Hn.
      * pose proof (no_nd _ _ _ Hn) as Hnd. rewrite Hperm in Hnd. by apply NoDup_cons in Hnd as [_ ?].
      * intros q Hq. unfold links_of. rewrite Hdel by done. apply Hl1. by apply Hin.
      * intros q r Hq Hr. unfold addr_of. rewrite !Hdel by done. intros Heq.
        apply (no_addr _ _ _ Hn); [by apply Hin|by apply Hin|]. rewrite <- !Ha1. done.
    + intros q Hq. unfold addr_of. rewrite Hdel by done. apply Ha1.
    + intros q Hq. apply lookup_delete_None. right. by apply Hf1.
  - exists (lc_nodes lc), h1. split_and!; try done; [|naive_solver lia].
    destruct Hn as [N1 N2 N3 N4 N5]. split; try done. intros q r Hq Hr. rewrite !Ha1. auto.
Qed.

(** The state without a link [q], once its end nodes have let go of it. *)
Section Removed.
Context (lc : lc_graph) (q : ptr) (tl t2 : tbl ptr) (h2 : node_heap).
Local Abbreviation left := (incident (lheap lc) (elems tl)).
Context (Hi : lc_inv lc) (Hperm : elems (lc_links lc) ≡ₚ q :: elems tl).
Context (Hwf : tbl_wf tl) (Hmax : max_len tl = max_len (lc_links lc)).
Context (Hn2 : nodes_ok t2 h2 left).
Context (Hkeep : forall x, x ∈ elems (lc_nodes lc) -> 1 <= left x -> x ∈ elems t2).
Context (Haddr : forall x, x ∈ elems t2 -> addr_of h2 x = addr_of (nheap lc) x).
Context (Hfree : forall x, nheap lc !! x = None -> h2 !! x = None).

Definition without_link : lc_graph := set_links (set_nodes lc t2 h2) tl (delete q (lheap lc)).

Lemma removed_nd : q ∉ elems tl /\ NoDup (elems tl).
Proof using Hi Hperm. pose proof (lo_nd _ _ _ (inv_links _ Hi)) as Hnd. rewrite Hperm in Hnd. by apply NoDup_cons in Hnd. Qed.
Lemma removed_sub x : x ∈ elems tl -> x ∈ elems (lc_links lc).
Proof using Hperm. intros Hx. rewrite Hperm. by right. Qed.
Lemma removed_old x : x ∈ elems tl -> delete q (lheap lc) !! x = lheap lc !! x.
Proof using Hi Hperm. intros Hx. rewrite lookup_delete_ne; [done|]. intros <-. by apply removed_nd in Hx. Qed.

(** The ends of the links that are left are still in the table. *)
Lemma removed_ends x m : x ∈ elems tl -> lheap lc !! x = Some m -> l_src m ∈ elems t2 /\ l_dst m ∈ elems t2.
Proof using Hi Hperm Hkeep.
  intros Hx Em. destruct (lo_link _ _ _ (inv_links _ Hi) x (removed_sub x Hx)) as (m' & Em' & Hms & Hmd & _).
  rewrite Em in Em'. injection Em' as <-. split; (apply Hkeep; [done|]; eapply incident_pos; eauto).
Qed.

Lemma removed_inv : lc_inv without_link.
Proof using All.
  pose proof (inv_links _ Hi) as Hl. split; simpl; [| |done|by rewrite Hmax, (inv_lmax _ Hi)|].
  - destruct Hn2 as [N1 N2 N3 N4 N5]. split; try done. intros x Hx. rewrite N4 by done. f_equal.
    symmetry. apply incident_ext. intros y Hy. unfold link_ends. by rewrite removed_old.
  - split.
    + apply removed_nd.
    + intros x Hx. destruct (lo_link _ _ _ Hl x (removed_sub x Hx)) as (m & Em & _ & _ & Hmc).
      destruct (removed_ends x m Hx Em). exists m. rewrite removed_old by done. split_and!; done || lia.
    + intros x y m n Hx Hy. rewrite !removed_old by done. eapply (lo_uniq _ _ _ Hl); by apply removed_sub.
  - intros x Hx. destruct (inv_fresh _ Hi x Hx) as [F1 F2]. split; [by apply Hfree|].
    apply lookup_delete_None. by right.
Qed.

Lemma removed_view a b w :
  entry (nheap lc) (lheap lc) q = Some (a, b, w) -> view without_link = delete (a, b) (view lc).
Proof using All.
  intros He. apply gmap_Some_eq. intros k v. rewrite (view_lookup _ _ _ removed_inv). simpl.
  assert (Hent : forall x, x ∈ elems tl -> entry h2 (delete q (lheap lc)) x = entry (nheap lc) (lheap lc) x).
  { intros x Hx. unfold entry. rewrite removed_old by done.
    destruct (lheap lc !! x) as [m|] eqn:Em; simpl; [|done].
    destruct (removed_ends x m Hx Em). by rewrite !Haddr. }
  rewrite lookup_delete_Some. split.
  - intros (x & Hx & E). rewrite Hent in E by done. pose proof (removed_sub x Hx).
    split; [|apply view_lookup; eauto]. intros <-.
    assert (q = x) as <-; [|by apply removed_nd in Hx].
    eapply (entry_key_inj _ _ _ _ _ _ _ _ _ _ (inv_nodes _ Hi) (inv_links _ Hi)); eauto. rewrite Hperm. by left.
  - intros (Hk & (x & Hx & E)%view_lookup); [|done]. rewrite Hperm in Hx.
    apply elem_of_cons in Hx as [->|Hx]; [rewrite He in E; injection E; congruence|].
    exists x. by rewrite Hent.
Qed.
End Removed.

(** Both ends of a link let go of it. *)
Lemma unlink_both lc q l tl :
  lc_inv lc -> lheap lc !! q = Some l -> l_src l ∈ elems (lc_nodes lc) -> l_dst l ∈ elems (lc_nodes lc) ->
  elems (lc_links lc) ≡ₚ q :: elems tl ->
  exists t1 h1 t2 h2,
    node_unlink lc (l_src l) = Ret (set_nodes lc t1 h1)
    /\ node_unlink (set_nodes lc t1 h1) (l_dst l) = Ret (set_nodes lc t2 h2)
    /\ nodes_ok t2 h2 (incident (lheap lc) (elems tl))
    /\ (forall x, x ∈ elems (lc_nodes lc) -> 1 <= incident (lheap lc) (elems tl) x -> x ∈ elems t2)
    /\ (forall x, x ∈ elems t2 -> addr_of h2 x = addr_of (nheap lc) x)
    /\ (forall x, nheap lc !! x = None -> h2 !! x = None).
Proof.
  intros Hi El Hs Hd Hperm. pose proof (inv_nodes _ Hi) as Hn.
  set (inc := incident (lheap lc) (elems (lc_links lc))) in *. set (left := incident (lheap lc) (elems tl)).
  assert (Hinc : forall x, inc x = ends_at l x + left x).
  { intros x. unfold inc. rewrite (incident_perm _ _ _ x Hperm). simpl. unfold link_ends at 1. by rewrite El. }
  assert (Hsm : forall x, 0 <= inc x <= 200 /\ 0 <= left x).
  { intros x. pose proof (incident_nonneg (lheap lc) (elems (lc_links lc)) x) as H0. fold inc in H0.
    destruct (inv_lwf _ Hi) as (_ & Hm & _). rewrite (inv_lmax _ Hi) in Hm. unfold LC_LINKS_MAX in Hm.
    pose proof (incident_nonneg (lheap lc) (elems tl) x). fold left in H. lia. }
  unfold ends_at in Hinc.
  destruct (node_unlink_spec lc (l_src l) inc Hn Hs) as (t1 & h1 & E1 & Hn1 & Hin1 & Ha1 & Hf1).
  { pose proof (Hsm (l_src l)). specialize (Hinc (l_src l)). rewrite Z.eqb_refl in Hinc. destruct (l_dst l =? l_src l); lia. }
  assert (Hd1 : l_dst l ∈ elems t1).
  { apply Hin1. split; [done|]. intros [E Hc]. specialize (Hinc (l_src l)). pose proof (Hsm (l_src l)).
    rewrite E, !Z.eqb_refl in Hinc. rewrite E in *. lia. }
  set (c1 := fun x => inc x - (if decide (x = l_src l) then 1 else 0)) in *.
  assert (Hc2 : forall x, c1 x - (if decide (x = l_dst l) then 1 else 0) = left x).
  { intros x. unfold c1. rewrite Hinc.
    destruct (Z.eqb_spec (l_src l) x), (Z.eqb_spec (l_dst l) x); repeat case_decide; try congruence; lia. }
  destruct (node_unlink_spec (set_nodes lc t1 h1) (l_dst l) c1 Hn1 Hd1) as (t2 & h2 & E2 & Hn2 & Hin2 & Ha2 & Hf2).
  { specialize (Hc2 (l_dst l)). pose proof (Hsm (l_dst l)). rewrite decide_True in Hc2 by done. unfold c1 in *.
    case_decide; lia. }
  exists t1, h1, t2, h2. split_and!; try done.
  - destruct Hn2 as [N1 N2 N3 N4 N5]. split; try done. intros x Hx. by rewrite N4, Hc2.
  - intros x Hx Hpos. apply Hin2. simpl. rewrite Hin1. pose proof (Hc2 x) as Hcx. split; [split; [done|]|].
    + intros [-> Hone]. unfold c1 in Hcx. rewrite decide_True in Hcx by done. fold left in Hpos. case_decide; lia.
    + intros [-> Hone]. rewrite decide_True in Hcx by done. fold left in Hpos. lia.
  - intros x Hx. rewrite Ha2 by done. simpl. apply Ha1. by apply Hin2 in Hx as [? _].
  - intros x Hx. apply Hf2. simpl. by apply Hf1.
Qed.

Lemma link_del_spec lc q a b w :
  lc_inv lc -> q ∈ elems (lc_links lc) -> entry (nheap lc) (lheap lc) q = Some (a, b, w) ->
  exists lc', __lc_link_del lc q = Ret lc' /\ lc_inv lc'
    /\ view lc' = delete (a, b) (view lc) /\ lc_locked lc' = lc_locked lc
    /\ len (lc_links lc') = len (lc_links lc) - 1.
Proof.
  intros Hi Hq He. destruct (lo_link _ _ _ (inv_links _ Hi) q Hq) as (l & El & Hs & Hd & _).
  destruct (tbl_detach_ptr _ q (inv_lwf _ Hi) Hq) as (tl & Hdet & Hperm & _ & Hwf & Hlm & _).
  destruct (unlink_both lc q l tl Hi El Hs Hd Hperm) as (t1 & h1 & t2 & h2 & E1 & E2 & Hn2 & Hkeep & Ha & Hf).
  unfold __lc_link_del. rewrite El. simpl. rewrite E1. simpl. rewrite El. simpl. rewrite E2. simpl.
  unfold __tbl_del. rewrite Hdet. simpl. exists (without_link lc q tl t2 h2). split_and!; try done.
  - by apply removed_inv.
  - by eapply removed_view.
  - simpl. destruct Hwf as (-> & _). destruct (inv_lwf _ Hi) as (-> & _).
    unfold zlen. rewrite (Permutation_length Hperm). simpl. lia.
Qed.
