(* ===== verification/LinkCacheSpec.v ===== *)
(** * What the link cache promises (link-cache.c)

    The public operations as operations on [view], the map of links: adding and
    deleting links, adding a route, flushing, and finding a cheapest route. *)

From S2P Require Import Prelude Timer Tbl Srt LinkCache Dijkstra LinkCacheInv.

Definition set_locked (lc : lc_graph) (b : bool) : lc_graph :=
  LcGraph (lc_nodes lc) (lc_links lc) (lc_src lc) b (nheap lc) (lheap lc) (lc_next lc).

Lemma lc_inv_locked lc b : lc_inv lc -> lc_inv (set_locked lc b).
Proof. intros [H1 H2 H3 H4 H5]. by split. Qed.
Lemma lc_inv_src lc s : lc_inv lc -> lc_inv (set_src lc s).
Proof. intros [H1 H2 H3 H4 H5]. by split. Qed.

Lemma lc_lock_free lc : lc_locked lc = false -> lc_lock lc = Ret (set_locked lc true).
Proof. unfold lc_lock. by intros ->. Qed.

#[local] Arguments __lc_link_tbl_add : simpl never.

(** ** Adding a link *)

(** Room for what [__lc_link_add] may have to make. *)
Definition link_room (lc : lc_graph) (a b : Z) : Prop :=
  len (lc_nodes lc) + 2 <= LC_NODES_MAX
  /\ (is_Some (view lc !! (a, b)) \/ len (lc_links lc) < LC_LINKS_MAX).

(** [__lc_link_tbl_add] between two nodes of the table. *)
Lemma link_tbl_add_spec lc mem now s d a b timeout st c :
  lc_inv lc -> s ∈ elems (lc_nodes lc) -> d ∈ elems (lc_nodes lc) ->
  addr_of (nheap lc) s = Some a -> addr_of (nheap lc) d = Some b ->
  is_Some (view lc !! (a, b)) \/ len (lc_links lc) < LC_LINKS_MAX ->
  exists r lc' mem', __lc_link_tbl_add lc mem now (Some s) (Some d) timeout st c = Ret (r, lc', mem')
    /\ lc_inv lc' /\ lc_locked lc' = lc_locked lc
    /\ lc_nodes lc' = lc_nodes lc /\ len (lc_links lc') <= len (lc_links lc) + 1
    /\ (view lc' = <[(a, b) := u32 c]> (view lc) \/ (false ∈ mem /\ view lc' = view lc))
    /\ (false ∉ mem -> false ∉ mem').
Proof.
  intros Hi Hs Hd Has Had Hroom. pose proof (inv_nodes _ Hi) as Hn.
  destruct (kmalloc mem) as [ok mem'] eqn:Ek. destruct (kmalloc_ok _ _ _ Ek) as [Hf Hm].
  destruct (find_link_spec lc a b Hi) as (r & Hfind & Hr).
  destruct (view lc !! (a, b)) as [w|] eqn:Ev; [|destruct ok].
  2: { destruct Hroom as [[w Hw]|Hroom]; [done|].
    destruct (link_tbl_add_new lc mem mem' now s d a b timeout st c) as (h' & e & E & Ha' & Hc'); try done.
    destruct (tbl_add_tail_room (lc_links lc) (lc_next lc)) as (r' & t & Et & He & Hwf & Hmx & _);
      [apply (inv_lwf _ Hi) | by rewrite (inv_lmax _ Hi)|].
    rewrite Et in E. simpl in E. eexists 1, _, mem'. split; [exact E|].
    destruct (link_added_inv lc s d a b (LcLink s d st (u32 c) e) h' t) as (Hi3 & Hv3); try done.
    - simpl. apply u32_range.
    - by rewrite Hmx, (inv_lmax _ Hi).
    - split_and!; try done; simpl; [|by left].
      destruct Hwf as (-> & _). rewrite He. destruct (inv_lwf _ Hi) as (Hlen & _).
      autorewrite with dsr_rw. rewrite <- Hlen. lia. }
  all: unfold __lc_link_tbl_add; destruct (no_live _ _ _ _ Hn Hs) as [ns Es];
    destruct (no_live _ _ _ _ Hn Hd) as [nd Ed]; rewrite Es; simpl; rewrite Ed; simpl;
    unfold addr_of in Has, Had; rewrite Es in Has; rewrite Ed in Had;
    injection Has as ->; injection Had as ->; rewrite Hfind; simpl.
  - destruct r as [q|]; [|congruence]. destruct Hr as (Hq & w' & He).
    destruct (link_update_inv lc q a b w' now timeout st c Hi Hq He) as (lc3 & -> & Hi3 & Hv3 & Hnn & Hll & Hlo & _).
    simpl. exists 0, lc3, mem. rewrite Hnn, Hll, Hlo. split_and!; try done; [lia | by left].
  - destruct r as [q|].
    { destruct Hr as (Hq & w & He). exfalso. assert (view lc !! (a, b) = Some w); [|congruence].
      apply view_lookup; eauto. }
    rewrite Ek. simpl. exists (-1), lc, mem'. split_and!; try done; [lia|]. right. by split; [apply Hf|].
Qed.

Lemma link_add_spec lc mem now a b timeout st c :
  lc_inv lc -> link_room lc a b ->
  exists r lc' mem', __lc_link_add lc mem now a b timeout st c = Ret (r, lc', mem')
    /\ lc_inv lc' /\ lc_locked lc' = lc_locked lc /\ (false ∉ mem -> false ∉ mem')
    /\ len (lc_nodes lc') <= len (lc_nodes lc) + 2 /\ len (lc_links lc') <= len (lc_links lc) + 1
    /\ ((r = 0 /\ view lc' = <[(a, b) := u32 c]> (view lc)) \/ (false ∈ mem /\ view lc' = view lc)).
Proof.
  intros Hi [Hnr Hlr]. unfold __lc_link_add.
  assert (Hor : forall m : oracle, (false ∉ mem -> false ∉ m) -> false ∈ m -> false ∈ mem).
  { intros m Hm Hf. destruct (decide (false ∈ mem)) as [|Hn]; [done|]. by apply Hm in Hn. }
  destruct (node_get_spec lc mem a Hi ltac:(right; lia)) as (sn & lc1 & mem1 & -> & Hi1 & G1 & Hm1 & Hs).
  simpl. pose proof (gr_len _ _ G1). destruct sn as [s|].
  2: { exists (-1), lc1, mem1. rewrite (gr_locked _ _ G1), (gr_links _ _ G1). split_and!; try done; try lia.
       right. split; [done | apply (gr_view _ _ G1)]. }
  destruct (node_get_spec lc1 mem1 b Hi1 ltac:(right; lia)) as (dn & lc2 & mem2 & -> & Hi2 & G2 & Hm2 & Hd).
  simpl. pose proof (gr_len _ _ G2). pose proof (gr_view _ _ G2) as Hv2. rewrite (gr_view _ _ G1) in Hv2.
  pose proof (gr_links _ _ G2) as Hl2. rewrite (gr_links _ _ G1) in Hl2.
  pose proof (gr_locked _ _ G2) as Hk2. rewrite (gr_locked _ _ G1) in Hk2.
  destruct dn as [d|].
  2: { exists (-1), lc2, mem2. rewrite Hl2, Hk2. split_and!; try done; try lia; [by auto|].
       right. split; [by apply (Hor mem1)|done]. }
  destruct Hs as [Hs Has]. apply (gr_nodes _ _ G2) in Hs as [Hs Has']. rewrite Has in Has'. destruct Hd as [Hd Had].
  destruct (link_tbl_add_spec lc2 mem2 now s d a b timeout st c) as (r & lc3 & mem3 & -> & Hi3 & Hk3 & Hn3 & Hlen & Hv & Hm3);
    try done; [by rewrite Hv2, Hl2|].
  simpl. exists 0, lc3, mem3. rewrite Hk3, Hn3, <- Hl2, <- Hv2. split_and!; try done; try lia; [by auto|].
  destruct Hv as [->|[Hf ->]]; [by left|]. right. split; [|done]. apply (Hor mem2); auto.
Qed.

Lemma link_add_locked_spec lc mem now a b timeout st c :
  lc_inv lc -> lc_locked lc = false -> link_room lc a b ->
  exists r lc' mem', lc_link_add lc mem now a b timeout st c = Ret (r, lc', mem')
    /\ lc_inv lc' /\ lc_locked lc' = false /\ (false ∉ mem -> false ∉ mem')
    /\ len (lc_nodes lc') <= len (lc_nodes lc) + 2 /\ len (lc_links lc') <= len (lc_links lc) + 1
    /\ ((r = 0 /\ view lc' = <[(a, b) := u32 c]> (view lc)) \/ (false ∈ mem /\ view lc' = view lc)).
Proof.
  intros Hi Hk Hr. unfold lc_link_add. rewrite lc_lock_free by done. simpl.
  destruct (link_add_spec (set_locked lc true) mem now a b timeout st c) as
    (r & lc' & mem' & -> & Hi' & _ & Hm & Hn & Hl & Hv); [by apply lc_inv_locked | done |].
  simpl. exists r, (lc_unlock lc'), mem'. split_and!; try done. by apply (lc_inv_locked lc' false).
Qed.

(** C19: adding a link to a cache with room sets exactly the cost of that pair of
    addresses in the map of links, as an [unsigned int], and keeps the invariant:
    unique nodes, unique links, exact counters, no dangling end node.  It fails
    only for want of memory, and then the map is as before. *)
Theorem lc_link_add_spec lc mem now a b timeout st c :
  lc_inv lc -> lc_locked lc = false -> link_room lc a b ->
  exists r lc' mem', lc_link_add lc mem now a b timeout st c = Ret (r, lc', mem')
    /\ lc_inv lc' /\ lc_locked lc' = false
    /\ ((r = 0 /\ view lc' = <[(a, b) := u32 c]> (view lc)) \/ (false ∈ mem /\ view lc' = view lc)).
Proof.
  intros Hi Hk Hr. destruct (link_add_locked_spec lc mem now a b timeout st c Hi Hk Hr)
    as (r & lc' & mem' & E & Hi' & Hk' & _ & _ & _ & Hv). by exists r, lc', mem'.
Qed.

Lemma lc_init_inv : lc_inv lc_init.
Proof.
  split.
  - split; simpl; [unfold tbl_wf, zlen; simpl; unfold LC_NODES_MAX; lia|done|apply NoDup_nil_2|set_solver..].
  - split; simpl; [apply NoDup_nil_2|set_solver..].
  - unfold tbl_wf, zlen. simpl. unfold LC_LINKS_MAX. lia.
  - done.
  - intros p _. split; apply lookup_empty.
Qed.

Lemma lc_link_add_spec_witness :
  exists lc' mem', lc_link_add lc_init [] (Timeval 5 0) 1 2 1000 0 1 = Ret (0, lc', mem')
    /\ view lc' = <[(1, 2) := 1]> ∅.
Proof.
  destruct (lc_link_add_spec lc_init [] (Timeval 5 0) 1 2 1000 0 1 lc_init_inv eq_refl) as
    (r & lc' & mem' & E & _ & _ & Hv).
  - split; [vm_compute; discriminate | right; vm_compute; reflexivity].
  - destruct Hv as [[-> Hv]|[Hf _]]; [|by apply not_elem_of_nil in Hf].
    exists lc', mem'. split; [exact E|]. rewrite Hv. reflexivity.
Defined.

(** ** Deleting a link *)

Lemma link_del_locked_spec lc a b :
  lc_inv lc -> lc_locked lc = false ->
  exists r lc', lc_link_del lc a b = Ret (r, lc') /\ lc_inv lc' /\ lc_locked lc' = false
    /\ lc_src lc' = None
    /\ view lc' = match view lc !! (a, b) with
                  | None => view lc
                  | Some _ => delete (b, a) (delete (a, b) (view lc))
                  end
    /\ r = (if decide (is_Some (view lc !! (a, b)) /\ is_Some (delete (a, b) (view lc) !! (b, a)))
            then 1 else -1).
Proof.
  intros Hi Hk. unfold lc_link_del. rewrite lc_lock_free by done. simpl.
  pose proof (lc_inv_locked _ true Hi) as Hi1. set (lc1 := set_locked lc true) in *.
  change (view lc) with (view lc1).
  destruct (find_link_spec lc1 a b Hi1) as (r & -> & Hr). simpl. destruct r as [q|].
  2: { rewrite Hr. eexists _, _. split; [done|]. split_and!; try done.
       by apply (lc_inv_locked _ false), lc_inv_src. }
  destruct Hr as (Hq & w & He).
  assert (Hv : view lc1 !! (a, b) = Some w) by (apply view_lookup; eauto). rewrite Hv.
  destruct (link_del_spec lc1 q a b w Hi1 Hq He) as (lc2 & -> & Hi2 & Hv2 & Hk2 & _). simpl.
  destruct (find_link_spec lc2 b a Hi2) as (r & -> & Hr). simpl. destruct r as [q2|].
  - destruct Hr as (Hq2 & w2 & He2).
    assert (Hvb : view lc2 !! (b, a) = Some w2) by (apply view_lookup; eauto).
    destruct (link_del_spec lc2 q2 b a w2 Hi2 Hq2 He2) as (lc3 & -> & Hi3 & Hv3 & Hk3 & _). simpl.
    eexists _, _. split; [done|]. split_and!; try done.
    + by apply (lc_inv_locked _ false), lc_inv_src.
    + change (view lc3 = delete (b, a) (delete (a, b) (view lc1))). by rewrite Hv3, Hv2.
    + rewrite decide_True; [done|]. rewrite <- Hv2, Hvb. eauto.
  - eexists _, _. split; [done|]. split_and!; try done.
    + by apply (lc_inv_locked _ false), lc_inv_src.
    + change (view lc2 = delete (b, a) (delete (a, b) (view lc1))). rewrite <- Hv2.
      by rewrite delete_id.
    + rewrite decide_False; [done|]. intros [_ Hs]. rewrite <- Hv2, Hr in Hs. by destruct Hs.
Qed.



(** ** Running Dijkstra's algorithm on the cache *)

Lemma lc_move_spec fuel to from :
  tbl_wf to -> tbl_wf from -> (length (elems from) <= fuel)%nat ->
  zlen (elems to) + zlen (elems from) <= max_len to ->
  exists to' from', __lc_move fuel to from = Ret (to', from')
    /\ elems to' = elems to ++ elems from /\ tbl_wf to' /\ max_len to' = max_len to.
Proof.
  revert to from. induction fuel as [|fuel IH]; intros to from Hto Hfrom Hf Hroom; simpl; unfold TBL_EMPTY.
  all: destruct (elems from) as [|p rest] eqn:E;
    [exists to, from; rewrite app_nil_r; by split_and!|simpl in Hf; try lia].
  unfold __tbl_detach_first. rewrite E. simpl. rewrite zlen_cons in Hroom. pose proof (zlen_nonneg rest).
  destruct Hto as (Hl & Hm & Hx). destruct (tbl_add_tail_room to p) as (r & t & -> & He & Hwf & Hmx & _).
  { by split_and!. }
  { lia. }
  assert (Hw1 : tbl_wf (set_elems from rest (u32 (len from - 1)))).
  { eapply tbl_step_wf; [apply (step_detach_first from (Some p)) | done].
    unfold __tbl_detach_first. by rewrite E. }
  destruct (IH t (set_elems from rest (u32 (len from - 1)))) as (to' & from' & -> & He' & Hwf' & Hm'); try done.
  - simpl. lia.
  - simpl. rewrite He, Hmx. autorewrite with dsr_rw. lia.
  - exists to', from'. split_and!; try done; [|congruence]. rewrite He', He. simpl. by rewrite <- app_assoc.
Qed.

(** Costs small enough that no sum of a loop-free walk reaches [LC_COST_INF].
    Every caller of the link cache uses cost 1. *)
Definition W_MAX : Z := 8589934.
Definition costs_ok (lc : lc_graph) : Prop := forall k w, view lc !! k = Some w -> w <= W_MAX.

Lemma links_bounded lc p :
  lc_inv lc -> costs_ok lc -> p ∈ elems (lc_links lc) ->
  exists l, lheap lc !! p = Some l /\ l_src l ∈ elems (lc_nodes lc) /\ l_dst l ∈ elems (lc_nodes lc)
    /\ 0 <= l_cost l <= W_MAX.
Proof.
  intros Hi Hc Hp. destruct (lo_link _ _ _ (inv_links _ Hi) p Hp) as (l & El & Hs & Hd & Hb).
  exists l. split_and!; try done; [lia|].
  destruct (no_addr_Some _ _ _ _ (inv_nodes _ Hi) Hs) as [a Ha].
  destruct (no_addr_Some _ _ _ _ (inv_nodes _ Hi) Hd) as [b Hb'].
  apply (Hc (a, b)), view_lookup; [done|]. exists p. split; [done|]. apply entry_Some. exists l. by split_and!.
Qed.

Lemma nodes_bounded lc : lc_inv lc -> zlen (elems (lc_nodes lc)) <= LC_NODES_MAX.
Proof. intros Hi. destruct (inv_nodes _ Hi) as [(_ & H & _) Hm _ _ _]. lia. Qed.

Lemma W_ok : 0 <= W_MAX /\ W_MAX * LC_NODES_MAX < LC_COST_INF.
Proof. unfold W_MAX, LC_NODES_MAX, LC_COST_INF, UINT_MAX. lia. Qed.

(** The initial heap satisfies the invariant of the main loop. *)
Lemma dinv_init lc h s a :
  lc_inv lc -> s ∈ elems (lc_nodes lc) -> addr_of (nheap lc) s = Some a -> frame (nheap lc) h ->
  (forall v, v ∈ elems (lc_nodes lc) ->
     if decide (addr_of (nheap lc) v = Some a)
     then cost h v = 0 /\ hops h v = 0 /\ pred h v = Some v
     else cost h v = LC_COST_INF /\ hops h v = LC_HOPS_INF /\ pred h v = None) ->
  dinv (lheap lc) (elems (lc_links lc)) (elems (lc_nodes lc)) W_MAX (nheap lc) s h (elems (lc_nodes lc)) [].
Proof.
  intros Hi Hs Ha Hf Hin.
  pose proof (Hin s Hs) as Hs'. rewrite decide_True in Hs' by done.
  split; try done; try set_solver.
  - by rewrite app_nil_r.
  - intros v Hv Hvs. specialize (Hin v Hv). rewrite decide_False in Hin; [left; by destruct Hin as (-> & _ & ->)|].
    intros E. apply Hvs. apply (no_addr _ _ _ (inv_nodes _ Hi)); [done..|congruence].
  - intros v Hv. specialize (Hin v Hv). case_decide; [right|left; by apply Hin].
    destruct Hin as (-> & -> & _). unfold W_MAX, zlen. simpl. lia.
Qed.

(** [__dijkstra] from an address that has a node: all that [dinv] says, with
    nothing reachable left unsettled. *)
Lemma dijkstra_spec lc a :
  lc_inv lc -> costs_ok lc ->
  exists lc', __dijkstra lc a = Ret lc' /\ lc_inv lc' /\ view lc' = view lc
    /\ lc_locked lc' = lc_locked lc /\ lheap lc' = lheap lc /\ lc_links lc' = lc_links lc
    /\ elems (lc_nodes lc') ≡ₚ elems (lc_nodes lc) /\ frame (nheap lc) (nheap lc')
    /\ ((exists s Q S, s ∈ elems (lc_nodes lc) /\ addr_of (nheap lc) s = Some a
          /\ dinv (lheap lc) (elems (lc_links lc)) (elems (lc_nodes lc)) W_MAX (nheap lc) s (nheap lc') Q S
          /\ (forall y, y ∈ Q -> cost (nheap lc') y = LC_COST_INF))
        \/ ((forall p, p ∈ elems (lc_nodes lc) -> addr_of (nheap lc) p <> Some a)
          /\ (forall p, p ∈ elems (lc_nodes lc) -> cost (nheap lc') p = LC_COST_INF))).
Proof.
  intros Hi Hc. pose proof (inv_nodes _ Hi) as Hn.
  unfold __dijkstra, TBL_EMPTY. destruct (elems (lc_nodes lc)) as [|p0 ps] eqn:Ee.
  { exists lc. rewrite Ee. split_and!; try done. right. split; set_solver. }
  rewrite <- Ee in *. unfold __dijkstra_init_single_source, __tbl_do_for_each.
  destruct (do_init_pass a (elems (lc_nodes lc)) (nheap lc) 0) as (h & E & Hf & _ & Hin).
  { intros v Hv. by eapply no_live. }
  rewrite E. simpl. clear E.
  set (t0 := set_elems (lc_nodes lc) (elems (lc_nodes lc)) (len (lc_nodes lc))).
  assert (Ht0 : t0 = lc_nodes lc) by (unfold t0, set_elems; by destruct (lc_nodes lc)). rewrite Ht0. clear t0 Ht0.
  destruct (lc_inv_frame lc (lc_nodes lc) h Hi Hf ltac:(done) (no_wf _ _ _ Hn) (no_max _ _ _ Hn)) as [Hi1 Hv1].
  destruct (find_node_spec _ _ _ a (inv_nodes _ Hi1)) as (r & Er & Hr). simpl in Er, Hr.
  rewrite Er. simpl.
  destruct r as [s|].
  - destruct Hr as [Hs Ha]. rewrite (proj1 (Hf s)) in Ha.
    pose proof (dinv_init lc h s a Hi Hs Ha Hf Hin) as Hd.
    destruct (dijkstra_loop_spec (lheap lc) (elems (lc_links lc)) (elems (lc_nodes lc)) W_MAX W_ok
      (nodes_bounded _ Hi) (no_nd _ _ _ Hn) (fun p Hp => links_bounded lc p Hi Hc Hp)
      (length (elems (lc_nodes lc))) (lc_links lc) (lc_nodes lc) (INIT_TBL LC_NODES_MAX) (nheap lc) s h)
      as (t & st & h' & -> & Hd' & Hinf & Hwt & Hws & Hmt & _); try done.
    { intros v Hv. by eapply no_live. }
    { apply (no_wf _ _ _ Hn). }
    simpl. pose proof (Permutation_length (di_perm _ _ _ _ _ _ _ _ _ Hd')) as Hplen.
    rewrite length_app in Hplen. pose proof (nodes_bounded _ Hi) as Hnb.
    destruct (lc_move_spec (length (elems (lc_nodes lc))) t st) as (to' & fr' & -> & He & Hwf & Hmx); try done.
    { lia. }
    { rewrite Hmt, (no_max _ _ _ Hn). unfold zlen in *. lia. }
    simpl. eexists. split; [done|].
    assert (Hperm : elems to' ≡ₚ elems (lc_nodes lc)).
    { rewrite He. symmetry. apply (di_perm _ _ _ _ _ _ _ _ _ Hd'). }
    destruct (lc_inv_frame lc to' h' Hi (di_frame _ _ _ _ _ _ _ _ _ Hd') Hperm Hwf) as [Hi2 Hv2].
    { by rewrite Hmx, Hmt, (no_max _ _ _ Hn). }
    split_and!; try done.
    + by apply lc_inv_src.
    + apply (di_frame _ _ _ _ _ _ _ _ _ Hd').
    + left. exists s, (elems t), (elems st). by split_and!.
  - assert (Hno : forall p, p ∈ elems (lc_nodes lc) -> addr_of (nheap lc) p <> Some a).
    { intros p Hp. rewrite <- (proj1 (Hf p)). by apply Hr. }
    eexists. split; [done|]. split_and!; try done. right. split; [done|].
    intros p Hp. specialize (Hin p Hp). rewrite decide_False in Hin by (by apply Hno). by apply Hin.
Qed.

(** ** Cheapest routes *)

(** The cost of a path of addresses in a map of links. *)
Fixpoint path_cost (g : gmap (Z * Z) Z) (p : list Z) : option Z :=
  match p with
  | [] => None
  | a :: p' =>
      match p' with
      | [] => Some 0
      | b :: _ => w ← g !! (a, b); c ← path_cost g p'; Some (w + c)
      end
  end.

Lemma path_cost_snoc g p b a :
  last p = Some b ->
  path_cost g (p ++ [a]) = (c ← path_cost g p; w ← g !! (b, a); Some (c + w)).
Proof.
  induction p as [|x p IH]; intros Hl; [done|]. destruct p as [|y p].
  - injection Hl as ->. simpl. destruct (g !! (b, a)); simpl; [|done]. f_equal. lia.
  - assert (Hl' : last (y :: p) = Some b) by done. specialize (IH Hl').
    change ((x :: y :: p) ++ [a]) with (x :: y :: p ++ [a]) in *.
    change ((y :: p) ++ [a]) with (y :: p ++ [a]) in *.
    cbn [path_cost] in *. destruct (g !! (x, y)) as [w|]; simpl; [|done].
    rewrite IH. destruct (match p with [] => _ | _ :: _ => _ end) as [c|]; simpl; [|done].
    destruct (g !! (b, a)); simpl; [|done]. f_equal. lia.
Qed.

Section Find.
Context (lc : lc_graph) (Hi : lc_inv lc).
Abbreviation Ns := (elems (lc_nodes lc)).
Abbreviation Ls := (elems (lc_links lc)).
Abbreviation nh := (nheap lc).
Abbreviation edg := (edge (lheap lc) Ls).

Lemma edge_view u v w a b :
  edg u v w -> addr_of nh u = Some a -> addr_of nh v = Some b -> view lc !! (a, b) = Some w.
Proof using Hi.
  intros (q & l & Hq & El & <- & <- & <-) Ha Hb. apply view_lookup; [done|].
  exists q. split; [done|]. apply entry_Some. exists l. by split_and!.
Qed.

Lemma view_edge a b w :
  view lc !! (a, b) = Some w ->
  exists u v, edg u v w /\ u ∈ Ns /\ v ∈ Ns /\ addr_of nh u = Some a /\ addr_of nh v = Some b.
Proof using Hi.
  intros (q & Hq & E)%view_lookup; [|done]. apply entry_Some in E as (l & El & Ea & Eb & Ew).
  destruct (lo_link _ _ _ (inv_links _ Hi) q Hq) as (m & Em & Hs & Hd & _).
  rewrite El in Em. injection Em as <-. exists (l_src l), (l_dst l). split_and!; try done.
  exists q, l. by split_and!.
Qed.

(** A path of addresses with a cost is a walk between the nodes of its ends. *)
Lemma path_walk s p a b c :
  s ∈ Ns -> addr_of nh s = Some a -> head p = Some a -> last p = Some b ->
  path_cost (view lc) p = Some c ->
  exists v, v ∈ Ns /\ addr_of nh v = Some b /\ walk (lheap lc) Ls s v c.
Proof using Hi.
  intros Hs Ha. revert b c. induction p as [|x p IH] using rev_ind; intros b c Hh Hl Hc; [done|].
  rewrite last_snoc in Hl. injection Hl as ->. destruct p as [|y p].
  - simpl in Hh, Hc. injection Hh as ->. injection Hc as <-. exists s. split_and!; try done. constructor.
  - destruct (last (y :: p)) as [d|] eqn:El; [|by apply last_None in El].
    rewrite (path_cost_snoc _ _ d) in Hc by done.
    destruct (path_cost (view lc) (y :: p)) as [c1|] eqn:E1; simpl in Hc; [|done].
    destruct (view lc !! (d, b)) as [w|] eqn:E2; simpl in Hc; [|done]. injection Hc as <-.
    destruct (IH d c1) as (u & Hu & Hua & Hw); [done..|].
    destruct (view_edge _ _ _ E2) as (u' & v & He & Hu' & Hv & Ha' & Hb).
    assert (u = u') as -> by (apply (no_addr _ _ _ (inv_nodes _ Hi)); [done..|congruence]).
    exists v. split_and!; try done. by econstructor.
Qed.

(** The route along the [pred] pointers costs what Dijkstra's algorithm says. *)
Lemma tree_path_cost h s v l ws a :
  frame nh h -> tree_path (lheap lc) Ls h s v l -> cost h s = 0 -> addr_of nh s = Some a ->
  map (addr_of h) l = map Some ws ->
  path_cost (view lc) (a :: ws) = Some (cost h v)
  /\ exists b, addr_of nh v = Some b /\ last (a :: ws) = Some b.
Proof using Hi.
  intros Hf Ht Hs0 Ha. revert ws. induction Ht as [Hp|u v l w Ht IH Hp Huv He Hc]; intros ws Hws.
  - destruct ws; [|done]. rewrite Hs0. split; [done|]. by exists a.
  - destruct ws as [|b ws _] using rev_ind; [by destruct l|].
    rewrite !map_app in Hws. simpl in Hws. apply app_inj_tail in Hws as [Hws Hb].
    rewrite (proj1 (Hf v)) in Hb. destruct (IH ws Hws) as (Hpc & d & Hd & Hld).
    change (a :: ws ++ [b]) with ((a :: ws) ++ [b]). split.
    + rewrite (path_cost_snoc _ _ d) by done. rewrite Hpc. simpl.
      rewrite (edge_view u v w d b) by done. simpl. by rewrite Hc.
    + exists b. split; [done|]. by rewrite last_snoc.
Qed.

Lemma addrs_NoDup h s l a ws :
  frame nh h -> NoDup (s :: l) -> (forall x, x ∈ s :: l -> x ∈ Ns) -> addr_of nh s = Some a ->
  map (addr_of h) l = map Some ws -> NoDup (a :: ws).
Proof using Hi.
  intros Hf Hnd Hin Ha Hws.
  assert (E : map (addr_of nh) (s :: l) = map Some (a :: ws)).
  { simpl. rewrite Ha, <- Hws. f_equal. apply map_ext. intros x. by rewrite (proj1 (Hf x)). }
  assert (Hnd' : NoDup (map (addr_of nh) (s :: l))).
  { clear Hws E Ha ws. induction (s :: l) as [|x k IH]; simpl; [constructor|].
    apply NoDup_cons in Hnd as [Hx Hnd]. apply NoDup_cons. split; [|apply IH; auto; intros; apply Hin; by right].
    intros (y & Hy & Hyk)%list_elem_of_fmap. apply Hx.
    assert (x = y) as ->; [|done]. apply (no_addr _ _ _ (inv_nodes _ Hi)); [apply Hin; by left|apply Hin; by right|done]. }
  rewrite E in Hnd'. by apply (NoDup_fmap Some).
Qed.
End Find.

(** No path leaves an address that has no node. *)
Lemma no_path_from lc a b p c :
  lc_inv lc -> (forall q, q ∈ elems (lc_nodes lc) -> addr_of (nheap lc) q <> Some a) -> a <> b ->
  head p = Some a -> last p = Some b -> path_cost (view lc) p <> Some c.
Proof.
  intros Hi Hno Hab Hh Hl Hc. destruct p as [|x [|y p]]; [done| |].
  - injection Hh as ->. injection Hl as ->. done.
  - injection Hh as ->. cbn [path_cost] in Hc.
    destruct (view lc !! (a, y)) as [w|] eqn:E; [|done].
    destruct (view_edge lc Hi _ _ _ E) as (u & _ & _ & Hu & _ & Ha & _). by apply Hno in Hu.
Qed.

(** The part of [lc_srt_find] after the destination was reached. *)
Lemma fill_found lc h s Q S d a b :
  lc_inv lc -> costs_ok lc -> a <> b -> s ∈ elems (lc_nodes lc) -> addr_of (nheap lc) s = Some a ->
  dinv (lheap lc) (elems (lc_links lc)) (elems (lc_nodes lc)) W_MAX (nheap lc) s h Q S ->
  d ∈ S -> addr_of (nheap lc) d = Some b ->
  exists ws, is_Some (pred h d) /\ hops h d = zlen ws + 1 /\ zlen ws < 500
    /\ fill_route (length (elems (lc_nodes lc))) h (pred h d) (zlen ws) 0 (repeat 0 (length ws)) = Ret (ws, zlen ws)
    /\ path_cost (view lc) (a :: ws ++ [b]) = Some (cost h d) /\ NoDup (a :: ws ++ [b]).
Proof.
  intros Hi Hc Hab Hs Ha Hd HdS Hb.
  pose proof (di_frame _ _ _ _ _ _ _ _ _ Hd) as Hf.
  assert (HSN : forall x, x ∈ S -> x ∈ elems (lc_nodes lc))
    by (intros x Hx; rewrite (di_perm _ _ _ _ _ _ _ _ _ Hd); set_solver).
  destruct (dinv_tree_path (lheap lc) (elems (lc_links lc)) (elems (lc_nodes lc)) W_MAX W_ok
    (nodes_bounded _ Hi) (no_nd _ _ _ (inv_nodes _ Hi)) (fun p Hp => links_bounded lc p Hi Hc Hp)
    _ _ _ _ _ d Hd HdS) as (l & Ht & Hlen & Hsub & Hnd & _).
  assert (Hin : forall x, x ∈ s :: l -> x ∈ elems (lc_nodes lc)) by (intros x [->|Hx]%elem_of_cons; auto).
  destruct (di_src _ _ _ _ _ _ _ _ _ Hd) as (Hs0 & _).
  inversion Ht as [|u v l' w Ht' Hp Huv He Hcd]; subst; [by congruence|].
  assert (Hll : (length l' < length (elems (lc_nodes lc)))%nat).
  { pose proof (di_settled _ _ _ _ _ _ _ _ _ Hd d HdS) as Hst.
    pose proof (Permutation_length (di_perm _ _ _ _ _ _ _ _ _ Hd)) as Hpl. rewrite length_app in Hpl.
    rewrite <- Hlen, zlen_app in Hst. unfold zlen in Hst. simpl in Hst. lia. }
  pose proof (nodes_bounded _ Hi) as Hnb. unfold LC_NODES_MAX in Hnb.
  assert (Hlive : forall x, x ∈ s :: l' -> is_Some (h !! x)).
  { intros x Hx. eapply frame_is_Some; [exact Hf|]. eapply no_live; [apply (inv_nodes _ Hi)|]. apply Hin. set_solver. }
  destruct (fill_route_spec (lheap lc) (elems (lc_links lc)) (elems (lc_nodes lc)) W_MAX W_ok
    (nodes_bounded _ Hi) (no_nd _ _ _ (inv_nodes _ Hi)) (fun p Hp => links_bounded lc p Hi Hc Hp)
    h s u l' (length (elems (lc_nodes lc))) (zlen l') 0 (repeat 0 (length l')) Ht' Hlive)
    as (ws & Hws & Hfill).
  { lia. }
  { lia. }
  { lia. }
  { unfold zlen. rewrite repeat_length. lia. }
  assert (Hwl : length ws = length l') by (rewrite <- (length_map Some ws), <- Hws; by rewrite length_map).
  assert (Hz : zlen ws = zlen l') by (unfold zlen; by rewrite Hwl).
  rewrite drop_ge, app_nil_r in Hfill by (by rewrite repeat_length).
  assert (Hmap : map (addr_of h) (l' ++ [d]) = map Some (ws ++ [b])).
  { rewrite !map_app, Hws. simpl. by rewrite (proj1 (Hf d)), Hb. }
  exists ws. rewrite Hz, Hwl, Hp. split_and!; try done.
  - rewrite <- Hlen, zlen_app. unfold zlen at 2. simpl. lia.
  - unfold zlen in *. lia.
  - by destruct (tree_path_cost lc Hi h s d (l' ++ [d]) (ws ++ [b]) a Hf Ht Hs0 Ha Hmap).
  - by apply (addrs_NoDup lc Hi h s (l' ++ [d]) a (ws ++ [b]) Hf).
Qed.

Lemma no_path_to lc a b p :
  lc_inv lc -> (forall q, q ∈ elems (lc_nodes lc) -> addr_of (nheap lc) q <> Some b) -> a <> b ->
  head p = Some a -> last p = Some b -> path_cost (view lc) p = None.
Proof.
  intros Hi Hno Hab Hh Hl. destruct p as [|x p _] using rev_ind; [done|].
  rewrite last_snoc in Hl. injection Hl as ->. destruct (last p) as [y|] eqn:El.
  - rewrite (path_cost_snoc _ _ y) by done. destruct (path_cost _ p) as [c|]; [|done]. cbn [mbind option_bind].
    destruct (view lc !! (y, b)) as [w|] eqn:E; [|done].
    destruct (view_edge lc Hi _ _ _ E) as (u & v & _ & _ & Hv & _ & Hb). by apply Hno in Hv.
  - apply last_None in El as ->. by injection Hh.
Qed.

(** What [__dijkstra] leaves at the node of [b]: no way to it, or the cost of a
    cheapest path, which the predecessors spell out. *)
Lemma dijkstra_settles lc a :
  lc_inv lc -> costs_ok lc ->
  exists lc', __dijkstra lc a = Ret lc' /\ lc_inv lc' /\ view lc' = view lc /\ lc_locked lc' = lc_locked lc
    /\ elems (lc_nodes lc') ≡ₚ elems (lc_nodes lc) /\ frame (nheap lc) (nheap lc')
    /\ forall d b, a <> b -> d ∈ elems (lc_nodes lc) -> addr_of (nheap lc) d = Some b ->
       (cost (nheap lc') d = LC_COST_INF
        /\ forall p, head p = Some a -> last p = Some b -> path_cost (view lc) p = None)
       \/ (cost (nheap lc') d <> LC_COST_INF /\ exists ws,
         is_Some (pred (nheap lc') d) /\ hops (nheap lc') d = zlen ws + 1 /\ zlen ws < 500
         /\ fill_route (length (elems (lc_nodes lc))) (nheap lc') (pred (nheap lc') d) (zlen ws) 0 (repeat 0 (length ws))
            = Ret (ws, zlen ws)
         /\ path_cost (view lc) (a :: ws ++ [b]) = Some (cost (nheap lc') d) /\ NoDup (a :: ws ++ [b])
         /\ forall p c, head p = Some a -> last p = Some b -> path_cost (view lc) p = Some c -> cost (nheap lc') d <= c).
Proof.
  intros Hi Hc. destruct (dijkstra_spec lc a Hi Hc) as (l2 & E & Hi2 & Hv2 & Hk2 & Hh2 & Hl2 & Hp2 & Hf2 & Hres).
  exists l2. split_and!; try done. intros d b Hab HdN Hb.
  destruct Hres as [(s & Q & S & Hs & Ha & Hd & Hinf)|[Hno Hinf]].
  2: { left. split; [by apply Hinf|]. intros p Hh Hl. destruct (path_cost (view lc) p) eqn:Ep; [|done].
       by eapply no_path_from in Ep. }
  assert (Hwalk : forall p c, head p = Some a -> last p = Some b -> path_cost (view lc) p = Some c ->
    d ∈ S /\ cost (nheap l2) d <= c).
  { intros p c Hh Hl Hpc. destruct (path_walk lc Hi s p a b c Hs Ha Hh Hl Hpc) as (v & Hv & Hvb & Hw).
    destruct (dinv_shortest (lheap lc) (elems (lc_links lc)) (elems (lc_nodes lc)) W_MAX W_ok
      (nodes_bounded _ Hi) (no_nd _ _ _ (inv_nodes _ Hi)) (fun q Hq => links_bounded lc q Hi Hc Hq)
      _ _ _ _ _ v c Hd Hs Hinf Hw).
    replace d with v; [done|]. apply (no_addr _ _ _ (inv_nodes _ Hi)); [done|done|congruence]. }
  destruct (decide (cost (nheap l2) d = LC_COST_INF)) as [Hci|Hci]; [left|right]; (split; [done|]).
  - intros p Hh Hl. destruct (path_cost (view lc) p) eqn:Ep; [|done]. destruct (Hwalk p _ Hh Hl Ep) as [HdS _].
    by apply (di_fin _ _ _ _ _ _ _ _ _ Hd d) in HdS.
  - assert (HdS : d ∈ S).
    { rewrite (di_perm _ _ _ _ _ _ _ _ _ Hd) in HdN. apply elem_of_app in HdN as [HdQ|]; [|done]. by rewrite Hinf in Hci. }
    destruct (fill_found lc (nheap l2) s Q S d a b Hi Hc Hab Hs Ha Hd HdS Hb) as (ws & W1 & W2 & W3 & W4 & W5 & W6).
    exists ws. split_and!; try done. intros p c Hh Hl Hpc. by destruct (Hwalk p c Hh Hl Hpc).
Qed.

(** What [lc_srt_find] may answer. *)
Definition srt_found (g : gmap (Z * Z) Z) (mem : oracle) (a b : Z) (r : option dsr_srt) : Prop :=
  match r with
  | Some s => src s = a /\ dst s = b /\ srt_aligned s /\ NoDup (srt_path s)
      /\ exists c, path_cost g (srt_path s) = Some c
        /\ forall p c', head p = Some a -> last p = Some b -> path_cost g p = Some c' -> c <= c'
  | None => a = b \/ head mem = Some false
      \/ forall p, head p = Some a -> last p = Some b -> path_cost g p = None
  end.

Lemma srt_find_spec lc mem a b :
  lc_inv lc -> lc_locked lc = false -> costs_ok lc ->
  exists r lc' mem', lc_srt_find lc mem a b = Ret (r, lc', mem')
    /\ lc_inv lc' /\ view lc' = view lc /\ lc_locked lc' = false
    /\ srt_found (view lc) mem a b r.
Proof.
  intros Hi0 Hk Hc0. unfold lc_srt_find. case_if; [exists None, lc, mem; unfold srt_found; split_and!; by auto|].
  rewrite lc_lock_free by done. cbn [mbind outcome_bind].
  pose proof (lc_inv_locked _ true Hi0) as Hi. change (view lc) with (view (set_locked lc true)).
  assert (Hc : costs_ok (set_locked lc true)) by done. set (l1 := set_locked lc true) in *.
  destruct (dijkstra_settles l1 a Hi Hc) as (l2 & -> & Hi2 & Hv2 & Hk2 & Hp2 & Hf2 & Hres).
  cbn [mbind outcome_bind].
  pose proof (lc_inv_locked _ false Hi2 : lc_inv (lc_unlock l2)) as Hi3.
  destruct (find_node_spec _ _ _ b (inv_nodes _ Hi2)) as (r & -> & Hr). cbn [mbind outcome_bind].
  destruct r as [d|].
  2: { exists None, (lc_unlock l2), mem. split_and!; try done. right. right. intros p Hh Hl.
       apply (no_path_to _ a b); try done. intros q Hq. rewrite <- (proj1 (Hf2 q)). apply Hr. by rewrite Hp2. }
  destruct Hr as [HdN Hb]. rewrite Hp2 in HdN. rewrite (proj1 (Hf2 d)) in Hb.
  destruct (no_live _ _ _ _ (inv_nodes _ Hi2) ltac:(by rewrite Hp2)) as [dn Edn]. rewrite Edn. cbn [of_option mbind outcome_bind].
  rewrite <- (cost_Some _ _ _ Edn), <- (pred_Some _ _ _ Edn), <- (hops_Some _ _ _ Edn).
  destruct (Hres d b Hif HdN Hb) as [[Hci Hnp]|(Hci & ws & Hpr & Hhops & Hwl & Hfill & Hpc & Hnd & Hmin)].
  { rewrite Hci. exists None, (lc_unlock l2), mem. split_and!; try done. right. by right. }
  rewrite (proj2 (Z.eqb_neq _ _) Hci), bool_decide_eq_true_2 by done. cbn [negb andb]. pose proof (zlen_nonneg ws).
  rewrite Hhops. replace (zlen ws + 1 - 1) with (zlen ws) by lia.
  replace (s32 (u32 (zlen ws))) with (zlen ws) by (rewrite u32_small, s32_small; lia).
  rewrite (s32_small (zlen ws + 1)) by lia.
  destruct (kmalloc mem) as [ok mem'] eqn:Ek. destruct ok.
  2: { exists None, (lc_unlock l2), mem'. split_and!; try done. right. left.
       destruct mem; [done|]. simpl in Ek. by injection Ek as -> ->. }
  replace (length (elems (lc_nodes l2))) with (length (elems (lc_nodes l1))) by (by rewrite Hp2).
  replace (Z.to_nat (zlen ws)) with (length ws) by (unfold zlen; lia).
  rewrite Hfill. cbn [mbind outcome_bind]. rewrite Z.eqb_refl. cbn [negb].
  eexists (Some _), (lc_unlock l2), mem'. split; [done|]. unfold srt_found. split_and!; try done.
  - unfold srt_aligned, srt_wf. simpl. rewrite u32_small by lia. rewrite (zlen_nil (A:=Z)). split; [lia|done].
  - exists (cost (nheap l2) d). by split.
Qed.

(** C3: [lc_srt_find] always ends without a fault and leaves the map of links
    and the invariant as they were.  The route it returns goes from the source to
    the destination over links of the cache, visits no node twice, and no path
    between the two is cheaper; it returns NULL only when the two are the same,
    when there is no path at all, or when the allocation failed. *)
Theorem lc_srt_find_cheapest lc mem a b :
  lc_inv lc -> lc_locked lc = false -> costs_ok lc ->
  exists r lc' mem', lc_srt_find lc mem a b = Ret (r, lc', mem')
    /\ lc_inv lc' /\ view lc' = view lc /\ lc_locked lc' = false
    /\ match r with
       | Some s => src s = a /\ dst s = b /\ srt_aligned s /\ NoDup (srt_path s)
           /\ exists c, path_cost (view lc) (srt_path s) = Some c
             /\ forall p c', head p = Some a -> last p = Some b -> path_cost (view lc) p = Some c' -> c <= c'
       | None => a = b \/ head mem = Some false
           \/ forall p, head p = Some a -> last p = Some b -> path_cost (view lc) p = None
       end.
Proof. apply srt_find_spec. Qed.

Lemma lc_srt_find_cheapest_witness :
  exists lc r lc' mem',
    (lc = '(_, l1, _) ← lc_link_add lc_init [] (Timeval 5 0) 1 2 1000 0 1;
          '(_, l2, _) ← lc_link_add l1 [] (Timeval 5 0) 2 3 1000 0 1; Ret l2)
    /\ (x ← lc; lc_srt_find x [] 1 3) = Ret (Some r, lc', mem') /\ srt_path r = [1; 2; 3].
Proof.
  destruct (link_add_locked_spec lc_init [] (Timeval 5 0) 1 2 1000 0 1 lc_init_inv eq_refl) as
    (r1 & l1 & m1 & E1 & Hi1 & Hk1 & _ & _ & _ & Hv1); [split; [vm_compute; discriminate | right; vm_compute; reflexivity]|].
  assert (R1 : link_room l1 2 3).
  { vm_compute in E1. injection E1 as <- <- <-. split; [vm_compute; discriminate | right; vm_compute; reflexivity]. }
  destruct (link_add_locked_spec l1 [] (Timeval 5 0) 2 3 1000 0 1 Hi1 Hk1 R1) as (r2 & l2 & m2 & E2 & Hi2 & Hk2 & _ & _ & _ & Hv2).
  assert (Hc : costs_ok l2).
  { destruct Hv1 as [[_ Hv1]|[Hf _]]; [|by apply not_elem_of_nil in Hf].
    destruct Hv2 as [[_ Hv2]|[Hf _]]; [|by apply not_elem_of_nil in Hf].
    intros k w. rewrite Hv2, Hv1, !lookup_insert. change (u32 1) with 1. change (view lc_init) with (∅ : gmap (Z * Z) Z).
    repeat case_decide; rewrite ?lookup_empty; intros [= <-]; unfold W_MAX; lia. }
  destruct (lc_srt_find_cheapest l2 [] 1 3 Hi2 Hk2 Hc) as (r & lc' & mem' & E3 & _ & _ & _ & Hr).
  destruct r as [s|].
  - exists (Ret l2), s, lc', mem'. rewrite E1. simpl. rewrite E2. simpl. split; [done|]. split; [exact E3|].
    clear -E1 E2 E3. vm_compute in E1. injection E1 as <- <- <-. vm_compute in E2. injection E2 as <- <- <-.
    vm_compute in E3. injection E3 as <- <- <-. reflexivity.
  - exfalso. destruct Hr as [|[|Hp]]; [done|done|]. clear -E1 E2 Hp.
    vm_compute in E1. injection E1 as <- <- <-. vm_compute in E2. injection E2 as <- <- <-.
    specialize (Hp [1; 2; 3] eq_refl eq_refl). vm_compute in Hp. discriminate.
Defined.

(** ** Adding a route *)

(** The links of a path, each with cost 1, and back when [bidir]. *)
Fixpoint add_links (bidir : bool) (g : gmap (Z * Z) Z) (p : list Z) : gmap (Z * Z) Z :=
  match p with
  | [] => g
  | a :: p' =>
      match p' with
      | [] => g
      | b :: _ =>
          let g1 := <[(a, b) := 1]> g in
          add_links bidir (if bidir then <[(b, a) := 1]> g1 else g1) p'
      end
  end.

Definition per_hop (bidir : bool) : Z := if bidir then 2 else 1.

(** Room for [k] more hops. *)
Definition hop_room (bidir : bool) (lc : lc_graph) (k : Z) : Prop :=
  len (lc_nodes lc) + 2 * per_hop bidir * k <= LC_NODES_MAX
  /\ len (lc_links lc) + per_hop bidir * k <= LC_LINKS_MAX.

Lemma srt_add_hop_spec bidir lc mem now a b timeout k :
  lc_inv lc -> false ∉ mem -> hop_room bidir lc (k + 1) -> 0 <= k ->
  exists lc' mem', srt_add_hop bidir lc mem now a b timeout = Ret (per_hop bidir, lc', mem')
    /\ lc_inv lc' /\ lc_locked lc' = lc_locked lc /\ (false ∉ mem') /\ hop_room bidir lc' k
    /\ view lc' = (let g1 := <[(a, b) := 1]> (view lc) in if bidir then <[(b, a) := 1]> g1 else g1).
Proof.
  intros Hi Hm [Hrn Hrl] Hk. unfold srt_add_hop, per_hop in *.
  destruct (link_add_spec lc mem now a b timeout 0 1 Hi) as
    (r1 & l1 & m1 & -> & Hi1 & Hk1 & Hm1 & Hn1 & Hl1 & Hv1).
  { split; [destruct bidir; lia | right; destruct bidir; lia]. }
  destruct Hv1 as [[-> Hv1]|[? _]]; [|done]. simpl. destruct bidir.
  - destruct (link_add_spec l1 m1 now b a timeout 0 1 Hi1) as
      (r2 & l2 & m2 & -> & Hi2 & Hk2 & Hm2 & Hn2 & Hl2 & Hv2); [split; [lia | right; lia]|].
    specialize (Hm1 Hm). destruct Hv2 as [[-> Hv2]|[? _]]; [|done]. simpl.
    exists l2, m2. split_and!; try done; [congruence | by apply Hm2 | unfold hop_room, per_hop; lia |].
    by rewrite Hv2, Hv1.
  - exists l1, m1. split_and!; try done; [by apply Hm1 | unfold hop_room, per_hop; lia].
Qed.

Lemma srt_add_loop_spec srt bidir (turns i : nat) lc mem now a timeout n :
  lc_inv lc -> false ∉ mem -> hop_room bidir lc (Z.of_nat turns + 1) ->
  (turns + i = length (addrs srt))%nat ->
  exists a' lc' mem', srt_add_loop srt bidir turns (Z.of_nat i) lc mem now a timeout n
      = Ret (a', n + per_hop bidir * Z.of_nat turns, lc', mem')
    /\ lc_inv lc' /\ lc_locked lc' = lc_locked lc /\ (false ∉ mem') /\ hop_room bidir lc' 1
    /\ (forall d, add_links bidir (view lc) (a :: drop i (addrs srt) ++ [d]) = add_links bidir (view lc') [a'; d]).
Proof.
  revert i lc mem a n. induction turns as [|turns IH]; intros i lc mem a n Hi Hm Hr Hl.
  - exists a, lc, mem. simpl. rewrite drop_ge by lia. split_and!; try done. do 4 f_equal. lia.
  - destruct (srt_addr_drop srt i ltac:(lia)) as (b & Hb & Hd). simpl. rewrite Hb. simpl.
    destruct (srt_add_hop_spec bidir lc mem now a b timeout (Z.of_nat turns + 1)) as
      (l1 & m1 & -> & Hi1 & Hk1 & Hm1 & Hr1 & Hv1); try done; [|lia|].
    { by replace (Z.of_nat turns + 1 + 1) with (Z.of_nat (S turns) + 1) by lia. }
    simpl. replace (Z.of_nat i + 1) with (Z.of_nat (S i)) by lia.
    destruct (IH (S i) l1 m1 b (n + per_hop bidir) Hi1 Hm1 Hr1 ltac:(lia)) as
      (a' & l2 & m2 & -> & Hi2 & Hk2 & Hm2 & Hr2 & Hv2).
    exists a', l2, m2. split_and!; try done; [do 4 f_equal; lia | congruence |].
    intros d. specialize (Hv2 d). rewrite Hv1 in Hv2. rewrite Hd. exact Hv2.
Qed.

Lemma srt_add_spec lc mem now srt timeout :
  lc_inv lc -> lc_locked lc = false -> srt_wf srt -> false ∉ mem ->
  let bidir := negb (Z.land (flags srt) SRT_BIDIR =? 0) in
  hop_room bidir lc (zlen (addrs srt) + 1) ->
  exists lc' mem', lc_srt_add lc mem now (Some srt) timeout
      = Ret (per_hop bidir * (zlen (addrs srt) + 1), lc', mem')
    /\ lc_inv lc' /\ lc_locked lc' = false /\ (false ∉ mem') /\ view lc' = add_links bidir (view lc) (srt_path srt).
Proof.
  intros Hi Hk Hwf Hm bidir Hr. unfold lc_srt_add. fold bidir. rewrite lc_lock_free by done. simpl.
  rewrite srt_n_wf by done. unfold zlen. rewrite Nat2Z.id.
  destruct (srt_add_loop_spec srt bidir (length (addrs srt)) 0 (set_locked lc true) mem now (src srt) timeout 0)
    as (a' & l1 & m1 & E & Hi1 & Hk1 & Hm1 & Hr1 & Hv1); [by apply lc_inv_locked | done | exact Hr | lia |].
  change (Z.of_nat 0) with 0 in E. rewrite E. simpl.
  destruct (srt_add_hop_spec bidir l1 m1 now a' (dst srt) timeout 0) as
    (l2 & m2 & -> & Hi2 & Hk2 & Hm2 & Hr2 & Hv2); try done.
  simpl. exists (lc_unlock l2), m2. split_and!; try done.
  - do 4 f_equal. lia.
  - by apply (lc_inv_locked _ false).
  - change (view (lc_unlock l2)) with (view l2). rewrite Hv2. unfold srt_path.
    specialize (Hv1 (dst srt)). rewrite drop_0 in Hv1. exact (eq_sym Hv1).
Qed.



Lemma add_links_keep bidir g p k : g !! k = Some 1 -> add_links bidir g p !! k = Some 1.
Proof.
  revert g. induction p as [|a p IH]; intros g Hg; [done|]. destruct p as [|b p]; [done|].
  change (add_links bidir g (a :: b :: p)) with
    (add_links bidir (let g1 := <[(a, b) := 1]> g in if bidir then <[(b, a) := 1]> g1 else g1) (b :: p)).
  apply IH. simpl. destruct bidir; rewrite !lookup_insert; repeat case_decide; done.
Qed.

Lemma add_links_path bidir g p :
  p <> [] -> path_cost (add_links bidir g p) p = Some (zlen p - 1).
Proof.
  revert g. induction p as [|a p IH]; intros g Hp; [done|]. destruct p as [|b p]; [done|].
  set (g1 := let g1 := <[(a, b) := 1]> g in if bidir then <[(b, a) := 1]> g1 else g1).
  change (add_links bidir g (a :: b :: p)) with (add_links bidir g1 (b :: p)).
  change (path_cost (add_links bidir g1 (b :: p)) (a :: b :: p)) with
    (w ← add_links bidir g1 (b :: p) !! (a, b); c ← path_cost (add_links bidir g1 (b :: p)) (b :: p); Some (w + c)).
  rewrite (add_links_keep bidir g1 (b :: p) (a, b)), IH by
    (done || (unfold g1; destruct bidir; rewrite !lookup_insert; repeat case_decide; done)).
  simpl. f_equal. rewrite !zlen_cons. lia.
Qed.

Lemma add_links_bound bidir g p W :
  1 <= W -> (forall k w, g !! k = Some w -> w <= W) -> forall k w, add_links bidir g p !! k = Some w -> w <= W.
Proof.
  intros HW. revert g. induction p as [|a p IH]; intros g Hg; [done|]. destruct p as [|b p]; [done|].
  change (add_links bidir g (a :: b :: p)) with
    (add_links bidir (let g1 := <[(a, b) := 1]> g in if bidir then <[(b, a) := 1]> g1 else g1) (b :: p)).
  apply IH. simpl. intros k w. destruct bidir; rewrite !lookup_insert; repeat case_decide;
    try (intros [= <-]; lia); apply Hg.
Qed.



(** ** Flushing *)

Lemma flush_all {A D} (f : A -> D -> D) (t : tbl A) d :
  tbl_wf t -> (__tbl_flush t (Some f) d).1 = Tbl [] 0 (max_len t) (locked t).
Proof.
  intros (Hl & Hm & Hx). unfold __tbl_flush. pose proof (zlen_nonneg (elems t)).
  pose proof (flush_loop_len (Some f) d (len t) (elems t) ltac:(lia)) as Hf.
  destruct (flush_loop (Some f) d (len t) (elems t)) as [n d']. simpl in *. unfold set_elems. f_equal. lia.
Qed.

Lemma flush_heap_None {A} (xs : list ptr) n (h : gmap ptr A) x :
  h !! x = None -> (flush_loop (Some (fun p h => delete p h)) h n xs).2 !! x = None.
Proof.
  revert n h. induction xs as [|y xs IH]; intros n h Hx; simpl; [done|]. apply IH.
  apply lookup_delete_None. by right.
Qed.

Lemma flush_heap_gone {A} (xs : list ptr) n (h : gmap ptr A) x :
  x ∈ xs -> (flush_loop (Some (fun p h => delete p h)) h n xs).2 !! x = None.
Proof.
  revert n h. induction xs as [|y xs IH]; intros n h Hx; simpl; [set_solver|].
  apply elem_of_cons in Hx as [->|Hx]; [|by apply IH].
  apply flush_heap_None. by rewrite lookup_delete_eq.
Qed.

Lemma flush_spec lc :
  lc_inv lc -> lc_locked lc = false ->
  exists lc', lc_flush lc = Ret lc' /\ lc_inv lc' /\ lc_locked lc' = false /\ view lc' = ∅
    /\ lc_src lc' = None /\ elems (lc_nodes lc') = [] /\ elems (lc_links lc') = []
    /\ (forall p, p ∈ elems (lc_nodes lc) -> nheap lc' !! p = None)
    /\ (forall p, p ∈ elems (lc_links lc) -> lheap lc' !! p = None).
Proof.
  intros Hi Hk. unfold lc_flush. rewrite lc_lock_free by done. simpl.
  pose proof (flush_all (fun p (h : link_heap) => delete p h) (lc_links lc) (lheap lc) (inv_lwf _ Hi)) as F1.
  pose proof (flush_all (fun p (h : node_heap) => delete p h) (lc_nodes lc) (nheap lc) (no_wf _ _ _ (inv_nodes _ Hi))) as F2.
  unfold __tbl_flush in *.
  pose proof (fun x => flush_heap_None (elems (lc_links lc)) (len (lc_links lc)) (lheap lc) x) as N1.
  pose proof (fun x => flush_heap_gone (elems (lc_links lc)) (len (lc_links lc)) (lheap lc) x) as G1.
  pose proof (fun x => flush_heap_None (elems (lc_nodes lc)) (len (lc_nodes lc)) (nheap lc) x) as N2.
  pose proof (fun x => flush_heap_gone (elems (lc_nodes lc)) (len (lc_nodes lc)) (nheap lc) x) as G2.
  destruct (flush_loop _ (lheap lc) _ _) as [n1 h1]. destruct (flush_loop _ (nheap lc) _ _) as [n2 h2].
  simpl in *. rewrite F1, F2, (no_max _ _ _ (inv_nodes _ Hi)), (inv_lmax _ Hi).
  eexists. split; [done|]. split_and!; try done; [|set_solver..].
  split; simpl.
  - split; simpl; [unfold tbl_wf, zlen, LC_NODES_MAX; simpl; lia|done|apply NoDup_nil_2|set_solver..].
  - split; simpl; [apply NoDup_nil_2|set_solver..].
  - unfold tbl_wf, zlen, LC_LINKS_MAX. simpl. lia.
  - done.
  - intros p Hp. destruct (inv_fresh _ Hi p Hp). auto.
Qed.

(** Flushing empties the map of links and both tables, frees every node and
    link that was in them, and leaves the cache usable. *)
Theorem lc_flush_spec lc :
  lc_inv lc -> lc_locked lc = false ->
  exists lc', lc_flush lc = Ret lc' /\ lc_inv lc' /\ lc_locked lc' = false /\ view lc' = ∅
    /\ lc_src lc' = None /\ elems (lc_nodes lc') = [] /\ elems (lc_links lc') = []
    /\ (forall p, p ∈ elems (lc_nodes lc) -> nheap lc' !! p = None)
    /\ (forall p, p ∈ elems (lc_links lc) -> lheap lc' !! p = None).
Proof. apply flush_spec. Qed.

Lemma lc_flush_spec_witness :
  exists lc1 mem1 lc2, lc_link_add lc_init [] (Timeval 5 0) 1 2 1000 0 1 = Ret (0, lc1, mem1)
    /\ lc_flush lc1 = Ret lc2 /\ view lc2 = ∅.
Proof.
  destruct (link_add_locked_spec lc_init [] (Timeval 5 0) 1 2 1000 0 1 lc_init_inv eq_refl) as
    (r & lc1 & mem1 & E & Hi & Hk & _ & _ & _ & Hv); [split; [vm_compute; discriminate | right; vm_compute; reflexivity]|].
  destruct Hv as [[-> Hv]|[Hf _]]; [|by apply not_elem_of_nil in Hf].
  destruct (lc_flush_spec lc1 Hi Hk) as (lc2 & Ef & _ & _ & Hv2 & _).
  exists lc1, mem1, lc2. by split_and!.
Defined.

(** ** The full link table *)

Lemma node_get_here lc mem a p :
  lc_inv lc -> p ∈ elems (lc_nodes lc) -> addr_of (nheap lc) p = Some a ->
  lc_node_get lc mem a = Ret (Some p, lc, mem).
Proof.
  intros Hi Hp Ha. unfold lc_node_get.
  destruct (find_node_spec _ _ _ a (inv_nodes _ Hi)) as (r & -> & Hr). simpl. destruct r as [q|].
  - destruct Hr as [Hq Hb]. assert (q = p) as ->; [|done].
    apply (no_addr _ _ _ (inv_nodes _ Hi)); [done..|congruence].
  - by apply Hr in Hp.
Qed.

(** A link cannot be stored once the table holds [LC_LINKS_MAX] links, and
    the code does not notice: [lc_link_add] still returns 0 and the map is
    unchanged, but the new link block stays allocated on no table and both end
    nodes count a link that can never be deleted, so the invariant is lost. *)
Theorem lc_link_add_full lc mem now s d a b timeout st c :
  lc_inv lc -> lc_locked lc = false -> len (lc_links lc) = LC_LINKS_MAX ->
  s ∈ elems (lc_nodes lc) -> d ∈ elems (lc_nodes lc) ->
  addr_of (nheap lc) s = Some a -> addr_of (nheap lc) d = Some b -> view lc !! (a, b) = None ->
  (kmalloc mem).1 = true ->
  exists lc' mem', lc_link_add lc mem now a b timeout st c = Ret (0, lc', mem')
    /\ view lc' = view lc /\ elems (lc_links lc') = elems (lc_links lc)
    /\ is_Some (lheap lc' !! lc_next lc) /\ (lc_next lc ∉ elems (lc_links lc'))
    /\ ~ lc_inv lc'.
Proof.
  intros Hi Hk Hfull Hs Hd Ha Hb Hv Hm. unfold lc_link_add. rewrite lc_lock_free by done. simpl.
  pose proof (lc_inv_locked _ true Hi) as Hi1. set (l1 := set_locked lc true) in *. unfold __lc_link_add.
  rewrite (node_get_here l1 mem a s) by done. simpl. rewrite (node_get_here l1 mem b d) by done. simpl.
  destruct (kmalloc mem) as [ok mem'] eqn:Ek. simpl in Hm. subst ok.
  destruct (link_tbl_add_new l1 mem mem' now s d a b timeout st c) as (h' & e & -> & Haddr & Hcnt); try done.
  simpl. unfold __tbl_add_tail. rewrite Hfull, (inv_lmax _ Hi). simpl.
  assert (Hfr : lc_next lc ∉ elems (lc_links lc)).
  { intros Hq. destruct (lo_link _ _ _ (inv_links _ Hi) _ Hq) as (l & E & _).
    destruct (inv_fresh _ Hi (lc_next lc) ltac:(lia)) as [_ F]. congruence. }
  assert (Hold : forall q, q ∈ elems (lc_links lc) ->
            <[lc_next lc := LcLink s d st (u32 c) e]> (lheap lc) !! q = lheap lc !! q).
  { intros q Hq. rewrite lookup_insert_ne; [done|]. intros <-. done. }
  eexists _, mem'. split; [done|]. split_and!; try done.
  - apply entries_ext. intros q Hq. unfold entry. simpl. rewrite (Hold q Hq).
    destruct (lheap lc !! q); simpl; [|done]. by rewrite !Haddr.
  - simpl. rewrite lookup_insert_eq. eauto.
  - intros Hbad. pose proof (no_count _ _ _ (inv_nodes _ Hbad) s Hs) as Hc. simpl in Hc.
    rewrite Hcnt in Hc by done. injection Hc as Hc.
    rewrite (incident_ext (lheap lc) (<[lc_next lc := LcLink s d st (u32 c) e]> (lheap lc))) in Hc by (intros q Hq; unfold link_ends; by rewrite (Hold q Hq)).
    unfold ends_at in Hc. simpl in Hc. rewrite Z.eqb_refl in Hc. destruct (d =? s); lia.
Qed.

Definition long_route : dsr_srt := DsrSrt 1 101 0 396 (map Z.of_nat (seq 2 99)) [].

Lemma lc_link_add_full_witness :
  exists lc lc' mem', lc_link_add lc [] (Timeval 5 0) 1 3 1000 0 1 = Ret (0, lc', mem') /\ ~ lc_inv lc'.
Proof.
  destruct (srt_add_spec lc_init [] (Timeval 5 0) long_route 1000 lc_init_inv eq_refl)
    as (l1 & m1 & E & Hi & Hk & _ & Hv).
  - unfold srt_wf, zlen. vm_compute. by repeat split.
  - apply not_elem_of_nil.
  - split; vm_compute; discriminate.
  - pose proof (f_equal (fun o => match o with Ret (_, l, _) =>
      (len (lc_links l), addr_of (nheap l) 1, addr_of (nheap l) 4,
       bool_decide (1 ∈ elems (lc_nodes l) /\ 4 ∈ elems (lc_nodes l))) | _ => (0, None, None, false) end) E) as F.
    vm_compute in F. injection F as F1 F2 F3 F4. symmetry in F4. apply bool_decide_eq_true in F4 as [F4 F5].
    assert (Hn : view l1 !! (1, 3) = None) by (rewrite Hv; vm_compute; reflexivity).
    destruct (lc_link_add_full l1 [] (Timeval 5 0) 1 4 1 3 1000 0 1 Hi Hk (eq_sym F1) F4 F5 (eq_sym F2) (eq_sym F3) Hn eq_refl)
      as (l2 & m2 & E2 & _ & _ & _ & _ & Hbad).
    exists l1, l2, m2. split; [exact E2 | exact Hbad].
Defined.

(** ** Every reachable cache *)

(** The operations other components call, with room for what they add. *)
Inductive lc_step : lc_graph -> lc_graph -> Prop :=
| step_link_add lc mem now a b timeout st c r lc' mem' :
    link_room lc a b -> 0 <= c <= W_MAX ->
    lc_link_add lc mem now a b timeout st c = Ret (r, lc', mem') -> lc_step lc lc'
| step_link_del lc a b r lc' : lc_link_del lc a b = Ret (r, lc') -> lc_step lc lc'
| step_srt_add lc mem now srt timeout r lc' mem' :
    srt_wf srt -> false ∉ mem ->
    hop_room (negb (Z.land (flags srt) SRT_BIDIR =? 0)) lc (zlen (addrs srt) + 1) ->
    lc_srt_add lc mem now (Some srt) timeout = Ret (r, lc', mem') -> lc_step lc lc'
| step_srt_find lc mem a b r lc' mem' :
    lc_srt_find lc mem a b = Ret (r, lc', mem') -> lc_step lc lc'
| step_lc_flush lc lc' : lc_flush lc = Ret lc' -> lc_step lc lc'.

Definition lc_ok (lc : lc_graph) : Prop := lc_inv lc /\ lc_locked lc = false /\ costs_ok lc.

Lemma lc_init_ok : lc_ok lc_init.
Proof.
  split_and!; [apply lc_init_inv | done |]. intros k w.
  change (view lc_init) with (∅ : gmap (Z * Z) Z). by rewrite lookup_empty.
Qed.

Lemma lc_step_ok lc lc' : lc_step lc lc' -> lc_ok lc -> lc_ok lc'.
Proof.
  intros Hst (Hi & Hk & Hc).
  destruct Hst as [lc mem now a b t st c r lc' mem' Hr Hb H | lc a b r lc' H
    | lc mem now srt t r lc' mem' Hw Hm Hr H | lc mem a b r lc' mem' H | lc lc' H].
  - destruct (link_add_locked_spec lc mem now a b t st c Hi Hk Hr) as (r0 & l0 & m0 & E & Hi' & Hk' & _ & _ & _ & Hv).
    rewrite E in H. injection H as <- <- <-. split_and!; [done..|].
    destruct Hv as [[_ Hv]|[_ Hv]]; intros k w; rewrite Hv; [|apply Hc].
    rewrite lookup_insert. case_decide; [|apply Hc]. intros [= <-]. unfold W_MAX in *. rewrite u32_small; lia.
  - destruct (link_del_locked_spec lc a b Hi Hk) as (r0 & l0 & E & Hi' & Hk' & _ & Hv & _).
    rewrite E in H. injection H as <- <-. split_and!; [done..|]. intros k w. rewrite Hv.
    destruct (view lc !! (a, b)); [|apply Hc]. rewrite !lookup_delete_Some. intros (_ & _ & Hl). by apply (Hc k).
  - destruct (srt_add_spec lc mem now srt t Hi Hk Hw Hm Hr) as (l0 & m0 & E & Hi' & Hk' & _ & Hv).
    rewrite E in H. injection H as <- <- <-. split_and!; [done..|]. intros k w. rewrite Hv.
    eapply add_links_bound; [unfold W_MAX; lia | exact Hc].
  - destruct (srt_find_spec lc mem a b Hi Hk Hc) as (r0 & l0 & m0 & E & Hi' & Hv & Hk' & _).
    rewrite E in H. injection H as <- <- <-. split_and!; [done..|]. intros k w. rewrite Hv. apply Hc.
  - destruct (flush_spec lc Hi Hk) as (l0 & E & Hi' & Hk' & Hv & _).
    rewrite E in H. injection H as <-. split_and!; [done..|]. intros k w. rewrite Hv. by rewrite lookup_empty.
Qed.

(** C9: in every cache reached from the initial one by additions with room,
    deletions, look-ups and flushes the invariant holds and the lock is free, and
    look-ups, deletions and flushes then run to completion without a fault. *)
Theorem lc_reachable_safe lc a b mem :
  rtc lc_step lc_init lc ->
  lc_inv lc /\ lc_locked lc = false
  /\ is_ret (lc_srt_find lc mem a b) = true /\ is_ret (lc_link_del lc a b) = true
  /\ is_ret (lc_flush lc) = true.
Proof.
  intros Hr. assert (Hok : lc_ok lc).
  { pose proof lc_init_ok as H0. induction Hr as [|x y z Hxy _ IH]; [done|]. apply IH. by eapply lc_step_ok. }
  destruct Hok as (Hi & Hk & Hc). split_and!; try done.
  - by destruct (srt_find_spec lc mem a b Hi Hk Hc) as (? & ? & ? & -> & _).
  - by destruct (link_del_locked_spec lc a b Hi Hk) as (? & ? & -> & _).
  - by destruct (flush_spec lc Hi Hk) as (? & -> & _).
Qed.

Lemma lc_reachable_safe_witness :
  exists lc, lc_step lc_init lc /\ is_ret (lc_srt_find lc [] 1 2) = true.
Proof.
  destruct (link_add_locked_spec lc_init [] (Timeval 5 0) 1 2 1000 0 1 lc_init_inv eq_refl) as
    (r & lc1 & mem1 & E & _ & _ & _); [split; [vm_compute; discriminate | right; vm_compute; reflexivity]|].
  assert (Hst : lc_step lc_init lc1).
  { eapply step_link_add; [| |exact E]; [split; [vm_compute; discriminate | right; vm_compute; reflexivity]|].
    unfold W_MAX. lia. }
  exists lc1. split; [exact Hst|].
  destruct (lc_reachable_safe lc1 1 2 [] (rtc_once _ _ Hst)) as (_ & _ & H & _). exact H.
Defined.
