(* ===== verification/Neigh.v ===== *)
(** * The neighbour table (neigh.c, neigh.h)

    A table of neighbours with their link-layer address, the identification of
    the next acknowledgement request and the estimate of the round-trip time.
    [crit_addr] also copies the entry it accepts into the query; it does so on
    the one element where the search stops, so the copy is made after the search. *)

From S2P Require Import Prelude Timer Config Tbl Mem.

Definition NEIGH_TBL_MAX_LEN : Z := 50.
Definition DSR_SRTTBASE : Z := 0.
Definition DSR_SRTTDFLT : Z := 60.
Definition DSR_MIN : Z := 20.
Definition DSR_REXMTMAX : Z := 1280.
Definition DSR_RTTDFLT : Z := 30.
Definition PR_SLOWHZ : Z := 2.
Definition RTT_SHIFT : Z := 3.
Definition RTTVAR_SHIFT : Z := 2.

Definition DSR_RANGESET (value tvmin tvmax : Z) : Z :=
  if value <? tvmin then tvmin else if tvmax <? value then tvmax else value.
Definition DSR_REXMTVAL (val : Z) : Z := u64 (Z.shiftr val RTT_SHIFT + val).

(** [rto] and [jitter] are never used. *)
Record neighbor := Neighbor {
  n_addr : Z;
  n_hw_addr : bytes;
  n_id : Z;
  n_last_ack_req : timeval;
  t_srtt : Z;
  t_rxtcur : Z;
  t_rttmin : Z;
  t_rttvar : Z
}.

Record neighbor_info := NeighborInfo {
  i_hw_addr : bytes;
  i_id : Z;
  i_rtt : Z;
  i_rto : Z;
  i_last_ack_req : timeval
}.

Definition crit_addr : criteria_t neighbor Z := pure_crit (fun n a => n_addr n =? a).

(** What [crit_addr] writes to [q->info]. *)
Definition fill_info (dn : option dsr_node) (n : neighbor) (info : neighbor_info) : neighbor_info :=
  let rto := confval_to_usecs dn RoundTripTimeout in
  NeighborInfo (n_hw_addr n) (n_id n) (i_rtt info)
    (if rto =? 0 then u64 (t_rxtcur n * 1000) / PR_SLOWHZ
     else (* Fixed RTO (defaults to 2 secs) *) rto)
    (n_last_ack_req n).

Definition set_id (n : neighbor) (id : Z) : neighbor :=
  Neighbor (n_addr n) (n_hw_addr n) id (n_last_ack_req n) (t_srtt n) (t_rxtcur n) (t_rttmin n) (t_rttvar n).
Definition set_last_ack_req (n : neighbor) (tv : timeval) : neighbor :=
  Neighbor (n_addr n) (n_hw_addr n) (n_id n) tv (t_srtt n) (t_rxtcur n) (t_rttmin n) (t_rttvar n).

Definition crit_addr_id_inc : do_t neighbor Z := fun n a =>
  if n_addr n =? a then Ret (1, set_id n (u16 (n_id n + 1)), a) else Ret (0, n, a).

Definition set_ack_req_time (now : timeval) : do_t neighbor Z := fun n a =>
  if n_addr n =? a then Ret (1, set_last_ack_req n now, a) else Ret (0, n, a).

(** The estimator on one sample: the new [t_srtt] and [t_rttvar].  [delta] is an
    [int]; the additions are those of [unsigned long], so [<= 0] is [= 0]. *)
Definition rtt_estimate (srtt rttvar rtt : Z) : Z * Z :=
  if negb (srtt =? 0) then
    let delta := s32 (u64 (rtt - 1 - Z.shiftr srtt RTT_SHIFT)) in
    let srtt1 := u64 (srtt + delta) in
    let srtt2 := if srtt1 <=? 0 then 1 else srtt1 in
    let delta1 := if delta <? 0 then s32 (- delta) else delta in
    let delta2 := s32 (u64 (delta1 - Z.shiftr rttvar RTTVAR_SHIFT)) in
    let rttvar1 := u64 (rttvar + delta2) in
    (srtt2, if rttvar1 <=? 0 then 1 else rttvar1)
  else (u64 (Z.shiftl rtt RTT_SHIFT), u64 (Z.shiftl rtt (RTTVAR_SHIFT - 1))).

Definition rto_calc : do_t neighbor (Z * Z) := fun n q =>
  if n_addr n =? q.1 then
    let '(srtt, rttvar) := rtt_estimate (t_srtt n) (t_rttvar n) q.2 in
    Ret (1, Neighbor (n_addr n) (n_hw_addr n) (n_id n) (n_last_ack_req n) srtt
              (DSR_RANGESET (DSR_REXMTVAL srtt) (t_rttmin n) DSR_REXMTMAX) (t_rttmin n) rttvar, q)
  else Ret (0, n, q).

(** Does nothing yet. *)
Definition neigh_tbl_garbage_timeout (t : tbl neighbor) : tbl neighbor := t.

Definition neigh_tbl_create (mem : oracle) (addr : Z) (hw_addr : bytes) (id : Z)
  : option neighbor * oracle :=
  let '(ok, mem') := kmalloc mem in
  if ok then
    (Some (Neighbor addr hw_addr (u16 id) (Timeval 0 0) DSR_SRTTBASE
      (DSR_RANGESET (Z.shiftr (Z.shiftr DSR_SRTTBASE 2 + Z.shiftl DSR_SRTTDFLT 2) 1) DSR_MIN DSR_REXMTMAX)
      DSR_MIN (Z.shiftl (DSR_RTTDFLT * PR_SLOWHZ) 2)), mem')
  else (None, mem').

(** [h_source] is the link-layer source of the frame.  What [tbl_add] returns is
    not looked at. *)
Definition neigh_tbl_add (t : tbl neighbor) (mem : oracle) (neigh_addr : Z) (h_source : bytes)
  : outcome (Z * tbl neighbor * oracle) :=
  there ← in_tbl t neigh_addr crit_addr;
  if negb (there =? 0) then Ret (0, t, mem)
  else
    let '(neigh, mem') := neigh_tbl_create mem neigh_addr h_source 1 in
    match neigh with
    | None => (* Could not create new neighbor entry *) Ret (-1, t, mem')
    | Some n => '(_, t') ← tbl_add t n crit_none; Ret (1, t', mem')
    end.

(** The address is passed where [crit_addr] expects a query: its first use
    dereferences an IP address as a pointer. *)
Definition neigh_tbl_del (t : tbl neighbor) (neigh_addr : Z) : outcome (Z * tbl neighbor * Z) :=
  tbl_for_each_del t neigh_addr (fun _ _ => Fault BadAccess).

Definition neigh_tbl_set_ack_req_time (t : tbl neighbor) (now : timeval) (neigh_addr : Z)
  : outcome (Z * tbl neighbor) :=
  '(r, t', _) ← tbl_find_do t neigh_addr (set_ack_req_time now); Ret (r, t').

Definition neigh_tbl_set_rto (t : tbl neighbor) (neigh_addr : Z) (neigh_info : neighbor_info)
  : outcome (Z * tbl neighbor) :=
  '(r, t', _) ← tbl_find_do t (neigh_addr, i_rtt neigh_info) rto_calc; Ret (r, t').

Definition neigh_tbl_query (dn : option dsr_node) (t : tbl neighbor) (neigh_addr : Z)
    (info : option neighbor_info) : outcome (Z * option neighbor_info) :=
  t1 ← read_lock_bh t;
  r ← __tbl_find t1 neigh_addr crit_addr;
  Ret (match r with
       | None => (0, info)
       | Some n => (1, match info with None => None | Some i => Some (fill_info dn n i) end)
       end).

Definition neigh_tbl_id_inc (t : tbl neighbor) (neigh_addr : Z) : outcome (Z * tbl neighbor) :=
  '(r, t', _) ← tbl_find_do t neigh_addr crit_addr_id_inc; Ret (r, t').

Definition neigh_tbl_init : tbl neighbor := INIT_TBL NEIGH_TBL_MAX_LEN.

Definition neigh_tbl_cleanup (t : tbl neighbor) : outcome (tbl neighbor) :=
  '(t', _) ← tbl_flush t (Some (fun _ d => d)) (); Ret t'.

(** ** The table as a map from addresses to neighbours *)

Definition nview_list (l : list neighbor) : gmap Z neighbor :=
  list_to_map (map (fun n => (n_addr n, n)) l).
Definition nview (t : tbl neighbor) : gmap Z neighbor := nview_list (elems t).

Definition addr_is (a : Z) (n : neighbor) : bool := n_addr n =? a.

Record neigh_ok (t : tbl neighbor) : Prop := {
  nk_wf : tbl_wf t;
  nk_max : max_len t = NEIGH_TBL_MAX_LEN;
  nk_nd : NoDup (map n_addr (elems t));
  nk_free : locked t = false;
  nk_rto : Forall (fun n => t_rttmin n = DSR_MIN /\ DSR_MIN <= t_rxtcur n <= DSR_REXMTMAX) (elems t)
}.

Lemma nview_find l a :
  NoDup (map n_addr l) ->
  nview_list l !! a = match find_pos (addr_is a) l with Some (_, n) => Some n | None => None end.
Proof.
  unfold nview_list. induction l as [|n l IH]; intros Hnd; simpl; [apply lookup_empty|].
  apply NoDup_cons in Hnd as [Hn Hnd]. unfold addr_is at 1. rewrite lookup_insert.
  destruct (Z.eqb_spec (n_addr n) a) as [E|E].
  - by rewrite decide_True.
  - rewrite decide_False, IH by done. by destruct (find_pos _ l) as [[]|].
Qed.

Lemma find_pos_addr_None l a : find_pos (addr_is a) l = None <-> a ∉ map n_addr l.
Proof.
  rewrite find_pos_None, Forall_forall. unfold addr_is. split.
  - intros H (n & -> & Hn)%list_elem_of_fmap. specialize (H n Hn). simpl in H. zb. done.
  - intros H n Hn. apply Z.eqb_neq. intros <-. apply H. by apply list_elem_of_fmap_2.
Qed.

Lemma alter_first_addrs a g l :
  (forall n, n_addr (g n) = n_addr n) -> map n_addr (alter_first (addr_is a) g l) = map n_addr l.
Proof. apply (alter_first_fmap n_addr). Qed.

Lemma nview_alter a g l :
  NoDup (map n_addr l) -> (forall n, n_addr (g n) = n_addr n) ->
  nview_list (alter_first (addr_is a) g l) = alter g a (nview_list l).
Proof.
  unfold nview_list. intros Hnd Hg. induction l as [|n l IH]; simpl; [by rewrite alter_empty|].
  apply NoDup_cons in Hnd as [Hn Hnd]. unfold addr_is at 1.
  destruct (Z.eqb_spec (n_addr n) a) as [E|E]; simpl.
  - subst a. by rewrite Hg, alter_insert_eq.
  - rewrite IH by done. by rewrite alter_insert_ne.
Qed.

Lemma Forall_alter_first {A} (P : A -> Prop) p g (l : list A) :
  Forall P l -> (forall x, P x -> P (g x)) -> Forall P (alter_first p g l).
Proof.
  intros Hl Hg. induction Hl as [|x l Hx Hl IH]; simpl; [constructor|].
  destruct (p x); constructor; auto.
Qed.

(** Every operation that changes one entry in place. *)
Lemma neigh_find_do {D} t (d : D) a (f : do_t neighbor D) g :
  neigh_ok t -> (forall n, n_addr (g n) = n_addr n) ->
  (forall n, t_rttmin n = DSR_MIN /\ DSR_MIN <= t_rxtcur n <= DSR_REXMTMAX ->
     t_rttmin (g n) = DSR_MIN /\ DSR_MIN <= t_rxtcur (g n) <= DSR_REXMTMAX) ->
  (forall n, f n d = if addr_is a n then Ret (1, g n, d) else Ret (0, n, d)) ->
  exists t', tbl_find_do t d f = Ret (if decide (is_Some (nview t !! a)) then 1 else 0, t', d)
    /\ neigh_ok t' /\ nview t' = alter g a (nview t).
Proof.
  intros [Hwf Hm Hnd Hk Hr] Hga Hgr Hf. unfold tbl_find_do, write_lock_bh. rewrite Hk. simpl.
  unfold __tbl_find_do. simpl. rewrite (find_do_first f (addr_is a) g) by (intros; apply Hf). simpl.
  eexists. split; [|split].
  - do 3 f_equal. unfold nview. rewrite nview_find by done.
    destruct (find_pos _ (elems t)) as [[i n]|]; [by rewrite decide_True by eauto|].
    rewrite decide_False; [done|]. by intros [].
  - split; simpl; try done.
    + destruct Hwf as (Hl & Hx & Hy). unfold tbl_wf, zlen in *. simpl. rewrite alter_first_length. lia.
    + by rewrite alter_first_addrs.
    + by apply Forall_alter_first.
  - unfold nview. simpl. by apply nview_alter.
Qed.

(** What [rto_calc] does to the entry it is for. *)
Definition rto_update (rtt : Z) (n : neighbor) : neighbor :=
  let '(srtt, rttvar) := rtt_estimate (t_srtt n) (t_rttvar n) rtt in
  Neighbor (n_addr n) (n_hw_addr n) (n_id n) (n_last_ack_req n) srtt
    (DSR_RANGESET (DSR_REXMTVAL srtt) (t_rttmin n) DSR_REXMTMAX) (t_rttmin n) rttvar.

Lemma rangeset_bounds v : DSR_MIN <= DSR_RANGESET v DSR_MIN DSR_REXMTMAX <= DSR_REXMTMAX.
Proof. unfold DSR_RANGESET, DSR_MIN, DSR_REXMTMAX. repeat case_if; lia. Qed.

Lemma neigh_add_room t n :
  neigh_ok t -> nview t !! n_addr n = None -> t_rttmin n = DSR_MIN -> DSR_MIN <= t_rxtcur n <= DSR_REXMTMAX ->
  exists r t', tbl_add t n crit_none = Ret (r, t') /\ neigh_ok t'
    /\ nview t' = (if decide (len t < NEIGH_TBL_MAX_LEN) then <[n_addr n := n]> (nview t) else nview t).
Proof.
  intros [Hwf Hm Hnd Hk Hr] Hno Hmin Hrx. unfold tbl_add, write_lock_bh, __tbl_add. rewrite Hk. simpl.
  destruct (len t >=? max_len t) eqn:E; zb.
  - eexists _, _. split; [done|]. rewrite decide_False by lia. split; [|done]. split; done.
  - assert (Hins : (if TBL_EMPTY (Tbl (elems t) (len t) (max_len t) true) then Ret [n]
                    else insert_before crit_none n (elems t)) = Ret (n :: elems t)).
    { unfold TBL_EMPTY. simpl. by destruct (elems t). }
    rewrite Hins. simpl. eexists _, _. split; [done|]. rewrite decide_True by lia.
    assert (Hno' : n_addr n ∉ map n_addr (elems t)).
    { apply find_pos_addr_None. unfold nview in Hno. rewrite nview_find in Hno by done.
      by destruct (find_pos _ (elems t)) as [[]|]. }
    split; [|done]. destruct Hwf as (Hl & Hx & Hy). pose proof (zlen_nonneg (elems t)).
    split; simpl; try done.
    + unfold tbl_wf. simpl. rewrite u32_small, zlen_cons by lia. lia.
    + by apply NoDup_cons.
    + by constructor.
Qed.

(** The entry [neigh_tbl_create] makes. *)
Definition fresh_neighbor (a : Z) (hw : bytes) : neighbor :=
  Neighbor a hw 1 (Timeval 0 0) 0 120 DSR_MIN 240.

(** *** What each operation does to the map *)

Lemma neigh_add_spec t mem a hw :
  neigh_ok t ->
  exists r t' mem', neigh_tbl_add t mem a hw = Ret (r, t', mem') /\ neigh_ok t' /\ mem' ⊆ mem
    /\ match nview t !! a with
       | Some _ => r = 0 /\ t' = t
       | None => (r = -1 /\ head mem = Some false /\ t' = t)
           \/ (r = 1 /\ nview t' = if decide (len t < NEIGH_TBL_MAX_LEN)
                                   then <[a := fresh_neighbor a hw]> (nview t) else nview t)
       end.
Proof.
  intros Hok. pose proof Hok as [Hwf Hm Hnd Hk Hr].
  unfold neigh_tbl_add, in_tbl, read_lock_bh, __tbl_find. rewrite Hk. simpl.
  unfold crit_addr. rewrite find_elem_pure. simpl. fold (addr_is a). unfold nview. rewrite nview_find by done.
  destruct (find_pos (addr_is a) (elems t)) as [[i n]|] eqn:Ef; simpl.
  { exists 0, t, mem. split_and!; by auto. }
  unfold neigh_tbl_create. destruct (kmalloc mem) as [ok mem'] eqn:Ek.
  assert (Hsub : mem' ⊆ mem) by (destruct mem; simpl in Ek; injection Ek as <- <-; set_solver).
  destruct ok; simpl.
  - assert (Hno : nview t !! a = None) by (unfold nview; by rewrite nview_find, Ef).
    destruct (neigh_add_room t (fresh_neighbor a hw) Hok Hno eq_refl ltac:(unfold DSR_MIN, DSR_REXMTMAX; simpl; lia))
      as (r & t' & E & Hok' & Hv).
    change (Neighbor _ _ _ _ _ _ _ _) with (fresh_neighbor a hw) in *. rewrite E. simpl.
    exists 1, t', mem'. split_and!; try done. by right.
  - exists (-1), t, mem'. split_and!; try done. left. split_and!; try done.
    destruct mem; [done|]. simpl in Ek. by injection Ek as -> ->.
Qed.

Lemma neigh_id_inc_spec t a :
  neigh_ok t ->
  exists t', neigh_tbl_id_inc t a = Ret (if decide (is_Some (nview t !! a)) then 1 else 0, t')
    /\ neigh_ok t' /\ nview t' = alter (fun n => set_id n (u16 (n_id n + 1))) a (nview t).
Proof.
  intros Hok. destruct (neigh_find_do t a a crit_addr_id_inc (fun n => set_id n (u16 (n_id n + 1))) Hok) as (t' & E & H1 & H2); try done.
  exists t'. unfold neigh_tbl_id_inc. by rewrite E.
Qed.

Lemma neigh_ack_req_spec t now a :
  neigh_ok t ->
  exists t', neigh_tbl_set_ack_req_time t now a = Ret (if decide (is_Some (nview t !! a)) then 1 else 0, t')
    /\ neigh_ok t' /\ nview t' = alter (fun n => set_last_ack_req n now) a (nview t).
Proof.
  intros Hok. destruct (neigh_find_do t a a (set_ack_req_time now) (fun n => set_last_ack_req n now) Hok) as (t' & E & H1 & H2); try done.
  exists t'. unfold neigh_tbl_set_ack_req_time. by rewrite E.
Qed.

Lemma neigh_set_rto_spec t a info :
  neigh_ok t ->
  exists t', neigh_tbl_set_rto t a info = Ret (if decide (is_Some (nview t !! a)) then 1 else 0, t')
    /\ neigh_ok t' /\ nview t' = alter (rto_update (i_rtt info)) a (nview t).
Proof.
  intros Hok. destruct (neigh_find_do t (a, i_rtt info) a rto_calc (rto_update (i_rtt info)) Hok) as (t' & E & H1 & H2).
  - intros n. unfold rto_update. by destruct (rtt_estimate _ _ _).
  - intros n [Hn _]. unfold rto_update. destruct (rtt_estimate _ _ _). simpl. rewrite Hn.
    split; [done|]. apply rangeset_bounds.
  - intros n. unfold rto_calc, rto_update, addr_is. simpl. destruct (n_addr n =? a); [|done].
    by destruct (rtt_estimate _ _ _).
  - exists t'. unfold neigh_tbl_set_rto. by rewrite E.
Qed.

Lemma neigh_query_spec dn t a info :
  neigh_ok t ->
  neigh_tbl_query dn t a (Some info)
  = Ret (match nview t !! a with Some n => (1, Some (fill_info dn n info)) | None => (0, Some info) end).
Proof.
  intros [_ _ Hnd Hk _]. unfold neigh_tbl_query, read_lock_bh, __tbl_find. rewrite Hk. simpl. unfold crit_addr.
  rewrite find_elem_pure. simpl. fold (addr_is a). unfold nview. rewrite nview_find by done.
  by destruct (find_pos (addr_is a) (elems t)) as [[i n]|].
Qed.

(** C30: the neighbour table is a map from addresses to entries.  [neigh_tbl_add]
    adds a fresh entry for an address that is not there and never changes one that
    is (but answers 1 for a full table that did not take it); [neigh_tbl_id_inc],
    [neigh_tbl_set_ack_req_time] and [neigh_tbl_set_rto] update exactly the entry
    of their address and tell whether there is one; a query copies that entry; and
    all of them keep one entry per address within the capacity. *)
Theorem neigh_tbl_map dn t mem now a hw info :
  neigh_ok t ->
  (exists r t' mem', neigh_tbl_add t mem a hw = Ret (r, t', mem') /\ neigh_ok t'
     /\ match nview t !! a with
        | Some _ => r = 0 /\ t' = t
        | None => (r = -1 /\ head mem = Some false /\ t' = t)
            \/ (r = 1 /\ nview t' = if decide (len t < NEIGH_TBL_MAX_LEN)
                                    then <[a := fresh_neighbor a hw]> (nview t) else nview t)
        end)
  /\ (exists t', neigh_tbl_id_inc t a = Ret (if decide (is_Some (nview t !! a)) then 1 else 0, t')
        /\ neigh_ok t' /\ nview t' = alter (fun n => set_id n (u16 (n_id n + 1))) a (nview t))
  /\ (exists t', neigh_tbl_set_ack_req_time t now a = Ret (if decide (is_Some (nview t !! a)) then 1 else 0, t')
        /\ neigh_ok t' /\ nview t' = alter (fun n => set_last_ack_req n now) a (nview t))
  /\ (exists t', neigh_tbl_set_rto t a info = Ret (if decide (is_Some (nview t !! a)) then 1 else 0, t')
        /\ neigh_ok t' /\ nview t' = alter (rto_update (i_rtt info)) a (nview t))
  /\ neigh_tbl_query dn t a (Some info)
     = Ret (match nview t !! a with Some n => (1, Some (fill_info dn n info)) | None => (0, Some info) end).
Proof.
  intros Hok. split_and!.
  - destruct (neigh_add_spec t mem a hw Hok) as (r & t' & mem' & E & Hok' & _ & H). by exists r, t', mem'.
  - by apply neigh_id_inc_spec.
  - by apply neigh_ack_req_spec.
  - by apply neigh_set_rto_spec.
  - by apply neigh_query_spec.
Qed.

Lemma neigh_init_ok : neigh_ok neigh_tbl_init.
Proof.
  split; simpl; try done. apply NoDup_nil_2.
Qed.

Lemma neigh_tbl_map_witness :
  exists t', neigh_tbl_add neigh_tbl_init [] 7 [1;2;3;4;5;6] = Ret (1, t', [])
    /\ nview t' = <[7 := fresh_neighbor 7 [1;2;3;4;5;6]]> ∅.
Proof.
  destruct (neigh_tbl_map None neigh_tbl_init [] (Timeval 0 0) 7 [1;2;3;4;5;6] (NeighborInfo [] 0 0 0 (Timeval 0 0)) neigh_init_ok)
    as [(r & t' & mem' & E & _ & Hr) _].
  destruct Hr as [(_ & Hf & _)|[-> Hv]]; [discriminate|].
  exists t'. split; [|exact Hv]. rewrite E. vm_compute in E. by injection E as _ <-.
Defined.

(** ** The round-trip estimate *)

(** With samples of at most [R] microseconds the smoothed estimate follows
    [srtt + rtt - 1 - srtt/8] exactly (at least 1), never wraps, and stays
    within [8 R]: eight times the largest sample. *)
Theorem rtt_estimate_bounded R srtt rttvar rtt :
  0 <= R < 2 ^ 27 -> 0 <= rtt <= R -> 0 <= srtt <= 8 * R ->
  (rtt_estimate srtt rttvar rtt).1 =
    (if srtt =? 0 then 8 * rtt else Z.max 1 (srtt + rtt - 1 - srtt / 8))
  /\ 0 <= (rtt_estimate srtt rttvar rtt).1 <= Z.max 1 (8 * R).
Proof.
  intros HR Hrtt Hs.
  assert (E : (rtt_estimate srtt rttvar rtt).1 =
    (if srtt =? 0 then 8 * rtt else Z.max 1 (srtt + rtt - 1 - srtt / 8))).
  { unfold rtt_estimate. destruct (srtt =? 0) eqn:E0; zb; simpl.
    - unfold RTT_SHIFT. rewrite Z.shiftl_mul_pow2 by lia. rewrite u64_small; lia.
    - unfold RTT_SHIFT. rewrite Z.shiftr_div_pow2 by lia. change (2 ^ 3) with 8.
      pose proof (Z.div_pos srtt 8). pose proof (Z.div_le_upper_bound srtt 8 R).
      assert (s32 (u64 (rtt - 1 - srtt / 8)) = rtt - 1 - srtt / 8) as ->.
      { unfold s32, u64. replace ((rtt - 1 - srtt / 8) mod 2 ^ 64 + 2 ^ 31) with
          ((rtt - 1 - srtt / 8) mod 2 ^ 64 + 2 ^ 31) by done.
        rewrite Zplus_mod, <- (Znumtheory.Zmod_div_mod (2 ^ 32) (2 ^ 64)) by (try lia; exists (2 ^ 32); lia).
        rewrite <- Zplus_mod, Z.mod_small by lia. lia. }
      pose proof (Z.div_mod srtt 8). pose proof (Z.mod_pos_bound srtt 8).
      rewrite u64_small by lia. case_if; lia. }
  split; [exact E|]. rewrite E. destruct (srtt =? 0) eqn:E0; zb; [lia|].
  pose proof (Z.div_mod srtt 8). pose proof (Z.mod_pos_bound srtt 8). lia.
Qed.

Lemma rtt_estimate_bounded_witness :
  (rtt_estimate 800 60 50).1 = 749 /\ (rtt_estimate 800 60 50).1 <= Z.max 1 (8 * 100).
Proof.
  destruct (rtt_estimate_bounded 100 800 60 50) as [H1 H2]; [lia..|].
  split; [rewrite H1; reflexivity | apply H2].
Defined.

(** The operations of the table. *)
Inductive neigh_step : tbl neighbor -> tbl neighbor -> Prop :=
| nst_add t mem a hw r t' mem' : neigh_tbl_add t mem a hw = Ret (r, t', mem') -> neigh_step t t'
| nst_id_inc t a r t' : neigh_tbl_id_inc t a = Ret (r, t') -> neigh_step t t'
| nst_ack_req t now a r t' : neigh_tbl_set_ack_req_time t now a = Ret (r, t') -> neigh_step t t'
| nst_set_rto t a info r t' : neigh_tbl_set_rto t a info = Ret (r, t') -> neigh_step t t'.

Lemma neigh_step_ok t t' : neigh_step t t' -> neigh_ok t -> neigh_ok t'.
Proof.
  intros [s mem b hw r s' mem' H|s b r s' H|s now b r s' H|s b i r s' H] Hok.
  - destruct (neigh_add_spec s mem b hw Hok) as (? & ? & ? & E & ? & _ & _). congruence.
  - destruct (neigh_id_inc_spec s b Hok) as (? & E & ? & _). congruence.
  - destruct (neigh_ack_req_spec s now b Hok) as (? & E & ? & _). congruence.
  - destruct (neigh_set_rto_spec s b i Hok) as (? & E & ? & _). congruence.
Qed.

(** whatever samples were taken, the timeout a query gives for a neighbour is
    between 10 ms and 640 ms when the configured round-trip timeout is 0 (dynamic
    measurement), and the configured one otherwise. *)
Theorem neigh_rto_bounds dn t a info r info' :
  rtc neigh_step neigh_tbl_init t ->
  neigh_tbl_query dn t a (Some info) = Ret (r, Some info') -> r = 1 ->
  let conf := confval_to_usecs dn RoundTripTimeout in
  (conf = 0 -> 10000 <= i_rto info' <= 640000) /\ (conf <> 0 -> i_rto info' = conf).
Proof.
  intros Hr Hq -> conf. assert (Hok : neigh_ok t).
  { pose proof neigh_init_ok as H0. induction Hr; eauto using neigh_step_ok. }
  pose proof (neigh_query_spec dn t a info Hok) as E.
  rewrite E in Hq. destruct (nview t !! a) as [n|] eqn:En; [|done]. injection Hq as <-.
  assert (Hn : DSR_MIN <= t_rxtcur n <= DSR_REXMTMAX).
  { unfold nview in En. rewrite nview_find in En by apply Hok.
    destruct (find_pos _ (elems t)) as [[i m]|] eqn:Ef; [|done]. injection En as ->.
    apply find_pos_Some in Ef as (_ & _ & _ & _ & Hl).
    pose proof (nk_rto _ Hok) as Hf. rewrite Forall_lookup in Hf. apply Hf in Hl. apply Hl. }
  unfold DSR_MIN, DSR_REXMTMAX in Hn. unfold fill_info. fold conf. simpl. split.
  - intros ->. simpl. unfold PR_SLOWHZ. rewrite u64_small by lia.
    split; [apply Z.div_le_lower_bound | apply Z.div_le_upper_bound]; lia.
  - intros Hne. apply Z.eqb_neq in Hne. by rewrite Hne.
Qed.

Lemma neigh_rto_bounds_witness :
  exists t, neigh_step neigh_tbl_init t
    /\ exists i', neigh_tbl_query None t 7 (Some (NeighborInfo [] 0 0 0 (Timeval 0 0))) = Ret (1, Some i')
         /\ 10000 <= i_rto i' <= 640000.
Proof.
  destruct (neigh_tbl_add neigh_tbl_init [] 7 [1;2;3;4;5;6]) as [[[r t] m]|] eqn:E; [|discriminate].
  pose proof (nst_add _ _ _ _ _ _ _ E) as Hst. exists t. split; [exact Hst|].
  destruct (neigh_tbl_query None t 7 (Some (NeighborInfo [] 0 0 0 (Timeval 0 0)))) as [[q [i|]]|] eqn:Eq;
    vm_compute in E; injection E as <- <- <-; [|vm_compute in Eq; discriminate..].
  assert (Hq : q = 1) by (vm_compute in Eq; by injection Eq as <- _). rewrite Hq in *.
  exists i. split; [reflexivity|].
  destruct (neigh_rto_bounds None _ 7 _ 1 i (rtc_once _ _ Hst) Eq eq_refl) as [H _]. apply H. reflexivity.
Defined.
