(* ===== verification/RreqTbl.v ===== *)
(** * The route request table (dsr-rreq.c)

    One entry per node: the identifications of the requests seen from it, and
    the state of the route discovery for it.  The table holds pointers to the
    entries in a heap, since an entry is changed while it is on the table and its
    timer carries its address.  The [timer] field stands for the timer block.
    [dsr_rreq_send] belongs to the packet level: here it is the parameter [send]
    acting on a state [W] this file knows nothing about. *)

From S2P Require Import Prelude Timer Config Tbl.


Definition MAXTTL : Z := 255.
Definition TTL_START : Z := 1.

Inductive disc_state := STATE_IDLE | STATE_IN_ROUTE_DISC.

#[export] Instance disc_state_eq_dec : EqDecision disc_state.
Proof. solve_decision. Defined.

Record id_entry := IdEntry { trg_addr : Z; id_id : Z }.

#[export] Instance id_entry_eq_dec : EqDecision id_entry.
Proof. solve_decision. Defined.

Record rreq_tbl_entry := RreqTblEntry {
  e_state : disc_state;
  node_addr : Z;
  e_ttl : Z;
  e_timer : timer;
  e_last_used : timeval;
  e_timeout : Z;
  num_rexmts : Z;
  rreq_id_tbl : tbl id_entry
}.

Record rreq_tbl_st := RreqTblSt {
  rreq_tbl : tbl ptr;
  rreq_heap : gmap ptr rreq_tbl_entry;
  rreq_next : ptr
}.

Definition set_rtbl (r : rreq_tbl_st) (t : tbl ptr) : rreq_tbl_st :=
  RreqTblSt t (rreq_heap r) (rreq_next r).
Definition set_rheap (r : rreq_tbl_st) (h : gmap ptr rreq_tbl_entry) : rreq_tbl_st :=
  RreqTblSt (rreq_tbl r) h (rreq_next r).
Definition put_entry (r : rreq_tbl_st) (p : ptr) (e : rreq_tbl_entry) : rreq_tbl_st :=
  set_rheap r (<[p := e]> (rreq_heap r)).

Definition set_state (e : rreq_tbl_entry) (s : disc_state) : rreq_tbl_entry :=
  RreqTblEntry s (node_addr e) (e_ttl e) (e_timer e) (e_last_used e) (e_timeout e) (num_rexmts e) (rreq_id_tbl e).
Definition set_etimer (e : rreq_tbl_entry) (t : timer) : rreq_tbl_entry :=
  RreqTblEntry (e_state e) (node_addr e) (e_ttl e) t (e_last_used e) (e_timeout e) (num_rexmts e) (rreq_id_tbl e).
Definition set_last_used (e : rreq_tbl_entry) (tv : timeval) : rreq_tbl_entry :=
  RreqTblEntry (e_state e) (node_addr e) (e_ttl e) (e_timer e) tv (e_timeout e) (num_rexmts e) (rreq_id_tbl e).
Definition set_backoff (e : rreq_tbl_entry) (ttl timeout rexmts : Z) : rreq_tbl_entry :=
  RreqTblEntry (e_state e) (node_addr e) ttl (e_timer e) (e_last_used e) timeout rexmts (rreq_id_tbl e).
Definition set_ids (e : rreq_tbl_entry) (t : tbl id_entry) : rreq_tbl_entry :=
  RreqTblEntry (e_state e) (node_addr e) (e_ttl e) (e_timer e) (e_last_used e) (e_timeout e) (num_rexmts e) t.

Definition crit_addr (h : gmap ptr rreq_tbl_entry) : criteria_t ptr Z := fun pos a =>
  e ← deref (h !! pos); Ret (node_addr e =? a).

(** The query is initiator, target and identification. *)
Definition crit_duplicate (h : gmap ptr rreq_tbl_entry) : criteria_t ptr (Z * Z * Z) := fun pos q =>
  e ← deref (h !! pos);
  if node_addr e =? q.1.1 then
    Ret (existsb (fun id_e => (trg_addr id_e =? q.1.2) && (id_id id_e =? q.2)) (elems (rreq_id_tbl e)))
  else Ret false.

Definition rreq_tbl_set_max_len (r : rreq_tbl_st) (max_len : Z) : rreq_tbl_st :=
  set_rtbl r (Tbl (elems (rreq_tbl r)) (len (rreq_tbl r)) max_len (locked (rreq_tbl r))).

Section Send.
Context {W : Type} (send : Z -> Z -> W -> outcome W).

(** Runs when the timer of [e] expires. *)
Definition rreq_tbl_timeout (dn : option dsr_node) (now : timeval) (e : option ptr) (r : rreq_tbl_st) (w : W)
  : outcome (rreq_tbl_st * W) :=
  match e with
  | None => Ret (r, w)
  | Some p =>
      '(_, t1) ← tbl_detach (rreq_tbl r) (fun x => x =? p);
      let r1 := set_rtbl r t1 in
      e ← deref (rreq_heap r1 !! p);
      if num_rexmts e >=? get_confval dn MaxRequestRexmt then
        (* MAX RREQs reached *)
        let r2 := put_entry r1 p (set_state e STATE_IDLE) in
        '(_, t2) ← tbl_add_tail (rreq_tbl r2) p;
        Ret (set_rtbl r2 t2, w)
      else
        let timeout := u64 (e_timeout e * 2) in (* Double timeout *)
        let ttl := s32 (e_ttl e * 2) in (* Double TTL *)
        let ttl := if MAXTTL <? ttl then MAXTTL else ttl in
        let max := confval_to_usecs dn MaxRequestPeriod in
        let timeout := if max <? timeout then max else timeout in
        let e1 := set_last_used (set_backoff e ttl timeout (u32 (num_rexmts e + 1))) now in
        let r2 := put_entry r1 p e1 in
        w1 ← send (node_addr e1) (e_ttl e1) w;
        let expires := timeval_add_usecs (e_last_used e1) (e_timeout e1) in
        (* Put at end of list *)
        '(_, t2) ← tbl_add_tail (rreq_tbl r2) p;
        Ret (put_entry (set_rtbl r2 t2) p (set_etimer e1 (set_timer (e_timer e1) expires)), w1)
  end.
End Send.

(** Both blocks, the entry and its timer; [timeout] and [last_used] start
    undefined, they are written before they are read. *)
Definition __rreq_tbl_entry_create (dn : option dsr_node) (mem : oracle) (node_addr : Z)
  : option rreq_tbl_entry * oracle :=
  let '(ok, mem1) := kmalloc mem in
  if ok then
    let '(ok2, mem2) := kmalloc mem1 in
    if ok2 then
      (Some (RreqTblEntry STATE_IDLE node_addr 0 None (Timeval 0 0) 0 0
               (INIT_TBL (get_confval dn RequestTableIds))), mem2)
    else (None, mem2)
  else (None, mem1).

Definition __rreq_tbl_add (dn : option dsr_node) (mem : oracle) (node_addr : Z) (r : rreq_tbl_st)
  : outcome (option ptr * rreq_tbl_st * oracle) :=
  let '(e, mem1) := __rreq_tbl_entry_create dn mem node_addr in
  match e with
  | None => Ret (None, r, mem1)
  | Some e =>
      let p := rreq_next r in
      let r1 := RreqTblSt (rreq_tbl r) (<[p := e]> (rreq_heap r)) (p + 1) in
      r2 ← (if TBL_FULL (rreq_tbl r1) then
              f ← deref (TBL_FIRST (rreq_tbl r1));
              '(_, t) ← __tbl_detach (rreq_tbl r1) (fun x => x =? f);
              fe ← deref (rreq_heap r1 !! f);
              '(ids, _) ← tbl_flush (rreq_id_tbl fe) None ();
              Ret (set_rheap (set_rtbl r1 t) (delete f (rreq_heap r1)))
            else Ret r1);
      let '(_, t) := __tbl_add_tail (rreq_tbl r2) p in
      Ret (Some p, set_rtbl r2 t, mem1)
  end.

(** The entry of [addr], moved last, or a new one. *)
Definition rreq_entry_last (dn : option dsr_node) (mem : oracle) (addr : Z) (r : rreq_tbl_st)
  : outcome (option ptr * rreq_tbl_st * oracle) :=
  e ← __tbl_find (rreq_tbl r) addr (crit_addr (rreq_heap r));
  match e with
  | None => __rreq_tbl_add dn mem addr r
  | Some p =>
      (* Put it last in the table *)
      '(_, t1) ← __tbl_detach (rreq_tbl r) (fun x => x =? p);
      let '(_, t2) := __tbl_add_tail t1 p in
      Ret (Some p, set_rtbl r t2, mem)
  end.

(** Returns 1 whether or not the identification was stored. *)
Definition rreq_tbl_add_id (dn : option dsr_node) (mem : oracle) (now : timeval)
    (initiator target id : Z) (r : rreq_tbl_st) : outcome (Z * rreq_tbl_st * oracle) :=
  t0 ← write_lock_bh (rreq_tbl r);
  '(e, r1, mem1) ← rreq_entry_last dn mem initiator (set_rtbl r t0);
  match e with
  | None => Ret (1, set_rtbl r1 (write_unlock_bh (rreq_tbl r1)), mem1)
  | Some p =>
      e0 ← deref (rreq_heap r1 !! p);
      let e1 := set_last_used e0 now in
      ids ← (if TBL_FULL (rreq_id_tbl e1)
             then '(_, t) ← tbl_del_first (rreq_id_tbl e1); Ret t
             else Ret (rreq_id_tbl e1));
      let '(ok, mem2) := kmalloc mem1 in
      if ok then
        '(_, ids2) ← tbl_add_tail ids (IdEntry target (u16 id));
        let r2 := put_entry r1 p (set_ids e1 ids2) in
        Ret (1, set_rtbl r2 (write_unlock_bh (rreq_tbl r2)), mem2)
      else
        let r2 := put_entry r1 p (set_ids e1 ids) in
        Ret (1, set_rtbl r2 (write_unlock_bh (rreq_tbl r2)), mem2)
  end.

Definition rreq_tbl_route_discovery_cancel (now : timeval) (dst : Z) (r : rreq_tbl_st)
  : outcome (Z * rreq_tbl_st) :=
  '(e, t1) ← tbl_find_detach (rreq_tbl r) dst (crit_addr (rreq_heap r));
  match e with
  | None => (* not in RREQ table *) Ret (-1, set_rtbl r t1)
  | Some p =>
      e ← deref (rreq_heap r !! p);
      let e1 := if decide (e_state e = STATE_IN_ROUTE_DISC) then set_etimer e (del_timer (e_timer e)) else e in
      let e2 := set_last_used (set_state e1 STATE_IDLE) now in
      '(_, t2) ← tbl_add_tail t1 p;
      Ret (1, put_entry (set_rtbl r t2) p e2)
  end.

Section Send2.
Context {W : Type} (send : Z -> Z -> W -> outcome W).

Definition dsr_rreq_route_discovery (dn : option dsr_node) (mem : oracle) (now : timeval) (target : Z)
    (r : rreq_tbl_st) (w : W) : outcome (Z * rreq_tbl_st * W * oracle) :=
  t0 ← write_lock_bh (rreq_tbl r);
  '(e, r1, mem1) ← rreq_entry_last dn mem target (set_rtbl r t0);
  match e with
  | None => Ret (- ENOMEM, set_rtbl r1 (write_unlock_bh (rreq_tbl r1)), w, mem1)
  | Some p =>
      e ← deref (rreq_heap r1 !! p);
      if decide (e_state e = STATE_IN_ROUTE_DISC) then
        (* already in progress *)
        Ret (0, set_rtbl r1 (write_unlock_bh (rreq_tbl r1)), w, mem1)
      else
        let ttl := TTL_START in
        let timeout := if ttl =? 1 then confval_to_usecs dn NonpropRequestTimeout
                       else confval_to_usecs dn RequestPeriod in
        let e1 := set_state (set_backoff (set_last_used e now) ttl timeout 0) STATE_IN_ROUTE_DISC in
        let expires := timeval_add_usecs (e_last_used e1) (e_timeout e1) in
        let e2 := set_etimer e1 (set_timer (e_timer e1) expires) in
        let r2 := put_entry r1 p e2 in
        let r3 := set_rtbl r2 (write_unlock_bh (rreq_tbl r2)) in
        w1 ← send target ttl w;
        Ret (1, r3, w1, mem1)
  end.
End Send2.

Definition dsr_rreq_duplicate (initiator target id : Z) (r : rreq_tbl_st) : outcome Z :=
  in_tbl (rreq_tbl r) (initiator, target, id) (crit_duplicate (rreq_heap r)).

Definition rreq_tbl_init : rreq_tbl_st := RreqTblSt (INIT_TBL RREQ_TBL_MAX_LEN) ∅ 1.

(** [while ((e = tbl_detach_first(&rreq_tbl)))]: frees the timers and the
    identifications, not the entries. *)
Fixpoint rreq_tbl_cleanup (fuel : nat) (r : rreq_tbl_st) : outcome rreq_tbl_st :=
  '(e, t) ← tbl_detach_first (rreq_tbl r);
  match e with
  | None => Ret (set_rtbl r t)
  | Some p =>
      match fuel with
      | O => Fault OutOfFuel
      | S fuel' =>
          e ← deref (rreq_heap r !! p);
          '(ids, _) ← tbl_flush (rreq_id_tbl e) None ();
          rreq_tbl_cleanup fuel' (put_entry (set_rtbl r t) p (set_ids (set_etimer e (del_timer (e_timer e))) ids))
      end
  end.

(** ** The invariant

    Entries are live, one per address; the timer of an entry is pending exactly
    while a route discovery runs; [K] is the capacity of the identification
    tables. *)

Record entry_ok (K : Z) (e : rreq_tbl_entry) : Prop := {
  eo_wf : tbl_wf (rreq_id_tbl e);
  eo_max : max_len (rreq_id_tbl e) = K;
  eo_free : locked (rreq_id_tbl e) = false;
  eo_state : e_state e = STATE_IN_ROUTE_DISC <-> timer_pending (e_timer e) = true
}.

Definition eaddr (r : rreq_tbl_st) (p : ptr) : option Z := node_addr <$> rreq_heap r !! p.

Record rq_ok (K : Z) (r : rreq_tbl_st) : Prop := {
  rq_wf : tbl_wf (rreq_tbl r);
  rq_max : max_len (rreq_tbl r) = RREQ_TBL_MAX_LEN;
  rq_nd : NoDup (elems (rreq_tbl r));
  rq_live : forall p, p ∈ elems (rreq_tbl r) -> exists e, rreq_heap r !! p = Some e /\ entry_ok K e;
  rq_addr : forall p q, p ∈ elems (rreq_tbl r) -> q ∈ elems (rreq_tbl r) -> eaddr r p = eaddr r q -> p = q;
  rq_fresh : forall p, rreq_next r <= p -> rreq_heap r !! p = None
}.

Lemma rq_ok_locked K r b :
  rq_ok K r ->
  rq_ok K (set_rtbl r (Tbl (elems (rreq_tbl r)) (len (rreq_tbl r)) (max_len (rreq_tbl r)) b)).
Proof. intros [H1 H2 H3 H4 H5 H6]. by split. Qed.

(** Replacing an entry by one with the same address. *)
Lemma rq_ok_put K r p e e' :
  rq_ok K r -> rreq_heap r !! p = Some e -> node_addr e' = node_addr e -> entry_ok K e' ->
  rq_ok K (put_entry r p e').
Proof.
  intros [H1 H2 H3 H4 H5 H6] He Ha Hok.
  assert (Hea : forall x, eaddr (put_entry r p e') x = eaddr r x).
  { intros x. unfold eaddr. simpl. rewrite lookup_insert. case_decide; [subst; by rewrite He; simpl; f_equal|done]. }
  split; simpl; try done.
  - intros x Hx. rewrite lookup_insert. case_decide; [eauto|by apply H4].
  - intros x y Hx Hy. rewrite !Hea. auto.
  - intros x Hx. rewrite lookup_insert_ne; [by apply H6|]. intros ->. rewrite H6 in He by done. done.
Qed.

(** Moving an entry last. *)
Lemma rq_ok_rotate K r p t1 t2 n :
  rq_ok K r -> p ∈ elems (rreq_tbl r) -> __tbl_detach (rreq_tbl r) (fun x => x =? p) = Ret (Some p, t1) ->
  __tbl_add_tail t1 p = (n, t2) ->
  rq_ok K (set_rtbl r t2) /\ elems t2 = elems t1 ++ [p] /\ elems (rreq_tbl r) ≡ₚ p :: elems t1
  /\ locked t2 = locked (rreq_tbl r).
Proof.
  intros Hok Hp Hd Ha. pose proof Hok as [H1 H2 H3 H4 H5 H6].
  destruct (tbl_detach_ptr _ p H1 Hp) as (t1' & E & Hperm & Hsub & Hw1 & Hm1 & Hk1).
  rewrite Hd in E. injection E as <-.
  assert (Hroom : len t1 < max_len t1).
  { destruct Hw1 as (-> & _ & _). destruct H1 as (_ & Hle & _). rewrite Hm1.
    apply Permutation_length in Hperm. unfold zlen in *. simpl in Hperm. lia. }
  destruct (tbl_add_tail_room t1 p Hw1 Hroom) as (n' & t2' & E & He & Hw2 & Hm2 & Hk2).
  rewrite Ha in E. injection E as <- <-.
  assert (Hperm2 : elems t2 ≡ₚ elems (rreq_tbl r)).
  { rewrite He, Hperm. symmetry. apply Permutation_cons_append. }
  split_and!; try done; [|congruence].
  split; simpl; try done.
  - congruence.
  - by rewrite Hperm2.
  - intros x. rewrite Hperm2. apply H4.
  - intros x y. rewrite Hperm2. apply H5.
Qed.

Lemma rq_find_spec K r a :
  rq_ok K r ->
  exists o, __tbl_find (rreq_tbl r) a (crit_addr (rreq_heap r)) = Ret o
    /\ match o with
       | Some p => p ∈ elems (rreq_tbl r) /\ eaddr r p = Some a
       | None => forall p, p ∈ elems (rreq_tbl r) -> eaddr r p <> Some a
       end.
Proof.
  intros Hok.
  destruct (tbl_find_total (rreq_tbl r) a (crit_addr (rreq_heap r)) (fun p => bool_decide (eaddr r p = Some a)))
    as (o & Ho & Hm).
  { intros p Hp. destruct (rq_live _ _ Hok p Hp) as (e & E & _). unfold crit_addr, eaddr. rewrite E. simpl.
    f_equal. destruct (node_addr e =? a) eqn:Ea; zb; case_bool_decide; naive_solver. }
  exists o. split; [done|]. destruct o as [p|].
  - destruct Hm as [? Hb]. by apply bool_decide_eq_true in Hb.
  - intros p Hp. specialize (Hm p Hp). by apply bool_decide_eq_false in Hm.
Qed.

Lemma new_entry_ok K n a :
  0 <= K < 2 ^ 32 -> entry_ok K (RreqTblEntry STATE_IDLE a 0 None (Timeval 0 0) 0 n (INIT_TBL K)).
Proof. intros HK. split; simpl; try done. Qed.

(** Room in the table for the entry [e] at [p]: [k] entries are gone from the
    front, the others as they were. *)
Record roomy (r : rreq_tbl_st) (k : nat) (p : ptr) (e : rreq_tbl_entry) (r' : rreq_tbl_st) : Prop := {
  ry_elems : elems (rreq_tbl r') = drop k (elems (rreq_tbl r));
  ry_wf : tbl_wf (rreq_tbl r');
  ry_max : max_len (rreq_tbl r') = RREQ_TBL_MAX_LEN;
  ry_len : len (rreq_tbl r') < RREQ_TBL_MAX_LEN;
  ry_lock : locked (rreq_tbl r') = locked (rreq_tbl r);
  ry_old x : x ∈ elems (rreq_tbl r') -> rreq_heap r' !! x = rreq_heap r !! x;
  ry_new : rreq_heap r' !! p = Some e;
  ry_fresh x : p + 1 <= x -> rreq_heap r' !! x = None;
  ry_next : rreq_next r' = p + 1
}.

Lemma next_not_in K r : rq_ok K r -> rreq_next r ∉ elems (rreq_tbl r).
Proof.
  intros Hok Hp. destruct (rq_live _ _ Hok _ Hp) as (x & Ex & _). by rewrite (rq_fresh _ _ Hok) in Ex by lia.
Qed.

(** When the table is full, its first entry goes. *)
Lemma rreq_make_room K r e :
  rq_ok K r ->
  let p := rreq_next r in
  let r1 := RreqTblSt (rreq_tbl r) (<[p := e]> (rreq_heap r)) (p + 1) in
  exists r2,
    (if TBL_FULL (rreq_tbl r1) then
       f ← deref (TBL_FIRST (rreq_tbl r1));
       '(_, t) ← __tbl_detach (rreq_tbl r1) (fun x => x =? f);
       fe ← deref (rreq_heap r1 !! f);
       '(ids, _) ← tbl_flush (rreq_id_tbl fe) None ();
       Ret (set_rheap (set_rtbl r1 t) (delete f (rreq_heap r1)))
     else Ret r1) = Ret r2
    /\ roomy r (if decide (len (rreq_tbl r) < RREQ_TBL_MAX_LEN) then 0 else 1) p e r2.
Proof.
  intros Hok p r1. pose proof (next_not_in _ _ Hok) as Hpn. pose proof Hok as [(Hl & Hle & Hx) H2 H3 H4 H5 H6].
  rewrite H2 in Hle.
  assert (Hfresh : forall x, p + 1 <= x -> <[p := e]> (rreq_heap r) !! x = None).
  { intros x Hx'. rewrite lookup_insert_ne by lia. apply H6. unfold p in Hx'. lia. }
  assert (Hsame : forall x, x ∈ elems (rreq_tbl r) -> <[p := e]> (rreq_heap r) !! x = rreq_heap r !! x).
  { intros x Hx'. rewrite lookup_insert_ne; [done|]. intros <-. done. }
  unfold TBL_FULL. cbn [rreq_tbl rreq_heap r1]. destruct (len (rreq_tbl r) >=? max_len (rreq_tbl r)) eqn:Efull; zb.
  2: { exists r1. split; [done|]. rewrite decide_True by lia.
       split; try done; simpl; [by split_and!; [|rewrite H2|]|lia|by rewrite lookup_insert_eq]. }
  rewrite decide_False by lia. unfold TBL_FIRST. destruct (elems (rreq_tbl r)) as [|f rest] eqn:Ee.
  { unfold zlen in *. simpl in *. unfold RREQ_TBL_MAX_LEN in *. lia. }
  simpl. destruct (H4 f ltac:(by left)) as (fe & Ef & Hfe).
  assert (Hdet : __tbl_detach (rreq_tbl r) (fun x => x =? f) = Ret (Some f, set_elems (rreq_tbl r) rest (u32 (len (rreq_tbl r) - 1)))).
  { unfold __tbl_detach, TBL_EMPTY. rewrite Ee. simpl. by rewrite Z.eqb_refl. }
  rewrite Hdet. simpl. rewrite Hsame, Ef by (by left). simpl.
  unfold tbl_flush, write_lock_bh. rewrite (eo_free _ _ Hfe). simpl.
  destruct (__tbl_flush _ _ _) as [ids ?]. simpl. eexists. split; [reflexivity|].
  apply NoDup_cons in H3 as [Hfn H3]. rewrite zlen_cons in *. pose proof (zlen_nonneg rest).
  split; simpl; try done.
  - by rewrite Ee.
  - unfold tbl_wf. simpl. rewrite u32_small by lia. lia.
  - rewrite u32_small by lia. lia.
  - intros x Hx'. rewrite lookup_delete_ne by (intros <-; done). apply Hsame. by right.
  - rewrite lookup_delete_ne; [by rewrite lookup_insert_eq|]. intros E. apply Hpn. fold p. rewrite <- E. by left.
  - intros x Hx'. apply lookup_delete_None. right. by apply Hfresh.
Qed.

(** The new entry is put last. *)
Lemma rreq_put_last K r k e r2 n t a :
  rq_ok K r -> roomy r k (rreq_next r) e r2 -> entry_ok K e -> node_addr e = a ->
  (forall x, x ∈ elems (rreq_tbl r) -> eaddr r x <> Some a) ->
  __tbl_add_tail (rreq_tbl r2) (rreq_next r) = (n, t) ->
  rq_ok K (set_rtbl r2 t) /\ elems t = drop k (elems (rreq_tbl r)) ++ [rreq_next r] /\ locked t = locked (rreq_tbl r).
Proof.
  intros Hok [He Hwf Hm Hlt Hk Hold Hnew Hfr Hnx] Hek Hea Hno Ha. pose proof Hok as [H1 H2 H3 H4 H5 H6].
  pose proof (next_not_in _ _ Hok) as Hpn. set (p := rreq_next r) in *.
  destruct (tbl_add_tail_room (rreq_tbl r2) p Hwf ltac:(lia)) as (n' & t' & E & He' & Hw' & Hm' & Hk').
  rewrite Ha in E. injection E as <- <-. split; [|split; [by rewrite He', He|congruence]].
  assert (Hsub : forall x, x ∈ elems (rreq_tbl r2) -> x ∈ elems (rreq_tbl r)).
  { intros x. rewrite He. intros Hx. eapply sublist_subseteq; [apply sublist_drop|exact Hx]. }
  assert (Hadr : forall x, x ∈ elems (rreq_tbl r2) -> eaddr (set_rtbl r2 t) x = eaddr r x).
  { intros x Hx. unfold eaddr. simpl. by rewrite Hold. }
  assert (Hadp : eaddr (set_rtbl r2 t) p = Some a) by (unfold eaddr; simpl; by rewrite Hnew, <- Hea).
  split; simpl; try done.
  - congruence.
  - rewrite He'. apply NoDup_app. split_and!; [rewrite He; eapply sublist_NoDup; [done|apply sublist_drop] | | apply NoDup_singleton].
    intros x Hx Hxp. assert (x = p) as -> by set_solver. by apply Hpn, Hsub.
  - intros x. rewrite He'. intros [Hx|Hx]%elem_of_app; [rewrite Hold by done; by apply H4, Hsub|].
    assert (x = p) as -> by set_solver. by exists e.
  - intros x y. rewrite He', !elem_of_app, !list_elem_of_singleton. intros [Hx| ->] [Hy| ->] Hxy; try done.
    + rewrite !Hadr in Hxy by done. apply H5; auto.
    + rewrite Hadr, Hadp in Hxy by done. by apply Hno in Hxy; [|apply Hsub].
    + rewrite (Hadr y), Hadp in Hxy by done. symmetry in Hxy. by apply Hno in Hxy; [|apply Hsub].
  - intros x. rewrite Hnx. apply Hfr.
Qed.

(** A new entry is put last; when the table is full the first entry goes. *)
Lemma rreq_add_spec K dn mem a r :
  rq_ok K r -> get_confval dn RequestTableIds = K -> 0 <= K < 2 ^ 32 -> false ∉ mem ->
  (forall p, p ∈ elems (rreq_tbl r) -> eaddr r p <> Some a) ->
  exists r' mem' e, __rreq_tbl_add dn mem a r = Ret (Some (rreq_next r), r', mem')
    /\ rq_ok K r' /\ (false ∉ mem') /\ locked (rreq_tbl r') = locked (rreq_tbl r)
    /\ rreq_heap r' !! rreq_next r = Some e /\ node_addr e = a /\ e_state e = STATE_IDLE
    /\ e_timer e = None /\ elems (rreq_id_tbl e) = []
    /\ elems (rreq_tbl r') = drop (if decide (len (rreq_tbl r) < RREQ_TBL_MAX_LEN) then 0 else 1) (elems (rreq_tbl r))
                              ++ [rreq_next r]
    /\ (forall p, p ∈ elems (rreq_tbl r') -> p <> rreq_next r -> rreq_heap r' !! p = rreq_heap r !! p).
Proof.
  intros Hok HK HKb Hmem Hno. unfold __rreq_tbl_add, __rreq_tbl_entry_create.
  destruct (kmalloc_free mem Hmem) as (m1 & -> & Hm1). destruct (kmalloc_free m1 Hm1) as (m2 & -> & Hm2). rewrite HK.
  set (e := RreqTblEntry STATE_IDLE a 0 None (Timeval 0 0) 0 0 (INIT_TBL K)).
  destruct (rreq_make_room K r e Hok) as (r2 & -> & Hr2). simpl.
  destruct (__tbl_add_tail (rreq_tbl r2) (rreq_next r)) as [n t] eqn:Et.
  destruct (rreq_put_last _ _ _ e r2 n t a Hok Hr2 ltac:(by apply new_entry_ok) eq_refl Hno Et) as (Hok' & He & Hk).
  exists (set_rtbl r2 t), m2, e. split_and!; try done.
  - apply (ry_new _ _ _ _ _ Hr2).
  - intros x Hx Hne. simpl in *. apply (ry_old _ _ _ _ _ Hr2). rewrite He in Hx.
    rewrite (ry_elems _ _ _ _ _ Hr2). apply elem_of_app in Hx as [Hx|Hx]; [done|]. set_solver.
Qed.

(** ** Recording requests *)

Lemma rq_entry_last_spec K dn mem a r :
  rq_ok K r -> get_confval dn RequestTableIds = K -> 0 <= K < 2 ^ 32 -> false ∉ mem ->
  exists p r' mem' e l1, rreq_entry_last dn mem a r = Ret (Some p, r', mem')
    /\ rq_ok K r' /\ (false ∉ mem') /\ locked (rreq_tbl r') = locked (rreq_tbl r)
    /\ rreq_heap r' !! p = Some e /\ node_addr e = a /\ entry_ok K e
    /\ elems (rreq_tbl r') = l1 ++ [p] /\ (p ∉ l1)
    /\ (forall x, x ∈ l1 -> rreq_heap r' !! x = rreq_heap r !! x)
    /\ ((rreq_heap r !! p = Some e /\ exists u v, elems (rreq_tbl r) = u ++ p :: v /\ l1 = u ++ v)
        \/ ((forall q, q ∈ elems (rreq_tbl r) -> eaddr r q <> Some a) /\ (p ∉ elems (rreq_tbl r))
            /\ e_state e = STATE_IDLE /\ elems (rreq_id_tbl e) = []
            /\ l1 = drop (if decide (len (rreq_tbl r) < RREQ_TBL_MAX_LEN) then 0 else 1) (elems (rreq_tbl r)))).
Proof.
  intros Hok HK HKb Hmem. unfold rreq_entry_last.
  destruct (rq_find_spec K r a Hok) as (o & -> & Ho). simpl. destruct o as [p|].
  - destruct Ho as [Hp Ha]. destruct (rq_live _ _ Hok p Hp) as (e & He & Heok).
    destruct (tbl_detach_split _ p (rq_wf _ _ Hok) Hp) as (t1 & u & v & Hd & E1 & E2).
    rewrite Hd. simpl. destruct (__tbl_add_tail t1 p) as [n t2] eqn:Et.
    destruct (rq_ok_rotate K r p t1 t2 n Hok Hp Hd Et) as (Hok' & He2 & Hperm & Hk).
    exists p, (set_rtbl r t2), mem, e, (u ++ v). split_and!; try done.
    + unfold eaddr in Ha. rewrite He in Ha. by injection Ha.
    + simpl. by rewrite He2, E2.
    + pose proof (rq_nd _ _ Hok) as Hnd. rewrite Hperm, E2 in Hnd. by apply NoDup_cons in Hnd as [? _].
    + left. split; [done|]. by exists u, v.
  - destruct (rreq_add_spec K dn mem a r Hok HK HKb Hmem Ho)
      as (r' & mem' & e & -> & Hok' & Hm' & Hk & He & Hea & Hst & Htm & Hids & Hel & Hold).
    pose proof (rq_nd _ _ Hok') as Hnd. rewrite Hel in Hnd. apply NoDup_app in Hnd as (_ & Hdis & _).
    assert (Hpn : rreq_next r ∉ drop (if decide (len (rreq_tbl r) < RREQ_TBL_MAX_LEN) then 0 else 1) (elems (rreq_tbl r))).
    { intros Hx. apply (Hdis _ Hx). by left. }
    destruct (rq_live _ _ Hok' (rreq_next r)) as (e' & He' & Heok); [rewrite Hel; set_solver|].
    rewrite He in He'. injection He' as <-.
    eexists (rreq_next r), r', mem', e, _. split_and!; try done.
    + intros x Hx. apply Hold; [rewrite Hel; set_solver|]. intros ->. done.
    + right. split_and!; try done. intros Hx. destruct (rq_live _ _ Hok _ Hx) as (x & Ex & _).
      rewrite (rq_fresh _ _ Hok) in Ex; [done | lia].
Qed.

(** The identification table of an entry after one more identification. *)
Lemma ids_add K e x :
  entry_ok K e -> 0 < K < 2 ^ 31 ->
  exists ids ids' n, (if TBL_FULL (rreq_id_tbl e) then '(_, t) ← tbl_del_first (rreq_id_tbl e); Ret t
                      else Ret (rreq_id_tbl e)) = Ret ids
    /\ tbl_add_tail ids x = Ret (n, ids')
    /\ elems ids' = drop (if decide (len (rreq_id_tbl e) < K) then 0 else 1) (elems (rreq_id_tbl e)) ++ [x]
    /\ tbl_wf ids' /\ max_len ids' = K /\ locked ids' = false.
Proof.
  intros [Hwf Hm Hk _] HK. destruct (rreq_id_tbl e) as [es ln mx lk]. simpl in *. subst mx lk.
  destruct Hwf as (Hl & Hle & Hx). simpl in *. unfold TBL_FULL. simpl. pose proof (zlen_nonneg es).
  destruct (ln >=? K) eqn:Ef; zb.
  - rewrite decide_False by lia. destruct es as [|y es]; [unfold zlen in *; simpl in *; lia|].
    rewrite zlen_cons in *. pose proof (zlen_nonneg es).
    unfold tbl_del_first, tbl_detach_first, write_lock_bh, __tbl_detach_first. simpl.
    eexists _, _, _. split; [done|]. unfold tbl_add_tail, write_lock_bh, __tbl_add_tail. simpl.
    rewrite !u32_small by lia. destruct (ln - 1 >=? K) eqn:E2; zb; [lia|]. split; [done|]. simpl.
    split_and!; try done; unfold tbl_wf; simpl; autorewrite with dsr_rw; lia.
  - rewrite decide_True by lia. eexists _, _, _. split; [done|].
    unfold tbl_add_tail, write_lock_bh, __tbl_add_tail. simpl.
    destruct (ln >=? K) eqn:E2; zb; [lia|]. split; [done|]. simpl. rewrite u32_small by lia.
    split_and!; try done; unfold tbl_wf; simpl; autorewrite with dsr_rw; lia.
Qed.

Lemma rreq_add_id_spec K dn mem now a t i r :
  rq_ok K r -> locked (rreq_tbl r) = false -> get_confval dn RequestTableIds = K -> 0 < K < 2 ^ 31 -> false ∉ mem ->
  exists r' mem' p e e' l1, rreq_tbl_add_id dn mem now a t i r = Ret (1, r', mem')
    /\ rq_ok K r' /\ locked (rreq_tbl r') = false /\ (false ∉ mem')
    /\ elems (rreq_tbl r') = l1 ++ [p] /\ (p ∉ l1) /\ rreq_heap r' !! p = Some e' /\ node_addr e' = a
    /\ node_addr e = a
    /\ elems (rreq_id_tbl e') = drop (if decide (len (rreq_id_tbl e) < K) then 0 else 1) (elems (rreq_id_tbl e))
                                 ++ [IdEntry t (u16 i)]
    /\ len (rreq_id_tbl e) = zlen (elems (rreq_id_tbl e))
    /\ (forall x, x ∈ l1 -> rreq_heap r' !! x = rreq_heap r !! x)
    /\ ((rreq_heap r !! p = Some e /\ exists u v, elems (rreq_tbl r) = u ++ p :: v /\ l1 = u ++ v)
        \/ ((forall q, q ∈ elems (rreq_tbl r) -> eaddr r q <> Some a) /\ (p ∉ elems (rreq_tbl r))
            /\ elems (rreq_id_tbl e) = []
            /\ l1 = drop (if decide (len (rreq_tbl r) < RREQ_TBL_MAX_LEN) then 0 else 1) (elems (rreq_tbl r)))).
Proof.
  intros Hok Hk HK HKb Hmem. unfold rreq_tbl_add_id, write_lock_bh. rewrite Hk. simpl.
  destruct (rq_entry_last_spec K dn mem a _ (rq_ok_locked K r true Hok) HK ltac:(lia) Hmem)
    as (p & r1 & m1 & e & l1 & -> & Hok1 & Hm1 & Hk1 & He & Hea & Heok & Hel & Hpl & Hold & Hcase).
  simpl. rewrite He. simpl.
  destruct (ids_add K (set_last_used e now) (IdEntry t (u16 i))) as (ids & ids' & n & E1 & E2 & E3 & E4 & E5 & E6).
  { by destruct Heok. }
  { lia. }
  change (rreq_id_tbl e) with (rreq_id_tbl (set_last_used e now)). rewrite E1. simpl.
  destruct (kmalloc_free m1 Hm1) as (m2 & -> & Hm2). rewrite E2. simpl.
  set (e' := set_ids (set_last_used e now) ids').
  assert (Hok2 : rq_ok K (put_entry r1 p e')).
  { eapply rq_ok_put; try done. destruct Heok as [W1 W2 W3 W4]. by split. }
  eexists _, m2, p, e, e', l1. split; [done|]. split_and!; try done.
  - by apply (rq_ok_locked K _ false) in Hok2.
  - simpl. by rewrite lookup_insert_eq.
  - destruct Heok as [(W & _) _ _ _]. done.
  - intros x Hx. simpl. rewrite lookup_insert_ne by (intros <-; done). by apply Hold.
  - destruct Hcase as [[H1 H2]|(H1 & H4 & _ & H2 & H3)]; [by left|by right].
Qed.

(** The identification [x] of initiator [a] has at most [d] entries after its
    entry and at most [d] identifications after it. *)
Definition recent (r : rreq_tbl_st) (a : Z) (x : id_entry) (d : nat) : Prop :=
  exists p e l1 l2 k1 k2, elems (rreq_tbl r) = l1 ++ p :: l2 /\ rreq_heap r !! p = Some e /\ node_addr e = a
    /\ elems (rreq_id_tbl e) = k1 ++ x :: k2 /\ (length l2 <= d)%nat /\ (length k2 <= d)%nat.

Lemma drop_keep {A} (l : list A) k1 x k2 (c : bool) (d : nat) z :
  l = k1 ++ x :: k2 -> (length k2 <= d)%nat -> (c = false -> (S d < length l)%nat) ->
  exists k1' k2', drop (if c then 0 else 1)%nat l ++ [z] = k1' ++ x :: k2' /\ (length k2' <= S d)%nat.
Proof.
  intros -> Hk Hc. destruct c.
  - exists k1, (k2 ++ [z]). rewrite drop_0, <- app_assoc. split; [done|]. rewrite length_app. simpl. lia.
  - specialize (Hc eq_refl). rewrite length_app in Hc. simpl in Hc. destruct k1 as [|y k1]; [simpl in Hc; lia|].
    exists k1, (k2 ++ [z]). simpl. rewrite drop_0, <- app_assoc. split; [done|]. rewrite length_app. simpl. lia.
Qed.

Lemma decide_bool (P : Prop) `{Decision P} {A} (x y : A) :
  (if decide P then x else y) = if bool_decide P then x else y.
Proof. by destruct (decide P) as [HP|HP]; [rewrite bool_decide_eq_true_2 | rewrite bool_decide_eq_false_2]. Qed.

Lemma app_cons_split {A} (u v l1 l2 : list A) p q :
  u ++ p :: v = l1 ++ q :: l2 -> p <> q ->
  exists m1 m2, u ++ v = m1 ++ q :: m2 /\ (length m2 <= length l2)%nat.
Proof.
  revert l1. induction u as [|x u IH]; intros l1 E Hne; simpl in *.
  - destruct l1 as [|y l1]; simpl in E; injection E as -> ->; [done|]. exists l1, l2. done.
  - destruct l1 as [|y l1]; simpl in E.
    + injection E as -> <-. exists [], (u ++ v). split; [done|]. rewrite !length_app. simpl. lia.
    + injection E as -> E. destruct (IH l1 E Hne) as (m1 & m2 & -> & Hl). exists (y :: m1), m2. done.
Qed.

Lemma recent_step K dn mem now b t i r r' mem' a x d n :
  rq_ok K r -> locked (rreq_tbl r) = false -> get_confval dn RequestTableIds = K -> 0 < K < 2 ^ 31 -> false ∉ mem ->
  recent r a x d -> Z.of_nat (S d) < K -> Z.of_nat (S d) < RREQ_TBL_MAX_LEN ->
  rreq_tbl_add_id dn mem now b t i r = Ret (n, r', mem') -> recent r' a x (S d).
Proof.
  intros Hok Hk HK HKb Hmem (q & f & l1 & l2 & k1 & k2 & Hel & Hq & Hqa & Hids & Hl2 & Hk2) HdK Hd64 Hadd.
  destruct (rreq_add_id_spec K dn mem now b t i r Hok Hk HK HKb Hmem)
    as (r0 & m0 & p & e & e' & m1 & E & Hok' & _ & _ & Hel' & Hpm & He' & Hea' & Hea & Hids' & Hlen & Hold & Hcase).
  rewrite E in Hadd. injection Hadd as <- <- <-.
  rewrite decide_bool in Hids'. destruct (decide (p = q)) as [->|Hpq].
  - destruct Hcase as [(He & _)|(_ & Hpn & _)]; [|rewrite Hel in Hpn; set_solver].
    rewrite Hq in He. injection He as <-.
    destruct (drop_keep (elems (rreq_id_tbl f)) k1 x k2 (bool_decide (len (rreq_id_tbl f) < K)) d (IdEntry t (u16 i)))
      as (k1' & k2' & Ek & Hk'); [exact Hids|done| |].
    { intros Hc. apply bool_decide_eq_false in Hc. unfold zlen in Hlen. lia. }
    exists q, e', m1, [], k1', k2'. split_and!; try done; [congruence|by rewrite Hids'|simpl; lia].
  - assert (Hm : exists n1 n2, m1 ++ [p] = n1 ++ q :: n2 /\ (length n2 <= S d)%nat).
    { destruct Hcase as [(_ & u & v & Eu & ->)|(_ & _ & _ & ->)].
      - rewrite Eu in Hel. destruct (app_cons_split u v l1 l2 p q Hel Hpq) as (n1 & n2 & -> & Hn).
        exists n1, (n2 ++ [p]). rewrite <- app_assoc. split; [done|]. rewrite length_app. simpl. lia.
      - rewrite decide_bool. apply (drop_keep _ l1 q l2); try done.
        intros Hc. apply bool_decide_eq_false in Hc. destruct (rq_wf _ _ Hok) as (Hl & _). unfold zlen in Hl.
        unfold RREQ_TBL_MAX_LEN in *. lia. }
    destruct Hm as (n1 & n2 & En & Hn).
    exists q, f, n1, n2, k1, k2. rewrite Hel'. split_and!; try done; [|lia].
    rewrite Hold; [done|]. assert (q ∈ m1 ++ [p]) as Hqm by (rewrite En; set_solver).
    apply elem_of_app in Hqm as [|Hqp]; [done|]. set_solver.
Qed.

Lemma dup_spec K a t i r :
  rq_ok K r -> locked (rreq_tbl r) = false ->
  exists b, dsr_rreq_duplicate a t i r = Ret b
    /\ (b = 1 \/ b = 0)
    /\ (b = 1 <-> exists p e, p ∈ elems (rreq_tbl r) /\ rreq_heap r !! p = Some e /\ node_addr e = a
                 /\ IdEntry t i ∈ elems (rreq_id_tbl e)).
Proof.
  intros Hok Hk. unfold dsr_rreq_duplicate, in_tbl, read_lock_bh. rewrite Hk. simpl.
  set (has := fun p => match rreq_heap r !! p with
     | Some e => (node_addr e =? a) && existsb (fun x => (trg_addr x =? t) && (id_id x =? i)) (elems (rreq_id_tbl e))
     | None => false end).
  assert (Hex : forall l, existsb (fun x => (trg_addr x =? t) && (id_id x =? i)) l = true <-> IdEntry t i ∈ l).
  { intros l. rewrite existsb_exists. split.
    - intros (x & Hx & Hb). zb. destruct x as [t' i']. simpl in *. subst. by apply list_elem_of_In.
    - intros Hx. exists (IdEntry t i). split; [by apply list_elem_of_In|]. simpl. by rewrite !Z.eqb_refl. }
  destruct (tbl_find_total (rreq_tbl r) (a, t, i) (crit_duplicate (rreq_heap r)) has) as (o & -> & Ho).
  { intros p Hp. destruct (rq_live _ _ Hok p Hp) as (e & E & _). unfold crit_duplicate, has. rewrite E. simpl.
    by destruct (node_addr e =? a). }
  simpl. eexists. split; [done|]. destruct o as [p|].
  - split; [by left|]. split; [|done]. intros _. destruct Ho as [Hp Hh]. unfold has in Hh.
    destruct (rreq_heap r !! p) as [e|] eqn:E; [|done]. apply andb_true_iff in Hh as [H1 H2]. zb.
    exists p, e. split_and!; try done. by apply Hex.
  - split; [by right|]. split; [done|]. intros (p & e & Hp & He & Ha & Hin). exfalso.
    specialize (Ho p Hp). unfold has in Ho. rewrite He in Ho. rewrite (proj2 (Z.eqb_eq _ _) Ha) in Ho.
    simpl in Ho. apply Hex in Hin. congruence.
Qed.

(** Recording requests one after the other. *)
Fixpoint add_ids (dn : option dsr_node) (now : timeval) (reqs : list (Z * Z * Z)) (r : rreq_tbl_st)
  : outcome rreq_tbl_st :=
  match reqs with
  | [] => Ret r
  | (a, t, i) :: reqs' =>
      '(_, r', _) ← rreq_tbl_add_id dn [] now a t i r;
      add_ids dn now reqs' r'
  end.

Lemma add_ids_recent K dn now reqs r a x d :
  rq_ok K r -> locked (rreq_tbl r) = false -> get_confval dn RequestTableIds = K -> 0 < K < 2 ^ 31 ->
  recent r a x d -> Z.of_nat (d + length reqs) < K -> Z.of_nat (d + length reqs) < RREQ_TBL_MAX_LEN ->
  exists r', add_ids dn now reqs r = Ret r' /\ rq_ok K r' /\ locked (rreq_tbl r') = false
    /\ recent r' a x (d + length reqs).
Proof.
  revert r d. induction reqs as [|[[b t] i] reqs IH]; intros r d Hok Hk HK HKb Hrec HdK Hd64; simpl in *.
  - exists r. rewrite Nat.add_0_r. by split_and!.
  - destruct (rreq_add_id_spec K dn [] now b t i r Hok Hk HK HKb ltac:(set_solver))
      as (r1 & m1 & p & e & e' & l1 & E & Hok1 & Hk1 & _).
    pose proof (recent_step K dn [] now b t i r r1 m1 a x d 1 Hok Hk HK HKb ltac:(set_solver) Hrec
      ltac:(lia) ltac:(lia) E) as Hrec1.
    rewrite E. simpl. replace (d + S (length reqs))%nat with (S d + length reqs)%nat by lia.
    apply IH; try done; lia.
Qed.


Lemma rreq_init_ok K : rq_ok K rreq_tbl_init.
Proof. split; simpl; try done; try set_solver. apply NoDup_nil_2. Qed.


(** ** Route discovery *)

Lemma rq_rotate_free K r p :
  rq_ok K r -> locked (rreq_tbl r) = false -> p ∈ elems (rreq_tbl r) ->
  exists t1 n t2, tbl_detach (rreq_tbl r) (fun x => x =? p) = Ret (Some p, t1)
    /\ tbl_add_tail t1 p = Ret (n, t2) /\ rq_ok K (set_rtbl r t2) /\ locked t2 = false /\ p ∈ elems t2.
Proof.
  intros Hok Hk Hp. rewrite tbl_detach_free by done.
  destruct (tbl_detach_ptr _ p (rq_wf _ _ Hok) Hp) as (t1 & E & _ & _ & _ & _ & Hk1).
  destruct (__tbl_add_tail t1 p) as [n t2] eqn:E2.
  destruct (rq_ok_rotate K r p t1 t2 n Hok Hp E E2) as (Hok' & He & _ & Hk2).
  exists t1, n, t2. split_and!; try done; [|congruence|rewrite He; set_solver].
  rewrite tbl_add_tail_free by congruence. by rewrite E2.
Qed.

(** The timer of [p] expires: it is no longer pending, and its handler runs. *)
Definition expire {W} (send : Z -> Z -> W -> outcome W) dn now (p : ptr) (r : rreq_tbl_st) (w : W)
  : outcome (rreq_tbl_st * W) :=
  e ← deref (rreq_heap r !! p);
  rreq_tbl_timeout send dn now (Some p) (put_entry r p (set_etimer e None)) w.

(** The entry after its [k]-th retransmission, or after the last one. *)
Definition retried (dn : option dsr_node) (now : timeval) (e : rreq_tbl_entry) : rreq_tbl_entry :=
  let timeout := Z.min (u64 (e_timeout e * 2)) (confval_to_usecs dn MaxRequestPeriod) in
  set_etimer (set_last_used (set_backoff e (Z.min (s32 (e_ttl e * 2)) MAXTTL) timeout (u32 (num_rexmts e + 1))) now)
    (Some (timeval_add_usecs now timeout)).

Section Discovery.
Context {W : Type} (send : Z -> Z -> W -> outcome W) (K : Z) (dn : option dsr_node).

Lemma expire_spec now p e r w w1 :
  rq_ok K r -> locked (rreq_tbl r) = false -> p ∈ elems (rreq_tbl r) -> rreq_heap r !! p = Some e ->
  e_state e = STATE_IN_ROUTE_DISC ->
  send (node_addr e) (e_ttl (retried dn now e)) w = Ret w1 ->
  exists r', rq_ok K r' /\ locked (rreq_tbl r') = false /\ p ∈ elems (rreq_tbl r')
    /\ if get_confval dn MaxRequestRexmt <=? num_rexmts e
       then expire send dn now p r w = Ret (r', w)
            /\ rreq_heap r' !! p = Some (set_state (set_etimer e None) STATE_IDLE)
       else expire send dn now p r w = Ret (r', w1) /\ rreq_heap r' !! p = Some (retried dn now e).
Proof.
  intros Hok Hk Hp He Hst Hsend. unfold expire. rewrite He. simpl. unfold rreq_tbl_timeout.
  destruct (rq_rotate_free K r p Hok Hk Hp) as (t1 & n & t2 & E1 & E2 & Hok2 & Hk2 & Hp2).
  cbn [put_entry set_rheap rreq_tbl]. rewrite E1. simpl. rewrite lookup_insert_eq. simpl.
  destruct (rq_live _ _ Hok p Hp) as (e' & E' & Heok). rewrite He in E'. injection E' as <-.
  rewrite Z.geb_leb. destruct (get_confval dn MaxRequestRexmt <=? num_rexmts e) eqn:Ec.
  - rewrite E2. simpl. unfold set_rtbl, put_entry, set_rheap. simpl. rewrite insert_insert_eq.
    eexists. split; [|split; [|split; [|split; [done|]]]]; simpl; try done.
    + apply (rq_ok_put K (set_rtbl r t2) p e); try done. destruct Heok as [W1 W2 W3 W4]. split; simpl; done.
    + by rewrite lookup_insert_eq.
  - set (timeout := if confval_to_usecs dn MaxRequestPeriod <? u64 (e_timeout e * 2) then _ else _).
    assert (Htm : timeout = Z.min (u64 (e_timeout e * 2)) (confval_to_usecs dn MaxRequestPeriod)).
    { unfold timeout. case_if; lia. }
    set (ttl := if MAXTTL <? s32 (e_ttl e * 2) then _ else _).
    assert (Httl : ttl = Z.min (s32 (e_ttl e * 2)) MAXTTL) by (unfold ttl; case_if; lia).
    unfold retried in Hsend. simpl in Hsend. rewrite <- Httl in Hsend. rewrite Hsend. simpl. rewrite E2. simpl.
    unfold set_rtbl, put_entry, set_rheap. simpl. rewrite !insert_insert_eq.
    eexists. split; [|split; [|split; [|split; [done|]]]]; simpl; try done.
    + apply (rq_ok_put K (set_rtbl r t2) p e); try done. destruct Heok as [W1 W2 W3 W4].
      split; simpl; try done.
    + rewrite lookup_insert_eq. unfold retried. by rewrite <- Htm, <- Httl.
Qed.
End Discovery.

Lemma discovery_spec {W} (send : Z -> Z -> W -> outcome W) K dn mem now a r w w1 :
  rq_ok K r -> locked (rreq_tbl r) = false -> get_confval dn RequestTableIds = K -> 0 <= K < 2 ^ 32 ->
  false ∉ mem -> send a 1 w = Ret w1 ->
  exists p e r' mem' res w', dsr_rreq_route_discovery send dn mem now a r w = Ret (res, r', w', mem')
    /\ rq_ok K r' /\ locked (rreq_tbl r') = false /\ p ∈ elems (rreq_tbl r')
    /\ rreq_heap r' !! p = Some e /\ node_addr e = a
    /\ ((res = 0 /\ w' = w /\ rreq_heap r !! p = Some e /\ e_state e = STATE_IN_ROUTE_DISC)
        \/ (res = 1 /\ w' = w1 /\ e_state e = STATE_IN_ROUTE_DISC /\ e_ttl e = 1 /\ num_rexmts e = 0
            /\ e_timeout e = confval_to_usecs dn NonpropRequestTimeout
            /\ e_timer e = Some (timeval_add_usecs now (e_timeout e))
            /\ forall q f, q ∈ elems (rreq_tbl r) -> rreq_heap r !! q = Some f -> node_addr f = a ->
                 e_state f = STATE_IDLE)).
Proof.
  intros Hok Hk HK HKb Hmem Hsend. unfold dsr_rreq_route_discovery, write_lock_bh. rewrite Hk. simpl.
  destruct (rq_entry_last_spec K dn mem a _ (rq_ok_locked K r true Hok) HK HKb Hmem)
    as (p & r1 & m1 & e & l1 & -> & Hok1 & Hm1 & Hk1 & He & Hea & Heok & Hel & Hpl & Hold & Hcase).
  simpl. rewrite He. simpl. assert (Hp : p ∈ elems (rreq_tbl r1)) by (rewrite Hel; set_solver).
  destruct (decide (e_state e = STATE_IN_ROUTE_DISC)) as [Hd|Hd].
  - destruct Hcase as [(He0 & _)|(_ & _ & Hidle & _)]; [|congruence].
    exists p, e. eexists _, m1, 0, w. split; [done|]. split_and!; try done.
    + by apply (rq_ok_locked K _ false) in Hok1.
    + by left.
  - change (send a TTL_START w) with (send a 1 w). rewrite Hsend. simpl. eexists p, _, _, m1, 1, w1. split; [done|]. split_and!; simpl.
    + assert (Hok2 : rq_ok K (put_entry r1 p (set_etimer (set_state (set_backoff (set_last_used e now) TTL_START
         (confval_to_usecs dn NonpropRequestTimeout) 0) STATE_IN_ROUTE_DISC)
         (set_timer (e_timer e) (timeval_add_usecs now (confval_to_usecs dn NonpropRequestTimeout)))))).
      { eapply rq_ok_put; try done. destruct Heok as [W1 W2 W3 W4]. split; simpl; try done.
        unfold set_timer. by destruct (timer_pending _). }
      by apply (rq_ok_locked K _ false) in Hok2.
    + done.
    + done.
    + by rewrite lookup_insert_eq.
    + done.
    + right. split_and!; try done; [unfold set_timer; by destruct (timer_pending _)|].
      intros q f Hq Hf Hfa. destruct Hcase as [(He0 & u & v & Eu & _)|(Hno & _)].
      * assert (q = p) as ->.
        { apply (rq_addr _ _ Hok); [done|simpl in Eu; rewrite Eu; set_solver|].
          unfold eaddr. simpl in He0. rewrite Hf, He0. simpl. congruence. }
        simpl in He0. rewrite Hf in He0. injection He0 as <-. by destruct (e_state f).
      * exfalso. apply (Hno q Hq). unfold eaddr. simpl. rewrite Hf. simpl. by rewrite Hfa.
Qed.

(** The requests sent, in order. *)
Definition log_send (target ttl : Z) (w : list (Z * Z)) : outcome (list (Z * Z)) := Ret (w ++ [(target, ttl)]).

Fixpoint expire_all (dn : option dsr_node) (nows : list timeval) (p : ptr) (r : rreq_tbl_st) (w : list (Z * Z))
  : outcome (rreq_tbl_st * list (Z * Z)) :=
  match nows with
  | [] => Ret (r, w)
  | now :: nows' => '(r', w') ← expire log_send dn now p r w; expire_all dn nows' p r' w'
  end.

Section Backoff.
Context (K : Z) (dn : option dsr_node) (m : nat) (base mx : Z).
Context (Hmax : get_confval dn MaxRequestRexmt = Z.of_nat m) (Hm : Z.of_nat m < 2 ^ 20).
Context (Hbase : confval_to_usecs dn NonpropRequestTimeout = base).
Context (Hmx : confval_to_usecs dn MaxRequestPeriod = mx) (Hb : 0 <= base <= mx) (Hx : mx < 2 ^ 32).

Definition ttl_at (k : nat) : Z := Z.min 255 (2 ^ Z.of_nat k).
Definition timeout_at (k : nat) : Z := Z.min mx (base * 2 ^ Z.of_nat k).

Lemma pow2_ge1 k : 1 <= 2 ^ Z.of_nat k.
Proof. clear -k. pose proof (Z.pow_pos_nonneg 2 (Z.of_nat k)). lia. Qed.

Lemma ttl_at_S k : Z.min (s32 (ttl_at k * 2)) MAXTTL = ttl_at (S k).
Proof.
  clear -k. unfold ttl_at, MAXTTL. rewrite Nat2Z.inj_succ, Z.pow_succ_r by lia. pose proof (pow2_ge1 k).
  rewrite s32_small by lia. lia.
Qed.

Lemma timeout_at_S k : Z.min (u64 (timeout_at k * 2)) mx = timeout_at (S k).
Proof using Hb Hx.
  clear -Hb Hx. unfold timeout_at. rewrite Nat2Z.inj_succ, Z.pow_succ_r by lia. pose proof (pow2_ge1 k).
  rewrite u64_small by nia. nia.
Qed.

(** [k] retransmissions have been made in the discovery of [a]. *)
Definition in_disc (r : rreq_tbl_st) (p : ptr) (a : Z) (k : nat) : Prop :=
  rq_ok K r /\ locked (rreq_tbl r) = false /\ p ∈ elems (rreq_tbl r)
  /\ exists e, rreq_heap r !! p = Some e /\ node_addr e = a /\ e_state e = STATE_IN_ROUTE_DISC
     /\ timer_pending (e_timer e) = true
     /\ e_ttl e = ttl_at k /\ e_timeout e = timeout_at k /\ num_rexmts e = Z.of_nat k.

Lemma expire_disc now r p a k w :
  in_disc r p a k -> (k <= m)%nat ->
  exists r', if decide (k < m)%nat
    then expire log_send dn now p r w = Ret (r', w ++ [(a, ttl_at (S k))]) /\ in_disc r' p a (S k)
    else expire log_send dn now p r w = Ret (r', w)
         /\ exists e, rreq_heap r' !! p = Some e /\ e_state e = STATE_IDLE /\ e_timer e = None.
Proof using Hmax Hm Hmx Hb Hx.
  intros (Hok & Hk & Hp & e & He & Ha & Hst & Htm & Httl & Hto & Hn) Hkm.
  destruct (expire_spec log_send K dn now p e r w (w ++ [(a, ttl_at (S k))]) Hok Hk Hp He Hst) as (r' & Hok' & Hk' & Hp' & Hr).
  { unfold log_send, retried. simpl. by rewrite Ha, Httl, ttl_at_S. }
  exists r'. rewrite Hmax, Hn in Hr. case_decide as D.
  - destruct (Z.of_nat m <=? Z.of_nat k) eqn:E; zb; [lia|]. destruct Hr as [-> He']. split; [done|].
    split_and!; try done. exists (retried dn now e). unfold retried. simpl. split_and!; try done.
    + by rewrite Httl, ttl_at_S.
    + by rewrite Hto, Hmx, timeout_at_S.
    + rewrite Hn, u32_small by lia. lia.
  - destruct (Z.of_nat m <=? Z.of_nat k) eqn:E; zb; [|lia]. destruct Hr as [-> He']. split; [done|]. eauto.
Qed.

Lemma expire_all_disc nows r p a k w :
  in_disc r p a k -> (k <= m)%nat -> (k + length nows <= S m)%nat ->
  exists r' w', expire_all dn nows p r w = Ret (r', w')
    /\ w' = w ++ map (fun j => (a, ttl_at j)) (seq (S k) (Nat.min (length nows) (m - k)))
    /\ if decide (k + length nows <= m)%nat then in_disc r' p a (k + length nows)
       else exists e, rreq_heap r' !! p = Some e /\ e_state e = STATE_IDLE /\ e_timer e = None.
Proof using Hmax Hm Hmx Hb Hx.
  revert r k w. induction nows as [|now nows IH]; intros r k w Hd Hkm Hl; simpl in *.
  - exists r, w. rewrite app_nil_r, Nat.add_0_r. split_and!; try done. by rewrite decide_True by lia.
  - destruct (expire_disc now r p a k w Hd Hkm) as (r1 & Hr). case_decide as D.
    + destruct Hr as [-> Hd1]. simpl. destruct (IH r1 (S k) (w ++ [(a, ttl_at (S k))]) Hd1 ltac:(lia) ltac:(lia))
        as (r' & w' & -> & -> & Hres).
      exists r', (w ++ map (fun j => (a, ttl_at j)) (seq (S k) (Nat.min (S (length nows)) (m - k)))).
      split; [do 2 f_equal|].
      * replace (m - k)%nat with (S (m - S k)) by lia. simpl. by rewrite <- app_assoc.
      * split; [done|]. replace (k + S (length nows))%nat with (S k + length nows)%nat by lia. done.
    + destruct Hr as [-> Hr]. simpl. destruct nows; [|simpl in Hl; lia]. simpl. exists r1, w.
      replace (m - k)%nat with O by lia. simpl. rewrite app_nil_r. split_and!; try done.
      by rewrite decide_False by lia.
Qed.

End Backoff.

