(* ===== verification/GratRrep.v ===== *)
(** * The gratuitous reply table (dsr-rrep.c)

    Which source and previous hop a gratuitous route reply was sent for within
    the hold-off time, and the timer that forgets them. *)

From S2P Require Import Prelude Timer Config Tbl.

Definition GRAT_RREP_TBL_MAX_LEN : Z := 64.

Record grat_rrep_entry := Grat { g_src : Z; g_prev_hop : Z; g_expires : timeval }.

(** [struct grat_rrep_query]. *)
Abbreviation grat_rrep_query := (Z * Z)%type.

(** The table and its timer. *)
Record grat_st := GratSt { gtbl : tbl grat_rrep_entry; gtimer : timer }.

Definition crit_query (p : grat_rrep_entry) (q : grat_rrep_query) : bool :=
  (g_src p =? q.1) && (g_prev_hop p =? q.2).

(** [tbl_add] hands the criterion the new element's list head, which is read as
    a [struct timeval]: the sixteen bytes the allocator left there, [stale]. *)
Definition crit_time (stale : timeval) (p _l : grat_rrep_entry) : bool :=
  timeval_diff (g_expires p) stale <? 0.

Definition grat_rrep_tbl_timeout (st : grat_st) : outcome grat_st :=
  '(_, t) ← tbl_detach_first (gtbl st);
  if tbl_empty t then Ret (GratSt t (gtimer st))
  else
    t1 ← read_lock_bh t;
    e ← deref (TBL_FIRST t1);
    Ret (GratSt t (set_timer (gtimer st) (g_expires e))).

Definition grat_rrep_tbl_add (dn : option dsr_node) (now stale : timeval) (mem : oracle) (st : grat_st)
  (src prev_hop : Z) : outcome (Z * grat_st * oracle) :=
  r ← in_tbl (gtbl st) (src, prev_hop) (pure_crit crit_query);
  if negb (r =? 0) then Ret (0, st, mem)
  else
    let '(ok, mem) := kmalloc mem in
    if negb ok then Ret (-1, st, mem)
    else
      let e := Grat src prev_hop (timeval_add_usecs now (confval_to_usecs dn GratReplyHoldOff)) in
      let tm := if timer_pending (gtimer st) then del_timer (gtimer st) else gtimer st in
      '(r, t) ← tbl_add (gtbl st) e (pure_crit (crit_time stale));
      if negb (r =? 0) then
        t1 ← read_lock_bh t;
        e ← deref (TBL_FIRST t1);
        Ret (1, GratSt t (set_timer tm (g_expires e)), mem)
      else Ret (1, GratSt t tm, mem).

Definition grat_rrep_tbl_find (st : grat_st) (src prev_hop : Z) : outcome Z :=
  r ← in_tbl (gtbl st) (src, prev_hop) (pure_crit crit_query);
  Ret (if negb (r =? 0) then 1 else 0).

Definition grat_rrep_tbl_init : grat_st := GratSt (INIT_TBL GRAT_RREP_TBL_MAX_LEN) None.

Definition grat_rrep_tbl_cleanup (st : grat_st) : outcome grat_st :=
  '(t, _) ← tbl_flush (D := unit) (gtbl st) None ();
  Ret (GratSt t (del_timer (gtimer st))).

(** ** Reachable states *)

Definition gkey (e : grat_rrep_entry) : Z * Z := (g_src e, g_prev_hop e).
Definition gkeys (st : grat_st) : list (Z * Z) := gkey <$> elems (gtbl st).

(** The table is sound, holds each pair once, and the timer is due when the
    first entry expires; it is idle exactly when the table is empty. *)
Record grat_ok (st : grat_st) : Prop := {
  go_wf : tbl_wf (gtbl st);
  go_free : locked (gtbl st) = false;
  go_max : max_len (gtbl st) = GRAT_RREP_TBL_MAX_LEN;
  go_nodup : NoDup (gkeys st);
  go_timer : gtimer st = g_expires <$> head (elems (gtbl st))
}.

(** What may happen: a reply is recorded at a time [now], or the pending timer
    fires at a time not before it is due (the handler runs with it idle). *)
Definition before (a b : timeval) : Prop := timeval_diff a b < 0.

Inductive grat_step (dn : option dsr_node) : grat_st -> option timeval -> grat_st -> Prop :=
| step_add now stale mem st src prev r st' mem' :
    grat_rrep_tbl_add dn now stale mem st src prev = Ret (r, st', mem') ->
    grat_step dn st None st'
| step_timeout st due now st' :
    gtimer st = Some due -> ~ before now due ->
    grat_rrep_tbl_timeout (GratSt (gtbl st) None) = Ret st' ->
    grat_step dn st (Some now) st'.

(** Runs in which every timeout happens at a time that satisfies [P]. *)
Inductive grat_run (dn : option dsr_node) (P : timeval -> Prop) : grat_st -> grat_st -> Prop :=
| run_nil st : grat_run dn P st st
| run_cons st ev st' st'' :
    grat_step dn st ev st' -> (forall now, ev = Some now -> P now) ->
    grat_run dn P st' st'' -> grat_run dn P st st''.

Lemma in_tbl_pure {A D} (t : tbl A) (d : D) (p : A -> D -> bool) :
  locked t = false ->
  in_tbl t d (pure_crit p) = Ret (if existsb (λ a, p a d) (elems t) then 1 else 0).
Proof.
  intros Hl. unfold in_tbl, read_lock_bh, __tbl_find. rewrite Hl. simpl. rewrite find_elem_pure. simpl.
  destruct (find_pos (λ a, p a d) (elems t)) as [[i x]|] eqn:E.
  - apply find_pos_Some in E as (_ & Hp & _ & _ & Hx).
    assert (existsb (λ a, p a d) (elems t) = true) as ->; [|done].
    apply existsb_exists. exists x. split; [|done].
    apply list_elem_of_In. by eapply list_elem_of_lookup_2.
  - apply find_pos_None in E. assert (existsb (λ a, p a d) (elems t) = false) as ->; [|done].
    apply not_true_iff_false. rewrite existsb_exists. intros (x & Hx & Hp).
    apply list_elem_of_In in Hx. rewrite Forall_forall in E. specialize (E x Hx). simpl in *. congruence.
Qed.

(** Adding with a criterion that reads nothing but the element: where it fits,
    and that a full table stays as it is. *)
Lemma tbl_add_pure {A} (t : tbl A) (l : A) (p : A -> A -> bool) :
  tbl_wf t -> locked t = false ->
  (len t = max_len t /\ tbl_add t l (pure_crit p) = Ret (- ENOSPC, t))
  \/ exists r t' a b, tbl_add t l (pure_crit p) = Ret (r, t') /\ (max_len t < 2 ^ 31 -> 0 < r)
       /\ elems t = a ++ b /\ elems t' = a ++ l :: b
       /\ tbl_wf t' /\ max_len t' = max_len t /\ locked t' = false.
Proof.
  destruct t as [es ln mx lk]. unfold tbl_wf. simpl. intros (-> & Hm & Hx) ->. unfold tbl_add, write_lock_bh. simpl.
  unfold __tbl_add, write_unlock_bh. simpl. pose proof (zlen_nonneg es).
  case_if; [left; split; [lia|done]|right].
  assert (exists a b, es = a ++ b /\ (if TBL_EMPTY (Tbl es (zlen es) mx true) then Ret [l]
            else insert_before (pure_crit p) l es) = Ret (a ++ l :: b)) as (a & b & Hab & ->).
  { destruct es as [|x es]; [by exists [], []|]. simpl TBL_EMPTY. cbv iota.
    destruct (insert_before_pure p l (x :: es)) as [ys Hy].
    destruct (insert_before_spec _ _ _ _ Hy) as (a & b & Hab & -> & _). exists a, b. by split. }
  simpl. do 4 eexists. split; [done|]. simpl.
  rewrite u32_small by lia. split; [intros; rewrite s32_small; lia|].
  split; [exact Hab|]. split; [done|]. split; [|done].
  rewrite Hab in *. autorewrite with dsr_rw in *. unfold zlen in *. split_and!; lia.
Qed.

Lemma grat_init_ok : grat_ok grat_rrep_tbl_init.
Proof. constructor; try done. constructor. Qed.

Lemma query_gkey src prev es :
  existsb (λ a, crit_query a (src, prev)) es = bool_decide ((src, prev) ∈ gkey <$> es).
Proof.
  apply eq_true_iff_eq. rewrite existsb_exists, bool_decide_eq_true, list_elem_of_fmap.
  split; intros (x & H1 & H2); exists x; unfold crit_query, gkey in *; simpl in *.
  - zb. subst. split; [done|]. by apply list_elem_of_In.
  - injection H1 as -> ->. rewrite <- list_elem_of_In. rewrite !Z.eqb_refl. done.
Qed.

Lemma grat_find_ok st src prev :
  grat_ok st ->
  grat_rrep_tbl_find st src prev = Ret (if bool_decide ((src, prev) ∈ gkeys st) then 1 else 0).
Proof.
  intros [_ Hf _ _ _]. unfold grat_rrep_tbl_find. rewrite in_tbl_pure by done. simpl.
  rewrite query_gkey. unfold gkeys. by case_bool_decide.
Qed.

(** Recording a pair: known pairs and failed allocations change nothing, a full
    table loses the new entry, else it is inserted somewhere. *)
Lemma grat_add_ok dn now stale mem st src prev :
  grat_ok st ->
  exists r st' mem', grat_rrep_tbl_add dn now stale mem st src prev = Ret (r, st', mem') /\ grat_ok st'
    /\ (elems (gtbl st') = elems (gtbl st)
        \/ exists a b, elems (gtbl st) = a ++ b
             /\ elems (gtbl st') =
                  a ++ Grat src prev (timeval_add_usecs now (confval_to_usecs dn GratReplyHoldOff)) :: b)
    /\ ((src, prev) ∉ gkeys st -> (kmalloc mem).1 = true -> zlen (gkeys st) < GRAT_RREP_TBL_MAX_LEN ->
        r = 1 /\ Grat src prev (timeval_add_usecs now (confval_to_usecs dn GratReplyHoldOff)) ∈ elems (gtbl st')).
Proof.
  intros Hok. pose proof Hok as [Hwf Hf Hmax Hnd Ht]. unfold grat_rrep_tbl_add.
  set (e := Grat src prev _).
  rewrite in_tbl_pure by done. simpl. rewrite query_gkey. unfold gkeys in *.
  case_bool_decide as Hin; simpl.
  { do 3 eexists. split; [done|]. split; [done|]. split; [by left|]. done. }
  destruct (kmalloc mem) as [[] mem'] eqn:Em; simpl.
  2: { do 3 eexists. split; [done|]. split; [done|]. split; [by left|]. done. }
  destruct (tbl_add_pure (gtbl st) e (crit_time stale) Hwf Hf)
    as [[Hfull E]|(r & t' & a & b & E & Hr & Ha & Hb & Hwf' & Hmax' & Hf')]; rewrite E; simpl.
  - unfold read_lock_bh. rewrite Hf. simpl. destruct (gtbl st) as [es ln mx lk] eqn:Eg. simpl in *.
    destruct Hwf as (Hlen & Hle & Hx). simpl in *.
    destruct es as [|f es].
    { exfalso. unfold GRAT_RREP_TBL_MAX_LEN in *. unfold zlen in *. simpl in *. lia. }
    simpl. do 3 eexists. split; [done|]. split; [|split; [by left|]].
    + constructor; simpl; [done|done|done|done|]. apply set_timer_due.
    + intros _ _ Hroom. exfalso. unfold zlen in *. simpl in *. rewrite length_fmap in Hroom. lia.
  - rewrite (proj2 (Z.eqb_neq r 0)) by (rewrite Hmax in Hr; unfold GRAT_RREP_TBL_MAX_LEN in Hr; lia). simpl.
    unfold read_lock_bh. rewrite Hf'. simpl. unfold TBL_FIRST. rewrite Hb. simpl.
    assert (exists f, head (a ++ e :: b) = Some f) as [f Hh] by (destruct a; simpl; eauto).
    rewrite Hh. simpl. do 3 eexists. split; [done|]. split; [|split].
    + constructor; simpl; try done; [congruence| |].
      * unfold gkeys. simpl. rewrite Hb. rewrite Ha in *. rewrite fmap_app in *. simpl.
        rewrite <- Permutation_middle. constructor; [exact Hin|done].
      * rewrite Hb, Hh. apply set_timer_due.
    + right. by exists a, b.
    + intros _ _ _. split; [done|]. simpl. rewrite Hb. set_solver.
Qed.

Lemma grat_timeout_ok st e rest :
  grat_ok st -> elems (gtbl st) = e :: rest ->
  exists st', grat_rrep_tbl_timeout (GratSt (gtbl st) None) = Ret st' /\ grat_ok st'
    /\ elems (gtbl st') = rest.
Proof.
  intros [Hwf Hf Hmax Hnd Ht] He. unfold grat_rrep_tbl_timeout, gkeys in *. destruct st as [[es ln mx lk] tm].
  simpl in *. subst es lk. simpl. destruct Hwf as (Hl & Hle & Hx). simpl in *.
  autorewrite with dsr_rw in *. pose proof (zlen_nonneg rest).
  assert (Hw : tbl_wf (Tbl rest (u32 (ln - 1)) mx false)).
  { unfold tbl_wf. simpl. rewrite u32_small; lia. }
  inversion Hnd as [|? ? _ Hnd']; subst.
  unfold tbl_empty, TBL_FIRST. simpl. destruct rest as [|f rest]; simpl.
  - eexists. split; [done|]. split; [|done]. constructor; done.
  - eexists. split; [done|]. split; [|done]. constructor; done.
Qed.

Lemma grat_step_ok dn st ev st' : grat_step dn st ev st' -> grat_ok st -> grat_ok st'.
Proof.
  intros [now stale mem s src prev r s' mem' Ha|s due now s' Hd _ Ha] Hok.
  - destruct (grat_add_ok dn now stale mem s src prev Hok) as (?&?&?& E & ? & _). congruence.
  - pose proof (go_timer _ Hok) as Ht. rewrite Hd in Ht.
    destruct (elems (gtbl s)) as [|e rest] eqn:Ee; [done|].
    destruct (grat_timeout_ok s e rest Hok Ee) as (? & E & ? & _). congruence.
Qed.

Lemma grat_run_ok dn P st st' : grat_run dn P st st' -> grat_ok st -> grat_ok st'.
Proof. induction 1; eauto using grat_step_ok. Qed.

(** An entry stays while no timeout happens at or after its expiry. *)
Lemma grat_step_keeps dn st ev st' e :
  grat_step dn st ev st' -> grat_ok st -> (forall now, ev = Some now -> before now (g_expires e)) ->
  e ∈ elems (gtbl st) -> e ∈ elems (gtbl st').
Proof.
  intros [now stale mem s src prev r s' mem' Ha|s due now s' Hd Hb Ha] Hok Hev He.
  - destruct (grat_add_ok dn now stale mem s src prev Hok) as (?&?&?& E & _ & Hel & _).
    rewrite Ha in E. injection E as <- <- <-.
    destruct Hel as [->|(a & b & Ea & ->)]; [done|]. rewrite Ea in He. set_solver.
  - pose proof (go_timer _ Hok) as Ht. rewrite Hd in Ht.
    destruct (elems (gtbl s)) as [|f rest] eqn:Ee; [done|]. injection Ht as ->.
    destruct (grat_timeout_ok s f rest Hok Ee) as (s'' & E & _ & Hr). rewrite Ha in E. injection E as <-.
    rewrite Hr. apply elem_of_cons in He as [->|He]; [|done]. exfalso. by apply Hb, Hev.
Qed.

Lemma grat_run_keeps dn st st' e :
  grat_run dn (λ t, before t (g_expires e)) st st' -> grat_ok st ->
  e ∈ elems (gtbl st) -> e ∈ elems (gtbl st').
Proof.
  remember (λ t, before t (g_expires e)) as P. induction 1; intros; subst; [done|].
  eauto using grat_step_ok, grat_step_keeps.
Qed.

(** C31: A gratuitous reply is held off for the configured time.  In every state
    reached by recording replies and by timeouts that come no earlier than the
    timer is due: the timer is pending exactly when something is recorded, the
    look-up says whether the pair is recorded, recording never faults, and a
    pair newly recorded into a table with room is still found after any further
    replies and timeouts up to its expiry, wherever the (misread) ordering
    criterion put it. *)
Theorem grat_rrep_holdoff dn st :
  grat_run dn (λ _, True) grat_rrep_tbl_init st ->
  (timer_pending (gtimer st) = true <-> gkeys st <> [])
  /\ (forall src prev,
        grat_rrep_tbl_find st src prev = Ret (if bool_decide ((src, prev) ∈ gkeys st) then 1 else 0))
  /\ forall now stale mem src prev, exists r st1 mem1,
       grat_rrep_tbl_add dn now stale mem st src prev = Ret (r, st1, mem1)
       /\ ((src, prev) ∉ gkeys st -> (kmalloc mem).1 = true -> zlen (gkeys st) < GRAT_RREP_TBL_MAX_LEN ->
           r = 1 /\ forall st2,
           grat_run dn (λ t, before t (timeval_add_usecs now (confval_to_usecs dn GratReplyHoldOff))) st1 st2 ->
           grat_rrep_tbl_find st2 src prev = Ret 1).
Proof.
  intros Hrun. pose proof (grat_run_ok _ _ _ _ Hrun grat_init_ok) as Hok. split; [|split].
  - rewrite (go_timer _ Hok). unfold gkeys. by destruct (elems (gtbl st)).
  - intros. by apply grat_find_ok.
  - intros now stale mem src prev.
    destruct (grat_add_ok dn now stale mem st src prev Hok) as (r & st1 & mem1 & E & Hok1 & _ & Hnew).
    exists r, st1, mem1. split; [done|]. intros H1 H2 H3. destruct (Hnew H1 H2 H3) as [Hr He].
    split; [done|]. intros st2 Hrun2.
    pose proof (grat_run_keeps dn st1 st2 (Grat src prev (timeval_add_usecs now (confval_to_usecs dn GratReplyHoldOff)))
      Hrun2 Hok1 He) as He2.
    rewrite grat_find_ok by (eapply grat_run_ok; eauto). rewrite bool_decide_true; [done|].
    unfold gkeys. apply list_elem_of_fmap. by eexists; split; [|exact He2].
Qed.

Lemma grat_rrep_holdoff_witness :
  let dn := Some (dsr_node_init (DsrNode 1 0 [])) in
  exists st1 mem1,
    grat_rrep_tbl_add dn (Timeval 5 0) (Timeval 0 0) [] grat_rrep_tbl_init 7 8 = Ret (1, st1, mem1)
    /\ grat_rrep_tbl_find st1 7 8 = Ret 1.
Proof.
  intros dn.
  destruct (grat_rrep_holdoff dn grat_rrep_tbl_init (run_nil _ _ _)) as (_ & _ & H).
  destruct (H (Timeval 5 0) (Timeval 0 0) [] 7 8) as (r & st1 & mem1 & E & Hr).
  destruct Hr as [-> Hrun]; [set_solver|done|by vm_compute|].
  exists st1, mem1. split; [exact E|]. apply Hrun. constructor.
Defined.
