(* ===== verification/Pkt.v ===== *)
(** * Packets (dsr-pkt.c, dsr-pkt.h) and their option headers (dsr-opt.c)

    A packet owns one block of bytes for its DSR options; pointers to options
    are places in that block.  A block that is given up is never read again: a
    pointer remembers the block it points into, and an access through it after
    the block was replaced is a [BadAccess]. *)

From S2P Require Import Prelude Mem Config Srt.

Definition MAX_RREP_OPTS : Z := 10.
Definition MAX_RERR_OPTS : Z := 10.
Definition MAX_ACK_OPTS : Z := 10.
Definition DEFAULT_TAILROOM : Z := 128.

Definition PKT_PROMISC_RECV : Z := 1.
Definition PKT_REQUEST_ACK : Z := 2.
Definition PKT_PASSIVE_ACK : Z := 4.
Definition PKT_XMIT_JITTER : Z := 8.

Definition DSR_OPT_HDR_LEN : Z := 4.
Definition DSR_NO_NEXT_HDR_TYPE : Z := 0.
Definition DSR_OPT_PADN : Z := 0.
Definition DSR_OPT_RREP : Z := 1.
Definition DSR_OPT_RREQ : Z := 2.
Definition DSR_OPT_RERR : Z := 3.
Definition DSR_OPT_PREV_HOP : Z := 5.
Definition DSR_OPT_ACK : Z := 32.
Definition DSR_OPT_SRT : Z := 96.
Definition DSR_OPT_TIMEOUT : Z := 128.
Definition DSR_OPT_FLOWID : Z := 129.
Definition DSR_OPT_ACK_REQ : Z := 160.
Definition DSR_OPT_PAD1 : Z := 224.

(** The options block: its identity, its bytes ([end] is its last place) and the
    place of [tail]. *)
Record dhbuf := Dhbuf { blk : Z; mem : bytes; tail : Z }.

(** [dh] of a packet.  After an allocation that failed [raw] is NULL; [tail] and
    [end] keep pointing into the block it replaced, when there was one. *)
Inductive dh_t := DhNull | DhLost | Dh (d : dhbuf).

(** A pointer into an options block: the block and the offset. *)
Record optr := Optr { o_blk : Z; o_off : Z }.

#[export] Instance optr_eq_dec : EqDecision optr.
Proof. solve_decision. Defined.

(** The option pointers and counters that parsing fills in; the arrays have
    their ten entries, NULL or a pointer. *)
Record opt_slots := Slots {
  num_rrep_opts : Z;
  num_rerr_opts : Z;
  num_rreq_opts : Z;
  num_ack_opts : Z;
  srt_opt : option optr;
  rreq_opt : option optr;
  rrep_opt : list (option optr);
  rerr_opt : list (option optr);
  ack_opt : list (option optr);
  ack_req_opt : option optr
}.

(** Where [nh.iph] points: into the [sk_buff] or at the packet's own [ip_data]. *)
Inductive nh_t := NhNull | NhSkb | NhData.

(** The [sk_buff] a packet arrived in: a name for it, the link-layer source
    address and the bytes from the network header on. *)
Record sk_buff := Skb { skb_id : Z; h_source : list Z; skb_data : bytes }.

Record dsr_pkt := Pkt {
  dp_src : Z;
  dp_dst : Z;
  nxt_hop : Z;
  prv_hop : Z;
  dp_flags : Z;
  salvage : Z;
  nh : nh_t;
  ip_data : bytes;
  dh : dh_t;
  nblk : Z; (** how many option blocks the packet has had *)
  slots : opt_slots;
  srt : option dsr_srt;
  payload : option Z; (** the place of the payload in the [sk_buff] *)
  payload_len : Z;
  skb : option sk_buff
}.

(** ** Field updates *)

Definition set_dst (p : dsr_pkt) v := Pkt (dp_src p) v (nxt_hop p) (prv_hop p) (dp_flags p) (salvage p) (nh p) (ip_data p) (dh p) (nblk p) (slots p) (srt p) (payload p) (payload_len p) (skb p).
Definition set_addrs (p : dsr_pkt) s d n := Pkt s d n (prv_hop p) (dp_flags p) (salvage p) (nh p) (ip_data p) (dh p) (nblk p) (slots p) (srt p) (payload p) (payload_len p) (skb p).
Definition set_nxt_hop (p : dsr_pkt) v := Pkt (dp_src p) (dp_dst p) v (prv_hop p) (dp_flags p) (salvage p) (nh p) (ip_data p) (dh p) (nblk p) (slots p) (srt p) (payload p) (payload_len p) (skb p).
Definition set_prv_hop (p : dsr_pkt) v := Pkt (dp_src p) (dp_dst p) (nxt_hop p) v (dp_flags p) (salvage p) (nh p) (ip_data p) (dh p) (nblk p) (slots p) (srt p) (payload p) (payload_len p) (skb p).
Definition set_flags (p : dsr_pkt) v := Pkt (dp_src p) (dp_dst p) (nxt_hop p) (prv_hop p) v (salvage p) (nh p) (ip_data p) (dh p) (nblk p) (slots p) (srt p) (payload p) (payload_len p) (skb p).
Definition set_salvage (p : dsr_pkt) v := Pkt (dp_src p) (dp_dst p) (nxt_hop p) (prv_hop p) (dp_flags p) v (nh p) (ip_data p) (dh p) (nblk p) (slots p) (srt p) (payload p) (payload_len p) (skb p).
Definition set_ip (p : dsr_pkt) n d := Pkt (dp_src p) (dp_dst p) (nxt_hop p) (prv_hop p) (dp_flags p) (salvage p) n d (dh p) (nblk p) (slots p) (srt p) (payload p) (payload_len p) (skb p).
Definition set_dh (p : dsr_pkt) d n := Pkt (dp_src p) (dp_dst p) (nxt_hop p) (prv_hop p) (dp_flags p) (salvage p) (nh p) (ip_data p) d n (slots p) (srt p) (payload p) (payload_len p) (skb p).
Definition set_slots (p : dsr_pkt) v := Pkt (dp_src p) (dp_dst p) (nxt_hop p) (prv_hop p) (dp_flags p) (salvage p) (nh p) (ip_data p) (dh p) (nblk p) v (srt p) (payload p) (payload_len p) (skb p).
Definition set_srt (p : dsr_pkt) v := Pkt (dp_src p) (dp_dst p) (nxt_hop p) (prv_hop p) (dp_flags p) (salvage p) (nh p) (ip_data p) (dh p) (nblk p) (slots p) v (payload p) (payload_len p) (skb p).
Definition set_payload (p : dsr_pkt) o n := Pkt (dp_src p) (dp_dst p) (nxt_hop p) (prv_hop p) (dp_flags p) (salvage p) (nh p) (ip_data p) (dh p) (nblk p) (slots p) (srt p) o n (skb p).
Definition set_skb (p : dsr_pkt) v := Pkt (dp_src p) (dp_dst p) (nxt_hop p) (prv_hop p) (dp_flags p) (salvage p) (nh p) (ip_data p) (dh p) (nblk p) (slots p) (srt p) (payload p) (payload_len p) v.

Definition set_srt_opt (s : opt_slots) v := Slots (num_rrep_opts s) (num_rerr_opts s) (num_rreq_opts s) (num_ack_opts s) v (rreq_opt s) (rrep_opt s) (rerr_opt s) (ack_opt s) (ack_req_opt s).
Definition set_rreq_opt (s : opt_slots) n v := Slots (num_rrep_opts s) (num_rerr_opts s) n (num_ack_opts s) (srt_opt s) v (rrep_opt s) (rerr_opt s) (ack_opt s) (ack_req_opt s).
Definition set_rrep_opt (s : opt_slots) n v := Slots n (num_rerr_opts s) (num_rreq_opts s) (num_ack_opts s) (srt_opt s) (rreq_opt s) v (rerr_opt s) (ack_opt s) (ack_req_opt s).
Definition set_rerr_opt (s : opt_slots) n v := Slots (num_rrep_opts s) n (num_rreq_opts s) (num_ack_opts s) (srt_opt s) (rreq_opt s) (rrep_opt s) v (ack_opt s) (ack_req_opt s).
Definition set_ack_opt (s : opt_slots) n v := Slots (num_rrep_opts s) (num_rerr_opts s) (num_rreq_opts s) n (srt_opt s) (rreq_opt s) (rrep_opt s) (rerr_opt s) v (ack_req_opt s).
Definition set_ack_req_opt (s : opt_slots) v := Slots (num_rrep_opts s) (num_rerr_opts s) (num_rreq_opts s) (num_ack_opts s) (srt_opt s) (rreq_opt s) (rrep_opt s) (rerr_opt s) (ack_opt s) v.

(** ** Blocks *)

Definition no_opts (n : Z) : list (option optr) := repeat None (Z.to_nat n).
Definition slots0 : opt_slots :=
  Slots 0 0 0 0 None None (no_opts MAX_RREP_OPTS) (no_opts MAX_RERR_OPTS) (no_opts MAX_ACK_OPTS) None.

(** What [memset(dp, 0, sizeof(struct dsr_pkt))] leaves. *)
Definition pkt0 : dsr_pkt :=
  Pkt 0 0 0 0 0 0 NhNull (repeat 0 60) DhNull 0 slots0 None None 0 None.

(** The answer of the allocator to a request for raw bytes: NULL, or a block
    with whatever its bytes held before. *)
Definition byte_ans : Type := option (Z -> Z).
Definition fill (n : Z) (junk : Z -> Z) : bytes := (λ i, u8 (junk i)) <$> seqZ 0 n.

Definition dsr_pkt_opts_len (p : dsr_pkt) : outcome Z :=
  match dh p with
  | DhNull => Ret 0
  | DhLost => Fault BadAccess (* the difference of pointers into two objects *)
  | Dh d => Ret (tail d)
  end.
Definition dsr_pkt_tailroom (p : dsr_pkt) : outcome Z :=
  match dh p with
  | DhNull => Ret 0
  | DhLost => Fault BadAccess
  | Dh d => Ret (zlen (mem d) - tail d)
  end.

(** Returns whether it got the block; its first byte is then at offset 0.  A
    negative size is a huge [size_t], which no allocator has. *)
Definition dsr_pkt_alloc_opts (ans : byte_ans) (p : dsr_pkt) (len : Z) : bool * dsr_pkt :=
  match (if len + DEFAULT_TAILROOM <? 0 then None else ans) with
  | Some junk =>
      (true, set_dh p (Dh (Dhbuf (nblk p) (fill (len + DEFAULT_TAILROOM) junk) len)) (nblk p + 1))
  | None => (false, set_dh p (match dh p with DhNull => DhNull | _ => DhLost end) (nblk p))
  end.

(** The offset of the room, or NULL. *)
Definition dsr_pkt_alloc_opts_expand (ans : byte_ans) (p : dsr_pkt) (len : Z)
  : outcome (option Z * dsr_pkt) :=
  match dh p with
  | DhNull | DhLost => Ret (None, p)
  | Dh d =>
      tailroom ← dsr_pkt_tailroom p;
      if tailroom >? len then
        Ret (Some (tail d), set_dh p (Dh (Dhbuf (blk d) (mem d) (tail d + len))) (nblk p))
      else
        old_len ← dsr_pkt_opts_len p;
        match dsr_pkt_alloc_opts ans p (old_len + len) with
        | (false, p') => Ret (None, p')
        | (true, p') =>
            match dh p' with
            | Dh d' =>
                old ← memread (mem d) 0 old_len;
                m ← memwrite (mem d') 0 old;
                Ret (Some old_len, set_dh p' (Dh (Dhbuf (blk d') m (tail d'))) (nblk p'))
            | _ => Fault BadAccess
            end
        end
  end.

(** [num_rreq_opts] and [ack_req_opt] keep their values. *)
Definition dsr_pkt_free_opts (p : dsr_pkt) : Z * dsr_pkt :=
  match dh p with
  | DhNull | DhLost => (-1, p)
  | Dh d =>
      (tail d,
       set_slots (set_dh p DhNull (nblk p))
         (Slots 0 0 (num_rreq_opts (slots p)) 0 None None (no_opts MAX_RREP_OPTS)
                (no_opts MAX_RERR_OPTS) (no_opts MAX_ACK_OPTS) (ack_req_opt (slots p))))
  end.

(** The block of a packet that has one. *)
Definition dh_buf (p : dsr_pkt) : outcome dhbuf :=
  match dh p with Dh d => Ret d | _ => Fault BadAccess end.

(** What a read through [raw] sees: nothing when it is NULL. *)
Definition dh_mem (p : dsr_pkt) : dhbuf :=
  match dh p with Dh d => d | _ => Dhbuf (-1) [] 0 end.

(** The offset of an option in the block, when the block is still there. *)
Definition opt_off (p : dsr_pkt) (o : optr) : outcome Z :=
  d ← dh_buf p;
  if o_blk o =? blk d then Ret (o_off o) else Fault BadAccess.

Definition set_mem (p : dsr_pkt) (m : bytes) : dsr_pkt :=
  match dh p with Dh d => set_dh p (Dh (Dhbuf (blk d) m (tail d))) (nblk p) | _ => p end.

(** ** The IP header

    [iph->version] and [ihl] are the two halves of the first byte. *)

Definition IPVERSION : Z := 4.
Definition IPDEFTTL : Z := 64.

Definition nh_bytes (p : dsr_pkt) : outcome bytes :=
  match nh p, skb p with
  | NhData, _ => Ret (ip_data p)
  | NhSkb, Some s => Ret (skb_data s)
  | _, _ => Fault BadAccess
  end.

Definition ip_ihl (b : bytes) : outcome Z := x ← load8 b 0; Ret (Z.land x 15).
Definition ip_tot_len (b : bytes) : outcome Z := load16 b 2.
Definition ip_ttl (b : bytes) : outcome Z := load8 b 8.
Definition ip_protocol (b : bytes) : outcome Z := load8 b 9.
Definition ip_saddr (b : bytes) : outcome Z := load32 b 12.
Definition ip_daddr (b : bytes) : outcome Z := load32 b 16.

(** [dp->nh.iph->daddr = a], through the pointer. *)
Definition set_daddr (p : dsr_pkt) (a : Z) : outcome dsr_pkt :=
  match nh p, skb p with
  | NhData, _ => b ← store32 (ip_data p) 16 a; Ret (set_ip p NhData b)
  | NhSkb, Some s =>
      b ← store32 (skb_data s) 16 a;
      Ret (set_skb p (Some (Skb (skb_id s) (h_source s) b)))
  | _, _ => Fault BadAccess
  end.

Section Ip.

(** [ip_fast_csum] of the kernel: the checksum of the bytes of a header. *)
Context (ip_csum : bytes -> Z).

(** The kernel's [ip_send_check]: clear the checksum, then compute it over the
    [ihl] words of the header. *)
Definition ip_send_check (b : bytes) : outcome bytes :=
  b ← store16 b 10 0;
  ihl ← ip_ihl b;
  h ← memread b 0 (4 * ihl);
  store16 b 10 (ip_csum h).

Definition dsr_build_ip (p : dsr_pkt) (src dst ip_len tot_len protocol ttl : Z) : outcome dsr_pkt :=
  let b := ip_data p in
  b ← (match skb p with
       | Some s =>
           h ← memread (skb_data s) 0 ip_len;
           memwrite b 0 h
       | None =>
           b ← store8 b 0 (IPVERSION * 16 + 5);
           b ← store8 b 1 0;
           b ← store16 b 4 0;
           b ← store16 b 6 0;
           b ← store8 b 8 (if ttl =? 0 then IPDEFTTL else ttl);
           b ← store32 b 12 src;
           store32 b 16 dst
       end);
  b ← store16 b 2 (htons tot_len);
  b ← store8 b 9 protocol;
  b ← ip_send_check b;
  Ret (set_ip p NhData b).

Definition dsr_opt_remove (p : dsr_pkt) : outcome (Z * dsr_pkt) :=
  match dh p with
  | DhNull | DhLost => Ret (-1, p)
  | Dh d =>
      prot ← load8 (mem d) 0;
      h ← nh_bytes p;
      ihl ← ip_ihl h;
      let ip_len := Z.shiftl ihl 2 in
      ttl ← ip_ttl h;
      p ← dsr_build_ip p (dp_src p) (dp_dst p) ip_len (ip_len + payload_len p) prot ttl;
      Ret (dsr_pkt_free_opts p)
  end.

End Ip.

(** ** The option header and the options *)

(** [buf] is the offset of the header in the block. *)
Definition dsr_opt_hdr_add (b : bytes) (buf len protocol : Z) : outcome (option bytes) :=
  if u32 len <? DSR_OPT_HDR_LEN then Ret None
  else
    b ← store8 b buf protocol;
    b ← store8 b (buf + 1) 0;
    b ← store16 b (buf + 2) (htons (len - DSR_OPT_HDR_LEN));
    Ret (Some b).

Fixpoint find_opt_loop (fuel : nat) (b : bytes) (type dsr_len l dopt : Z) : outcome (option Z) :=
  match fuel with
  | O => Fault OutOfFuel
  | S fuel' =>
      if (l <? dsr_len) && (dsr_len - l >? 2) then
        t ← load8 b dopt;
        if type =? t then Ret (Some dopt)
        else
          len ← load8 b (dopt + 1);
          find_opt_loop fuel' b type dsr_len (l + len + 2) (dopt + len + 2)
      else Ret None
  end.

Definition dsr_opt_find_opt (p : dsr_pkt) (type : Z) : outcome (option optr) :=
  dsr_len ← dsr_pkt_opts_len p;
  let d := dh_mem p in
  r ← find_opt_loop (S (Z.to_nat dsr_len)) (mem d) type dsr_len DSR_OPT_HDR_LEN DSR_OPT_HDR_LEN;
  Ret (option_map (Optr (blk d)) r).

(** [arr[num++] = o] when there is room. *)
Definition push_opt (arr : list (option optr)) (num max : Z) (o : optr)
  : outcome (Z * list (option optr)) :=
  if num <? max then arr' ← zset arr num (Some o); Ret (num + 1, arr') else Ret (num, arr).

(** The switch on the type of an option, [DSR_OPT_PAD1] apart. *)
Definition parse_case (s : opt_slots) (type : Z) (o : optr) : outcome opt_slots :=
  if type =? DSR_OPT_RREQ then
    Ret (if num_rreq_opts s =? 0 then set_rreq_opt s (num_rreq_opts s) (Some o) else s)
  else if type =? DSR_OPT_RREP then
    '(n, a) ← push_opt (rrep_opt s) (num_rrep_opts s) MAX_RREP_OPTS o;
    Ret (set_rrep_opt s n a)
  else if type =? DSR_OPT_RERR then
    '(n, a) ← push_opt (rerr_opt s) (num_rerr_opts s) MAX_RERR_OPTS o;
    Ret (set_rerr_opt s n a)
  else if type =? DSR_OPT_ACK then
    '(n, a) ← push_opt (ack_opt s) (num_ack_opts s) MAX_ACK_OPTS o;
    Ret (set_ack_opt s n a)
  else if type =? DSR_OPT_SRT then
    Ret (match srt_opt s with None => set_srt_opt s (Some o) | Some _ => s end)
  else if type =? DSR_OPT_ACK_REQ then
    Ret (match ack_req_opt s with None => set_ack_req_opt s (Some o) | Some _ => s end)
  else Ret s.

(** [l] counts bytes; [dopt] is a [struct dsr_opt *], so [dopt++] at a PAD1
    option moves it by the two bytes of that struct. *)
Fixpoint parse_loop (fuel : nat) (d : dhbuf) (dsr_len l dopt n : Z) (s : opt_slots)
  : outcome (Z * opt_slots) :=
  match fuel with
  | O => Fault OutOfFuel
  | S fuel' =>
      if (l <? dsr_len) && (dsr_len - l >? 2) then
        t ← load8 (mem d) dopt;
        if t =? DSR_OPT_PAD1 then parse_loop fuel' d dsr_len (l + 1) (dopt + 2) n s
        else
          s' ← parse_case s t (Optr (blk d) dopt);
          len ← load8 (mem d) (dopt + 1);
          parse_loop fuel' d dsr_len (l + len + 2) (dopt + len + 2) (n + 1) s'
      else Ret (n, s)
  end.

(** Each turn adds at least one to [l]. *)
Definition dsr_opt_parse (p : dsr_pkt) : outcome (Z * dsr_pkt) :=
  dsr_len ← dsr_pkt_opts_len p;
  let d := dh_mem p in
  let s := slots p in
  let s := Slots 0 0 0 0 None (rreq_opt s) (rrep_opt s) (rerr_opt s) (ack_opt s) None in
  '(n, s) ← parse_loop (S (Z.to_nat dsr_len)) d dsr_len DSR_OPT_HDR_LEN DSR_OPT_HDR_LEN 0 s;
  Ret (n, set_slots p s).

(** ** Allocation *)

(** [ok]: whether the allocator has the packet; [ans]: its answer for the
    options block. *)
Definition dsr_pkt_alloc (ok : bool) (ans : byte_ans) (skb : option sk_buff)
  : outcome (option dsr_pkt) :=
  if negb ok then Ret None
  else
    match skb with
    | None => Ret (Some pkt0)
    | Some s =>
        let b := skb_data s in
        let p := set_ip (set_skb pkt0 (Some s)) NhSkb (ip_data pkt0) in
        saddr ← ip_saddr b;
        daddr ← ip_daddr b;
        let p := set_addrs p saddr daddr (nxt_hop p) in
        prot ← ip_protocol b;
        ihl ← ip_ihl b;
        let opth := Z.shiftl ihl 2 in
        r ← (if prot =? IPPROTO_DSR then
               p_len ← load16 b (opth + 2);
               let dsr_opts_len := ntohs p_len + DSR_OPT_HDR_LEN in
               match dsr_pkt_alloc_opts ans p dsr_opts_len with
               | (false, _) => (* kfree(dp) *) Ret None
               | (true, p) =>
                   o ← memread b opth dsr_opts_len;
                   d ← dh_buf p;
                   m ← memwrite (mem d) 0 o;
                   '(_, p) ← dsr_opt_parse (set_mem p m);
                   Ret (Some (dsr_opts_len, p))
               end
             else Ret (Some (0, p)));
        match r with
        | None => Ret None
        | Some (dsr_opts_len, p) =>
            tot ← ip_tot_len b;
            let plen := ntohs tot - Z.shiftl ihl 2 - dsr_opts_len in
            let p := set_payload p (Some (Z.shiftl ihl 2 + dsr_opts_len)) plen in
            Ret (Some (if plen =? 0 then p else set_flags p (Z.lor (dp_flags p) PKT_REQUEST_ACK)))
        end
    end.

(** ** Accesses at a known place *)

Lemma load8_here pre x post : load8 (pre ++ x :: post) (zlen pre) = Ret x.
Proof.
  unfold load8. assert (memread (pre ++ x :: post) (zlen pre) 1 = Ret [x]) as ->; [|done].
  apply memread_Ret. pose proof (zlen_nonneg pre). pose proof (zlen_nonneg post).
  autorewrite with dsr_rw. split_and!; [lia..|].
  unfold zlen. by rewrite Nat2Z.id, drop_app_length.
Qed.

Lemma load8_next pre y x post : load8 (pre ++ y :: x :: post) (zlen pre + 1) = Ret x.
Proof.
  rewrite <- (load8_here (pre ++ [y]) x post). rewrite <- app_assoc. simpl.
  by autorewrite with dsr_rw.
Qed.

Lemma load8_in b off : Forall is_byte b -> 0 <= off < zlen b -> exists x, load8 b off = Ret x /\ 0 <= x < 256.
Proof.
  intros Hb Hoff. destruct (lookup_lt_is_Some_2 b (Z.to_nat off)) as [x Hx]; [unfold zlen in Hoff; lia|].
  exists x. split; [|by apply (Forall_lookup_1 _ _ _ _ Hb Hx)].
  pose proof (load8_here (take (Z.to_nat off) b) x (drop (S (Z.to_nat off)) b)) as L.
  rewrite (take_drop_middle _ _ _ Hx) in L. rewrite <- L. f_equal.
  unfold zlen in *. rewrite length_take. lia.
Qed.

Lemma fill_len n junk : 0 <= n -> zlen (fill n junk) = n.
Proof. intros. unfold fill, zlen. rewrite length_fmap, length_seqZ. lia. Qed.

Lemma fill_bytes n junk : Forall is_byte (fill n junk).
Proof. unfold fill. apply Forall_fmap, Forall_true. intros i. apply u8_range. Qed.

(** ** What parsing computes *)

(** An option as it lies in the block: its type, its length, its data. *)
Definition opt_enc (o : Z * bytes) : bytes := o.1 :: zlen o.2 :: o.2.

Definition opt_wf (o : Z * bytes) : Prop := is_byte o.1 /\ o.1 <> DSR_OPT_PAD1 /\ zlen o.2 < 256.

(** The types and places of options that follow each other from [off] on. *)
Fixpoint place (off : Z) (os : list (Z * bytes)) : list (Z * Z) :=
  match os with
  | [] => []
  | o :: os' => (o.1, off) :: place (off + zlen o.2 + 2) os'
  end.

(** The places of the options of one type. *)
Definition offs_of (ty : Z) (ps : list (Z * Z)) : list Z := (filter (λ x, x.1 = ty) ps).*2.

(** An array of option pointers holds the first ten of a list of places. *)
Definition arr_holds (b : Z) (arr : list (option optr)) (num : Z) (offs : list Z) : Prop :=
  length arr = 10%nat /\ num = Z.min 10 (zlen offs)
  /\ take (Z.to_nat num) arr = (λ o, Some (Optr b o)) <$> take 10 offs.

(** The pointers of a packet after the options [ps] were parsed; [r0] is what
    [rreq_opt] was before. *)
Record parsed (b : Z) (ps : list (Z * Z)) (r0 : option optr) (s : opt_slots) : Prop := {
  parsed_rreq : rreq_opt s = match last (offs_of DSR_OPT_RREQ ps) with
                             | Some o => Some (Optr b o) | None => r0 end;
  parsed_nrreq : num_rreq_opts s = 0;
  parsed_srt : srt_opt s = Optr b <$> head (offs_of DSR_OPT_SRT ps);
  parsed_ack_req : ack_req_opt s = Optr b <$> head (offs_of DSR_OPT_ACK_REQ ps);
  parsed_rrep : arr_holds b (rrep_opt s) (num_rrep_opts s) (offs_of DSR_OPT_RREP ps);
  parsed_rerr : arr_holds b (rerr_opt s) (num_rerr_opts s) (offs_of DSR_OPT_RERR ps);
  parsed_ack : arr_holds b (ack_opt s) (num_ack_opts s) (offs_of DSR_OPT_ACK ps)
}.

Lemma offs_of_app ty ps qs : offs_of ty (ps ++ qs) = offs_of ty ps ++ offs_of ty qs.
Proof. unfold offs_of. by rewrite filter_app, fmap_app. Qed.

Lemma offs_of_here ty o : offs_of ty [(ty, o)] = [o].
Proof. unfold offs_of. by rewrite filter_cons_True. Qed.

Lemma offs_of_other ty ty' o : ty' <> ty -> offs_of ty [(ty', o)] = [].
Proof. intros. unfold offs_of. by rewrite filter_cons_False. Qed.

Lemma push_opt_holds b arr num offs o :
  arr_holds b arr num offs ->
  exists num' arr', push_opt arr num 10 (Optr b o) = Ret (num', arr')
    /\ arr_holds b arr' num' (offs ++ [o]).
Proof.
  intros (Hl & Hn & Ht). unfold push_opt. pose proof (zlen_nonneg offs). case_if.
  - unfold zset, zlen. rewrite Hl. assert ((0 <=? num) && (num <? Z.of_nat 10) = true) as ->
      by (apply andb_true_iff; split; [apply Z.leb_le | apply Z.ltb_lt]; lia).
    simpl. do 2 eexists. split; [done|].
    assert (Hz : num = zlen offs) by lia.
    assert (Hk : (Z.to_nat num = length offs)%nat) by (unfold zlen in Hz; lia).
    split_and!; [by rewrite length_insert | autorewrite with dsr_rw; lia |].
    rewrite Z2Nat.inj_add, Hk, Nat.add_1_r by lia.
    rewrite (take_S_r _ _ (Some (Optr b o))) by (apply list_lookup_insert_eq; lia).
    rewrite take_insert_ge by lia. rewrite <- Hk, Ht.
    rewrite (take_ge offs), (take_ge (offs ++ [o])) by (rewrite ?length_app; simpl; lia).
    by rewrite fmap_app.
  - do 2 eexists. split; [done|].
    split_and!; [done | autorewrite with dsr_rw; lia |].
    rewrite Ht. f_equal. rewrite take_app_le; [done|]. unfold zlen in *. lia.
Qed.

Lemma head_app_opt {A} (l : list A) x : head (l ++ [x]) = match head l with Some y => Some y | None => Some x end.
Proof. by destruct l. Qed.

(** The pointers of the other types stay when an option of type [ty] is added. *)
Ltac parsed_other :=
  repeat match goal with
  | |- context [offs_of ?t (_ ++ [(?u, _)])] =>
      rewrite (offs_of_app t); rewrite (offs_of_other t u) by (vm_compute; congruence);
      rewrite app_nil_r
  end.

Lemma parse_case_parsed b ps r0 s ty o :
  parsed b ps r0 s -> ty <> DSR_OPT_PAD1 ->
  exists s', parse_case s ty (Optr b o) = Ret s' /\ parsed b (ps ++ [(ty, o)]) r0 s'.
Proof.
  intros [H1 H2 H3 H4 H5 H6 H7] Hp.
  unfold parse_case, MAX_RREP_OPTS, MAX_RERR_OPTS, MAX_ACK_OPTS.
  repeat (case_if; [subst ty|]).
  - eexists. split; [done|]. rewrite H2. simpl. constructor; simpl; parsed_other; try done.
    by rewrite offs_of_app, offs_of_here, last_snoc.
  - destruct (push_opt_holds _ _ _ _ o H5) as (n' & a' & -> & Ha). simpl. eexists. split; [done|].
    constructor; simpl; parsed_other; try done. by rewrite offs_of_app, offs_of_here.
  - destruct (push_opt_holds _ _ _ _ o H6) as (n' & a' & -> & Ha). simpl. eexists. split; [done|].
    constructor; simpl; parsed_other; try done. by rewrite offs_of_app, offs_of_here.
  - destruct (push_opt_holds _ _ _ _ o H7) as (n' & a' & -> & Ha). simpl. eexists. split; [done|].
    constructor; simpl; parsed_other; try done. by rewrite offs_of_app, offs_of_here.
  - eexists. split; [done|]. rewrite H3.
    destruct (head (offs_of DSR_OPT_SRT ps)) eqn:E; simpl; constructor; simpl; parsed_other; try done;
      by rewrite offs_of_app, offs_of_here, head_app_opt, E.
  - eexists. split; [done|]. rewrite H4.
    destruct (head (offs_of DSR_OPT_ACK_REQ ps)) eqn:E; simpl; constructor; simpl; parsed_other; try done;
      by rewrite offs_of_app, offs_of_here, head_app_opt, E.
  - eexists. split; [done|]. constructor; rewrite ?offs_of_app, ?offs_of_other, ?app_nil_r by done; done.
Qed.

(** The loop stops two bytes before the end, so it sees the last option only
    when that has data. *)
Definition tail_ok (os : list (Z * bytes)) : Prop :=
  match last os with Some (_, []) => False | _ => True end.

Lemma tail_ok_cons o os : tail_ok (o :: os) -> os = [] /\ o.2 <> [] \/ tail_ok os /\ os <> [].
Proof.
  unfold tail_ok. destruct os as [|o' os]; [|rewrite last_cons_cons; naive_solver].
  simpl. destruct o as [t [|x l]]; simpl; naive_solver.
Qed.

Lemma enc_cons o os : concat (opt_enc <$> o :: os) = opt_enc o ++ concat (opt_enc <$> os).
Proof. done. Qed.

Lemma opt_enc_len o : zlen (opt_enc o) = zlen o.2 + 2.
Proof. unfold opt_enc. autorewrite with dsr_rw. lia. Qed.
#[local] Hint Rewrite opt_enc_len : dsr_rw.

Lemma concat_enc_len os : 2 * zlen os <= zlen (concat (opt_enc <$> os)).
Proof.
  induction os as [|o os IH]; [done|]. rewrite enc_cons.
  autorewrite with dsr_rw. pose proof (zlen_nonneg o.2). lia.
Qed.

Lemma parse_loop_spec d os :
  forall fuel pre room ps r0 s n,
  mem d = pre ++ concat (opt_enc <$> os) ++ room ->
  Forall opt_wf os -> tail_ok os ->
  (length (concat (opt_enc <$> os)) < fuel)%nat ->
  parsed (blk d) ps r0 s ->
  exists s', parse_loop fuel d (zlen pre + zlen (concat (opt_enc <$> os))) (zlen pre) (zlen pre) n s
               = Ret (n + zlen os, s')
    /\ parsed (blk d) (ps ++ place (zlen pre) os) r0 s'.
Proof.
  induction os as [|o os IH]; intros fuel pre room ps r0 s n Hm Hwf Ht Hf Hs.
  - destruct fuel as [|fuel]; [simpl in Hf; lia|]. simpl. unfold zlen at 2. simpl.
    rewrite Z.add_0_r, Z.ltb_irrefl. simpl. rewrite app_nil_r. unfold zlen. simpl.
    rewrite Z.add_0_r. eauto.
  - destruct fuel as [|fuel]; [simpl in Hf; lia|].
    inversion Hwf as [|? ? (Hty & Hp & Hl) Hwf']; subst.
    pose proof (concat_enc_len os) as Hc. pose proof (zlen_nonneg o.2). pose proof (zlen_nonneg os).
    assert (Hlen : zlen (concat (opt_enc <$> o :: os)) = 2 + zlen o.2 + zlen (concat (opt_enc <$> os))).
    { rewrite enc_cons. autorewrite with dsr_rw. lia. }
    assert (Hgo : 2 < zlen (concat (opt_enc <$> o :: os))).
    { destruct (tail_ok_cons _ _ Ht) as [[-> Hd]|[_ Hd]]; rewrite Hlen.
      - destruct o as [t [|x l]]; simpl in *; [done|]. autorewrite with dsr_rw.
        pose proof (zlen_nonneg l). lia.
      - destruct os; [done|]. autorewrite with dsr_rw in Hc. pose proof (zlen_nonneg os). lia. }
    assert (Hm' : mem d = pre ++ o.1 :: zlen o.2 :: (o.2 ++ concat (opt_enc <$> os) ++ room)).
    { rewrite Hm, enc_cons, <- app_assoc. done. }
    set (tot := zlen (concat (opt_enc <$> o :: os))) in *.
    cbn [parse_loop].
    assert ((zlen pre <? zlen pre + tot) && (zlen pre + tot - zlen pre >? 2) = true) as ->
      by (apply andb_true_iff; rewrite Z.ltb_lt, Z.gtb_lt; lia).
    assert (load8 (mem d) (zlen pre) = Ret o.1) as -> by (rewrite Hm'; apply load8_here).
    assert (load8 (mem d) (zlen pre + 1) = Ret (zlen o.2)) as L2 by (rewrite Hm'; apply load8_next).
    simpl mbind.
    rewrite (proj2 (Z.eqb_neq _ _) Hp).
    destruct (parse_case_parsed _ _ _ _ _ (zlen pre) Hs Hp) as (s1 & Hc1 & Hs1).
    rewrite Hc1. simpl mbind. rewrite L2. simpl mbind.
    assert (Hpre : zlen (pre ++ opt_enc o) = zlen pre + zlen o.2 + 2).
    { autorewrite with dsr_rw. lia. }
    assert (Ht' : tail_ok os).
    { destruct (tail_ok_cons _ _ Ht) as [[-> _]|[? _]]; done. }
    assert (Hmd : mem d = (pre ++ opt_enc o) ++ concat (opt_enc <$> os) ++ room).
    { by rewrite Hm, enc_cons, <- !app_assoc. }
    assert (Hf' : (length (concat (opt_enc <$> os)) < fuel)%nat).
    { unfold tot, zlen in Hlen. lia. }
    destruct (IH fuel _ room _ r0 s1 (n + 1) Hmd Hwf' Ht' Hf' Hs1) as (s' & Hr & Hps).
    exists s'. rewrite <- Hpre, Hlen.
    replace (zlen pre + (2 + zlen o.2 + zlen (concat (opt_enc <$> os))))
      with (zlen (pre ++ opt_enc o) + zlen (concat (opt_enc <$> os))) by lia.
    rewrite Hr. autorewrite with dsr_rw. split; [f_equal; f_equal; lia|].
    simpl. by rewrite <- Hpre, <- app_assoc in *.
Qed.

Definition slots_sized (s : opt_slots) : Prop :=
  length (rrep_opt s) = 10%nat /\ length (rerr_opt s) = 10%nat /\ length (ack_opt s) = 10%nat.

Lemma opt_parse_places p d hdr os room :
  dh p = Dh d -> mem d = hdr ++ concat (opt_enc <$> os) ++ room ->
  zlen hdr = DSR_OPT_HDR_LEN -> tail d = DSR_OPT_HDR_LEN + zlen (concat (opt_enc <$> os)) ->
  Forall opt_wf os -> tail_ok os -> slots_sized (slots p) ->
  exists s', dsr_opt_parse p = Ret (zlen os, set_slots p s')
    /\ parsed (blk d) (place DSR_OPT_HDR_LEN os) (rreq_opt (slots p)) s'.
Proof.
  intros Hd Hm Hh Ht Hwf Hto (Hs1 & Hs2 & Hs3).
  unfold dsr_opt_parse, dsr_pkt_opts_len, dh_mem. rewrite Hd. cbn [mbind outcome_bind]. rewrite Ht, <- Hh.
  match goal with |- context [parse_loop ?f d _ _ _ _ ?s] =>
    destruct (parse_loop_spec d os f hdr room [] (rreq_opt (slots p)) s 0) as (s' & -> & Hp) end.
  - done.
  - done.
  - done.
  - pose proof (zlen_nonneg hdr). unfold zlen in *. lia.
  - constructor; simpl; done.
  - exists s'. by rewrite Z.add_0_l.
Qed.

(** C7: Parsing the options of a packet whose block holds, after the four-byte
    header, any sequence of well-formed options other than PAD1 returns their
    number and records exactly their places: the first source route and the
    first acknowledgement request, the last route request, and the first ten
    route replies, route errors and acknowledgements with their counts.  (A
    last option without data lies in the two bytes the loop leaves out.) *)
Theorem dsr_opt_parse_spec p d hdr os room :
  dh p = Dh d -> mem d = hdr ++ concat (opt_enc <$> os) ++ room ->
  zlen hdr = DSR_OPT_HDR_LEN -> tail d = DSR_OPT_HDR_LEN + zlen (concat (opt_enc <$> os)) ->
  Forall opt_wf os -> tail_ok os -> slots_sized (slots p) ->
  exists s', dsr_opt_parse p = Ret (zlen os, set_slots p s')
    /\ parsed (blk d) (place DSR_OPT_HDR_LEN os) (rreq_opt (slots p)) s'.
Proof. apply opt_parse_places. Qed.

Lemma dsr_opt_parse_spec_witness :
  let os := [(DSR_OPT_RREQ, [0; 7; 1; 2; 3; 4]); (DSR_OPT_SRT, [0; 0]); (DSR_OPT_ACK_REQ, [0; 9])] in
  let d := Dhbuf 0 ([0; 0; 0; 16] ++ concat (opt_enc <$> os) ++ repeat 224 128) 20 in
  exists s', dsr_opt_parse (set_dh pkt0 (Dh d) 1) = Ret (3, set_slots (set_dh pkt0 (Dh d) 1) s')
    /\ parsed 0 [(DSR_OPT_RREQ, 4); (DSR_OPT_SRT, 12); (DSR_OPT_ACK_REQ, 16)] None s'.
Proof.
  intros os d.
  apply (dsr_opt_parse_spec (set_dh pkt0 (Dh d) 1) d [0; 0; 0; 16] os (repeat 224 128));
    try done.
  - unfold os. repeat constructor; vm_compute; congruence.
Defined.

(** ** Safety of parsing *)

(** What an array of option pointers of a block of [sz] bytes holds. *)
Definition optr_in (b sz : Z) (o : option optr) : Prop :=
  match o with None => True | Some o => o_blk o = b /\ 0 <= o_off o /\ o_off o + 1 < sz end.

Record slots_ok (s : opt_slots) : Prop := {
  so_sized : slots_sized s;
  so_rrep : 0 <= num_rrep_opts s <= 10;
  so_rerr : 0 <= num_rerr_opts s <= 10;
  so_ack : 0 <= num_ack_opts s <= 10
}.

Lemma push_opt_ok arr num o :
  length arr = 10%nat -> 0 <= num <= 10 ->
  exists num' arr', push_opt arr num 10 o = Ret (num', arr') /\ length arr' = 10%nat /\ 0 <= num' <= 10.
Proof.
  intros Hl Hn. unfold push_opt. case_if; [|eauto 6].
  unfold zset, zlen. rewrite Hl.
  assert ((0 <=? num) && (num <? Z.of_nat 10) = true) as ->
    by (apply andb_true_iff; split; [apply Z.leb_le | apply Z.ltb_lt]; lia).
  simpl. do 2 eexists. split; [done|]. rewrite length_insert. split; [done|lia].
Qed.

Lemma parse_case_ok s ty o :
  slots_ok s -> exists s', parse_case s ty o = Ret s' /\ slots_ok s'.
Proof.
  intros Hok. pose proof Hok as [(S1 & S2 & S3) N1 N2 N3].
  unfold parse_case, MAX_RREP_OPTS, MAX_RERR_OPTS, MAX_ACK_OPTS.
  repeat match goal with |- context [ty =? ?x] => destruct (ty =? x) end.
  - eexists. split; [done|]. by destruct (num_rreq_opts s =? 0).
  - destruct (push_opt_ok _ _ o S1 N1) as (n & a & -> & ? & ?). simpl.
    eexists. split; [done|]. by constructor; simpl; try done; constructor.
  - destruct (push_opt_ok _ _ o S2 N2) as (n & a & -> & ? & ?). simpl.
    eexists. split; [done|]. by constructor; simpl; try done; constructor.
  - destruct (push_opt_ok _ _ o S3 N3) as (n & a & -> & ? & ?). simpl.
    eexists. split; [done|]. by constructor; simpl; try done; constructor.
  - eexists. split; [done|]. by destruct (srt_opt s).
  - eexists. split; [done|]. by destruct (ack_req_opt s).
  - eauto.
Qed.

(** PAD1 options move [dopt] ahead of [l] by one byte each. *)
Lemma parse_loop_safe d dsr_len :
  Forall is_byte (mem d) -> zlen (mem d) = dsr_len + DEFAULT_TAILROOM -> dsr_len <= 136 ->
  forall fuel l dopt n s,
  (Z.to_nat (dsr_len - l) < fuel)%nat -> 4 <= l -> l <= dopt <= 2 * l - 4 -> slots_ok s ->
  exists n' s', parse_loop fuel d dsr_len l dopt n s = Ret (n', s') /\ slots_ok s'.
Proof.
  intros Hb Hlen Hmax. unfold DEFAULT_TAILROOM in Hlen.
  induction fuel as [|fuel IH]; intros l dopt n s Hf Hl Hd Hs; [lia|]. simpl.
  case_if; [|eauto].
  destruct (load8_in (mem d) dopt Hb) as (t & -> & Ht); [lia|]. simpl mbind.
  case_if; [apply IH; [lia..|done]|].
  destruct (parse_case_ok s t (Optr (blk d) dopt) Hs) as (s1 & -> & Hs1). simpl mbind.
  destruct (load8_in (mem d) (dopt + 1) Hb) as (x & -> & Hx); [lia|]. simpl mbind.
  apply IH; [lia..|done].
Qed.

Lemma load8_cases b off :
  Forall is_byte b -> (exists x, load8 b off = Ret x /\ 0 <= x < 256) \/ load8 b off = Fault BadAccess.
Proof.
  intros Hb. destruct (decide (0 <= off < zlen b)) as [H|H]; [left; by apply load8_in|right].
  unfold load8, memread. replace ((0 <=? off) && (0 <=? 1) && (off + 1 <=? zlen b)) with false; [done|].
  symmetry. rewrite !andb_false_iff, Z.leb_gt, (Z.leb_gt (off + 1)). lia.
Qed.

Lemma parse_case_no_fuel s ty o : parse_case s ty o <> Fault OutOfFuel.
Proof.
  unfold parse_case, push_opt, zset. by repeat (case_if; simpl).
Qed.

Lemma parse_loop_terminates d dsr_len :
  Forall is_byte (mem d) ->
  forall fuel l dopt n s, (Z.to_nat (dsr_len - l) < fuel)%nat -> 4 <= l ->
  parse_loop fuel d dsr_len l dopt n s <> Fault OutOfFuel.
Proof.
  intros Hb. induction fuel as [|fuel IH]; intros l dopt n s Hf Hl; [lia|]. simpl.
  case_if; [|done].
  destruct (load8_cases (mem d) dopt Hb) as [(t & -> & Ht)| ->]; [|done]. simpl mbind.
  case_if; [apply IH; lia|].
  pose proof (parse_case_no_fuel s t (Optr (blk d) dopt)) as Hc.
  destruct (parse_case s t _) as [s1|f]; [|simpl; congruence]. simpl mbind.
  destruct (load8_cases (mem d) (dopt + 1) Hb) as [(x & -> & Hx)| ->]; [|done]. simpl mbind.
  apply IH; lia.
Qed.

(** C22: Parsing terminates on every block of bytes, and it reads no byte outside
    the block when the options take at most 136 bytes; the counters then stay
    within the arrays.  From 138 bytes on it may: the two bytes a [dopt++]
    moves over for a one-byte PAD1 option take it past the end of the block. *)
Theorem dsr_opt_parse_safe p d :
  dh p = Dh d -> Forall is_byte (mem d) -> zlen (mem d) = tail d + DEFAULT_TAILROOM ->
  slots_sized (slots p) ->
  dsr_opt_parse p <> Fault OutOfFuel
  /\ (tail d <= 136 -> exists n s', dsr_opt_parse p = Ret (n, set_slots p s') /\ slots_ok s')
  /\ let all_pad := Dhbuf 0 (repeat DSR_OPT_PAD1 (138 + 128)) 138 in
     dsr_opt_parse (set_dh p (Dh all_pad) 1) = Fault BadAccess.
Proof.
  intros Hd Hb Hl Hs. split_and!.
  - unfold dsr_opt_parse, dsr_pkt_opts_len, dh_mem. rewrite Hd. cbn [mbind outcome_bind].
    match goal with |- context [parse_loop ?f d ?a ?b ?c ?n ?s] =>
      pose proof (parse_loop_terminates d a Hb f b c n s) as Ht;
      destruct (parse_loop f d a b c n s) as [[??]|f'] end; [done|].
    intros [= ->]. apply Ht; [unfold DSR_OPT_HDR_LEN; lia | unfold DSR_OPT_HDR_LEN; lia | done].
  - intros Hmax. unfold dsr_opt_parse, dsr_pkt_opts_len, dh_mem. rewrite Hd. cbn [mbind outcome_bind].
    match goal with |- context [parse_loop ?f d ?a ?b ?c ?n ?s] =>
      destruct (parse_loop_safe d a Hb Hl Hmax f b c n s) as (n' & s' & -> & ?) end;
      unfold DSR_OPT_HDR_LEN in *; [lia..| |eauto]. by constructor.
  - by vm_compute.
Qed.

Lemma dsr_opt_parse_safe_witness :
  let d := Dhbuf 0 ([0; 0; 0; 4; 224; 224; 96; 2] ++ repeat 0 128) 8 in
  exists n s', dsr_opt_parse (set_dh pkt0 (Dh d) 1) = Ret (n, set_slots (set_dh pkt0 (Dh d) 1) s')
    /\ slots_ok s'.
Proof.
  intros d. eapply (dsr_opt_parse_safe (set_dh pkt0 (Dh d) 1) d); try done.
  unfold d. repeat constructor; vm_compute; congruence.
Defined.
