(* ===== verification/Opt.v ===== *)
(** * Options on the wire (dsr-srt.c, dsr-rreq.c, dsr-rrep.c, dsr-rerr.c, dsr-ack.c)

    The functions that write an option into a packet's block and the fields the
    receivers read from one.  Every multi-byte field is at its place in the C
    struct; addresses are the words as the platform loads them. *)

From S2P Require Import Prelude Mem Config Srt Pkt.

(** [memcpy(buf, .., ..)] of [a], then of [b] behind it. *)
Lemma memwrite_app b off x y b1 b2 :
  memwrite b off x = Ret b1 -> memwrite b1 (off + zlen x) y = Ret b2 ->
  memwrite b off (x ++ y) = Ret b2.
Proof.
  intros H1 H2. pose proof (memwrite_len _ _ _ _ H1) as L1.
  apply memwrite_Ret in H1 as (Ho & Hx & E1). apply memwrite_Ret in H2 as (_ & Hy & E2).
  apply memwrite_Ret. autorewrite with dsr_rw. rewrite L1 in Hy. split_and!; [done|lia|].
  rewrite E2, E1. unfold zlen in *.
  assert (HL : length (take (Z.to_nat off) b) = Z.to_nat off) by (rewrite length_take; lia).
  replace (Z.to_nat (off + Z.of_nat (length x))) with (Z.to_nat off + length x)%nat by lia.
  rewrite (app_assoc (take _ b) x), take_app_length' by (rewrite length_app; lia).
  rewrite drop_app_ge by (rewrite length_app; lia). rewrite length_app, HL, drop_drop, length_app.
  rewrite <- !app_assoc. do 4 f_equal; lia.
Qed.

Lemma memwrite_split b off x y :
  memwrite b off (x ++ y) =
    (b1 ← memwrite b off x; memwrite b1 (off + zlen x) y).
Proof.
  destruct (memwrite b off (x ++ y)) as [b2|f] eqn:E.
  - pose proof E as (Ho & Hl & _)%memwrite_Ret. autorewrite with dsr_rw in Hl.
    pose proof (zlen_nonneg x). pose proof (zlen_nonneg y).
    destruct (memwrite_total b off x) as [b1 H1]; [lia..|]. rewrite H1. simpl.
    pose proof (memwrite_len _ _ _ _ H1).
    destruct (memwrite_total b1 (off + zlen x) y) as [b2' HW2]; [lia..|]. rewrite HW2.
    pose proof (memwrite_app _ _ _ _ _ _ H1 HW2). congruence.
  - assert (f = BadAccess) as -> by (unfold memwrite in E; case_match; congruence).
    destruct (memwrite b off x) as [b1|f] eqn:H1; simpl.
    2: { unfold memwrite in H1. case_match; congruence. }
    destruct (memwrite b1 (off + zlen x) y) as [b2'|f] eqn:H2.
    + pose proof (memwrite_app _ _ _ _ _ _ H1 H2). congruence.
    + unfold memwrite in H2. case_match; congruence.
Qed.

(** ** Writers *)

(** The two bytes of bit-fields: [f:1 l:1 res:4 salv:4 sleft:6]. *)
Definition srt_bits (f l res salv sleft : Z) : Z :=
  Z.lor f (Z.lor (Z.shiftl l 1) (Z.lor (Z.shiftl (res mod 16) 2)
    (Z.lor (Z.shiftl (salv mod 16) 6) (Z.shiftl (sleft mod 64) 10)))).
Definition bits_salv (x : Z) : Z := Z.land (Z.shiftr x 6) 15.
Definition bits_sleft (x : Z) : Z := Z.shiftr x 10.
(** [srt_opt->sleft = v]. *)
Definition bits_set_sleft (x v : Z) : Z := Z.lor (Z.land x 1023) (Z.shiftl (v mod 64) 10).

Definition SRT_FIRST_HOP_EXT : Z := 1.
Definition SRT_LAST_HOP_EXT : Z := 2.

(** [srt->addrs] as the [laddrs] bytes the code copies. *)
Definition srt_bytes (srt : dsr_srt) : outcome bytes :=
  memread (bytes_of_words (addrs srt) ++ atail srt) 0 (laddrs srt).

Definition dsr_srt_opt_add (b : bytes) (buf len flags salvage : Z) (srt : dsr_srt)
  : outcome (option bytes) :=
  if len <? s32 (DSR_SRT_OPT_LEN srt) then Ret None
  else
    b ← store8 b buf DSR_OPT_SRT;
    b ← store8 b (buf + 1) (laddrs srt + 2);
    let f := if Z.land flags SRT_FIRST_HOP_EXT =? 0 then 0 else 1 in
    let l := if Z.land flags SRT_LAST_HOP_EXT =? 0 then 0 else 1 in
    b ← store16 b (buf + 2) (srt_bits f l 0 salvage (laddrs srt / 4));
    a ← srt_bytes srt;
    b ← memwrite b (buf + 4) a;
    Ret (Some b).

Definition DSR_RREQ_HDR_LEN : Z := 8.
(** [rreq_opt->length - 6], an [int]. *)
Definition DSR_RREQ_ADDRS_LEN (length : Z) : Z := length - 6.

Definition dsr_rreq_opt_add (b : bytes) (buf len target seqno : Z) : outcome (option bytes) :=
  if u32 len <? DSR_RREQ_HDR_LEN then Ret None
  else
    b ← store8 b buf DSR_OPT_RREQ;
    b ← store8 b (buf + 1) 6;
    b ← store16 b (buf + 2) (htons seqno);
    b ← store32 b (buf + 4) target;
    Ret (Some b).

(** [sizeof(struct dsr_rrep_opt)]: the compiler pads its three bytes to four. *)
Definition DSR_RREP_HDR_LEN : Z := 4.
Definition DSR_RREP_OPT_LEN (srt : dsr_srt) : Z := DSR_RREP_HDR_LEN + laddrs srt + 4.
(** [rrep_opt->length - 1 - sizeof(struct in_addr)], a [size_t]. *)
Definition DSR_RREP_ADDRS_LEN (length : Z) : Z := u64 (length - 1 - 4).

Definition dsr_rrep_add_srt (b : bytes) (rrep_opt : Z) (srt : dsr_srt) : outcome bytes :=
  let n := srt_n srt in
  a ← srt_bytes srt;
  b ← memwrite b (rrep_opt + 4) a;
  store32 b (rrep_opt + 4 + 4 * n) (dst srt).

Definition dsr_rrep_opt_add (b : bytes) (buf len : Z) (srt : dsr_srt) : outcome (option bytes) :=
  if u32 len <? DSR_RREP_OPT_LEN srt then Ret None
  else
    b ← store8 b buf DSR_OPT_RREP;
    b ← store8 b (buf + 1) (laddrs srt + 4 + 1);
    b ← store8 b (buf + 2) 0;
    b ← dsr_rrep_add_srt b buf srt;
    Ret (Some b).

Definition DSR_RERR_HDR_LEN : Z := 12.
Definition DSR_RERR_OPT_LEN : Z := 10.
Definition NODE_UNREACHABLE : Z := 1.
Definition FLOW_STATE_NOT_SUPPORTED : Z := 2.
Definition OPTION_NOT_SUPPORTED : Z := 3.

(** The fourth byte holds [res:4 salv:4]. *)
Definition dsr_rerr_opt_add (b : bytes) (buf len err_type err_src err_dst unreach_addr salv : Z)
  : outcome (option bytes) :=
  if len <? DSR_RERR_HDR_LEN then Ret None
  else
    b ← store8 b buf DSR_OPT_RERR;
    b ← store8 b (buf + 1) DSR_RERR_OPT_LEN;
    b ← store8 b (buf + 2) err_type;
    b ← store32 b (buf + 4) err_src;
    b ← store32 b (buf + 8) err_dst;
    b ← store8 b (buf + 3) (Z.shiftl (salv mod 16) 4);
    if err_type =? NODE_UNREACHABLE then
      if len <? DSR_RERR_HDR_LEN + 4 then Ret None
      else
        b ← store8 b (buf + 1) (DSR_RERR_OPT_LEN + 4);
        b ← store32 b (buf + 12) unreach_addr;
        Ret (Some b)
    else Ret (Some b).

Definition DSR_ACK_HDR_LEN : Z := 12.
Definition DSR_ACK_OPT_LEN : Z := 10.
Definition DSR_ACK_REQ_HDR_LEN : Z := 4.
Definition DSR_ACK_REQ_OPT_LEN : Z := 2.

Definition dsr_ack_opt_add (b : bytes) (buf len src dst id : Z) : outcome (option bytes) :=
  if len <? DSR_ACK_HDR_LEN then Ret None
  else
    b ← store8 b buf DSR_OPT_ACK;
    b ← store8 b (buf + 1) DSR_ACK_OPT_LEN;
    b ← store16 b (buf + 2) (htons id);
    b ← store32 b (buf + 8) dst;
    b ← store32 b (buf + 4) src;
    Ret (Some b).

Definition dsr_ack_req_opt_create (b : bytes) (buf len id : Z) : outcome (option bytes) :=
  if len <? DSR_ACK_REQ_HDR_LEN then Ret None
  else
    b ← store8 b buf DSR_OPT_ACK_REQ;
    b ← store8 b (buf + 1) DSR_ACK_REQ_OPT_LEN;
    b ← store16 b (buf + 2) (htons id);
    Ret (Some b).

(** ** Readers *)

Definition opt_type (b : bytes) (o : Z) : outcome Z := load8 b o.
Definition opt_length (b : bytes) (o : Z) : outcome Z := load8 b (o + 1).
Definition srt_opt_sleft (b : bytes) (o : Z) : outcome Z := x ← load16 b (o + 2); Ret (bits_sleft x).
Definition srt_opt_salv (b : bytes) (o : Z) : outcome Z := x ← load16 b (o + 2); Ret (bits_salv x).
Definition set_srt_opt_sleft (b : bytes) (o v : Z) : outcome bytes :=
  x ← load16 b (o + 2);
  store16 b (o + 2) (bits_set_sleft x v).
Definition rreq_opt_id (b : bytes) (o : Z) : outcome Z := x ← load16 b (o + 2); Ret (ntohs x).
Definition rreq_opt_target (b : bytes) (o : Z) : outcome Z := load32 b (o + 4).
Definition rrep_opt_addr (b : bytes) (o i : Z) : outcome Z := load32 b (o + 4 + 4 * i).
Definition rerr_opt_type (b : bytes) (o : Z) : outcome Z := load8 b (o + 2).
Definition rerr_opt_salv (b : bytes) (o : Z) : outcome Z := x ← load8 b (o + 3); Ret (Z.shiftr x 4).
Definition rerr_opt_src (b : bytes) (o : Z) : outcome Z := load32 b (o + 4).
Definition rerr_opt_dst (b : bytes) (o : Z) : outcome Z := load32 b (o + 8).
Definition rerr_opt_info (b : bytes) (o : Z) : outcome Z := load32 b (o + 12).
Definition ack_opt_id (b : bytes) (o : Z) : outcome Z := x ← load16 b (o + 2); Ret (ntohs x).
Definition ack_opt_src (b : bytes) (o : Z) : outcome Z := load32 b (o + 4).
Definition ack_opt_dst (b : bytes) (o : Z) : outcome Z := load32 b (o + 8).

(** ** Reading back what was written *)

Lemma zlen_bytes16 x : zlen (bytes16 x) = 2.
Proof. done. Qed.
Lemma zlen_bytes32 x : zlen (bytes32 x) = 4.
Proof. done. Qed.
Lemma zlen_one {A} (x : A) : zlen [x] = 1.
Proof. done. Qed.
#[local] Hint Rewrite zlen_bytes16 zlen_bytes32 @zlen_one : dsr_rw.

Lemma load8_same b off v b' : memwrite b off [u8 v] = Ret b' -> load8 b' off = Ret (u8 v).
Proof. intros H%memread_memwrite_same. rewrite zlen_one in H. unfold load8. by rewrite H. Qed.
Lemma load16_same b off v b' :
  memwrite b off (bytes16 v) = Ret b' -> 0 <= v < 65536 -> load16 b' off = Ret v.
Proof.
  intros H%memread_memwrite_same Hv. rewrite zlen_bytes16 in H. unfold load16. rewrite H. simpl. by rewrite le16_bytes16.
Qed.
Lemma load32_same b off v b' :
  memwrite b off (bytes32 v) = Ret b' -> is_word v -> load32 b' off = Ret v.
Proof.
  intros H%memread_memwrite_same Hv. rewrite zlen_bytes32 in H. unfold load32. rewrite H. simpl. by rewrite le32_bytes32.
Qed.

Section Other.
Context {b : bytes} {off : Z} {src b' : bytes} (H : memwrite b off src = Ret b').

Lemma load8_other o : o + 1 <= off \/ off + zlen src <= o -> load8 b' o = load8 b o.
Proof using H. intros Ho. unfold load8. by rewrite (memread_memwrite_disjoint _ _ _ _ _ _ H). Qed.
Lemma load16_other o : o + 2 <= off \/ off + zlen src <= o -> load16 b' o = load16 b o.
Proof using H. intros Ho. unfold load16. by rewrite (memread_memwrite_disjoint _ _ _ _ _ _ H). Qed.
Lemma load32_other o : o + 4 <= off \/ off + zlen src <= o -> load32 b' o = load32 b o.
Proof using H. intros Ho. unfold load32. by rewrite (memread_memwrite_disjoint _ _ _ _ _ _ H). Qed.
End Other.

Ltac zl := autorewrite with dsr_rw; lia.

(** [wstep] performs the first write of the goal, which fits in its block. *)
Ltac wstep :=
  unfold store8, store16, store32;
  match goal with
  | |- context [memwrite ?b ?off ?src] =>
      let b' := fresh "b" in let Hw := fresh "Hw" in let HL := fresh "HL" in
      destruct (memwrite_total b off src) as [b' Hw]; [lia | zl |];
      rewrite Hw; pose proof (memwrite_len _ _ _ _ Hw) as HL; cbn [mbind outcome_bind]
  end.

(** [rd] reads a field through the writes of the context: past those that do
    not touch it, until the one that wrote it. *)
Ltac rd_step :=
  match goal with
  | Hw : memwrite _ ?o [u8 _] = Ret ?b |- context [load8 ?b ?o'] =>
      replace o' with o by lia; rewrite (load8_same _ _ _ _ Hw)
  | Hw : memwrite _ ?o (bytes16 _) = Ret ?b |- context [load16 ?b ?o'] =>
      replace o' with o by lia; rewrite (load16_same _ _ _ _ Hw) by auto with dsr_arith
  | Hw : memwrite _ ?o (bytes32 _) = Ret ?b |- context [load32 ?b ?o'] =>
      replace o' with o by lia; rewrite (load32_same _ _ _ _ Hw) by done
  | Hw : memwrite _ _ _ = Ret ?b |- context [load8 ?b ?o] => rewrite (load8_other Hw o) by zl
  | Hw : memwrite _ _ _ = Ret ?b |- context [load16 ?b ?o] => rewrite (load16_other Hw o) by zl
  | Hw : memwrite _ _ _ = Ret ?b |- context [load32 ?b ?o] => rewrite (load32_other Hw o) by zl
  | Hw : memwrite _ _ _ = Ret ?b |- context [memread ?b ?o ?n] =>
      rewrite (memread_memwrite_disjoint _ _ _ _ o n Hw) by zl
  end.
Ltac rd := repeat rd_step.

#[local] Hint Resolve htons_range : dsr_arith.

(** A write confined to [len] bytes at [buf]. *)
Definition confined (b b' : bytes) (buf len : Z) : Prop :=
  zlen b' = zlen b
  /\ forall o n, o + n <= buf \/ buf + len <= o -> memread b' o n = memread b o n.

Lemma u8_id x : 0 <= x < 256 -> u8 x = x.
Proof. apply u8_small. Qed.

(** The option written at [buf] and the fields a receiver reads there. *)

Lemma rreq_opt_written b buf len target seqno :
  0 <= buf -> buf + 8 <= zlen b -> 8 <= len < 2 ^ 32 -> is_word target ->
  exists b', dsr_rreq_opt_add b buf len target seqno = Ret (Some b')
    /\ confined b b' buf 8
    /\ opt_type b' buf = Ret DSR_OPT_RREQ /\ opt_length b' buf = Ret 6
    /\ rreq_opt_id b' buf = Ret (u16 seqno) /\ rreq_opt_target b' buf = Ret target.
Proof.
  intros Hb Hl Hlen Ht. unfold dsr_rreq_opt_add, DSR_RREQ_HDR_LEN.
  rewrite u32_small by lia. rewrite (proj2 (Z.ltb_ge _ _)) by lia.
  do 4 wstep. eexists. split; [done|].
  unfold opt_type, opt_length, rreq_opt_id, rreq_opt_target. split_and!; try by rd.
  - split; [congruence|]. intros o n Ho. by rd.
  - rd. simpl. f_equal.
    assert (htons seqno = htons (u16 seqno)) as -> by (unfold htons, u16; by rewrite Zmod_mod).
    apply ntohs_htons, u16_range.
Qed.

Lemma htons_u16 x : htons x = htons (u16 x).
Proof. unfold htons, u16. by rewrite Zmod_mod. Qed.

Lemma ntohs_htons_u16 x : ntohs (htons x) = u16 x.
Proof. rewrite (htons_u16 x). apply ntohs_htons, u16_range. Qed.

Lemma rerr_opt_written b buf len err_src err_dst unr salv :
  0 <= buf -> buf + 16 <= zlen b -> 16 <= len -> is_word err_src -> is_word err_dst -> is_word unr ->
  exists b', dsr_rerr_opt_add b buf len NODE_UNREACHABLE err_src err_dst unr salv = Ret (Some b')
    /\ confined b b' buf 16
    /\ opt_type b' buf = Ret DSR_OPT_RERR /\ opt_length b' buf = Ret 14
    /\ rerr_opt_type b' buf = Ret NODE_UNREACHABLE /\ rerr_opt_salv b' buf = Ret (salv mod 16)
    /\ rerr_opt_src b' buf = Ret err_src /\ rerr_opt_dst b' buf = Ret err_dst
    /\ rerr_opt_info b' buf = Ret unr.
Proof.
  intros Hb Hl Hlen Hs Hd Hu. unfold dsr_rerr_opt_add, DSR_RERR_HDR_LEN, DSR_RERR_OPT_LEN.
  rewrite !(proj2 (Z.ltb_ge _ _)) by lia. change (NODE_UNREACHABLE =? NODE_UNREACHABLE) with true.
  do 8 wstep. eexists. split; [done|].
  unfold opt_type, opt_length, rerr_opt_type, rerr_opt_salv, rerr_opt_src, rerr_opt_dst, rerr_opt_info.
  split_and!; try by rd.
  - split; [congruence|]. intros o n Ho. by rd.
  - rd. simpl. f_equal. pose proof (Z.mod_pos_bound salv 16 ltac:(lia)).
    rewrite u8_small by (rewrite Z.shiftl_mul_pow2 by lia; lia).
    by rewrite Z.shiftr_shiftl_l, Z.sub_diag, Z.shiftl_0_r by lia.
Qed.

Lemma ack_opt_written b buf len src dst id :
  0 <= buf -> buf + 12 <= zlen b -> 12 <= len -> is_word src -> is_word dst ->
  exists b', dsr_ack_opt_add b buf len src dst id = Ret (Some b')
    /\ confined b b' buf 12
    /\ opt_type b' buf = Ret DSR_OPT_ACK /\ opt_length b' buf = Ret 10
    /\ ack_opt_id b' buf = Ret (u16 id)
    /\ ack_opt_src b' buf = Ret src /\ ack_opt_dst b' buf = Ret dst.
Proof.
  intros Hb Hl Hlen Hs Hd. unfold dsr_ack_opt_add, DSR_ACK_HDR_LEN, DSR_ACK_OPT_LEN.
  rewrite !(proj2 (Z.ltb_ge _ _)) by lia.
  do 5 wstep. eexists. split; [done|].
  unfold opt_type, opt_length, ack_opt_id, ack_opt_src, ack_opt_dst. split_and!; try by rd.
  - split; [congruence|]. intros o n Ho. by rd.
  - rd. simpl. f_equal. apply ntohs_htons_u16.
Qed.

Lemma ack_req_opt_written b buf len id :
  0 <= buf -> buf + 4 <= zlen b -> 4 <= len ->
  exists b', dsr_ack_req_opt_create b buf len id = Ret (Some b')
    /\ confined b b' buf 4
    /\ opt_type b' buf = Ret DSR_OPT_ACK_REQ /\ opt_length b' buf = Ret 2
    /\ ack_opt_id b' buf = Ret (u16 id).
Proof.
  intros Hb Hl Hlen. unfold dsr_ack_req_opt_create, DSR_ACK_REQ_HDR_LEN, DSR_ACK_REQ_OPT_LEN.
  rewrite !(proj2 (Z.ltb_ge _ _)) by lia.
  do 3 wstep. eexists. split; [done|].
  unfold opt_type, opt_length, ack_opt_id. split_and!; try by rd.
  - split; [congruence|]. intros o n Ho. by rd.
  - rd. simpl. f_equal. apply ntohs_htons_u16.
Qed.

(** ** Routes in options *)

(** The bit-fields of the source route option come back whole. *)
Lemma srt_bits_fields f l salv sleft :
  (f = 0 \/ f = 1) -> (l = 0 \/ l = 1) ->
  0 <= srt_bits f l 0 salv sleft < 65536
  /\ bits_salv (srt_bits f l 0 salv sleft) = salv mod 16
  /\ bits_sleft (srt_bits f l 0 salv sleft) = sleft mod 64.
Proof.
  intros Hf Hl. unfold srt_bits.
  pose proof (Z.mod_pos_bound salv 16 ltac:(lia)) as Hs.
  pose proof (Z.mod_pos_bound sleft 64 ltac:(lia)) as Ht.
  generalize dependent (salv mod 16). generalize dependent (sleft mod 64). intros t Ht s Hs.
  set (x f l s t := Z.lor f (Z.lor (Z.shiftl l 1) (Z.lor (Z.shiftl (0 mod 16) 2)
                      (Z.lor (Z.shiftl s 6) (Z.shiftl t 10))))).
  assert (Hall : forallb (λ f, forallb (λ l, forallb (λ s, forallb (λ t,
    let v := x f l s t in
    (0 <=? v) && (v <? 65536) && (bits_salv v =? s) && (bits_sleft v =? t))
    (seqZ 0 64)) (seqZ 0 16)) [0; 1]) [0; 1] = true) by (vm_compute; reflexivity).
  rewrite forallb_forall in Hall. specialize (Hall f). rewrite forallb_forall in Hall.
  specialize (Hall ltac:(simpl; lia) l). rewrite forallb_forall in Hall.
  specialize (Hall ltac:(simpl; lia) s). rewrite forallb_forall in Hall.
  specialize (Hall ltac:(apply list_elem_of_In, elem_of_seqZ; lia) t
                   ltac:(apply list_elem_of_In, elem_of_seqZ; lia)).
  fold (x f l s t). cbv zeta in Hall. zb. split_and!; done.
Qed.

Lemma lor_shiftl a b k : 0 <= k -> 0 <= a < 2 ^ k -> Z.lor a (Z.shiftl b k) = a + b * 2 ^ k.
Proof.
  intros Hk Ha. rewrite <- Z.shiftl_mul_pow2 by done. symmetry. apply Z.add_nocarry_lor.
  apply Z.bits_inj'. intros i Hi. rewrite Z.land_spec, Z.bits_0.
  destruct (Z.lt_ge_cases i k).
  - by rewrite Z.shiftl_spec_low, andb_false_r.
  - rewrite <- (Z.mod_small a (2 ^ k)) by done. by rewrite Z.mod_pow2_bits_high.
Qed.

(** [srt_opt->sleft = v] changes that field alone. *)
Lemma bits_set_sleft_fields x v :
  0 <= x < 65536 ->
  0 <= bits_set_sleft x v < 65536
  /\ bits_sleft (bits_set_sleft x v) = v mod 64 /\ bits_salv (bits_set_sleft x v) = bits_salv x.
Proof.
  intros Hx. unfold bits_set_sleft, bits_sleft, bits_salv.
  change 1023 with (Z.ones 10). rewrite Z.land_ones by lia.
  pose proof (Z.mod_pos_bound x (2 ^ 10) ltac:(lia)). pose proof (Z.mod_pos_bound v 64 ltac:(lia)).
  rewrite lor_shiftl by lia. split_and!; [lia|lia| |].
  - rewrite Z.shiftr_div_pow2 by lia. rewrite Z.div_add, Z.div_small by lia. lia.
  - change 15 with (Z.ones 4). rewrite !Z.land_ones, !Z.shiftr_div_pow2 by lia.
    replace (v mod 64 * 2 ^ 10) with ((v mod 64 * 2 ^ 4) * 2 ^ 6) by lia. rewrite Z.div_add by lia.
    rewrite (Z.div_mod x (2 ^ 10)) at 2 by lia.
    replace (2 ^ 10 * (x / 2 ^ 10) + x mod 2 ^ 10) with (x mod 2 ^ 10 + (x / 2 ^ 10 * 2 ^ 4) * 2 ^ 6) by lia.
    rewrite Z.div_add by lia. by rewrite !Z.mod_add by lia.
Qed.

Lemma srt_bytes_wf srt :
  srt_wf srt -> srt_bytes srt = Ret (bytes_of_words (addrs srt) ++ atail srt).
Proof.
  intros (Hl & Ht & Hb). unfold srt_bytes. apply memread_Ret.
  pose proof (zlen_nonneg (addrs srt)). pose proof (zlen_nonneg (atail srt)).
  autorewrite with dsr_rw. split_and!; [lia..|].
  rewrite drop_0, take_ge; [done|]. apply Nat2Z.inj_le.
  change (zlen (bytes_of_words (addrs srt) ++ atail srt) <= Z.of_nat (Z.to_nat (laddrs srt))).
  autorewrite with dsr_rw. lia.
Qed.

(** The source route option as one run of bytes. *)
Definition srt_enc (flags salvage : Z) (srt : dsr_srt) : bytes :=
  opt_enc (DSR_OPT_SRT,
    bytes16 (srt_bits (if Z.land flags SRT_FIRST_HOP_EXT =? 0 then 0 else 1)
                      (if Z.land flags SRT_LAST_HOP_EXT =? 0 then 0 else 1)
                      0 salvage (laddrs srt / 4))
    ++ bytes_of_words (addrs srt) ++ atail srt).

Lemma dsr_srt_opt_add_enc b buf len flags salvage srt :
  srt_wf srt -> laddrs srt + 2 < 256 -> DSR_SRT_OPT_LEN srt <= len ->
  dsr_srt_opt_add b buf len flags salvage srt =
    (b' ← memwrite b buf (srt_enc flags salvage srt); Ret (Some b')).
Proof.
  intros Hwf Hl Hlen. pose proof Hwf as (Hla & _ & _).
  pose proof (zlen_nonneg (addrs srt)). pose proof (zlen_nonneg (atail srt)).
  unfold dsr_srt_opt_add, DSR_SRT_OPT_LEN, DSR_SRT_HDR_LEN in *. rewrite s32_small by lia.
  rewrite (proj2 (Z.ltb_ge _ _)) by lia. rewrite srt_bytes_wf by done.
  unfold srt_enc, opt_enc, store8, store16. cbn [fst snd].
  set (bits := bytes16 _). set (ws := bytes_of_words (addrs srt) ++ atail srt).
  assert (Hws : zlen ws = laddrs srt) by (subst ws; zl).
  assert (zlen (bits ++ ws) = laddrs srt + 2) as -> by (subst bits; zl).
  change (DSR_OPT_SRT :: laddrs srt + 2 :: bits ++ ws)
    with ([u8 DSR_OPT_SRT] ++ [laddrs srt + 2] ++ bits ++ ws).
  rewrite (u8_small (laddrs srt + 2)) by lia.
  rewrite memwrite_split, zlen_one.
  destruct (memwrite b buf _) as [b1|]; [|done]. cbn [mbind outcome_bind].
  rewrite memwrite_split, zlen_one.
  destruct (memwrite b1 (buf + 1) _) as [b2|]; [|done]. cbn [mbind outcome_bind].
  replace (buf + 1 + 1) with (buf + 2) by lia. rewrite memwrite_split.
  assert (zlen bits = 2) as -> by done.
  destruct (memwrite b2 (buf + 2) _) as [b3|]; [|done]. cbn [mbind outcome_bind].
  by replace (buf + 2 + 2) with (buf + 4) by lia.
Qed.

Lemma srt_enc_len flags salvage srt :
  srt_wf srt -> zlen (srt_enc flags salvage srt) = DSR_SRT_OPT_LEN srt.
Proof.
  intros (Hl & _). unfold srt_enc, DSR_SRT_OPT_LEN, DSR_SRT_HDR_LEN, opt_enc. cbn [fst snd]. zl.
Qed.

Lemma dsr_srt_new_read b off ws t s d :
  memread b off (4 * zlen ws + zlen t) = Ret (bytes_of_words ws ++ t) ->
  Forall is_word ws -> zlen t < 4 ->
  dsr_srt_new true s d (4 * zlen ws + zlen t) (Some (b, off))
    = Ret (Some (DsrSrt s d 0 (4 * zlen ws + zlen t) ws t)).
Proof.
  intros Hr Hw Ht. unfold dsr_srt_new. simpl. case_if.
  - pose proof (zlen_nonneg ws). pose proof (zlen_nonneg t).
    assert (ws = []) as -> by (apply nil_length_inv; unfold zlen in *; lia).
    assert (t = []) as -> by (apply nil_length_inv; unfold zlen in *; simpl in *; lia). done.
  - rewrite Hr. simpl. rewrite words_of_bytes_app by (try done; unfold zlen in Ht; lia). done.
Qed.

(** The option with any bits: [sleft] counts down on the way. *)
Definition srt_raw (bits : Z) (srt : dsr_srt) : bytes :=
  opt_enc (DSR_OPT_SRT, bytes16 bits ++ bytes_of_words (addrs srt) ++ atail srt).

Lemma srt_raw_len bits srt : srt_wf srt -> zlen (srt_raw bits srt) = DSR_SRT_OPT_LEN srt.
Proof.
  intros (Hl & _). unfold srt_raw, DSR_SRT_OPT_LEN, DSR_SRT_HDR_LEN, opt_enc. cbn [fst snd]. zl.
Qed.

(** What a receiver finds where a source route option lies. *)
Lemma srt_raw_read b o bits srt :
  srt_wf srt -> laddrs srt + 2 < 256 -> 0 <= bits < 65536 ->
  memread b o (DSR_SRT_OPT_LEN srt) = Ret (srt_raw bits srt) ->
  opt_type b o = Ret DSR_OPT_SRT /\ opt_length b o = Ret (laddrs srt + 2)
  /\ load16 b (o + 2) = Ret bits
  /\ memread b (o + 4) (laddrs srt) = Ret (bytes_of_words (addrs srt) ++ atail srt).
Proof.
  intros Hwf Hl Hbr Hr. pose proof Hwf as (Hla & Ht & _).
  pose proof (zlen_nonneg (addrs srt)). pose proof (zlen_nonneg (atail srt)).
  unfold DSR_SRT_OPT_LEN, DSR_SRT_HDR_LEN in Hr.
  assert (Hsub : forall k m, 0 <= k -> 0 <= m -> k + m <= 4 + laddrs srt ->
            memread b (o + k) m = memread (srt_raw bits srt) k m).
  { intros. by apply (memread_sub _ _ _ _ _ _ Hr). }
  unfold srt_raw, opt_enc in Hsub. cbn [fst snd] in Hsub.
  set (ws := bytes_of_words _ ++ _) in *.
  assert (Hws : zlen ws = laddrs srt) by (subst ws; zl).
  assert (zlen (bytes16 bits ++ ws) = laddrs srt + 2) as E by zl. rewrite E in Hsub.
  assert (Hhd : forall k m l rest, 0 <= k -> m = zlen l ->
    drop (Z.to_nat k) (DSR_OPT_SRT :: laddrs srt + 2 :: bytes16 bits ++ ws) = l ++ rest ->
    k + m <= 4 + laddrs srt -> memread b (o + k) m = Ret l).
  { intros k m l rest Hk -> Hd Hm. pose proof (zlen_nonneg l). rewrite Hsub by done.
    apply memread_Ret. split_and!; [lia..|zl|]. rewrite Hd. unfold zlen. by rewrite Nat2Z.id, take_app_length. }
  unfold opt_type, opt_length, load8, load16.
  rewrite <- (Z.add_0_r o) at 1. split_and!.
  - by erewrite (Hhd 0 1 [DSR_OPT_SRT]) by (done || lia).
  - by erewrite (Hhd 1 1 [laddrs srt + 2]) by (done || lia).
  - erewrite (Hhd 2 2 (bytes16 bits)) by (done || lia). simpl. by rewrite le16_bytes16 by done.
  - apply (Hhd 4 _ ws []); [lia | done | by rewrite app_nil_r | lia].
Qed.

(** What a receiver finds where a freshly written one lies. *)
Lemma srt_enc_read b o flags salvage srt :
  srt_wf srt -> laddrs srt + 2 < 256 ->
  memread b o (DSR_SRT_OPT_LEN srt) = Ret (srt_enc flags salvage srt) ->
  opt_type b o = Ret DSR_OPT_SRT /\ opt_length b o = Ret (laddrs srt + 2)
  /\ srt_opt_sleft b o = Ret (zlen (addrs srt)) /\ srt_opt_salv b o = Ret (salvage mod 16)
  /\ memread b (o + 4) (laddrs srt) = Ret (bytes_of_words (addrs srt) ++ atail srt).
Proof.
  intros Hwf Hl Hr. pose proof Hwf as (Hla & Ht & _).
  pose proof (zlen_nonneg (addrs srt)). pose proof (zlen_nonneg (atail srt)).
  pose proof (srt_bits_fields (if Z.land flags SRT_FIRST_HOP_EXT =? 0 then 0 else 1)
    (if Z.land flags SRT_LAST_HOP_EXT =? 0 then 0 else 1) salvage (laddrs srt / 4)) as Hb.
  destruct Hb as (Hbr & Hbs & Hbl); [case_match; lia | case_match; lia |].
  assert (Hdiv : laddrs srt / 4 = zlen (addrs srt)).
  { rewrite Hla, Z.mul_comm, Z.div_add_l, Z.div_small by lia. lia. }
  rewrite (Z.mod_small (laddrs srt / 4)) in Hbl by lia.
  destruct (srt_raw_read b o _ srt Hwf Hl Hbr Hr) as (R1 & R2 & R3 & R4).
  unfold srt_opt_sleft, srt_opt_salv. rewrite R3. cbn [mbind outcome_bind]. by rewrite Hbs, Hbl, Hdiv.
Qed.

(** C23: A source route survives the wire.  Writing a route of at most 63 hops as
    an option changes no byte outside it, and the receiver reads back the
    option's type and length, the number of hops as segments left, the salvage
    count modulo 16, and the very route.  (The receive handler takes the length
    field for the length of the addresses: it gets the same hops, plus the two
    bytes behind the option as a partial word.) *)
Theorem srt_opt_roundtrip b buf len flags salv srt s d :
  srt_aligned srt -> zlen (addrs srt) <= 63 -> Forall is_word (addrs srt) -> Forall is_byte b ->
  0 <= buf -> DSR_SRT_OPT_LEN srt <= len -> buf + DSR_SRT_OPT_LEN srt + 2 <= zlen b ->
  exists b', dsr_srt_opt_add b buf len flags salv srt = Ret (Some b')
    /\ confined b b' buf (DSR_SRT_OPT_LEN srt)
    /\ opt_type b' buf = Ret DSR_OPT_SRT /\ opt_length b' buf = Ret (laddrs srt + 2)
    /\ srt_opt_sleft b' buf = Ret (zlen (addrs srt)) /\ srt_opt_salv b' buf = Ret (salv mod 16)
    /\ dsr_srt_new true s d (laddrs srt + 2 - 2) (Some (b', buf + 4))
         = Ret (Some (DsrSrt s d 0 (laddrs srt) (addrs srt) []))
    /\ exists t, dsr_srt_new true s d (laddrs srt + 2) (Some (b', buf + 4))
         = Ret (Some (DsrSrt s d 0 (laddrs srt + 2) (addrs srt) t)) /\ zlen t = 2.
Proof.
  intros [Hwf Ha] Hn Hw Hby Hb Hlen Hroom.
  pose proof (srt_aligned_laddrs srt (conj Hwf Ha)) as Hla. pose proof (zlen_nonneg (addrs srt)).
  rewrite dsr_srt_opt_add_enc by (done || lia).
  pose proof (srt_enc_len flags salv srt Hwf) as He.
  destruct (memwrite_total b buf (srt_enc flags salv srt)) as [b' Hw1]; [lia..|].
  exists b'. rewrite Hw1. split; [done|]. pose proof (memwrite_len _ _ _ _ Hw1) as HL.
  split. { split; [done|]. intros o n Ho. apply (memread_memwrite_disjoint _ _ _ _ _ _ Hw1). lia. }
  pose proof (memread_memwrite_same _ _ _ _ Hw1) as Hr. rewrite He in Hr.
  destruct (srt_enc_read b' buf flags salv srt Hwf ltac:(lia) Hr) as (R1 & R2 & R3 & R4 & R5).
  rewrite Ha, app_nil_r in R5. split_and!; try done.
  - replace (laddrs srt + 2 - 2) with (4 * zlen (addrs srt) + zlen (@nil Z)) by (rewrite Hla; zl).
    rewrite dsr_srt_new_read; [|rewrite app_nil_r; unfold zlen at 2; simpl; by rewrite Z.add_0_r, <- Hla|done|done].
    unfold zlen at 2. simpl. by rewrite Z.add_0_r, <- Hla.
  - unfold DSR_SRT_OPT_LEN, DSR_SRT_HDR_LEN in *.
    destruct (memread b' (buf + 4 + laddrs srt) 2) as [t|] eqn:Et.
    2: { unfold memread in Et. case_match eqn:C; [done|]. rewrite !andb_false_iff, !Z.leb_gt in C. lia. }
    pose proof (memread_len _ _ _ _ Et) as Htl. exists t. split; [|done].
    replace (laddrs srt + 2) with (4 * zlen (addrs srt) + zlen t) by lia.
    apply dsr_srt_new_read; [|done|lia].
    replace (4 * zlen (addrs srt)) with (laddrs srt) by lia.
    apply memread_join; [done|]. by rewrite Htl.
Qed.

Lemma srt_opt_roundtrip_witness :
  let srt := DsrSrt 10 40 0 8 [20; 30] [] in
  exists b', dsr_srt_opt_add (repeat 7 30) 4 12 0 17 srt = Ret (Some b')
    /\ srt_opt_sleft b' 4 = Ret 2 /\ srt_opt_salv b' 4 = Ret 1
    /\ dsr_srt_new true 10 40 8 (Some (b', 8)) = Ret (Some srt).
Proof.
  intros srt.
  destruct (srt_opt_roundtrip (repeat 7 30) 4 12 0 17 srt 10 40) as (b' & H1 & _ & _ & _ & H4 & H5 & H6 & _).
  - repeat split; vm_compute; congruence.
  - by vm_compute.
  - repeat constructor; vm_compute; congruence.
  - repeat constructor; vm_compute; congruence.
  - lia.
  - by vm_compute.
  - by vm_compute.
  - exists b'. split_and!; [exact H1 | exact H4 | exact H5 | exact H6].
Defined.

(** A route reply survives the wire.  Writing the reply for a route of at
    most 61 intermediate hops changes no byte outside the option, and a
    receiver that takes the last address for the destination and the rest for
    the hops rebuilds the route. *)
Theorem rrep_opt_roundtrip b buf len srt s :
  srt_aligned srt -> zlen (addrs srt) <= 61 -> Forall is_word (addrs srt) -> is_word (dst srt) ->
  0 <= buf -> DSR_RREP_OPT_LEN srt <= len < 2 ^ 32 -> buf + DSR_RREP_OPT_LEN srt <= zlen b ->
  exists b' length, dsr_rrep_opt_add b buf len srt = Ret (Some b')
    /\ confined b b' buf (DSR_RREP_OPT_LEN srt)
    /\ opt_type b' buf = Ret DSR_OPT_RREP /\ opt_length b' buf = Ret length
    /\ rrep_opt_addr b' buf (DSR_RREP_ADDRS_LEN length / 4) = Ret (dst srt)
    /\ dsr_srt_new true s (dst srt) (u32 (DSR_RREP_ADDRS_LEN length)) (Some (b', buf + 4))
         = Ret (Some (DsrSrt s (dst srt) 0 (laddrs srt) (addrs srt) [])).
Proof.
  intros [Hwf Ha] Hn Hw Hd Hb Hlen Hroom.
  pose proof (srt_aligned_laddrs srt (conj Hwf Ha)) as Hla. pose proof (zlen_nonneg (addrs srt)).
  unfold DSR_RREP_OPT_LEN, DSR_RREP_HDR_LEN in *.
  unfold dsr_rrep_opt_add, DSR_RREP_OPT_LEN, DSR_RREP_HDR_LEN, dsr_rrep_add_srt.
  rewrite u32_small, (proj2 (Z.ltb_ge _ _)) by lia. rewrite srt_bytes_wf, srt_n_wf, Ha, app_nil_r by done.
  do 3 wstep. wstep. wstep.
  eexists. exists (laddrs srt + 5). split; [done|].
  unfold DSR_RREP_ADDRS_LEN. rewrite u64_small, u32_small by lia.
  replace (laddrs srt + 5 - 1 - 4) with (laddrs srt) by lia.
  assert (laddrs srt / 4 = zlen (addrs srt)) as -> by (rewrite Hla, Z.mul_comm, Z.div_mul; lia).
  unfold opt_type, opt_length, rrep_opt_addr. split_and!.
  - split; [congruence|]. intros o n Ho. by rd.
  - by rd.
  - rd. f_equal. rewrite u8_small; lia.
  - by rd.
  - replace (laddrs srt) with (4 * zlen (addrs srt) + zlen (@nil Z)) by zl.
    apply dsr_srt_new_read; [|done|done].
    replace (4 * zlen (addrs srt) + zlen (@nil Z)) with (zlen (bytes_of_words (addrs srt))) by zl.
    rewrite (memread_memwrite_disjoint _ _ _ _ _ _ Hw4) by zl.
    rewrite app_nil_r. by apply (memread_memwrite_same _ _ _ _ Hw3).
Qed.

Lemma rrep_opt_roundtrip_witness :
  let srt := DsrSrt 10 40 0 8 [20; 30] [] in
  exists b', dsr_rrep_opt_add (repeat 7 30) 4 16 srt = Ret (Some b')
    /\ dsr_srt_new true 10 40 8 (Some (b', 8)) = Ret (Some srt).
Proof.
  intros srt.
  destruct (rrep_opt_roundtrip (repeat 7 30) 4 16 srt 10) as (b' & l & H1 & _ & _ & H3 & _ & H5).
  - repeat split; vm_compute; congruence.
  - by vm_compute.
  - repeat constructor; vm_compute; congruence.
  - by vm_compute.
  - lia.
  - by vm_compute.
  - by vm_compute.
  - exists b'. split; [exact H1|].
    assert (l = 13) as ->; [|exact H5].
    apply (f_equal (λ r, match r with Ret (Some b) => opt_length b 4 | _ => Fault BadAccess end)) in H1.
    rewrite H3 in H1. by injection H1 as <-.
Defined.

(** The control options survive the wire: a route request, a link error, an
    acknowledgement request and an acknowledgement, each written into a block
    with room for it, change no byte outside themselves, and the receiver reads
    back the type, the length and every field: identifiers modulo [2^16], the
    salvage count modulo 16, addresses whole. *)
Theorem control_opts_roundtrip b buf len a1 a2 a3 id salv :
  0 <= buf -> 16 <= len < 2 ^ 31 -> buf + 16 <= zlen b -> is_word a1 -> is_word a2 -> is_word a3 ->
  (exists b', dsr_rreq_opt_add b buf len a1 id = Ret (Some b') /\ confined b b' buf 8
    /\ opt_type b' buf = Ret DSR_OPT_RREQ /\ opt_length b' buf = Ret 6
    /\ rreq_opt_id b' buf = Ret (u16 id) /\ rreq_opt_target b' buf = Ret a1)
  /\ (exists b', dsr_rerr_opt_add b buf len NODE_UNREACHABLE a1 a2 a3 salv = Ret (Some b')
    /\ confined b b' buf 16
    /\ opt_type b' buf = Ret DSR_OPT_RERR /\ opt_length b' buf = Ret 14
    /\ rerr_opt_type b' buf = Ret NODE_UNREACHABLE /\ rerr_opt_salv b' buf = Ret (salv mod 16)
    /\ rerr_opt_src b' buf = Ret a1 /\ rerr_opt_dst b' buf = Ret a2 /\ rerr_opt_info b' buf = Ret a3)
  /\ (exists b', dsr_ack_req_opt_create b buf len id = Ret (Some b') /\ confined b b' buf 4
    /\ opt_type b' buf = Ret DSR_OPT_ACK_REQ /\ opt_length b' buf = Ret 2
    /\ ack_opt_id b' buf = Ret (u16 id))
  /\ (exists b', dsr_ack_opt_add b buf len a1 a2 id = Ret (Some b') /\ confined b b' buf 12
    /\ opt_type b' buf = Ret DSR_OPT_ACK /\ opt_length b' buf = Ret 10
    /\ ack_opt_id b' buf = Ret (u16 id) /\ ack_opt_src b' buf = Ret a1 /\ ack_opt_dst b' buf = Ret a2).
Proof.
  intros. split_and!.
  - apply rreq_opt_written; done || lia.
  - apply rerr_opt_written; done || lia.
  - apply ack_req_opt_written; lia.
  - apply ack_opt_written; done || lia.
Qed.

Lemma control_opts_roundtrip_witness :
  exists b', dsr_ack_opt_add (repeat 0 40) 4 16 1 4294967295 65537 = Ret (Some b')
    /\ ack_opt_id b' 4 = Ret 1 /\ ack_opt_src b' 4 = Ret 1 /\ ack_opt_dst b' 4 = Ret 4294967295.
Proof.
  destruct (control_opts_roundtrip (repeat 0 40) 4 16 1 4294967295 3 65537 2) as (_ & _ & _ & b' & H);
    [lia | lia | by vm_compute | unfold is_word; lia | unfold is_word; lia | unfold is_word; lia |].
  destruct H as (H1 & _ & _ & _ & H2 & H3 & H4). exists b'.
  split_and!; [exact H1 | exact H2 | exact H3 | exact H4].
Defined.
