(* ===== verification/Send.v ===== *)
(** * Building packets (dsr-srt.c, dsr-ack.c, dsr-rreq.c, dsr-rrep.c, dsr-rerr.c, dsr-dev.c)

    The functions that put the DSR options of a packet together and lay the
    packet out for the device.  Each takes the allocator's answers it needs. *)

From S2P Require Import Prelude Mem Config Srt Pkt Opt.

Section Send.
Context (ip_csum : bytes -> Z).

(** [dp->dh.opth = r]: a NULL also replaces [raw], which shares its place. *)
Definition set_opth (p : dsr_pkt) (r : option bytes) : dsr_pkt :=
  match r with Some m => set_mem p m | None => set_dh p DhLost (nblk p) end.

(** A pointer to the place [off] of the packet's own block. *)
Definition opt_at (p : dsr_pkt) (off : Z) : optr := Optr (blk (dh_mem p)) off.

Definition dsr_srt_add (ans : byte_ans) (p : dsr_pkt) : outcome (Z * dsr_pkt) :=
  match srt p with
  | None => Ret (-1, p)
  | Some r =>
      let n := srt_n r in
      hop ← dsr_srt_next_hop r n;
      let p := set_nxt_hop p hop in
      let len := DSR_OPT_HDR_LEN + DSR_SRT_OPT_LEN r in
      match dsr_pkt_alloc_opts ans p len with
      | (false, p) => Ret (-1, p)
      | (true, p) =>
          h ← nh_bytes p;
          prot ← ip_protocol h;
          ihl ← ip_ihl h;
          let ip_len := Z.shiftl ihl 2 in
          tot ← ip_tot_len h;
          let tot_len := ntohs tot + len in
          ttl ← ip_ttl h;
          p ← dsr_build_ip ip_csum p (dp_src p) (dp_dst p) ip_len tot_len IPPROTO_DSR ttl;
          r1 ← dsr_opt_hdr_add (mem (dh_mem p)) 0 len prot;
          let p := set_opth p r1 in
          match r1 with
          | None => Ret (-1, p)
          | Some _ =>
              r2 ← dsr_srt_opt_add (mem (dh_mem p)) DSR_OPT_HDR_LEN (len - DSR_OPT_HDR_LEN) 0 (salvage p) r;
              match r2 with
              | None => Ret (-1, set_slots p (set_srt_opt (slots p) None))
              | Some m =>
                  Ret (0, set_slots (set_mem p m)
                            (set_srt_opt (slots p) (Some (opt_at p DSR_OPT_HDR_LEN))))
              end
          end
      end
  end.

(** Returns whether the option was written. *)
Definition dsr_ack_req_opt_add (ans : byte_ans) (p : dsr_pkt) (id : Z) : outcome (bool * dsr_pkt) :=
  let write (p : dsr_pkt) (buf : Z) : outcome (bool * dsr_pkt) :=
    r ← dsr_ack_req_opt_create (mem (dh_mem p)) buf DSR_ACK_REQ_HDR_LEN id;
    Ret (match r with Some m => (true, set_mem p m) | None => (false, p) end) in
  match ack_req_opt (slots p) with
  | Some o => buf ← opt_off p o; write p buf
  | None =>
      '(tot_len, prot, ttl) ←
        (match nh p with
         | NhNull => Ret (0, 0, IPDEFTTL)
         | _ => h ← nh_bytes p; t ← ip_tot_len h; pr ← ip_protocol h; tt ← ip_ttl h;
                Ret (ntohs t, pr, tt)
         end);
      opts_len ← dsr_pkt_opts_len p;
      if opts_len =? 0 then
        match dsr_pkt_alloc_opts ans p (DSR_OPT_HDR_LEN + DSR_ACK_REQ_HDR_LEN) with
        | (false, p) => Ret (false, p)
        | (true, p) =>
            p ← dsr_build_ip ip_csum p (dp_src p) (dp_dst p) IP_HDR_LEN
                  (tot_len + DSR_OPT_HDR_LEN + DSR_ACK_REQ_HDR_LEN) IPPROTO_DSR ttl;
            r ← dsr_opt_hdr_add (mem (dh_mem p)) 0 (DSR_OPT_HDR_LEN + DSR_ACK_REQ_HDR_LEN) prot;
            let p := set_opth p r in
            match r with None => Ret (false, p) | Some _ => write p DSR_OPT_HDR_LEN end
        end
      else
        '(buf, p) ← dsr_pkt_alloc_opts_expand ans p DSR_ACK_REQ_HDR_LEN;
        (* the debug message reads the length before the result is tested *)
        _ ← load16 (mem (dh_mem p)) 2;
        match buf with
        | None => Ret (false, p)
        | Some buf =>
            p ← dsr_build_ip ip_csum p (dp_src p) (dp_dst p) IP_HDR_LEN
                  (tot_len + DSR_ACK_REQ_HDR_LEN) IPPROTO_DSR ttl;
            p_len ← load16 (mem (dh_mem p)) 2;
            nxt ← load8 (mem (dh_mem p)) 0;
            r ← dsr_opt_hdr_add (mem (dh_mem p)) 0
                  (DSR_OPT_HDR_LEN + ntohs p_len + DSR_ACK_REQ_HDR_LEN) nxt;
            write (set_opth p r) buf
        end
  end.

(** [dsr_skb_create]: the bytes of the new [sk_buff] from its network header on;
    [ans] is the answer of [alloc_skb]. *)
Definition dsr_skb_create (ans : byte_ans) (p : dsr_pkt) : outcome (option bytes) :=
  dsr_opts_len ← dsr_pkt_opts_len p;
  h ← nh_bytes p;
  ihl ← ip_ihl h;
  let ip_len := Z.shiftl ihl 2 in
  let tot_len := ip_len + dsr_opts_len + payload_len p in
  match (if tot_len <? 0 then None else ans) with
  | None => Ret None
  | Some junk =>
      let b := fill tot_len junk in
      hd ← memread h 0 ip_len;
      b ← memwrite b 0 hd;
      b ← ip_send_check ip_csum b;
      b ← (if dsr_opts_len =? 0 then Ret b
           else o ← memread (mem (dh_mem p)) 0 dsr_opts_len; memwrite b ip_len o);
      b ← (match payload p, skb p with
           | Some off, Some s =>
               if payload_len p =? 0 then Ret b
               else pl ← memread (skb_data s) off (payload_len p);
                    memwrite b (ip_len + dsr_opts_len) pl
           | _, _ => Ret b
           end);
      Ret (Some b)
  end.

(** ** Control packets, up to the point where they are handed to the device

    [None] after the allocation of the packet failed or an option did not fit. *)

Definition pkt_ok (r : option dsr_pkt) (k : dsr_pkt -> outcome (option dsr_pkt)) : outcome (option dsr_pkt) :=
  match r with Some p => k p | None => Ret None end.

(** [dsr_build_ip], the block and the option header shared by the senders. *)
Definition start_ctrl (ans : byte_ans) (p : dsr_pkt) (len ttl : Z)
  (k : dsr_pkt -> outcome (option dsr_pkt)) : outcome (option dsr_pkt) :=
  match dsr_pkt_alloc_opts ans p len with
  | (false, _) => Ret None
  | (true, p) =>
      p ← dsr_build_ip ip_csum p (dp_src p) (dp_dst p) IP_HDR_LEN (IP_HDR_LEN + len) IPPROTO_DSR ttl;
      r ← dsr_opt_hdr_add (mem (dh_mem p)) 0 len DSR_NO_NEXT_HDR_TYPE;
      match r with None => Ret None | Some m => k (set_mem p m) end
  end.

Definition rreq_pkt (ok : bool) (ans : byte_ans) (myaddr target ttl seqno : Z) : outcome (option dsr_pkt) :=
  p0 ← dsr_pkt_alloc ok ans None;
  pkt_ok p0 (λ p,
    let len := DSR_OPT_HDR_LEN + DSR_RREQ_HDR_LEN in
    let p := set_addrs p myaddr DSR_BROADCAST DSR_BROADCAST in
    start_ctrl ans p len ttl (λ p,
      r ← dsr_rreq_opt_add (mem (dh_mem p)) DSR_OPT_HDR_LEN (len - DSR_OPT_HDR_LEN) target seqno;
      match r with
      | None => Ret None
      | Some m =>
          let p := set_mem p m in
          let p := set_slots p (set_rreq_opt (slots p) (num_rreq_opts (slots p))
                                             (Some (opt_at p DSR_OPT_HDR_LEN))) in
          Ret (Some (set_flags p (Z.lor (dp_flags p) PKT_XMIT_JITTER)))
      end)).

Definition rrep_pkt (ok : bool) (ans : byte_ans) (myaddr : Z) (srt srt_to_me : dsr_srt)
  : outcome (option dsr_pkt) :=
  p0 ← dsr_pkt_alloc ok ans None;
  pkt_ok p0 (λ p,
    hop ← (if laddrs srt =? 0 then Ret (Srt.dst srt) else srt_addr srt 0);
    let p := set_addrs p myaddr (Srt.dst srt) hop in
    let len := DSR_OPT_HDR_LEN + DSR_SRT_OPT_LEN srt + DSR_RREP_OPT_LEN srt_to_me in
    let n := srt_n srt in
    start_ctrl ans p len (n + 1) (λ p,
      let buf := DSR_OPT_HDR_LEN in
      let len := len - DSR_OPT_HDR_LEN in
      r ← dsr_srt_opt_add (mem (dh_mem p)) buf len 0 (salvage p) srt;
      match r with
      | None => Ret None
      | Some m =>
          let p := set_mem p m in
          let p := set_slots p (set_srt_opt (slots p) (Some (opt_at p buf))) in
          let buf := buf + DSR_SRT_OPT_LEN srt in
          let len := len - DSR_SRT_OPT_LEN srt in
          r ← dsr_rrep_opt_add (mem (dh_mem p)) buf len srt_to_me;
          a ← zset (rrep_opt (slots p)) (num_rrep_opts (slots p))
                   (match r with Some _ => Some (opt_at p buf) | None => None end);
          match r with
          | None => Ret None
          | Some m =>
              let p := set_slots p (set_rrep_opt (slots p) (num_rrep_opts (slots p) + 1) a) in
              let p := set_mem p m in
              Ret (Some (set_flags p (Z.lor (dp_flags p) PKT_XMIT_JITTER)))
          end
      end)).

Definition ack_pkt (ok : bool) (ans : byte_ans) (myaddr dst id : Z) : outcome (option dsr_pkt) :=
  p0 ← dsr_pkt_alloc ok ans None;
  match p0 with
  | None => (* the result of [dsr_pkt_alloc] is not tested *) Fault BadAccess
  | Some p =>
      let len := DSR_OPT_HDR_LEN + DSR_ACK_HDR_LEN in
      let p := set_addrs p myaddr dst dst in
      start_ctrl ans p len IPDEFTTL (λ p,
        r ← dsr_ack_opt_add (mem (dh_mem p)) DSR_OPT_HDR_LEN (len - DSR_OPT_HDR_LEN)
              (dp_src p) (dp_dst p) id;
        match r with
        | None => Ret None
        | Some m => Ret (Some (set_flags (set_mem p m) (Z.lor (dp_flags p) PKT_XMIT_JITTER)))
        end)
  end.

Definition ack_req_pkt (ok : bool) (ans : byte_ans) (myaddr neigh_addr id : Z) : outcome (option dsr_pkt) :=
  p0 ← dsr_pkt_alloc ok ans None;
  match p0 with
  | None => (* the result of [dsr_pkt_alloc] is not tested *) Fault BadAccess
  | Some p =>
      let len := DSR_OPT_HDR_LEN + DSR_ACK_REQ_HDR_LEN in
      let p := set_addrs p myaddr neigh_addr neigh_addr in
      start_ctrl ans p len 1 (λ p,
        r ← dsr_ack_req_opt_create (mem (dh_mem p)) DSR_OPT_HDR_LEN (len - DSR_OPT_HDR_LEN) id;
        match r with None => Ret None | Some m => Ret (Some (set_mem p m)) end)
  end.

(** [dp_trigg->rerr_opt[i]] read through its pointer: its offset in the block. *)
Definition slot_off (p : dsr_pkt) (arr : list (option optr)) (i : Z) : outcome Z :=
  o ← deref (znth arr i);
  o ← deref o;
  opt_off p o.

(** The length of the RERR options that are passed on: the loop stops at the
    first with a salvage count above [MAX_SALVAGE_COUNT], [maxs]. *)
Fixpoint rerr_opts_len (p : dsr_pkt) (maxs : Z) (turns : nat) (i len : Z) : outcome Z :=
  match turns with
  | O => Ret len
  | S turns' =>
      o ← slot_off p (rerr_opt (slots p)) i;
      salv ← rerr_opt_salv (mem (dh_mem p)) o;
      if salv >? maxs then Ret len
      else l ← opt_length (mem (dh_mem p)) o; rerr_opts_len p maxs turns' (i + 1) (len + (l + 2))
  end.

Fixpoint copy_rerr_opts (p : dsr_pkt) (maxs : Z) (turns : nat) (i : Z) (b : bytes) (buf : Z)
  : outcome (bytes * Z) :=
  match turns with
  | O => Ret (b, buf)
  | S turns' =>
      o ← slot_off p (rerr_opt (slots p)) i;
      salv ← rerr_opt_salv (mem (dh_mem p)) o;
      if salv >? maxs then Ret (b, buf)
      else
        l ← opt_length (mem (dh_mem p)) o;
        x ← memread (mem (dh_mem p)) o (l + 2);
        b ← memwrite b buf x;
        copy_rerr_opts p maxs turns' (i + 1) b (buf + (l + 2))
  end.

Fixpoint copy_ack_opts (p : dsr_pkt) (turns : nat) (i : Z) (b : bytes) (buf : Z)
  : outcome (bytes * Z) :=
  match turns with
  | O => Ret (b, buf)
  | S turns' =>
      o ← slot_off p (ack_opt (slots p)) i;
      l ← opt_length (mem (dh_mem p)) o;
      x ← memread (mem (dh_mem p)) o (l + 2);
      b ← memwrite b buf x;
      copy_ack_opts p turns' (i + 1) b (buf + (l + 2))
  end.

(** Where a link error goes: to the source, or to the node that salvaged. *)
Definition rerr_dst (trigg : dsr_pkt) (so : optr) : outcome Z :=
  o ← opt_off trigg so;
  salv ← srt_opt_salv (mem (dh_mem trigg)) o;
  if salv =? 0 then Ret (dp_src trigg) else load32 (mem (dh_mem trigg)) (o + 4 + 4).

(** The packet [dsr_rerr_send] builds for the trigger's source route option [so]
    once it has found the route [r] to [dst]. *)
Definition rerr_pkt (ans : byte_ans) (maxs myaddr dst unr_addr : Z) (trigg : dsr_pkt) (so : optr)
  (r : dsr_srt) : outcome (option dsr_pkt) :=
  let p := set_srt pkt0 (Some r) in
  let len := DSR_OPT_HDR_LEN + DSR_SRT_OPT_LEN r + (DSR_RERR_HDR_LEN + 4)
             + DSR_ACK_HDR_LEN * num_ack_opts (slots trigg) in
  let nrerr := Z.to_nat (num_rerr_opts (slots trigg)) in
  len ← rerr_opts_len trigg maxs nrerr 0 len;
  let n := srt_n r in
  hop ← dsr_srt_next_hop r n;
  let p := set_addrs p myaddr dst hop in
  p ← dsr_build_ip ip_csum p (dp_src p) (dp_dst p) IP_HDR_LEN (IP_HDR_LEN + len) IPPROTO_DSR IPDEFTTL;
  match dsr_pkt_alloc_opts ans p len with
  | (false, _) => Ret None
  | (true, p) =>
      r1 ← dsr_opt_hdr_add (mem (dh_mem p)) 0 len DSR_NO_NEXT_HDR_TYPE;
      match r1 with
      | None => Ret None
      | Some m =>
          let buf := DSR_OPT_HDR_LEN in
          let len := len - DSR_OPT_HDR_LEN in
          r2 ← dsr_srt_opt_add m buf len 0 0 r;
          match r2 with
          | None => Ret None
          | Some m =>
              let p := set_slots p (set_srt_opt (slots p) (Some (opt_at p buf))) in
              let buf := buf + DSR_SRT_OPT_LEN r in
              let len := len - DSR_SRT_OPT_LEN r in
              o ← opt_off trigg so;
              salv ← srt_opt_salv (mem (dh_mem trigg)) o;
              r3 ← dsr_rerr_opt_add m buf len NODE_UNREACHABLE (dp_src p) (dp_dst p) unr_addr salv;
              match r3 with
              | None => Ret None
              | Some m =>
                  l ← opt_length m buf;
                  '(m, buf) ← copy_rerr_opts trigg maxs nrerr 0 m (buf + (l + 2));
                  '(m, _) ← copy_ack_opts trigg (Z.to_nat (num_ack_opts (slots trigg))) 0 m buf;
                  Ret (Some (set_mem p m))
              end
          end
      end
  end.

End Send.
