(* ===== verification/Wire.v ===== *)
(** * A packet on the wire

    The layout of the IP header and of a DSR packet behind it, and what sending,
    receiving and delivering a packet do to its bytes. *)

From S2P Require Import Prelude Mem Config Srt Pkt Opt Send.

(** ** Accesses within the front part of a block *)

Lemma memread_front pre rest off n :
  off + n <= zlen pre -> memread (pre ++ rest) off n = memread pre off n.
Proof.
  intros H. unfold memread. autorewrite with dsr_rw. pose proof (zlen_nonneg rest).
  destruct ((0 <=? off) && (0 <=? n)) eqn:E; [|done]. zb. simpl.
  rewrite !(proj2 (Z.leb_le _ _)) by lia. f_equal. unfold zlen in *.
  rewrite drop_app_le by lia. rewrite take_app_le; [done|]. rewrite length_drop. lia.
Qed.

Lemma memread_behind pre x rest n :
  n = zlen x -> memread (pre ++ x ++ rest) (zlen pre) n = Ret x.
Proof.
  intros ->. apply memread_Ret. pose proof (zlen_nonneg pre). pose proof (zlen_nonneg x).
  pose proof (zlen_nonneg rest). autorewrite with dsr_rw. split_and!; [lia..|].
  unfold zlen. by rewrite !Nat2Z.id, drop_app_length, take_app_length.
Qed.

Lemma memread_behind0 x rest : memread (x ++ rest) 0 (zlen x) = Ret x.
Proof. exact (memread_behind [] x rest _ eq_refl). Qed.

Lemma memwrite_front pre rest off x :
  off + zlen x <= zlen pre ->
  memwrite (pre ++ rest) off x = (pre' ← memwrite pre off x; Ret (pre' ++ rest)).
Proof.
  intros H. unfold memwrite. autorewrite with dsr_rw. pose proof (zlen_nonneg rest).
  destruct (0 <=? off) eqn:E; [|done]. zb. simpl.
  rewrite !(proj2 (Z.leb_le _ _)) by lia. simpl. f_equal. unfold zlen in *.
  rewrite take_app_le, drop_app_le by lia. by rewrite <- !app_assoc.
Qed.

Lemma memwrite_over pre x y rest :
  zlen x = zlen y -> memwrite (pre ++ y ++ rest) (zlen pre) x = Ret (pre ++ x ++ rest).
Proof.
  intros H. apply memwrite_Ret. pose proof (zlen_nonneg pre). pose proof (zlen_nonneg rest).
  autorewrite with dsr_rw. split_and!; [lia..|].
  unfold zlen in *. rewrite Nat2Z.id, take_app_length. do 2 f_equal.
  assert (length x = length y) as -> by lia.
  by rewrite app_assoc, drop_app_length' by (rewrite length_app; lia).
Qed.

Lemma memwrite_over0 x y rest : zlen x = zlen y -> memwrite (y ++ rest) 0 x = Ret (x ++ rest).
Proof. exact (memwrite_over [] x y rest). Qed.

(** ** The IP header *)

Record iph := Iph {
  i_tos : Z; i_tot : Z; i_id : Z; i_frag : Z; i_ttl : Z;
  i_prot : Z; i_sum : Z; i_src : Z; i_dst : Z
}.

(** A header without IP options, as it lies in memory. *)
Definition iph_enc (h : iph) : bytes :=
  [69; i_tos h] ++ bytes16 (i_tot h) ++ bytes16 (i_id h) ++ bytes16 (i_frag h)
  ++ [i_ttl h; i_prot h] ++ bytes16 (i_sum h) ++ bytes32 (i_src h) ++ bytes32 (i_dst h).

Arguments iph_enc : simpl never.

Record iph_ok (h : iph) : Prop := {
  ok_tos : is_byte (i_tos h); ok_tot : 0 <= i_tot h < 65536; ok_ttl : is_byte (i_ttl h);
  ok_prot : is_byte (i_prot h); ok_sum : 0 <= i_sum h < 65536;
  ok_src : is_word (i_src h); ok_dst : is_word (i_dst h)
}.

Definition set_sum (h : iph) (c : Z) : iph :=
  Iph (i_tos h) (i_tot h) (i_id h) (i_frag h) (i_ttl h) (i_prot h) c (i_src h) (i_dst h).
Definition set_len_prot (h : iph) (tot prot : Z) : iph :=
  Iph (i_tos h) tot (i_id h) (i_frag h) (i_ttl h) prot (i_sum h) (i_src h) (i_dst h).

Lemma iph_enc_len h : zlen (iph_enc h) = 20.
Proof. done. Qed.
#[export] Hint Rewrite iph_enc_len : dsr_rw.

(** Reads of the header's fields, whatever follows it. *)
Section Fields.
Context (h : iph) (Hok : iph_ok h) (rest : bytes).

Lemma iph_ihl : ip_ihl (iph_enc h ++ rest) = Ret 5.
Proof. unfold ip_ihl, load8. by rewrite memread_front. Qed.
Lemma iph_tot : ip_tot_len (iph_enc h ++ rest) = Ret (i_tot h).
Proof using Hok.
  unfold ip_tot_len, load16. rewrite memread_front by (vm_compute; congruence).
  change (memread (iph_enc h) 2 2) with (Ret (bytes16 (i_tot h))). simpl.
  rewrite le16_bytes16; [done|apply Hok].
Qed.
Lemma iph_ttl : ip_ttl (iph_enc h ++ rest) = Ret (i_ttl h).
Proof. unfold ip_ttl, load8. by rewrite memread_front. Qed.
Lemma iph_prot : ip_protocol (iph_enc h ++ rest) = Ret (i_prot h).
Proof. unfold ip_protocol, load8. by rewrite memread_front. Qed.
Lemma iph_saddr : ip_saddr (iph_enc h ++ rest) = Ret (i_src h).
Proof using Hok.
  unfold ip_saddr, load32. rewrite memread_front by (vm_compute; congruence).
  change (memread (iph_enc h) 12 4) with (Ret (bytes32 (i_src h))). simpl.
  rewrite le32_bytes32; [done|apply Hok].
Qed.
Lemma iph_daddr : ip_daddr (iph_enc h ++ rest) = Ret (i_dst h).
Proof using Hok.
  unfold ip_daddr, load32. rewrite memread_front by (vm_compute; congruence).
  change (memread (iph_enc h) 16 4) with (Ret (bytes32 (i_dst h))). simpl.
  rewrite le32_bytes32; [done|apply Hok].
Qed.
End Fields.

Section Wire.
Context (ip_csum : bytes -> Z).

(** The header with its checksum in place. *)
Definition summed (h : iph) : iph := set_sum h (ip_csum (iph_enc (set_sum h 0))).

Lemma ip_send_check_enc h rest :
  ip_send_check ip_csum (iph_enc h ++ rest) = Ret (iph_enc (summed h) ++ rest).
Proof.
  unfold ip_send_check, store16. rewrite memwrite_front by (vm_compute; congruence).
  change (memwrite (iph_enc h) 10 (bytes16 0)) with (Ret (iph_enc (set_sum h 0))). cbn [mbind outcome_bind].
  rewrite iph_ihl. cbn [mbind outcome_bind]. rewrite memread_front by (vm_compute; congruence).
  change (memread (iph_enc (set_sum h 0)) 0 (4 * 5)) with (Ret (iph_enc (set_sum h 0))). cbn [mbind outcome_bind].
  rewrite memwrite_front by (vm_compute; congruence). done.
Qed.

Lemma dsr_build_ip_skb p s h rest src dst tot prot ttl d40 :
  skb p = Some s -> skb_data s = iph_enc h ++ rest -> zlen (ip_data p) = 60 ->
  drop 20 (ip_data p) = d40 -> is_byte prot ->
  dsr_build_ip ip_csum p src dst 20 tot prot ttl
    = Ret (set_ip p NhData (iph_enc (summed (set_len_prot h (htons tot) prot)) ++ d40)).
Proof.
  intros Hs Hd Hl <- Hp. unfold dsr_build_ip. rewrite Hs, Hd.
  rewrite memread_front by (vm_compute; congruence).
  change (memread (iph_enc h) 0 20) with (Ret (iph_enc h)). cbn [mbind outcome_bind].
  rewrite <- (take_drop 20 (ip_data p)) at 1.
  rewrite memwrite_over0.
  2: { change (zlen (iph_enc h)) with 20. unfold zlen in *. rewrite length_take. lia. }
  cbn [mbind outcome_bind].
  unfold store16, store8. rewrite memwrite_front by (vm_compute; congruence).
  rewrite u8_small by done.
  change (memwrite (iph_enc h) 2 (bytes16 (htons tot)))
    with (Ret (iph_enc (set_len_prot h (htons tot) (i_prot h)))). cbn [mbind outcome_bind].
  rewrite memwrite_front by (vm_compute; congruence).
  change (memwrite (iph_enc (set_len_prot h (htons tot) (i_prot h))) 9 [prot])
    with (Ret (iph_enc (set_len_prot h (htons tot) prot))). cbn [mbind outcome_bind].
  rewrite ip_send_check_enc. done.
Qed.

(** ** A packet from the host, and the source route put on it *)

(** The [sk_buff] of an IP packet with the header [h] and the payload [pl]. *)
Record ip_skb (s : sk_buff) (h : iph) (pl : bytes) : Prop := {
  is_data : skb_data s = iph_enc h ++ pl;
  is_hdr : iph_ok h;
  is_tot : i_tot h = htons (20 + zlen pl);
  is_small : 20 + zlen pl < 65536
}.

Definition has_payload (n : Z) : Z := if n =? 0 then 0 else PKT_REQUEST_ACK.

Lemma dsr_pkt_alloc_plain ans s h pl :
  ip_skb s h pl -> i_prot h <> IPPROTO_DSR ->
  dsr_pkt_alloc true ans (Some s)
    = Ret (Some (Pkt (i_src h) (i_dst h) 0 0 (has_payload (zlen pl)) 0 NhSkb (repeat 0 60)
                     DhNull 0 slots0 None (Some 20) (zlen pl) (Some s))).
Proof.
  intros [Hd Hok Ht Hs] Hp. unfold dsr_pkt_alloc. rewrite Hd. cbn [negb].
  rewrite iph_saddr, iph_daddr, iph_prot, iph_ihl, iph_tot by done. cbn [mbind outcome_bind].
  rewrite (proj2 (Z.eqb_neq _ _) Hp). cbn [mbind outcome_bind].
  pose proof (zlen_nonneg pl). rewrite Ht, ntohs_htons by lia.
  change (Z.shiftl 5 2) with 20.
  replace (20 + zlen pl - 20 - 0) with (zlen pl) by lia. unfold has_payload.
  destruct (zlen pl =? 0); done.
Qed.

(** The options header and one source route option. *)
Definition srt_opts (prot salv : Z) (r : dsr_srt) : bytes :=
  ([prot; 0] ++ bytes16 (htons (DSR_SRT_OPT_LEN r))) ++ srt_enc 0 salv r.

Lemma srt_opts_len prot salv r : srt_wf r -> zlen (srt_opts prot salv r) = 4 + DSR_SRT_OPT_LEN r.
Proof. intros. unfold srt_opts. rewrite zlen_app, srt_enc_len by done. reflexivity. Qed.

Lemma dsr_opt_hdr_add_enc b len prot :
  4 <= len < 2 ^ 32 -> is_byte prot ->
  dsr_opt_hdr_add b 0 len prot = (b' ← memwrite b 0 ([prot; 0] ++ bytes16 (htons (len - 4))); Ret (Some b')).
Proof.
  intros Hl Hp. unfold dsr_opt_hdr_add, DSR_OPT_HDR_LEN. rewrite u32_small, (proj2 (Z.ltb_ge _ _)) by lia.
  unfold store8, store16. rewrite (u8_small prot) by done. change (u8 0) with 0.
  change ([prot; 0] ++ bytes16 (htons (len - 4))) with ([prot] ++ [0] ++ bytes16 (htons (len - 4))).
  rewrite memwrite_split. destruct (memwrite b 0 [prot]) as [b1|]; [|done]. cbn [mbind outcome_bind].
  rewrite memwrite_split. change (0 + zlen [prot]) with (0 + 1).
  destruct (memwrite b1 (0 + 1) [0]) as [b2|]; [|done]. cbn [mbind outcome_bind].
  by change (0 + 1 + zlen [0]) with (0 + 2).
Qed.

(** A route whose option fits one length byte. *)
Definition srt_fits (r : dsr_srt) : Prop := srt_wf r /\ laddrs r + 2 < 256.

Lemma srt_fits_bounds r : srt_fits r -> 4 <= DSR_SRT_OPT_LEN r < 258.
Proof.
  intros [(Hl & _) Hf]. pose proof (zlen_nonneg (addrs r)). pose proof (zlen_nonneg (atail r)).
  unfold DSR_SRT_OPT_LEN, DSR_SRT_HDR_LEN. lia.
Qed.

(** The options block [dsr_srt_add] leaves. *)
Lemma opts_written F prot salv r :
  srt_fits r -> is_byte prot -> zlen F = 4 + DSR_SRT_OPT_LEN r + 128 ->
  exists m, dsr_opt_hdr_add F 0 (4 + DSR_SRT_OPT_LEN r) prot = Ret (Some m) /\ zlen m = zlen F
    /\ dsr_srt_opt_add m 4 (4 + DSR_SRT_OPT_LEN r - 4) 0 salv r
         = Ret (Some (srt_opts prot salv r ++ drop (Z.to_nat (4 + DSR_SRT_OPT_LEN r)) F)).
Proof.
  intros Hf Hp HF. pose proof (srt_fits_bounds r Hf) as Hb. destruct Hf as [Hwf Hl].
  rewrite dsr_opt_hdr_add_enc by (done || lia). replace (4 + DSR_SRT_OPT_LEN r - 4) with (DSR_SRT_OPT_LEN r) by lia.
  set (hd := [prot; 0] ++ bytes16 (htons (DSR_SRT_OPT_LEN r))).
  assert (Hh : zlen hd = 4) by done.
  destruct (memwrite_total F 0 hd) as [m Hm]; [lia..|]. exists m. rewrite Hm. split; [done|].
  pose proof (memwrite_len _ _ _ _ Hm) as HL. split; [done|].
  rewrite dsr_srt_opt_add_enc by (done || lia). pose proof (srt_enc_len 0 salv r Hwf) as He.
  destruct (memwrite_total m 4 (srt_enc 0 salv r)) as [m' Hm']; [lia..|]. rewrite Hm'. cbn [mbind outcome_bind].
  do 2 f_equal. pose proof (memwrite_app F 0 hd (srt_enc 0 salv r) m m' Hm) as Ha.
  rewrite Hh in Ha. specialize (Ha Hm'). apply memwrite_Ret in Ha as (_ & _ & ->).
  pose proof (srt_opts_len prot salv r Hwf) as Ho. unfold srt_opts in *. fold hd in Ho |- *.
  assert (Z.to_nat 0 + length (hd ++ srt_enc 0 salv r) = Z.to_nat (4 + DSR_SRT_OPT_LEN r))%nat as ->
    by (unfold zlen in Ho; lia).
  done.
Qed.

Lemma dsr_srt_add_spec junk p s h pl r :
  srt p = Some r -> skb p = Some s -> nh p = NhSkb -> ip_skb s h pl ->
  ip_data p = repeat 0 60 -> srt_fits r ->
  exists hop, dsr_srt_next_hop r (zlen (addrs r)) = Ret hop
    /\ let len := 4 + DSR_SRT_OPT_LEN r in
       dsr_srt_add ip_csum (Some junk) p
       = Ret (0, Pkt (dp_src p) (dp_dst p) hop (prv_hop p) (dp_flags p) (salvage p) NhData
            (iph_enc (summed (set_len_prot h (htons (20 + zlen pl + len)) IPPROTO_DSR)) ++ repeat 0 40)
            (Dh (Dhbuf (nblk p) (srt_opts (i_prot h) (salvage p) r
                                 ++ drop (Z.to_nat len) (fill (len + 128) junk)) len))
            (nblk p + 1) (set_srt_opt (slots p) (Some (Optr (nblk p) 4)))
            (Some r) (payload p) (payload_len p) (Some s)).
Proof.
  intros Hr Hs Hn [Hd Hok Ht Hsm] Hip Hf. pose proof (srt_fits_bounds r Hf) as Hb. destruct Hf as [Hwf Hl].
  destruct (next_hop_path r 0 Hwf) as (hop & _ & Hhop); [lia|].
  rewrite Z.sub_0_r in Hhop. exists hop. split; [done|]. cbv zeta.
  pose proof (zlen_nonneg pl).
  unfold dsr_srt_add. rewrite Hr, srt_n_wf, Hhop by done. cbn [mbind outcome_bind].
  unfold dsr_pkt_alloc_opts, DSR_OPT_HDR_LEN, DEFAULT_TAILROOM.
  rewrite (proj2 (Z.ltb_ge _ _)) by lia. cbn [mbind outcome_bind].
  unfold nh_bytes. cbn [nh skb set_dh set_nxt_hop]. rewrite Hn, Hs, Hd. cbn [mbind outcome_bind].
  rewrite iph_prot, iph_ihl, iph_tot, iph_ttl by done. cbn [mbind outcome_bind].
  change (Z.shiftl 5 2) with 20. rewrite Ht, ntohs_htons by lia.
  erewrite dsr_build_ip_skb; [|exact Hs|exact Hd|by cbn; rewrite Hip|cbn; rewrite Hip; reflexivity|done].
  cbn [mbind outcome_bind]. unfold dh_mem. cbn [dh mem blk set_ip set_dh set_nxt_hop].
  destruct (opts_written (fill (4 + DSR_SRT_OPT_LEN r + 128) junk) (i_prot h) (salvage p) r)
    as (m & E1 & _ & E2); [done | apply Hok | apply fill_len; lia|].
  rewrite E1. cbn [mbind outcome_bind set_opth]. unfold set_mem.
  cbn [dh mem blk set_ip set_dh set_nxt_hop salvage nblk Pkt.tail]. rewrite E2. cbn [mbind outcome_bind].
  unfold set_slots, opt_at, dh_mem. cbn. rewrite ?Hs, ?Hr. reflexivity.
Qed.
(** ** The frame, and the receiver *)

Lemma split3 (F : bytes) a b c :
  zlen F = a + b + c -> 0 <= a -> 0 <= b -> 0 <= c ->
  exists x y z, F = x ++ y ++ z /\ zlen x = a /\ zlen y = b /\ zlen z = c.
Proof.
  intros HF Ha Hb Hc.
  exists (take (Z.to_nat a) F), (take (Z.to_nat b) (drop (Z.to_nat a) F)),
         (drop (Z.to_nat b) (drop (Z.to_nat a) F)).
  rewrite !take_drop. unfold zlen in *.
  rewrite !length_take, !length_drop. split_and!; [done|lia..].
Qed.

Lemma zlen_0_nil {A} (l : list A) : zlen l = 0 -> l = [].
Proof. intros. apply nil_length_inv. unfold zlen in *. lia. Qed.

Lemma dsr_skb_create_gen junk p h rest o pl :
  nh_bytes p = Ret (iph_enc h ++ rest) ->
  dsr_pkt_opts_len p = Ret (zlen o) -> (zlen o = 0 \/ memread (mem (dh_mem p)) 0 (zlen o) = Ret o) ->
  payload_len p = zlen pl ->
  (pl = [] \/ exists s off, skb p = Some s /\ payload p = Some off /\ memread (skb_data s) off (zlen pl) = Ret pl) ->
  dsr_skb_create ip_csum (Some junk) p = Ret (Some (iph_enc (summed h) ++ o ++ pl)).
Proof.
  intros Hnh Hlen Ho Hpl Hr. unfold dsr_skb_create.
  rewrite Hlen, Hnh, Hpl. cbn [mbind outcome_bind]. rewrite iph_ihl.
  cbn [mbind outcome_bind]. change (Z.shiftl 5 2) with 20.
  pose proof (zlen_nonneg o). pose proof (zlen_nonneg pl).
  rewrite (proj2 (Z.ltb_ge _ _)) by lia.
  destruct (split3 (fill (20 + zlen o + zlen pl) junk) 20 (zlen o) (zlen pl))
    as (x & y & z & -> & Hx & Hy & Hz); [by rewrite fill_len by lia|lia..|].
  rewrite memread_front by (vm_compute; congruence).
  change (memread (iph_enc h) 0 20) with (Ret (iph_enc h)). cbn [mbind outcome_bind].
  rewrite memwrite_over0 by done. cbn [mbind outcome_bind]. rewrite ip_send_check_enc.
  cbn [mbind outcome_bind].
  assert ((if zlen o =? 0 then Ret (iph_enc (summed h) ++ y ++ z)
           else o0 ← memread (mem (dh_mem p)) 0 (zlen o); memwrite (iph_enc (summed h) ++ y ++ z) 20 o0)
          = Ret (iph_enc (summed h) ++ o ++ z)) as ->.
  { case_if.
    - rewrite (zlen_0_nil o), (zlen_0_nil y) by lia. done.
    - destruct Ho as [Ho|Ho]; [lia|]. rewrite Ho. cbn [mbind outcome_bind].
      change 20 with (zlen (iph_enc (summed h))). by apply memwrite_over. }
  cbn [mbind outcome_bind]. destruct Hr as [-> |(s & off & -> & -> & Hr)].
  - rewrite (zlen_0_nil z) by exact Hz. change (zlen [] =? 0) with true. by destruct (payload p), (skb p).
  - case_if; [rewrite (zlen_0_nil pl), (zlen_0_nil z) by lia; done|].
    rewrite Hr. cbn [mbind outcome_bind].
    assert (20 + zlen o = zlen (iph_enc (summed h) ++ o)) as -> by (autorewrite with dsr_rw; lia).
    rewrite app_assoc. pose proof (memwrite_over (iph_enc (summed h) ++ o) pl z []) as E.
    rewrite !app_nil_r in E. rewrite E by lia. cbn [mbind outcome_bind]. by rewrite <- app_assoc.
Qed.

Lemma dsr_skb_create_spec junk p h rest o pl s off :
  nh_bytes p = Ret (iph_enc h ++ rest) ->
  dsr_pkt_opts_len p = Ret (zlen o) -> (zlen o = 0 \/ memread (mem (dh_mem p)) 0 (zlen o) = Ret o) ->
  skb p = Some s -> payload p = Some off -> payload_len p = zlen pl ->
  memread (skb_data s) off (zlen pl) = Ret pl ->
  dsr_skb_create ip_csum (Some junk) p = Ret (Some (iph_enc (summed h) ++ o ++ pl)).
Proof. intros Hnh Hlen Ho Hs Hoff Hpl Hr. eapply dsr_skb_create_gen; try done. right. by exists s, off. Qed.

(** The options area of a packet: its header and its options. *)
Definition opts_enc (prot : Z) (os : list (Z * bytes)) : bytes :=
  ([prot; 0] ++ bytes16 (htons (zlen (concat (opt_enc <$> os))))) ++ concat (opt_enc <$> os).

Lemma opts_enc_len prot os : zlen (opts_enc prot os) = 4 + zlen (concat (opt_enc <$> os)).
Proof. unfold opts_enc. rewrite zlen_app. reflexivity. Qed.

(** The [sk_buff] of a DSR packet. *)
Record dsr_skb (s : sk_buff) (h : iph) (prot : Z) (os : list (Z * bytes)) (pl : bytes) : Prop := {
  ds_data : skb_data s = iph_enc h ++ opts_enc prot os ++ pl;
  ds_hdr : iph_ok h;
  ds_prot : i_prot h = IPPROTO_DSR;
  ds_tot : i_tot h = htons (20 + zlen (opts_enc prot os) + zlen pl);
  ds_small : 20 + zlen (opts_enc prot os) + zlen pl < 65536;
  ds_wf : Forall opt_wf os;
  ds_tail : tail_ok os
}.

Lemma dsr_pkt_alloc_dsr junk s h prot os pl :
  dsr_skb s h prot os pl ->
  exists sl,
    dsr_pkt_alloc true (Some junk) (Some s)
    = Ret (Some (Pkt (i_src h) (i_dst h) 0 0 (has_payload (zlen pl)) 0 NhSkb (repeat 0 60)
         (Dh (Dhbuf 0 (opts_enc prot os
                       ++ drop (length (opts_enc prot os)) (fill (zlen (opts_enc prot os) + 128) junk))
                    (zlen (opts_enc prot os))))
         1 sl None (Some (20 + zlen (opts_enc prot os))) (zlen pl) (Some s)))
    /\ parsed 0 (place 4 os) None sl.
Proof.
  intros [Hd Hok Hp Ht Hs Hwf Hto].
  pose proof (zlen_nonneg pl). pose proof (zlen_nonneg (concat (opt_enc <$> os))).
  pose proof (opts_enc_len prot os) as Hlen. set (o := opts_enc prot os) in *.
  set (m := o ++ drop (length o) (fill (zlen o + 128) junk)).
  set (p := Pkt (i_src h) (i_dst h) 0 0 0 0 NhSkb (repeat 0 60) (Dh (Dhbuf 0 m (zlen o))) 1 slots0 None None 0 (Some s)).
  destruct (opt_parse_places p (Dhbuf 0 m (zlen o)) ([prot; 0] ++ bytes16 (htons (zlen (concat (opt_enc <$> os))))) os
    (drop (length o) (fill (zlen o + 128) junk))) as (sl & Hparse & Hsl).
  { done. } { unfold m, o, opts_enc. cbn [mem]. by rewrite <- app_assoc. }
  { done. } { cbn [Pkt.tail]. unfold DSR_OPT_HDR_LEN. lia. } { done. } { done. } { done. }
  exists sl. split; [|exact Hsl].
  unfold dsr_pkt_alloc. rewrite Hd. cbn [negb].
  rewrite iph_saddr, iph_daddr, iph_prot, iph_ihl by done. cbn [mbind outcome_bind].
  rewrite Hp. change (IPPROTO_DSR =? IPPROTO_DSR) with true. cbn [mbind outcome_bind].
  change (Z.shiftl 5 2) with 20.
  assert (load16 (iph_enc h ++ o ++ pl) (20 + 2) = Ret (htons (zlen (concat (opt_enc <$> os))))) as ->.
  { unfold load16.
    assert (memread (iph_enc h ++ o ++ pl) (20 + 2) 2 = Ret (bytes16 (htons (zlen (concat (opt_enc <$> os)))))) as ->.
    { unfold o, opts_enc. rewrite <- !app_assoc. rewrite (app_assoc (iph_enc h)).
      exact (memread_behind (iph_enc h ++ [prot; 0]) (bytes16 _) _ 2 eq_refl). }
    cbn [mbind outcome_bind]. simpl. rewrite le16_bytes16; [done|apply htons_range]. }
  cbn [mbind outcome_bind]. rewrite ntohs_htons by lia. unfold DSR_OPT_HDR_LEN.
  replace (zlen (concat (opt_enc <$> os)) + 4) with (zlen o) by lia.
  unfold dsr_pkt_alloc_opts, DEFAULT_TAILROOM. rewrite (proj2 (Z.ltb_ge _ _)) by lia.
  rewrite (memread_behind (iph_enc h) o pl (zlen o) eq_refl : memread (iph_enc h ++ o ++ pl) 20 (zlen o) = Ret o).
  cbn [mbind outcome_bind]. unfold dh_buf. cbn [dh set_dh]. cbn [mbind outcome_bind mem].
  assert (memwrite (fill (zlen o + 128) junk) 0 o = Ret m) as ->.
  { apply memwrite_Ret. rewrite fill_len by lia. split_and!; [lia|lia|]. done. }
  cbn [mbind outcome_bind].
  match goal with |- context [dsr_opt_parse ?q] => change q with p end.
  rewrite Hparse. cbn [mbind outcome_bind]. rewrite iph_tot by done. cbn [mbind outcome_bind].
  rewrite Ht, ntohs_htons by lia. replace (20 + zlen o + zlen pl - 20 - zlen o) with (zlen pl) by lia.
  unfold has_payload. by destruct (zlen pl =? 0).
Qed.

(** Taking the options off gives the header back its protocol and its length. *)
Lemma dsr_opt_remove_spec p s h rest prot os room d :
  skb p = Some s -> nh p = NhSkb -> skb_data s = iph_enc h ++ rest -> zlen (ip_data p) = 60 ->
  dh p = Dh d -> mem d = opts_enc prot os ++ room -> is_byte prot ->
  exists p', dsr_opt_remove ip_csum p = Ret (Pkt.tail d, p')
    /\ dh p' = DhNull /\ skb p' = Some s /\ payload p' = payload p /\ payload_len p' = payload_len p
    /\ nh_bytes p' = Ret (iph_enc (summed (set_len_prot h (htons (20 + payload_len p)) prot))
                          ++ drop 20 (ip_data p)).
Proof.
  intros Hs Hn Hd Hip Hdh Hm Hp. unfold dsr_opt_remove. rewrite Hdh, Hm.
  assert (load8 (opts_enc prot os ++ room) 0 = Ret prot) as ->
    by exact (load8_here [] prot (0 :: bytes16 _ ++ concat _ ++ room)). cbn [mbind outcome_bind].
  unfold nh_bytes. rewrite Hn, Hs, Hd. cbn [mbind outcome_bind]. rewrite iph_ihl, iph_ttl.
  cbn [mbind outcome_bind]. change (Z.shiftl 5 2) with 20.
  erewrite dsr_build_ip_skb; [|exact Hs|exact Hd|done|reflexivity|done]. cbn [mbind outcome_bind].
  unfold dsr_pkt_free_opts. cbn [dh set_ip]. rewrite Hdh. by eexists.
Qed.

Lemma summed_idem h t1 p1 : summed (set_len_prot (summed (set_len_prot h t1 p1)) (i_tot h) (i_prot h)) = summed h.
Proof. by destruct h. Qed.

(** The one option of a packet from the host, in the layout of [opt_enc]. *)
Definition srt_only (salv : Z) (r : dsr_srt) : list (Z * bytes) :=
  [(DSR_OPT_SRT, bytes16 (srt_bits 0 0 0 salv (laddrs r / 4)) ++ bytes_of_words (addrs r) ++ atail r)].

Lemma srt_only_enc prot salv r :
  srt_wf r -> opts_enc prot (srt_only salv r) = srt_opts prot salv r.
Proof.
  intros Hwf. unfold opts_enc, srt_opts.
  assert (concat (opt_enc <$> srt_only salv r) = srt_enc 0 salv r) as ->.
  { unfold srt_only. rewrite enc_cons. simpl concat. by rewrite app_nil_r. }
  by rewrite srt_enc_len.
Qed.

Lemma srt_only_ok salv r :
  srt_fits r -> Forall opt_wf (srt_only salv r) /\ tail_ok (srt_only salv r).
Proof.
  intros [(Hl & _) Hf]. split; [|done]. constructor; [|constructor].
  unfold opt_wf, is_byte. cbn [fst snd]. unfold DSR_OPT_SRT, DSR_OPT_PAD1. split_and!; [lia|lia|lia|].
  rewrite !zlen_app, bytes_of_words_len. change (zlen (bytes16 _)) with 2. lia.
Qed.

(** The packet made of the host's. *)
Definition plain_pkt (s : sk_buff) (h : iph) (pl : bytes) : dsr_pkt :=
  Pkt (i_src h) (i_dst h) 0 0 (has_payload (zlen pl)) 0 NhSkb (repeat 0 60) DhNull 0 slots0 None (Some 20) (zlen pl) (Some s).

(** The header of the packet with its options. *)
Definition encap_hdr (h : iph) (pl : bytes) (r : dsr_srt) : iph :=
  summed (set_len_prot h (htons (20 + zlen pl + (4 + DSR_SRT_OPT_LEN r))) IPPROTO_DSR).

(** The frame of a packet from the host with a source route on it. *)
Lemma encap_frame s h pl r j1 j2 :
  ip_skb s h pl -> srt_fits r ->
  exists p1, dsr_srt_add ip_csum (Some j1) (Pkt.set_srt (plain_pkt s h pl) (Some r)) = Ret (0, p1)
    /\ dsr_srt_next_hop r (zlen (addrs r)) = Ret (nxt_hop p1) /\ dp_dst p1 = i_dst h /\ skb p1 = Some s
    /\ dsr_skb_create ip_csum (Some j2) p1 = Ret (Some (iph_enc (encap_hdr h pl r) ++ srt_opts (i_prot h) 0 r ++ pl)).
Proof.
  intros Hskb Hf. destruct (dsr_srt_add_spec j1 (Pkt.set_srt (plain_pkt s h pl) (Some r)) s h pl r)
    as (hop & Hhop & Hadd); [done..|].
  pose proof (srt_opts_len (i_prot h) 0 r (proj1 Hf)) as Hol.
  eexists. split; [exact Hadd|]. split; [exact Hhop|]. split; [done|]. split; [done|].
  eapply (dsr_skb_create_spec j2 _ (encap_hdr h pl r) (repeat 0 40) (srt_opts (i_prot h) 0 r) pl s 20); try done.
  - by rewrite Hol.
  - right. cbn [dh_mem dh mem plain_pkt Pkt.set_srt salvage]. rewrite memread_front by lia.
    rewrite <- (app_nil_r (srt_opts _ _ _)) at 1. by apply (memread_behind [] (srt_opts (i_prot h) 0 r)).
  - rewrite (is_data _ _ _ Hskb). rewrite <- (app_nil_r pl) at 1. by apply (memread_behind (iph_enc h)).
Qed.

Lemma encap_hdr_ok h pl r : (forall b, 0 <= ip_csum b < 65536) -> iph_ok h -> iph_ok (encap_hdr h pl r).
Proof. intros Hcs []. constructor; simpl; try done. apply htons_range. Qed.

(** C6: A packet crosses the network unchanged.  Take an IP packet from the host
    with a valid header checksum, and put a source route that fits an option on
    it.  The frame for the device, received by the next hop, parses to the same
    source, destination and payload length, with that one source route option,
    from which the very addresses are read; its next hop is the first of the
    route.  Taking the options off again and laying the packet out for delivery
    gives back the original packet byte for byte, header, protocol, length and
    checksum included. *)
Theorem encap_roundtrip s h pl r j1 j2 j3 j4 ans (id2 : Z) (src2 : list Z) :
  (forall b, 0 <= ip_csum b < 65536) ->
  ip_skb s h pl -> i_prot h <> IPPROTO_DSR -> summed h = h -> srt_fits r ->
  24 + zlen pl + DSR_SRT_OPT_LEN r < 65536 ->
  exists p0 p1 w q q',
    dsr_pkt_alloc true ans (Some s) = Ret (Some p0)
    /\ dsr_srt_add ip_csum (Some j1) (Pkt.set_srt p0 (Some r)) = Ret (0, p1)
    /\ dsr_srt_next_hop r (zlen (addrs r)) = Ret (nxt_hop p1)
    /\ dsr_skb_create ip_csum (Some j2) p1 = Ret (Some w)
    /\ dsr_pkt_alloc true (Some j3) (Some (Skb id2 src2 w)) = Ret (Some q)
    /\ dp_src q = i_src h /\ dp_dst q = i_dst h /\ payload_len q = zlen pl
    /\ srt_opt (slots q) = Some (Optr 0 4)
    /\ memread (mem (dh_mem q)) 8 (laddrs r) = Ret (bytes_of_words (addrs r) ++ atail r)
    /\ srt_opt_sleft (mem (dh_mem q)) 4 = Ret (zlen (addrs r))
    /\ dsr_opt_remove ip_csum q = Ret (4 + DSR_SRT_OPT_LEN r, q')
    /\ dsr_skb_create ip_csum (Some j4) q' = Ret (Some (skb_data s)).
Proof.
  intros Hcs Hskb Hnp Hsum Hf Hsz. pose proof Hskb as [Hd Hok Ht Hs]. pose proof Hf as [Hwf Hl].
  pose proof (srt_opts_len (i_prot h) 0 r Hwf) as Hol. pose proof (srt_only_enc (i_prot h) 0 r Hwf) as Hoe.
  pose proof (zlen_nonneg pl). set (h1 := encap_hdr h pl r).
  exists (plain_pkt s h pl). destruct (encap_frame s h pl r j1 j2 Hskb Hf) as (p1 & Hadd & Hhop & _ & _ & Hfr).
  set (w := iph_enc h1 ++ srt_opts (i_prot h) 0 r ++ pl). exists p1, w.
  assert (Hq : dsr_skb (Skb id2 src2 w) h1 (i_prot h) (srt_only 0 r) pl).
  { destruct (srt_only_ok 0 r Hf). constructor; try done; rewrite ?Hoe, ?Hol; try done.
    - by apply encap_hdr_ok.
    - cbn. f_equal. lia.
    - lia. }
  destruct (dsr_pkt_alloc_dsr j3 _ _ _ _ _ Hq) as (sl & Hal & Hsl). rewrite Hoe, Hol in Hal.
  set (room := drop _ (fill _ j3)) in Hal.
  match type of Hal with _ = Ret (Some ?q) => set (q0 := q) in * end. exists q0.
  destruct (dsr_opt_remove_spec q0 (Skb id2 src2 w) h1 (srt_opts (i_prot h) 0 r ++ pl) (i_prot h) (srt_only 0 r) room
    (Dhbuf 0 (srt_opts (i_prot h) 0 r ++ room) (4 + DSR_SRT_OPT_LEN r)))
    as (q' & Hrem & Hq1 & Hq2 & Hq3 & Hq4 & Hq5); [done|done|done|done|done|by rewrite Hoe|apply Hok|].
  assert (Hread : memread (mem (dh_mem q0)) 4 (DSR_SRT_OPT_LEN r) = Ret (srt_enc 0 0 r)).
  { unfold q0, dh_mem. cbn [dh mem]. unfold srt_opts. rewrite <- !app_assoc.
    rewrite (app_assoc [i_prot h; 0]).
    apply (memread_behind ([i_prot h; 0] ++ bytes16 (htons (DSR_SRT_OPT_LEN r)))). by rewrite srt_enc_len. }
  destruct (srt_enc_read _ _ _ _ _ Hwf Hl Hread) as (_ & _ & Hsl1 & _ & Hrd).
  exists q'. split_and!; try done.
  - by apply dsr_pkt_alloc_plain.
  - apply Hsl.
  - rewrite Hd, (dsr_skb_create_spec j4 q' (summed (set_len_prot h1 (htons (20 + zlen pl)) (i_prot h)))
      (drop 20 (repeat 0 60)) [] pl (Skb id2 src2 w) (24 + DSR_SRT_OPT_LEN r)); try done.
    + rewrite <- Ht. do 3 f_equal. exact (f_equal iph_enc Hsum).
    + unfold dsr_pkt_opts_len. by rewrite Hq1.
    + by left.
    + rewrite Hq3. unfold q0. cbn [payload]. f_equal. lia.
    + cbn [skb_data]. unfold w. rewrite <- (app_nil_r pl) at 1. rewrite app_assoc.
      replace (24 + DSR_SRT_OPT_LEN r) with (zlen (iph_enc h1 ++ srt_opts (i_prot h) 0 r))
        by (rewrite zlen_app, Hol, iph_enc_len; lia).
      by apply memread_behind.
Qed.

End Wire.

Lemma encap_roundtrip_witness :
  let h := Iph 0 (htons 24) 1 0 64 17 0 10 40 in
  let s := Skb 1 [] (iph_enc h ++ [1; 2; 3; 4]) in
  exists p0 p1 w q q',
    dsr_pkt_alloc true None (Some s) = Ret (Some p0)
    /\ dsr_srt_add (λ _, 0) (Some (λ _, 7)) (Pkt.set_srt p0 (Some (DsrSrt 10 40 0 4 [20] []))) = Ret (0, p1)
    /\ nxt_hop p1 = 20
    /\ dsr_skb_create (λ _, 0) (Some (λ _, 8)) p1 = Ret (Some w)
    /\ dsr_pkt_alloc true (Some (λ _, 9)) (Some (Skb 2 [] w)) = Ret (Some q)
    /\ dsr_opt_remove (λ _, 0) q = Ret (12, q')
    /\ dsr_skb_create (λ _, 0) (Some (λ _, 5)) q' = Ret (Some (skb_data s)).
Proof.
  intros h s.
  destruct (encap_roundtrip (λ _, 0) s h [1; 2; 3; 4] (DsrSrt 10 40 0 4 [20] [])
              (λ _, 7) (λ _, 8) (λ _, 9) (λ _, 5) None 2 [])
    as (p0 & p1 & w & q & q' & H1 & H2 & H3 & H4 & H5 & _ & _ & _ & _ & _ & _ & H6 & H7).
  - intros _. lia.
  - constructor; [done| |done|by vm_compute]. constructor; by vm_compute.
  - by vm_compute.
  - done.
  - by vm_compute.
  - by vm_compute.
  - exists p0, p1, w, q, q'. injection H3 as H3.
    split_and!; [exact H1 | exact H2 | by rewrite <- H3 | exact H4 | exact H5 | exact H6 | exact H7].
Defined.
