(* ===== verification/SendBuf.v ===== *)
(** * The send buffer (send-buf.c, send-buf.h)

    Packets that wait for a route.  What the buffer does to the rest of the node
    - looking up a route, putting it on a packet, handing the packet on, freeing
    it - is given by the functions of the section over a state [W]. *)

From S2P Require Import Prelude Timer Config Tbl TblDel Srt Pkt.

Inductive verdict := SEND_BUF_DROP | SEND_BUF_SEND.

Section SendBuf.
(** The node's other state, and the type of transmit functions. *)
Context {W F : Type}.
(** [dsr_rtc_find], [dsr_srt_add], the call of an [okfn], [dsr_pkt_free] and
    [icmp_send] for a packet. *)
Context (rtc_find : Z -> Z -> W -> outcome (option dsr_srt * W)).
Context (srt_add : dsr_pkt -> W -> outcome (Z * dsr_pkt * W)).
Context (call : F -> dsr_pkt -> W -> outcome W).
Context (pkt_free : dsr_pkt -> W -> W).
Context (icmp_unreach : dsr_pkt -> W -> W).

Record send_buf_entry := SendEntry { e_dp : dsr_pkt; qtime : timeval; okfn : F }.

Record send_st := SendSt { send_buf : tbl send_buf_entry; send_buf_timer : timer }.

Definition crit_addr (e : send_buf_entry) (a : Z) : bool := dp_dst (e_dp e) =? a.

(** Frees the packet of an entry it finds too old. *)
Definition crit_garbage (dn : option dsr_node) (now : timeval) : del_crit_t send_buf_entry W :=
  fun e w =>
    if timeval_diff now (qtime e) >=? s32 (confval_to_usecs dn SendBufferTimeout)
    then Ret (true, pkt_free (e_dp e) w)
    else Ret (false, w).

Definition send_buf_set_max_len (st : send_st) (max_len : Z) : send_st :=
  let t := send_buf st in SendSt (Tbl (elems t) (len t) max_len (locked t)) (send_buf_timer st).

Definition send_buf_timeout (dn : option dsr_node) (now : timeval) (st : send_st) (w : W)
  : outcome (send_st * W) :=
  '(pkts, t, w) ← tbl_for_each_del (send_buf st) w (crit_garbage dn now);
  t1 ← read_lock_bh t;
  e ← __tbl_find t1 () crit_none;
  match e with
  | None => (* No packet to set timeout for *) Ret (SendSt t (send_buf_timer st), w)
  | Some e =>
      let expires := timeval_add_usecs (qtime e) (confval_to_usecs dn SendBufferTimeout) in
      Ret (SendSt t (set_timer (send_buf_timer st) expires), w)
  end.

(** [now] is read when the entry is created, [now2] when the timer is set. *)
Definition send_buf_enqueue_packet (dn : option dsr_node) (now now2 : timeval) (mem : oracle)
  (st : send_st) (dp : dsr_pkt) (f : F) (w : W) : outcome (Z * send_st * oracle * W) :=
  let '(ok, mem) := kmalloc mem in
  if negb ok then Ret (- ENOMEM, st, mem, w)
  else
    let e := SendEntry dp now f in
    t ← write_lock_bh (send_buf st);
    let empty := tbl_empty t in
    let '(res, t) := __tbl_add_tail t e in
    '(res, t, w, done) ←
      (if res <? 0 then
         (* buffer full, removing first *)
         let '(f, t) := __tbl_detach_first t in
         let w := match f with Some f => pkt_free (e_dp f) w | None => w end in
         '(res, t) ← tbl_add_tail t e;
         if res <? 0 then Ret (- ENOSPC, write_unlock_bh t, w, true)
         else Ret (res, t, w, false)
       else Ret (res, t, w, false));
    if (done : bool) then Ret (res, SendSt t (send_buf_timer st), mem, w)
    else
      let t := write_unlock_bh t in
      let tm := if empty then
                  set_timer (send_buf_timer st)
                    (timeval_add_usecs now2 (confval_to_usecs dn SendBufferTimeout))
                else send_buf_timer st in
      Ret (res, SendSt t tm, mem, w).

(** What happens to a packet that leaves the buffer to be sent. *)
Definition send_entry (e : send_buf_entry) (w : W) : outcome W :=
  '(srt, w) ← rtc_find (dp_src (e_dp e)) (dp_dst (e_dp e)) w;
  let dp := Pkt.set_srt (e_dp e) srt in
  match srt with
  | Some _ =>
      '(r, dp, w) ← srt_add dp w;
      if r <? 0 then Ret (pkt_free dp w) else call (okfn e) dp w
  | None => Ret (pkt_free dp w)
  end.

(** The two loops; each turn takes an entry off the buffer. *)
Fixpoint drop_loop (fuel : nat) (t : tbl send_buf_entry) (dst pkts : Z) (w : W)
  : outcome (tbl send_buf_entry * Z * W) :=
  match fuel with
  | O => Fault OutOfFuel
  | S fuel' =>
      '(e, t) ← __tbl_find_detach t dst (pure_crit crit_addr);
      match e with
      | None => Ret (t, pkts, w)
      | Some e =>
          (* Only send one ICMP message *)
          let w := if pkts =? 0 then icmp_unreach (e_dp e) w else w in
          drop_loop fuel' t dst (s32 (pkts + 1)) (pkt_free (e_dp e) w)
      end
  end.

Fixpoint send_loop (fuel : nat) (t : tbl send_buf_entry) (dst pkts : Z) (w : W)
  : outcome (tbl send_buf_entry * Z * W) :=
  match fuel with
  | O => Fault OutOfFuel
  | S fuel' =>
      '(e, t) ← __tbl_find_detach t dst (pure_crit crit_addr);
      match e with
      | None => Ret (t, pkts, w)
      | Some e => w ← send_entry e w; send_loop fuel' t dst (s32 (pkts + 1)) w
      end
  end.

Definition send_buf_set_verdict (st : send_st) (v : verdict) (dst : Z) (w : W)
  : outcome (Z * send_st * W) :=
  t ← write_lock_bh (send_buf st);
  let fuel := S (length (elems t)) in
  '(t, pkts, w) ← (match v with
                    | SEND_BUF_DROP => drop_loop fuel t dst 0 w
                    | SEND_BUF_SEND => send_loop fuel t dst 0 w
                    end);
  Ret (pkts, SendSt (write_unlock_bh t) (send_buf_timer st), w).

Fixpoint flush_all (fuel : nat) (t : tbl send_buf_entry) (pkts : Z) (w : W)
  : outcome (tbl send_buf_entry * Z * W) :=
  match fuel with
  | O => Fault OutOfFuel
  | S fuel' =>
      '(e, t) ← __tbl_find_detach t () crit_none;
      match e with
      | None => Ret (t, pkts, w)
      | Some e => flush_all fuel' t (s32 (pkts + 1)) (pkt_free (e_dp e) w)
      end
  end.

Definition send_buf_flush (t : tbl send_buf_entry) (w : W) : outcome (Z * tbl send_buf_entry * W) :=
  t ← write_lock_bh t;
  '(t, pkts, w) ← flush_all (S (length (elems t))) t 0 w;
  Ret (pkts, write_unlock_bh t, w).

Definition send_buf_init : send_st := SendSt (INIT_TBL SEND_BUF_MAX_LEN) None.

Definition send_buf_cleanup (st : send_st) (w : W) : outcome (send_st * W) :=
  let tm := if timer_pending (send_buf_timer st) then del_timer (send_buf_timer st)
            else send_buf_timer st in
  '(_, t, w) ← send_buf_flush (send_buf st) w;
  Ret (SendSt t tm, w).

End SendBuf.
Arguments send_buf_entry F : clear implicits.
Arguments send_st F : clear implicits.

Section Specs.
Context {W F : Type}.
Context (rtc_find : Z -> Z -> W -> outcome (option dsr_srt * W)).
Context (srt_add : dsr_pkt -> W -> outcome (Z * dsr_pkt * W)).
Context (call : F -> dsr_pkt -> W -> outcome W).
Context (pkt_free : dsr_pkt -> W -> W).
Context (icmp_unreach : dsr_pkt -> W -> W).

Record send_ok (st : send_st F) : Prop := {
  so_wf : tbl_wf (send_buf st);
  so_free : locked (send_buf st) = false;
  so_max : max_len (send_buf st) < 2 ^ 31;
  so_timer : elems (send_buf st) <> [] -> timer_pending (send_buf_timer st) = true
}.

(** The entries for a destination, oldest first, and the others. *)
Definition for_dst (dst : Z) (st : send_st F) : list (send_buf_entry F) :=
  hits (λ e, crit_addr e dst) (elems (send_buf st)).
Definition not_for_dst (dst : Z) (st : send_st F) : list (send_buf_entry F) :=
  misses (λ e, crit_addr e dst) (elems (send_buf st)).

Lemma send_loop_spec dst fuel (t : tbl (send_buf_entry F)) pkts :
  tbl_wf t -> (length (elems t) < fuel)%nat -> 0 <= pkts -> pkts + zlen (elems t) < 2 ^ 31 ->
  exists t', tbl_wf t' /\ max_len t' = max_len t /\ locked t' = locked t
    /\ elems t' = misses (λ e, crit_addr e dst) (elems t)
    /\ forall w, send_loop rtc_find srt_add call pkt_free fuel t dst pkts w
       = (w' ← run_all (send_entry rtc_find srt_add call pkt_free) (hits (λ e, crit_addr e dst) (elems t)) w;
          Ret (t', pkts + zlen (hits (λ e, crit_addr e dst) (elems t)), w')).
Proof.
  revert t pkts. induction fuel as [|fuel IH]; intros t pkts Hwf Hf Hp Hb; [lia|].
  pose proof (find_detach_hit t dst crit_addr Hwf) as Hd.
  destruct (hits (λ e, crit_addr e dst) (elems t)) as [|e es] eqn:Eh.
  - exists t. split_and!; try done; [by rewrite misses_all|]. intros w. cbn [send_loop]. rewrite Hd, Eh.
    simpl. unfold zlen. simpl. by rewrite Z.add_0_r.
  - destruct Hd as (t1 & Hd & Hwf1 & Hm1 & Hl1 & Hh1 & Hs1 & Hlen).
    pose proof (zlen_nonneg (elems t1)).
    assert (Hz : zlen (elems t) = zlen (elems t1) + 1) by (unfold zlen; lia).
    destruct (IH t1 (pkts + 1)) as (t' & Hwf' & Hm' & Hl' & He' & Hr); [done|lia|lia|lia|].
    exists t'. split_and!; try congruence. intros w.
    cbn [send_loop]. rewrite Hd, Eh. cbn [mbind outcome_bind run_all].
    destruct (send_entry rtc_find srt_add call pkt_free e w) as [w1|]; [|done]. cbn [mbind outcome_bind].
    rewrite s32_small by lia. rewrite Hr, Hh1. apply bind_ext. intros w2. rewrite zlen_cons.
    do 3 f_equal. lia.
Qed.

Lemma drop_loop_spec dst fuel (t : tbl (send_buf_entry F)) pkts :
  tbl_wf t -> (length (elems t) < fuel)%nat -> 0 < pkts -> pkts + zlen (elems t) < 2 ^ 31 ->
  exists t', tbl_wf t' /\ max_len t' = max_len t /\ locked t' = locked t
    /\ elems t' = misses (λ e, crit_addr e dst) (elems t)
    /\ forall w, drop_loop pkt_free icmp_unreach fuel t dst pkts w
       = Ret (t', pkts + zlen (hits (λ e, crit_addr e dst) (elems t)),
              foldl (λ w e, pkt_free (e_dp e) w) w (hits (λ e, crit_addr e dst) (elems t))).
Proof.
  revert t pkts. induction fuel as [|fuel IH]; intros t pkts Hwf Hf Hp Hb; [lia|].
  pose proof (find_detach_hit t dst crit_addr Hwf) as Hd.
  destruct (hits (λ e, crit_addr e dst) (elems t)) as [|e es] eqn:Eh.
  - exists t. split_and!; try done; [by rewrite misses_all|]. intros w. cbn [drop_loop]. rewrite Hd, Eh.
    simpl. unfold zlen. simpl. by rewrite Z.add_0_r.
  - destruct Hd as (t1 & Hd & Hwf1 & Hm1 & Hl1 & Hh1 & Hs1 & Hlen).
    pose proof (zlen_nonneg (elems t1)).
    assert (Hz : zlen (elems t) = zlen (elems t1) + 1) by (unfold zlen; lia).
    destruct (IH t1 (pkts + 1)) as (t' & Hwf' & Hm' & Hl' & He' & Hr); [done|lia|lia|lia|].
    exists t'. split_and!; try congruence. intros w.
    cbn [drop_loop]. rewrite Hd, Eh. cbn [mbind outcome_bind].
    rewrite (proj2 (Z.eqb_neq pkts 0)), s32_small by lia. rewrite Hr, Hh1. rewrite zlen_cons.
    do 2 f_equal. f_equal. lia.
Qed.

Lemma lock_wf {A} (t : tbl A) b : tbl_wf t -> tbl_wf (Tbl (elems t) (len t) (max_len t) b).
Proof. done. Qed.

(** A state whose entries are some of those of a sound one is sound. *)
Lemma misses_ok st (t' : tbl (send_buf_entry F)) dst :
  send_ok st -> tbl_wf t' -> max_len t' = max_len (send_buf st) ->
  elems t' = not_for_dst dst st ->
  send_ok (SendSt (write_unlock_bh t') (send_buf_timer st)).
Proof.
  intros [Hwf Hf Hm Ht] Hwf' Hm' He. constructor; simpl; [exact Hwf'|done|by rewrite Hm'|].
  rewrite He. intros Hne. apply Ht. intros E. apply Hne. unfold not_for_dst. by rewrite E.
Qed.

(** A count of the packets the node disposed of: a transmit function and
    [dsr_pkt_free] each dispose of one, nothing else does. *)
Record counts (gone : W -> Z) : Prop := {
  ct_find : forall s d w r w', rtc_find s d w = Ret (r, w') -> gone w' = gone w;
  ct_add : forall p w r p' w', srt_add p w = Ret (r, p', w') -> gone w' = gone w;
  ct_call : forall f p w w', call f p w = Ret w' -> gone w' = gone w + 1;
  ct_free : forall p w, gone (pkt_free p w) = gone w + 1
}.

Lemma send_entry_counts gone e w w' :
  counts gone -> send_entry rtc_find srt_add call pkt_free e w = Ret w' -> gone w' = gone w + 1.
Proof.
  intros [Hf Ha Hc Hp]. unfold send_entry.
  destruct (rtc_find _ _ w) as [[r w1]|] eqn:E; [|done]. cbn [mbind outcome_bind]. apply Hf in E.
  destruct r as [s|]; [|intros [= <-]; by rewrite Hp, E].
  destruct (srt_add _ w1) as [[[r p'] w2]|] eqn:E2; [|done]. cbn [mbind outcome_bind]. apply Ha in E2.
  destruct (r <? 0); [intros [= <-]; by rewrite Hp, E2, E|].
  intros H. apply Hc in H. by rewrite H, E2, E.
Qed.

Lemma run_all_counts gone l w w' :
  counts gone -> run_all (send_entry rtc_find srt_add call pkt_free) l w = Ret w' -> gone w' = gone w + zlen l.
Proof.
  intros Hc. revert w. induction l as [|e l IH]; intros w; [intros [= ->]; unfold zlen; simpl; lia|].
  cbn [run_all]. destruct (send_entry _ _ _ _ e w) as [w1|] eqn:E; [|done]. cbn [mbind outcome_bind].
  intros H. apply IH in H. apply (send_entry_counts gone) in E; [|done]. rewrite zlen_cons. lia.
Qed.


(** C16: The life of a packet in the send buffer.  Queueing into a buffer with
    room appends the packet and, when it is the first, arms the timer, so that
    the timer is pending whenever a packet waits; queueing into a full buffer
    never returns, because the path that makes room adds the packet through the
    function that takes the lock it already holds.  A timeout frees, oldest
    first, exactly the packets that waited at least the configured time, keeps
    the rest in order and arms the timer for the oldest of them. *)
Theorem send_buf_lifecycle dn now now2 mem st dp f w :
  send_ok st -> (kmalloc mem).1 = true ->
  let expired e := timeval_diff now (qtime e) >=? s32 (confval_to_usecs dn SendBufferTimeout) in
  (zlen (elems (send_buf st)) < max_len (send_buf st) ->
     exists r st', send_buf_enqueue_packet pkt_free dn now now2 mem st dp f w
                   = Ret (r, st', (kmalloc mem).2, w) /\ 0 < r
       /\ send_ok st' /\ elems (send_buf st') = elems (send_buf st) ++ [SendEntry dp now f])
  /\ (zlen (elems (send_buf st)) = max_len (send_buf st) ->
       send_buf_enqueue_packet pkt_free dn now now2 mem st dp f w = Fault Deadlock)
  /\ exists st', send_buf_timeout pkt_free dn now (SendSt (send_buf st) None) w
        = Ret (st', foldl (λ w e, pkt_free (e_dp e) w) w (hits expired (elems (send_buf st))))
      /\ send_ok st' /\ elems (send_buf st') = misses expired (elems (send_buf st))
      /\ send_buf_timer st'
           = (λ e, timeval_add_usecs (qtime e) (confval_to_usecs dn SendBufferTimeout))
             <$> head (elems (send_buf st')).
Proof.
  intros [Hwf Hf Hm Ht] Hk expired. destruct (kmalloc mem) as [ok mem'] eqn:Em. simpl in Hk. subst ok.
  destruct st as [[es ln mx lk] tm]. unfold tbl_wf in Hwf. simpl in *. subst lk. destruct Hwf as (-> & Hle & Hx).
  pose proof (zlen_nonneg es). split_and!.
  - intros Hroom. unfold send_buf_enqueue_packet. rewrite Em. simpl. unfold __tbl_add_tail. simpl.
    destruct (zlen es >=? mx) eqn:E; zb; [lia|]. simpl. rewrite u32_small, s32_small by lia.
    rewrite (proj2 (Z.ltb_ge _ _)) by lia. simpl. do 2 eexists. split; [done|]. split; [lia|]. split; [|done].
    constructor; simpl; [unfold tbl_wf; simpl; autorewrite with dsr_rw; lia|done|done|].
    intros _. unfold tbl_empty, TBL_FIRST. simpl. destruct es; [|by apply Ht]. simpl. by rewrite set_timer_due.
  - intros Hfull. unfold send_buf_enqueue_packet. rewrite Em. simpl. unfold __tbl_add_tail. simpl.
    destruct (zlen es >=? mx) eqn:E; zb; [|lia]. simpl. by destruct es.
  - unfold send_buf_timeout, tbl_for_each_del, __tbl_for_each_del, crit_garbage. simpl.
    rewrite (for_each_del_acc _ expired (λ e w, pkt_free (e_dp e) w)); [|by intros; unfold expired; case_match|lia..].
    simpl.
    pose proof (hits_misses_len expired es) as Hsp. pose proof (zlen_nonneg (hits expired es)).
    destruct (misses expired es) as [|e rest] eqn:Emi; simpl.
    + eexists. split; [done|]. split; [|done].
      constructor; simpl; [unfold tbl_wf; simpl; unfold zlen in *; simpl in *; lia|done|done|done].
    + eexists. split; [done|]. split; [|done].
      constructor; simpl; [unfold tbl_wf; simpl; lia|done|done|]. done.
Qed.

End Specs.

(** A buffer with packets from 1 and 3 to 9 and one from 2 to 8, in a node whose
    state is the list of the sources of the packets it was handed. *)
Definition sample_buf : send_st unit :=
  let e s d := SendEntry (set_addrs pkt0 s d 0) (Timeval 0 0) () in
  SendSt (Tbl [e 1 9; e 2 8; e 3 9] 3 10 false) (Some (Timeval 30 0)).

Lemma sample_buf_ok : send_ok sample_buf.
Proof. constructor; done. Qed.


Lemma send_buf_lifecycle_witness :
  exists r st', send_buf_enqueue_packet (W := unit) (λ _ w, w) None (Timeval 1 0) (Timeval 1 0) []
      sample_buf pkt0 () () = Ret (r, st', [], ())
    /\ 0 < r /\ elems (send_buf st') = elems (send_buf sample_buf) ++ [SendEntry pkt0 (Timeval 1 0) ()].
Proof.
  destruct (send_buf_lifecycle (W := unit) (λ _ w, w) None (Timeval 1 0) (Timeval 1 0) [] sample_buf pkt0 () ()
    sample_buf_ok eq_refl) as [H _].
  destruct H as (r & st' & E & Hr & _ & He); [by vm_compute|].
  exists r, st'. split; [exact E | split; [exact Hr | exact He]].
Defined.
