(* ===== verification/Salvage.v ===== *)
(** * Salvaging a packet (maint-buf.c, maint_buf_salvage)

    The new source route of a packet whose next hop was lost, and the rewriting
    of its options block, up to the call that transmits it. *)

From S2P Require Import Prelude Mem Config Srt Pkt Opt Send Wire.

(** [mem1] and [mem2]: whether the allocator has the routes that are made;
    [memd]: the buffer of the duplicate check; [ans]: the new options block. *)
Record salvage_mem := SalvageMem { mem_old : bool; mem_split : bool; mem_cat : bool; mem_dup : bool; ans_opts : byte_ans }.

(** The new route and its segments left: the alternative route itself when the
    lost hop was the first of the old one, else the old route up to this node
    followed by the alternative. *)
Definition salvage_route (sm : salvage_mem) (myaddr : Z) (p : dsr_pkt) (alt_srt old_srt : dsr_srt)
  : outcome (option (dsr_srt * Z)) :=
  a0 ← srt_addr old_srt 0;
  if a0 =? nxt_hop p then Ret (Some (alt_srt, laddrs alt_srt / 4))
  else
    srt_to_me ← dsr_srt_new_split (mem_split sm) (Some old_srt) myaddr;
    match srt_to_me with
    | None => Ret None
    | Some to_me =>
        r ← dsr_srt_concatenate (mem_cat sm) (Some to_me) (Some alt_srt);
        (* [srt->laddrs] is read before the result is tested *)
        srt ← deref r;
        Ret (Some (srt, s32 (u32 (laddrs srt / 4 - laddrs to_me / 4 - 1))))
    end.

(** The options block with the source route option at [o], [old_len] bytes long,
    replaced by one for [srt]; the new place of the option is [o] again. *)
Definition salvage_opts (ans : byte_ans) (p : dsr_pkt) (d : dhbuf) (o old_len salv : Z) (srt : dsr_srt)
  : outcome (option dsr_pkt) :=
  let new_len := DSR_SRT_OPT_LEN srt in
  if old_len =? new_len then
    r ← dsr_srt_opt_add (mem d) o new_len 0 (salv + 1) srt;
    m ← deref r;
    Ret (Some (set_mem p m))
  else
    old_opt_len ← dsr_pkt_opts_len p;
    let new_opt_len := old_opt_len - old_len + new_len in
    match dsr_pkt_alloc_opts ans p new_opt_len with
    | (false, _) => Ret None
    | (true, p') =>
        let m := mem (dh_mem p') in
        front ← memread (mem d) 0 o;
        m ← memwrite m 0 front;
        r ← dsr_srt_opt_add m o new_len 0 (salv + 1) srt;
        m ← deref r;
        back ← memread (mem d) (o + old_len) (old_opt_len - (o + old_len));
        m ← memwrite m (o + new_len) back;
        m ← store16 m 2 (htons (new_opt_len - DSR_OPT_HDR_LEN));
        let p' := set_mem p' m in
        Ret (Some (set_slots p' (set_srt_opt (slots p') (Some (Optr (blk (dh_mem p')) o)))))
    end.

(** The new route is checked and put on the packet; its option is at [o] and
    [old_len] bytes long. *)
Definition salvage_finish (sm : salvage_mem) (p : dsr_pkt) (d : dhbuf) (o old_len : Z) (srt : dsr_srt) (sleft : Z)
  : outcome (option dsr_pkt) :=
  dup ← dsr_srt_check_duplicate (mem_dup sm) srt;
  if negb (dup =? 0) then Ret None
  else
    salv ← srt_opt_salv (mem d) o;
    r ← salvage_opts (ans_opts sm) p d o old_len salv srt;
    match r with
    | None => Ret None
    | Some p =>
        m ← set_srt_opt_sleft (mem (dh_mem p)) o sleft;
        let p := set_mem p m in
        sl ← srt_opt_sleft m o;
        hop ← dsr_srt_next_hop srt sl;
        Ret (Some (set_srt (set_nxt_hop p hop) (Some srt)))
    end.

(** [alt_srt] is what [dsr_rtc_find(my_addr(), dp->dst)] returned.  The result is
    the packet that is handed to the device, or [None] for a return of -1. *)
Definition maint_buf_salvage (sm : salvage_mem) (myaddr : Z) (alt_srt : option dsr_srt) (p : dsr_pkt)
  : outcome (option dsr_pkt) :=
  match alt_srt, srt_opt (slots p) with
  | Some alt, Some so =>
      d ← dh_buf p;
      o ← opt_off p so;
      length ← opt_length (mem d) o;
      (* a length below 2 asks for four gigabytes *)
      old ← (if length <? 2 then Ret None
             else dsr_srt_new (mem_old sm) (dp_src p) (dp_dst p) (length - 2) (Some (mem d, o + 4)));
      match old with
      | None => Ret None
      | Some old_srt =>
          r ← salvage_route sm myaddr p alt old_srt;
          match r with
          | None => Ret None
          | Some (srt, sleft) => salvage_finish sm p d o (length + 2) srt sleft
          end
      end
  | _, _ => Ret None
  end.

(** ** The new route *)

(** [reroute me nxt old alt path]: the path that replaces [old] when its hop
    after [me], [nxt], is lost and [alt] leads from [me] to the destination. *)
Inductive reroute (me nxt : Z) (old alt : dsr_srt) : list Z -> Prop :=
| reroute_first : addrs old !! O = Some nxt -> reroute me nxt old alt (srt_path alt)
| reroute_later (i : nat) a0 :
    addrs old !! O = Some a0 -> a0 <> nxt -> addrs old !! i = Some me -> (me ∉ take i (addrs old)) ->
    reroute me nxt old alt (take (S (S i)) (srt_path old) ++ tl (srt_path alt)).

Lemma srt_div4 srt : srt_aligned srt -> laddrs srt / 4 = zlen (addrs srt).
Proof. intros H. rewrite (srt_aligned_laddrs _ H), Z.mul_comm. by rewrite Z.div_mul. Qed.

Lemma next_hop_at srt (k : nat) a :
  srt_wf srt -> srt_path srt !! S k = Some a ->
  dsr_srt_next_hop srt (zlen (addrs srt) - Z.of_nat k) = Ret a.
Proof.
  intros Hwf Hk. destruct (next_hop_path srt k Hwf) as (a' & Ha & Hn).
  { apply lookup_lt_Some in Hk. unfold srt_path in Hk. simpl in Hk. rewrite length_app in Hk. simpl in Hk. lia. }
  congruence.
Qed.

Lemma path_length srt : length (srt_path srt) = S (S (length (addrs srt))).
Proof. unfold srt_path. simpl. rewrite length_app. simpl. lia. Qed.

(** The new route, its segments left, and the hop they lead to. *)
Lemma salvage_route_ok md ans me p old alt path hop :
  srt_aligned old -> srt_aligned alt -> src alt = me ->
  zlen (addrs old) + zlen (addrs alt) < 2 ^ 28 ->
  reroute me (nxt_hop p) old alt path -> srt_path alt !! 1%nat = Some hop ->
  exists new, salvage_route (SalvageMem true true true md ans) me p alt old = Ret (Some (new, zlen (addrs alt)))
    /\ srt_path new = path /\ srt_aligned new /\ dsr_srt_next_hop new (zlen (addrs alt)) = Ret hop.
Proof.
  intros Ho Ha Hsrc Hsz Hr Hhop. unfold salvage_route. destruct Hr as [H0|i a0 H0 Hne Hi Hnot].
  - rewrite (srt_addr_nat _ _ _ H0 : srt_addr old 0 = _). cbn [mbind outcome_bind].
    rewrite Z.eqb_refl, srt_div4 by done. exists alt. split_and!; try done.
    rewrite <- (next_hop_at alt 0 hop) by (apply Ha || done). f_equal. lia.
  - rewrite (srt_addr_nat _ _ _ H0 : srt_addr old 0 = _). cbn [mbind outcome_bind].
    rewrite (proj2 (Z.eqb_neq _ _)) by done.
    destruct (proj2 (new_split_spec old me (proj1 Ho))) as (s & i' & Hs & Hi' & Hno & Hp & Hal);
      [by eapply list_elem_of_lookup_2|].
    assert (i' = i) as ->.
    { destruct (Nat.lt_trichotomy i' i) as [L|[->|L]]; [|done|].
      - exfalso. apply Hnot. apply list_elem_of_lookup_2 with i'. by rewrite lookup_take_lt.
      - exfalso. apply Hno. apply list_elem_of_lookup_2 with i. by rewrite lookup_take_lt. }
    cbn [mem_split]. rewrite Hs. cbn [mbind outcome_bind mem_cat].
    pose proof (lookup_lt_Some _ _ _ Hi) as Hil.
    assert (Hls : zlen (addrs s) = Z.of_nat i).
    { pose proof (f_equal length Hp) as E. rewrite length_take, !path_length in E. unfold zlen. lia. }
    assert (Hds : dst s = src alt).
    { pose proof (path_lookup_last s) as E. rewrite Hp, lookup_take_lt in E by (unfold zlen in Hls; lia).
      replace (length (addrs s)) with i in E by (unfold zlen in Hls; lia).
      rewrite path_lookup_addr in E by done. congruence. }
    pose proof (zlen_nonneg (addrs alt)).
    destruct (concatenate_spec s alt (proj1 Hal) (proj1 Ha) Hds) as (c & Hc & Hpc & Hcal & _);
      [unfold zlen in *; lia|].
    rewrite Hc. cbn [mbind outcome_bind deref].
    assert (Hlc : zlen (addrs c) = Z.of_nat i + zlen (addrs alt) + 1).
    { pose proof (f_equal length Hpc) as E. change (tl (srt_path alt)) with (addrs alt ++ [dst alt]) in E.
      rewrite !length_app, !path_length in E. simpl in E. unfold zlen in *. lia. }
    rewrite !srt_div4 by done. rewrite u32_small, s32_small by (unfold zlen in *; lia).
    exists c. replace (zlen (addrs c) - zlen (addrs s) - 1) with (zlen (addrs alt)) by lia.
    split_and!; try done; [by rewrite Hpc, Hp|].
    rewrite <- (next_hop_at c (S i) hop); [f_equal; lia|apply Hcal|].
    rewrite Hpc, lookup_app_r by (rewrite path_length; unfold zlen in *; lia).
    rewrite path_length. replace (S (S i) - S (S (length (addrs s))))%nat with O by (unfold zlen in *; lia).
    exact Hhop.
Qed.

(** ** The options block *)

(** The bytes of an options block: the header with its length, the options in
    front of the source route, the source route, the options behind it. *)
Definition blk_front (a b n : Z) (pre : bytes) : bytes := [a; b] ++ bytes16 (htons n) ++ pre.
Definition blk_bytes (a b : Z) (pre : bytes) (bits : Z) (r : dsr_srt) (back : bytes) : bytes :=
  blk_front a b (zlen pre + DSR_SRT_OPT_LEN r + zlen back) pre ++ srt_raw bits r ++ back.

Definition holds (d : dhbuf) (bs : bytes) : Prop :=
  Pkt.tail d = zlen bs /\ exists room, mem d = bs ++ room.

Lemma blk_front_len a b n pre : zlen (blk_front a b n pre) = 4 + zlen pre.
Proof. unfold blk_front. rewrite !zlen_app, zlen_bytes16. change (zlen [a; b]) with 2. lia. Qed.

Lemma blk_bytes_len a b pre bits r back :
  srt_wf r -> zlen (blk_bytes a b pre bits r back) = 4 + zlen pre + DSR_SRT_OPT_LEN r + zlen back.
Proof. intros. unfold blk_bytes. rewrite !zlen_app, blk_front_len, srt_raw_len by done. lia. Qed.

(** Setting the segments left of an option in a block. *)
Lemma set_sleft_block pre bits r rest v :
  0 <= bits < 65536 ->
  set_srt_opt_sleft (pre ++ srt_raw bits r ++ rest) (zlen pre) v
  = Ret (pre ++ srt_raw (bits_set_sleft bits v) r ++ rest).
Proof.
  intros Hb. unfold srt_raw, opt_enc. cbn [fst snd].
  set (ws := bytes_of_words (addrs r) ++ atail r).
  assert (Hz : forall c, zlen (bytes16 c ++ ws) = 2 + zlen ws) by (intros; by rewrite zlen_app, zlen_bytes16).
  rewrite !Hz. set (hd := pre ++ [DSR_OPT_SRT; 2 + zlen ws]).
  assert (Hs : forall c, pre ++ (DSR_OPT_SRT :: 2 + zlen ws :: bytes16 c ++ ws) ++ rest = hd ++ bytes16 c ++ ws ++ rest).
  { intros. subst hd. by rewrite <- !app_assoc. }
  rewrite !Hs. assert (Hl : zlen pre + 2 = zlen hd) by (subst hd; by rewrite zlen_app).
  unfold set_srt_opt_sleft, load16, store16. rewrite Hl, memread_behind by done.
  cbn [mbind outcome_bind deref]. cbn [bytes16]. rewrite le16_bytes16 by done.
  cbn [mbind outcome_bind]. by apply memwrite_over.
Qed.

Definition new_bits (salv : Z) (r : dsr_srt) : Z := srt_bits 0 0 0 (salv + 1) (laddrs r / 4).

(** A block freshly filled with the parts of the new one. *)
Lemma rebuilt F front enc back :
  zlen F = zlen front + zlen enc + zlen back + 128 ->
  exists room m1 m2,
    memwrite F 0 front = Ret m1
    /\ memwrite m1 (zlen front) enc = Ret m2
    /\ memwrite m2 (zlen front + zlen enc) back = Ret (front ++ enc ++ back ++ room).
Proof.
  intros HF. pose proof (zlen_nonneg front). pose proof (zlen_nonneg enc). pose proof (zlen_nonneg back).
  destruct (split3 F (zlen front) (zlen enc) (zlen back + 128)) as (x & y & z & -> & Hx & Hy & Hz); [lia..|].
  destruct (split3 z (zlen back) 128 0) as (u & v & w & -> & Hu & Hv & Hw); [lia..|].
  exists (v ++ w), (front ++ y ++ u ++ v ++ w), (front ++ enc ++ u ++ v ++ w). split_and!.
  - by apply memwrite_over0.
  - by apply memwrite_over.
  - rewrite <- zlen_app, !(app_assoc front enc). by apply memwrite_over.
Qed.

Lemma salvage_opts_ok junk p d a b pre bits old back salv new :
  dh p = Dh d -> holds d (blk_bytes a b pre bits old back) ->
  srt_opt (slots p) = Some (Optr (blk d) (4 + zlen pre)) ->
  srt_wf old -> srt_fits new -> zlen pre + DSR_SRT_OPT_LEN new + zlen back < 65000 ->
  exists d', holds d' (blk_bytes a b pre (new_bits salv new) new back)
    /\ (exists nb, salvage_opts (Some junk) p d (4 + zlen pre) (DSR_SRT_OPT_LEN old) salv new
         = Ret (Some (set_slots (set_dh p (Dh d') nb) (set_srt_opt (slots p) (Some (Optr (blk d') (4 + zlen pre)))))))
    /\ (DSR_SRT_OPT_LEN old <> DSR_SRT_OPT_LEN new -> blk d' = nblk p).
Proof.
  intros Hd [Ht [room Hm]] Hso Hwo Hfn Hsz.
  pose proof (srt_fits_bounds new Hfn) as Hbn. destruct Hfn as [Hwn Hln].
  pose proof (zlen_nonneg pre). pose proof (zlen_nonneg back). pose proof (zlen_nonneg room).
  pose proof (blk_bytes_len a b pre bits old back Hwo) as Hbl.
  pose proof (srt_raw_len bits old Hwo) as Hro. pose proof (srt_enc_len 0 (salv + 1) new Hwn) as Hen.
  assert (Henc : srt_enc 0 (salv + 1) new = srt_raw (new_bits salv new) new) by done.
  unfold blk_bytes in Hm.
  set (front := blk_front a b (zlen pre + DSR_SRT_OPT_LEN old + zlen back) pre) in *.
  assert (Hfl : zlen front = 4 + zlen pre) by apply blk_front_len. rewrite <- !app_assoc in Hm.
  unfold salvage_opts. case_if.
  - rewrite dsr_srt_opt_add_enc by (done || lia). rewrite Hm, <- Hfl, memwrite_over by lia.
    cbn [mbind outcome_bind deref].
    set (m' := front ++ _). exists (Dhbuf (blk d) m' (Pkt.tail d)). split; [|split; [|lia]].
    + split; cbn [Pkt.tail mem].
      * rewrite Ht, !blk_bytes_len by done. lia.
      * exists room. subst m'. unfold blk_bytes. rewrite <- Hif, <- !app_assoc. done.
    + exists (nblk p). unfold set_mem. rewrite Hd. unfold set_slots, set_dh. cbn [blk Pkt.tail mem].
      rewrite Hfl, <- Hso. by destruct (slots p).
  - unfold dsr_pkt_opts_len. rewrite Hd. cbn [mbind outcome_bind].
    unfold dsr_pkt_alloc_opts, DEFAULT_TAILROOM. rewrite Ht, Hbl.
    set (N := 4 + zlen pre + DSR_SRT_OPT_LEN old + zlen back - DSR_SRT_OPT_LEN old + DSR_SRT_OPT_LEN new).
    rewrite (proj2 (Z.ltb_ge _ _)) by lia. unfold dh_mem. cbn [dh set_dh mem].
    rewrite Hm, <- Hfl, memread_behind0. cbn [mbind outcome_bind].
    destruct (rebuilt (fill (N + 128) junk) front (srt_enc 0 (salv + 1) new) back) as (rm & m1 & m2 & E1 & E2 & E3);
      [rewrite fill_len by lia; lia|].
    rewrite E1. cbn [mbind outcome_bind]. rewrite dsr_srt_opt_add_enc by (done || lia).
    rewrite E2. cbn [mbind outcome_bind deref].
    rewrite (app_assoc front), <- Hro, <- (zlen_app front), Z.add_simpl_l,
      (memread_behind _ back _ _ eq_refl). cbn [mbind outcome_bind].
    rewrite <- Hen, E3. cbn [mbind outcome_bind].
    rewrite Henc. unfold DSR_OPT_HDR_LEN.
    assert (Hst : store16 (front ++ srt_raw (new_bits salv new) new ++ back ++ rm) 2 (htons (N - 4))
              = Ret (blk_bytes a b pre (new_bits salv new) new back ++ rm)).
    { unfold front, blk_front, store16, blk_bytes. rewrite <- !app_assoc.
      replace (zlen pre + DSR_SRT_OPT_LEN new + zlen back) with (N - 4) by lia.
      exact (memwrite_over [a; b] (bytes16 _) (bytes16 _) _ eq_refl). }
    rewrite Hst. cbn [mbind outcome_bind].
    exists (Dhbuf (nblk p) (blk_bytes a b pre (new_bits salv new) new back ++ rm) N). split; [|split; [|done]].
    + split; cbn [Pkt.tail mem]; [rewrite blk_bytes_len by done; lia | by eexists].
    + exists (nblk p + 1). unfold set_mem. cbn [dh set_dh blk Pkt.tail]. by rewrite Hfl.
Qed.

(** ** Salvaging a packet *)

(** Every allocation succeeds; [junk] is what the new block held. *)
Definition all_mem (junk : Z -> Z) : salvage_mem := SalvageMem true true true true (Some junk).

(** The route a packet carries, by its hops. *)
Definition carried (p : dsr_pkt) (hops : list Z) : dsr_srt :=
  DsrSrt (dp_src p) (dp_dst p) 0 (4 * zlen hops) hops [].

(** A packet whose options block holds a source route with these hops. *)
Record salvageable (p : dsr_pkt) (d : dhbuf) (a b : Z) (pre : bytes) (bits : Z) (hops : list Z) (back : bytes)
  : Prop := {
  sv_dh : dh p = Dh d;
  sv_holds : holds d (blk_bytes a b pre bits (carried p hops) back);
  sv_so : srt_opt (slots p) = Some (Optr (blk d) (4 + zlen pre));
  sv_bits : 0 <= bits < 65536;
  sv_words : Forall is_word hops;
  sv_hops : zlen hops <= 63
}.

Lemma carried_aligned p hops : zlen hops <= 63 -> srt_aligned (carried p hops).
Proof.
  intros H. pose proof (zlen_nonneg hops). unfold srt_aligned, srt_wf. cbn [carried laddrs addrs atail].
  rewrite zlen_nil. split; [lia|done].
Qed.

(** What the function reads from the packet before it looks for the new route. *)
Lemma salvage_reads p d a b pre bits hops back :
  salvageable p d a b pre bits hops back ->
  dh_buf p = Ret d /\ opt_off p (Optr (blk d) (4 + zlen pre)) = Ret (4 + zlen pre)
  /\ opt_length (mem d) (4 + zlen pre) = Ret (4 * zlen hops + 2)
  /\ srt_opt_salv (mem d) (4 + zlen pre) = Ret (bits_salv bits)
  /\ dsr_srt_new true (dp_src p) (dp_dst p) (4 * zlen hops + 2 - 2) (Some (mem d, 4 + zlen pre + 4))
     = Ret (Some (carried p hops)).
Proof.
  intros [Hd [Ht [room Hm]] Hso Hb Hw Hn]. pose proof (zlen_nonneg hops).
  pose proof (carried_aligned p hops Hn) as Ha. pose proof (proj1 Ha) as Hwf.
  unfold opt_off, dh_buf. rewrite Hd. cbn [mbind outcome_bind o_blk o_off]. rewrite Z.eqb_refl.
  split; [done|]. split; [done|]. rewrite Hm. unfold blk_bytes.
  set (n := zlen pre + DSR_SRT_OPT_LEN (carried p hops) + zlen back).
  rewrite <- (blk_front_len a b n pre), <- !app_assoc.
  assert (Hr : memread (blk_front a b n pre ++ srt_raw bits (carried p hops) ++ back ++ room)
                 (zlen (blk_front a b n pre)) (DSR_SRT_OPT_LEN (carried p hops))
               = Ret (srt_raw bits (carried p hops))).
  { apply memread_behind. by rewrite srt_raw_len. }
  destruct (srt_raw_read _ _ bits _ Hwf ltac:(cbn; lia) Hb Hr) as (_ & R2 & R3 & R4).
  split; [exact R2|]. unfold srt_opt_salv. rewrite R3. split; [done|].
  cbn [addrs atail laddrs carried] in R4. rewrite app_nil_r in R4.
  pose proof (dsr_srt_new_read _ _ hops [] (dp_src p) (dp_dst p)
    ltac:(rewrite app_nil_r; replace (4 * zlen hops + zlen []) with (4 * zlen hops) by (rewrite zlen_nil; lia); exact R4)
    Hw ltac:(done)) as E.
  rewrite zlen_nil, Z.add_0_r in E. replace (4 * zlen hops + 2 - 2) with (4 * zlen hops) by lia. exact E.
Qed.

Lemma salvage_unfold sm me alt p d a b pre bits hops back :
  salvageable p d a b pre bits hops back -> mem_old sm = true ->
  maint_buf_salvage sm me (Some alt) p
  = (r ← salvage_route sm me p alt (carried p hops);
     match r with
     | None => Ret None
     | Some (srt, sleft) => salvage_finish sm p d (4 + zlen pre) (DSR_SRT_OPT_LEN (carried p hops)) srt sleft
     end).
Proof.
  intros Hs Hm. pose proof (salvage_reads _ _ _ _ _ _ _ _ Hs) as (R1 & R2 & R3 & R4 & R5).
  destruct Hs as [Hd Hh Hso Hb Hw Hn]. pose proof (zlen_nonneg hops).
  unfold maint_buf_salvage. rewrite Hso, R1. cbn [mbind outcome_bind]. rewrite R2.
  cbn [mbind outcome_bind]. rewrite R3. cbn [mbind outcome_bind].
  rewrite (proj2 (Z.ltb_ge _ _)), Hm, R5 by lia.
  by replace (4 * zlen hops + 2 + 2) with (DSR_SRT_OPT_LEN (carried p hops))
    by (unfold DSR_SRT_OPT_LEN, DSR_SRT_HDR_LEN; cbn; lia).
Qed.

(** The last part, for a route that fits. *)
Lemma salvage_finish_ok junk p d a b pre bits hops back new sleft hop :
  salvageable p d a b pre bits hops back -> srt_fits new -> 0 <= sleft <= 63 ->
  dsr_srt_next_hop new sleft = Ret hop -> zlen pre + zlen back < 64000 ->
  salvage_finish (all_mem junk) p d (4 + zlen pre) (DSR_SRT_OPT_LEN (carried p hops)) new sleft
  = Ret None /\ ~ NoDup (srt_path new)
  \/ NoDup (srt_path new) /\ exists d' nb bits',
       salvage_finish (all_mem junk) p d (4 + zlen pre) (DSR_SRT_OPT_LEN (carried p hops)) new sleft
       = Ret (Some (set_srt (set_nxt_hop (set_slots (set_dh p (Dh d') nb)
              (set_srt_opt (slots p) (Some (Optr (blk d') (4 + zlen pre))))) hop) (Some new)))
       /\ holds d' (blk_bytes a b pre bits' new back)
       /\ bits_salv bits' = (bits_salv bits + 1) mod 16 /\ bits_sleft bits' = sleft.
Proof.
  intros Hs Hf Hsl Hhop Hsz. pose proof (srt_fits_bounds new Hf) as Hfb.
  pose proof (salvage_reads _ _ _ _ _ _ _ _ Hs) as (_ & _ & _ & R4 & _).
  pose proof Hs as [Hd Hh Hso Hb Hw Hn]. unfold salvage_finish. cbn [mem_dup all_mem].
  rewrite (proj1 (check_duplicate_spec new (proj1 Hf))). cbn [mbind outcome_bind].
  case_decide as Hnd; [|left; done]. right. split; [done|].
  change (negb (0 =? 0)) with false. cbv iota. rewrite R4. cbn [mbind outcome_bind ans_opts all_mem].
  destruct (salvage_opts_ok junk p d a b pre bits (carried p hops) back (bits_salv bits) new Hd Hh Hso)
    as (d' & [Ht' [room' Hm']] & (nb & E) & _); [apply carried_aligned; done|done|lia|].
  rewrite E. cbn [mbind outcome_bind]. unfold dh_mem. cbn [dh set_slots set_dh].
  destruct (srt_bits_fields 0 0 (bits_salv bits + 1) (laddrs new / 4)) as (Hbr & Hbs & _); [by left..|].
  fold (new_bits (bits_salv bits) new) in Hbr, Hbs.
  destruct (bits_set_sleft_fields (new_bits (bits_salv bits) new) sleft Hbr) as (Hcr & Hcl & Hcs).
  set (bits' := bits_set_sleft (new_bits (bits_salv bits) new) sleft) in *.
  rewrite (Z.mod_small sleft) in Hcl by lia.
  set (n := zlen pre + DSR_SRT_OPT_LEN new + zlen back).
  assert (Hset : set_srt_opt_sleft (mem d') (4 + zlen pre) sleft = Ret (blk_bytes a b pre bits' new back ++ room')).
  { rewrite Hm'. unfold blk_bytes. rewrite <- (blk_front_len a b n pre), <- !app_assoc. by apply set_sleft_block. }
  rewrite Hset. cbn [mbind outcome_bind].
  assert (Hget : srt_opt_sleft (blk_bytes a b pre bits' new back ++ room') (4 + zlen pre) = Ret sleft).
  { unfold blk_bytes. rewrite <- (blk_front_len a b n pre), <- !app_assoc. unfold srt_opt_sleft.
    destruct (srt_raw_read (blk_front a b n pre ++ srt_raw bits' new ++ back ++ room') (zlen (blk_front a b n pre)) bits' new)
      as (_ & _ & E3 & _); [apply Hf|apply Hf|done|apply memread_behind; by rewrite srt_raw_len by apply Hf|].
    subst n. rewrite E3. cbn [mbind outcome_bind]. by rewrite Hcl. }
  rewrite Hget. cbn [mbind outcome_bind]. rewrite Hhop. cbn [mbind outcome_bind].
  exists (Dhbuf (blk d') (blk_bytes a b pre bits' new back ++ room') (Pkt.tail d')), nb, bits'. split_and!.
  - reflexivity.
  - split; [|by eexists]. cbn [Pkt.tail]. rewrite Ht', !blk_bytes_len by apply Hf. done.
  - by rewrite Hcs, Hbs.
  - done.
Qed.

(** C12: Salvaging.  The hop behind this node is lost; [alt] leads from here to
    the destination.  The packet's route becomes the path it has come, up to
    this node, followed by the alternative one (the alternative itself when the
    lost hop was the first of the old route).  If some node would be visited
    twice the packet is not salvaged.  Otherwise the options block holds the new
    route in the place of the old, every other option byte for byte, a header
    with the right length, a salvage count one higher modulo 16, and as many
    segments left as lead to the first node of the alternative, which is the new
    next hop.  Nothing else of the packet changes; in particular its IP header
    still has the old total length.  Without an alternative, or when this node is
    not on the old route, nothing is salvaged. *)
Theorem maint_buf_salvage_spec junk me p d a b pre bits hops back alt :
  salvageable p d a b pre bits hops back ->
  srt_aligned alt -> src alt = me -> zlen (addrs alt) <= 63 -> zlen pre + zlen back < 64000 ->
  (forall path, reroute me (nxt_hop p) (carried p hops) alt path -> zlen path <= 65 ->
     (~ NoDup path -> maint_buf_salvage (all_mem junk) me (Some alt) p = Ret None)
     /\ (NoDup path -> exists new d' bits' nb hop,
           maint_buf_salvage (all_mem junk) me (Some alt) p
           = Ret (Some (set_srt (set_nxt_hop (set_slots (set_dh p (Dh d') nb)
                    (set_srt_opt (slots p) (Some (Optr (blk d') (4 + zlen pre))))) hop) (Some new)))
           /\ srt_path new = path /\ srt_aligned new
           /\ holds d' (blk_bytes a b pre bits' new back)
           /\ bits_salv bits' = (bits_salv bits + 1) mod 16 /\ bits_sleft bits' = zlen (addrs alt)
           /\ srt_path alt !! 1%nat = Some hop /\ dsr_srt_next_hop new (bits_sleft bits') = Ret hop))
  /\ (forall sm, maint_buf_salvage sm me None p = Ret None)
  /\ (forall a0, hops !! O = Some a0 -> a0 <> nxt_hop p -> me ∉ hops ->
        maint_buf_salvage (all_mem junk) me (Some alt) p = Ret None).
Proof.
  intros Hs Ha Hsrc Hal Hsz. pose proof (zlen_nonneg (addrs alt)).
  assert (Hca : srt_aligned (carried p hops)) by (eapply carried_aligned, sv_hops, Hs).
  pose proof (sv_hops _ _ _ _ _ _ _ _ Hs) as Hn.
  rewrite (salvage_unfold (all_mem junk) me alt _ _ _ _ _ _ _ _ Hs) by done.
  split; [|split; [by intros|]].
  - intros path Hrr Hpl.
    destruct (srt_path alt !! 1%nat) as [hop|] eqn:Hhop.
    2: { apply lookup_ge_None in Hhop. rewrite path_length in Hhop. lia. }
    destruct (salvage_route_ok true (Some junk) me p (carried p hops) alt path hop)
      as (new & Hroute & Hnp & Hna & Hnh); try done; [cbn [carried addrs]; lia|].
    assert (Hfit : srt_fits new).
    { split; [apply Hna|]. rewrite (srt_aligned_laddrs _ Hna).
      assert (zlen path = zlen (addrs new) + 2) by (rewrite <- Hnp; unfold zlen; rewrite path_length; lia). lia. }
    pose proof (salvage_finish_ok junk p d a b pre bits hops back new (zlen (addrs alt)) hop Hs Hfit
      ltac:(lia) Hnh Hsz) as Hfin. rewrite Hnp in Hfin.
    fold (all_mem junk) in Hroute. rewrite Hroute. cbn [mbind outcome_bind]. split.
    + intros Hnd. by destruct Hfin as [[-> _]|[? _]].
    + intros Hnd. destruct Hfin as [[_ ?]|[_ (d' & nb & bits' & E & Hh & Hs1 & Hs2)]]; [done|].
      exists new, d', bits', nb, hop. split_and!; try done. by rewrite Hs2.
  - intros a0 H0 Hne Hnin. unfold salvage_route.
    rewrite (srt_addr_nat (carried p hops) 0 a0 H0 : srt_addr (carried p hops) 0 = _). cbn [mbind outcome_bind].
    rewrite (proj2 (Z.eqb_neq _ _)) by done. cbn [mem_split all_mem].
    rewrite (proj1 (new_split_spec (carried p hops) me (proj1 Hca))) by done. done.
Qed.

(** Node 20 forwarded a packet from 10 to 40 over 20 and 30, lost 30, and knows
    the way over 50 and 60. *)
Definition lost_pkt : dsr_pkt :=
  let opt := blk_bytes 6 0 [] (srt_bits 0 0 0 1 1) (DsrSrt 10 40 0 8 [20; 30] []) [160; 2; 0; 9] in
  set_slots (set_dh (set_addrs pkt0 10 40 30) (Dh (Dhbuf 0 (opt ++ repeat 0 128) (zlen opt))) 1)
    (set_srt_opt slots0 (Some (Optr 0 4))).

Lemma maint_buf_salvage_spec_witness :
  exists new d' bits' nb,
    maint_buf_salvage (all_mem (λ _, 0)) 20 (Some (DsrSrt 20 40 0 8 [50; 60] [])) lost_pkt
    = Ret (Some (set_srt (set_nxt_hop (set_slots (set_dh lost_pkt (Dh d') nb)
             (set_srt_opt (slots lost_pkt) (Some (Optr (blk d') 4)))) 50) (Some new)))
    /\ srt_path new = [10; 20; 50; 60; 40] /\ bits_salv bits' = 2 /\ bits_sleft bits' = 2
    /\ holds d' (blk_bytes 6 0 [] bits' new [160; 2; 0; 9]).
Proof.
  destruct (maint_buf_salvage_spec (λ _, 0) 20 lost_pkt
    (Dhbuf 0 (blk_bytes 6 0 [] (srt_bits 0 0 0 1 1) (DsrSrt 10 40 0 8 [20; 30] []) [160; 2; 0; 9] ++ repeat 0 128) 20)
    6 0 [] (srt_bits 0 0 0 1 1) [20; 30] [160; 2; 0; 9] (DsrSrt 20 40 0 8 [50; 60] [])) as [H _].
  - constructor.
    + reflexivity.
    + split; [reflexivity | exists (repeat 0 128); reflexivity].
    + reflexivity.
    + split; vm_compute; congruence.
    + repeat constructor; vm_compute; congruence.
    + by vm_compute.
  - repeat split; vm_compute; congruence.
  - reflexivity.
  - by vm_compute.
  - by vm_compute.
  - destruct (H [10; 20; 50; 60; 40]) as [_ [new (d' & bits' & nb & hop & E & Hp & _ & Hh & Hs & Hl & Hhop & _)]].
    + apply (reroute_later 20 30 (carried lost_pkt [20; 30]) (DsrSrt 20 40 0 8 [50; 60] []) 0 20);
        [reflexivity | lia | reflexivity | apply not_elem_of_nil].
    + by vm_compute.
    + by apply (bool_decide_unpack _).
    + exists new, d', bits', nb. injection Hhop as <-. split_and!; [exact E | exact Hp | exact Hs | exact Hl | exact Hh].
Defined.
