(* ===== verification/MaintBuf.v ===== *)
(** * The maintenance buffer (maint-buf.c) and dsr_dev_xmit (dsr-dev.c)

    Packets that wait for the acknowledgement of their next hop, the timer that
    retransmits the request, and what happens when the next hop stays silent.
    The other components are reached through the operations of [Peers]; a
    packet's way through [XMIT] back into this buffer is modelled here, with the
    lock it finds. *)

From S2P Require Import Prelude Timer Config Tbl TblDel Neigh Srt Pkt.

Record maint_entry := Maint {
  m_nxt_hop : Z;
  rexmt : Z;
  m_id : Z;
  tx_time : timeval;
  expires : timeval;
  m_rto : Z;
  ack_req_sent : bool;
  m_dp : dsr_pkt
}.

(** What the rest of the node does for the buffer, over its state [W]. *)
Class Peers (W : Type) := {
  (** [neigh_tbl_query]; [None] when it returns 0 *)
  p_neigh_query : Z -> W -> outcome (option neighbor_info);
  p_set_ack_req_time : Z -> W -> outcome W;
  p_id_inc : Z -> W -> outcome W;
  p_set_rto : Z -> neighbor_info -> W -> outcome W;
  p_link_del : Z -> Z -> W -> outcome W;
  p_rerr_send : dsr_pkt -> Z -> W -> outcome W;
  p_ack_req_send : Z -> Z -> W -> outcome W;
  p_ack_req_opt_add : dsr_pkt -> Z -> W -> outcome (dsr_pkt * W);
  (** room for an entry, and [dsr_pkt_alloc(skb_copy(..))] *)
  p_entry_pkt : dsr_pkt -> W -> outcome (option dsr_pkt * W);
  (** [maint_buf_salvage] up to the call of [XMIT]; [None] when it returns -1 *)
  p_salvage : dsr_pkt -> W -> outcome (option dsr_pkt * W);
  (** [dsr_dev_xmit] from the test for a slave device on *)
  p_device : dsr_pkt -> W -> outcome W;
  p_pkt_free : dsr_pkt -> W -> W
}.

(** ** Entries *)

Definition set_rexmt (m : maint_entry) n : maint_entry :=
  Maint (m_nxt_hop m) n (m_id m) (tx_time m) (expires m) (m_rto m) (ack_req_sent m) (m_dp m).
Definition set_tx_time (m : maint_entry) tx ex : maint_entry :=
  Maint (m_nxt_hop m) (rexmt m) (m_id m) tx ex (m_rto m) (ack_req_sent m) (m_dp m).
Definition set_ack_req_sent (m : maint_entry) b : maint_entry :=
  Maint (m_nxt_hop m) (rexmt m) (m_id m) (tx_time m) (expires m) (m_rto m) b (m_dp m).

Definition crit_addr (m : maint_entry) (nxt_hop : Z) : bool := m_nxt_hop m =? nxt_hop.
Definition crit_expires (m m_new : maint_entry) : bool := timeval_diff (expires m) (expires m_new) >? 0.
Definition crit_ack_req_sent (m : maint_entry) (_ : unit) : bool := ack_req_sent m.

Section MaintBuf.
Context {W : Type} `{Peers W}.
(** The configuration, this node's address and the clock during one run. *)
Context (dn : option dsr_node) (myaddr : Z) (now : timeval).

(** The buffer, its timer and the rest of the node. *)
Record maint_st := MaintSt { maint_buf : tbl maint_entry; ack_timer : timer; peers : W }.

Definition set_buf (s : maint_st) t : maint_st := MaintSt t (ack_timer s) (peers s).
Definition set_ack_timer (s : maint_st) tm : maint_st := MaintSt (maint_buf s) tm (peers s).
Definition set_peers (s : maint_st) w : maint_st := MaintSt (maint_buf s) (ack_timer s) w.

Definition maint_buf_set_max_len (s : maint_st) (max_len : Z) : maint_st :=
  let t := maint_buf s in set_buf s (Tbl (elems t) (len t) max_len (locked t)).

(** The criteria that delete: each updates the round-trip time of its query and
    frees the packet; the packet of an entry is never NULL. *)
Definition crit_addr_id_del (nxt_hop id : Z) : del_crit_t maint_entry (Z * W) := fun m '(rtt, w) =>
  if (m_nxt_hop m =? nxt_hop) && (m_id m <=? id) then
    (* Only update RTO if this was not a retransmission *)
    let rtt := if (m_id m =? id) && (rexmt m =? 0) then u64 (timeval_diff now (tx_time m)) else rtt in
    Ret (true, (rtt, p_pkt_free (m_dp m) w))
  else Ret (false, (rtt, w)).

Definition crit_addr_del (nxt_hop : Z) : del_crit_t maint_entry (Z * W) := fun m '(rtt, w) =>
  if m_nxt_hop m =? nxt_hop then
    let rtt := if rexmt m =? 0 then u64 (timeval_diff now (tx_time m)) else rtt in
    Ret (true, (rtt, p_pkt_free (m_dp m) w))
  else Ret (false, (rtt, w)).

Definition maint_entry_create (dp : dsr_pkt) (id rto : Z) (w : W) : outcome (option maint_entry * W) :=
  '(r, w) ← p_entry_pkt dp w;
  match r with
  | None => Ret (None, w)
  | Some p =>
      Ret (Some (Maint (nxt_hop dp) 0 id now (timeval_add_usecs now rto) rto false
                       (set_nxt_hop p (nxt_hop dp))), w)
  end.

(** ** Sending *)

(** [dsr_dev_xmit]; [add] is [maint_buf_add]. *)
Definition dsr_dev_xmit (add : dsr_pkt -> maint_st -> outcome (Z * dsr_pkt * maint_st))
  (dp : dsr_pkt) (s : maint_st) : outcome maint_st :=
  '(dp, s) ← (if negb (Z.land (dp_flags dp) PKT_REQUEST_ACK =? 0) then
                '(_, dp, s) ← add dp s; Ret (dp, s)
              else Ret (dp, s));
  w ← p_device dp (peers s);
  Ret (set_peers s w).

(** The caller's packet may get an ACK request option.  [set_timeout] is
    [_maint_buf_set_timeout], run under the lock taken here. *)
Definition maint_buf_add (set_timeout : maint_st -> outcome maint_st) (dp : dsr_pkt) (s : maint_st)
  : outcome (Z * dsr_pkt * maint_st) :=
  info ← p_neigh_query (nxt_hop dp) (peers s);
  match info with
  | None => (* No neighbor info *) Ret (-1, dp, s)
  | Some info =>
      '(m, w) ← maint_entry_create dp (i_id info) (i_rto info) (peers s);
      match m with
      | None => Ret (-1, dp, set_peers s w)
      | Some m =>
          if negb (Z.land (dp_flags dp) PKT_REQUEST_ACK =? 0) then
            '(m, dp, w) ←
              (if u64 (timeval_diff now (i_last_ack_req info)) >? confval_to_usecs dn MaintHoldoffTime then
                 w ← p_set_ack_req_time (m_nxt_hop m) w;
                 w ← p_id_inc (m_nxt_hop m) w;
                 '(dp, w) ← p_ack_req_opt_add dp (m_id m) w;
                 Ret (set_ack_req_sent m true, dp, w)
               else Ret (m, dp, w));
            t ← write_lock_bh (maint_buf s);
            let '(r, t) := __tbl_add_tail t m in
            if r <? 0 then (* Buffer full - not buffering! *)
              Ret (-1, dp, MaintSt (write_unlock_bh t) (ack_timer s) (p_pkt_free (m_dp m) w))
            else
              s ← set_timeout (MaintSt t (ack_timer s) w);
              Ret (1, dp, set_buf s (write_unlock_bh (maint_buf s)))
          else Ret (1, dp, set_peers s w)
      end
  end.

(** ** The timer *)

(** [maint_buf_salvage], and what the callers do when it fails.  [xmit] is
    [XMIT]. *)
Definition salvage_or_free (xmit : dsr_pkt -> maint_st -> outcome maint_st) (p : dsr_pkt) (s : maint_st)
  : outcome maint_st :=
  '(r, w) ← p_salvage p (peers s);
  match r with
  | Some p' => xmit p' (set_peers s w)
  | None => Ret (set_peers s (p_pkt_free p w))
  end.

(** The other packets for the same next hop. *)
Fixpoint salvage_loop (xmit : dsr_pkt -> maint_st -> outcome maint_st) (fuel : nat) (nxt_hop : Z) (s : maint_st)
  : outcome maint_st :=
  match fuel with
  | O => Fault OutOfFuel
  | S fuel' =>
      '(m2, t) ← __tbl_find_detach (maint_buf s) nxt_hop (pure_crit crit_addr);
      match m2 with
      | None => Ret (set_buf s t)
      | Some m2 =>
          s ← salvage_or_free xmit (m_dp m2) (set_buf s t);
          salvage_loop xmit fuel' nxt_hop s
      end
  end.

(** [_maint_buf_timeout] up to the label [out]; the flag says whether it gets
    there. *)
Definition maint_turn (xmit : dsr_pkt -> maint_st -> outcome maint_st) (s : maint_st)
  : outcome (bool * maint_st) :=
  if timer_pending (ack_timer s) then Ret (false, s)
  else
    (* Get the first packet *)
    let '(m, t) := __tbl_detach_first (maint_buf s) in
    match m with
    | None => (* Nothing in maint buf *) Ret (false, s)
    | Some m =>
        let m := set_rexmt m (u32 (rexmt m + 1)) in
        let s := set_buf s t in
        if rexmt m >=? get_confval dn MaxMaintRexmt then
          (* MaxMaintRexmt reached! *)
          s ← (if ack_req_sent m then
                 w ← p_link_del myaddr (m_nxt_hop m) (peers s);
                 w ← p_rerr_send (m_dp m) (m_nxt_hop m) w;
                 (* Salvage timed out packet *)
                 s ← salvage_or_free xmit (m_dp m) (set_peers s w);
                 (* Salvage other packets with the same next hop *)
                 salvage_loop xmit (S (length (elems (maint_buf s)))) (m_nxt_hop m) s
               else (* No ACK REQ sent for this packet *)
                 Ret (set_peers s (p_pkt_free (m_dp m) (peers s))));
          Ret (true, s)
        else
          (* Set new Transmit time *)
          let m := set_tx_time m now (timeval_add_usecs now (m_rto m)) in
          (* Send new ACK REQ for this buffered packet *)
          w ← (if ack_req_sent m then p_ack_req_send (m_nxt_hop m) (m_id m) (peers s) else Ret (peers s));
          (* Add to maintenence buffer again *)
          '(_, t) ← __tbl_add (maint_buf s) m (pure_crit crit_expires);
          Ret (true, MaintSt t (ack_timer s) w)
    end.

(** The two functions call each other; the recursion is on [fuel]. *)
Fixpoint _maint_buf_set_timeout (fuel : nat) (s : maint_st) : outcome maint_st :=
  match fuel with
  | O => Fault OutOfFuel
  | S fuel' =>
      if tbl_empty (maint_buf s) then Ret s
      else
        (* Get first packet in maintenance buffer *)
        m ← __tbl_find (maint_buf s) () (pure_crit crit_ack_req_sent);
        match m with
        | None => (* No packet to set timeout for *) Ret s
        | Some m =>
            let t := maint_buf s in
            let expires := timeval_add_usecs (tx_time m) (m_rto m) in
            let s := set_buf s (set_elems t (alter_first ack_req_sent (λ m, set_tx_time m (tx_time m) expires) (elems t)) (len t)) in
            (* Check if this packet has already expired *)
            if timeval_diff now (tx_time m) >? s32 (m_rto m) then
              '(out, s) ← maint_turn (dsr_dev_xmit (maint_buf_add (_maint_buf_set_timeout fuel'))) s;
              if (out : bool) then _maint_buf_set_timeout fuel' s else Ret s
            else Ret (set_ack_timer s (set_timer (ack_timer s) expires))
        end
  end.

(** [XMIT] as the timer reaches it, with the lock held. *)
Definition XMIT_locked (fuel : nat) : dsr_pkt -> maint_st -> outcome maint_st :=
  dsr_dev_xmit (maint_buf_add (_maint_buf_set_timeout fuel)).

Definition _maint_buf_timeout (fuel : nat) (s : maint_st) : outcome maint_st :=
  '(out, s) ← maint_turn (XMIT_locked fuel) s;
  if (out : bool) then _maint_buf_set_timeout fuel s else Ret s.

(** How often the two functions can still call each other: every turn takes one
    of the retransmissions an entry has left. *)
Definition entry_turns (m : maint_entry) : nat := Z.to_nat (Z.max 1 (get_confval dn MaxMaintRexmt - rexmt m)).
Definition turns_left (t : tbl maint_entry) : nat := S (list_sum (map entry_turns (elems t))).

Definition with_lock (f : maint_st -> outcome maint_st) (s : maint_st) : outcome maint_st :=
  t ← write_lock_bh (maint_buf s);
  s ← f (set_buf s t);
  Ret (set_buf s (write_unlock_bh (maint_buf s))).

Definition maint_buf_timeout (s : maint_st) : outcome maint_st :=
  with_lock (_maint_buf_timeout (turns_left (maint_buf s))) s.

Definition maint_buf_set_timeout (s : maint_st) : outcome maint_st :=
  with_lock (_maint_buf_set_timeout (turns_left (maint_buf s))) s.

(** The turns of the table with one more entry. *)
Definition add_turns (s : maint_st) : nat :=
  turns_left (maint_buf s) + Z.to_nat (Z.max 1 (get_confval dn MaxMaintRexmt)).

Definition XMIT (dp : dsr_pkt) (s : maint_st) : outcome maint_st :=
  dsr_dev_xmit (maint_buf_add (_maint_buf_set_timeout (add_turns s))) dp s.

(** ** Removing *)

Definition maint_buf_del_all (nxt_hop : Z) (s : maint_st) : outcome (Z * maint_st) :=
  t ← write_lock_bh (maint_buf s);
  let tm := if timer_pending (ack_timer s) then del_timer (ack_timer s) else ack_timer s in
  '(n, t, q) ← __tbl_for_each_del t (0, peers s) (crit_addr_del nxt_hop);
  s ← _maint_buf_set_timeout (turns_left t) (MaintSt t tm q.2);
  Ret (n, set_buf s (write_unlock_bh (maint_buf s))).

(** [neigh_info] with two fields set. *)
Definition rtt_info (id rtt : Z) : neighbor_info := NeighborInfo [] id rtt 0 (Timeval 0 0).

Definition maint_buf_del_all_id (nxt_hop id : Z) (s : maint_st) : outcome (Z * maint_st) :=
  t ← write_lock_bh (maint_buf s);
  let tm := if timer_pending (ack_timer s) then del_timer (ack_timer s) else ack_timer s in
  (* Find the buffered packet to mark as acked *)
  '(n, t, q) ← __tbl_for_each_del t (0, peers s) (crit_addr_id_del nxt_hop id);
  w ← (if q.1 >? 0 then p_set_rto nxt_hop (rtt_info id q.1) q.2 else Ret q.2);
  s ← _maint_buf_set_timeout (turns_left t) (MaintSt t tm w);
  Ret (n, set_buf s (write_unlock_bh (maint_buf s))).

Definition maint_buf_del_addr (nxt_hop : Z) (s : maint_st) : outcome (Z * maint_st) :=
  t ← write_lock_bh (maint_buf s);
  let tm := if timer_pending (ack_timer s) then del_timer (ack_timer s) else ack_timer s in
  '(n, t, q) ← __tbl_for_each_del t (0, peers s) (crit_addr_del nxt_hop);
  w ← (if q.1 >? 0 then p_set_rto nxt_hop (rtt_info 0 q.1) q.2 else Ret q.2);
  s ← _maint_buf_set_timeout (turns_left t) (MaintSt t tm w);
  Ret (n, set_buf s (write_unlock_bh (maint_buf s))).

Definition maint_buf_init (w : W) : maint_st := MaintSt (INIT_TBL MAINT_BUF_MAX_LEN) None w.

(** Frees the packets of the entries and the entries, first to last. *)
Fixpoint cleanup_loop (l : list maint_entry) (w : W) : W :=
  match l with [] => w | m :: l' => cleanup_loop l' (p_pkt_free (m_dp m) w) end.

Definition maint_buf_cleanup (s : maint_st) : outcome maint_st :=
  t ← write_lock_bh (maint_buf s);
  let w := cleanup_loop (elems t) (peers s) in
  Ret (MaintSt (write_unlock_bh (set_elems t [] (u32 (len t - zlen (elems t))))) (del_timer (ack_timer s)) w).

End MaintBuf.
Arguments maint_st W : clear implicits.

(** ** What the buffer may expect of the rest of the node *)

Section Laws.
Context {W : Type} `{Peers W}.
Context (dn : option dsr_node) (myaddr : Z) (now : timeval).

(** [XMIT] of such a packet does not come back into the buffer: it does not ask
    for an acknowledgement, or its next hop is not a known neighbour. *)
Definition quiet (p : dsr_pkt) (w : W) : Prop :=
  Z.land (dp_flags p) PKT_REQUEST_ACK = 0 \/ p_neigh_query (nxt_hop p) w = Ret None.

(** [I] holds of the node's state whenever the buffer runs, [P] of the packets
    it keeps.  The last but one law is the one the program does not always keep. *)
Class PeersOk (I : W -> Prop) (P : dsr_pkt -> Prop) : Prop := {
  ok_set_rto a i w : I w -> exists w', p_set_rto a i w = Ret w' /\ I w';
  ok_link_del a b w : I w -> exists w', p_link_del a b w = Ret w' /\ I w';
  ok_rerr_send p a w : P p -> I w -> exists w', p_rerr_send p a w = Ret w' /\ I w';
  ok_ack_req_send a i w : I w -> exists w', p_ack_req_send a i w = Ret w' /\ I w';
  ok_device p w : I w -> exists w', p_device p w = Ret w' /\ I w';
  ok_salvage p w : P p -> I w -> exists r w', p_salvage p w = Ret (r, w') /\ I w'
                     /\ (forall p', r = Some p' -> quiet p' w');
  ok_free p w : I w -> I (p_pkt_free p w)
}.
Context (I : W -> Prop) (P : dsr_pkt -> Prop) `{!PeersOk I P}.
Context (max_range : 0 <= get_confval dn MaxMaintRexmt < 2 ^ 32).

Local Abbreviation max_rexmt := (get_confval dn MaxMaintRexmt).
Local Abbreviation XMIT_locked := (XMIT_locked dn myaddr now).
Local Abbreviation entry_turns := (entry_turns dn).

(** An entry is new or has retransmissions left. *)
Definition entry_ok (m : maint_entry) : Prop :=
  P (m_dp m) /\ (rexmt m = 0 \/ 0 < rexmt m < max_rexmt).

Definition st_ok (s : maint_st W) : Prop :=
  tbl_wf (maint_buf s) /\ I (peers s) /\ Forall entry_ok (elems (maint_buf s)).

(** The same packet for the same hop, perhaps retransmitted since. *)
Definition same_entry (m m' : maint_entry) : Prop :=
  m_nxt_hop m' = m_nxt_hop m /\ m_id m' = m_id m /\ m_dp m' = m_dp m
  /\ ack_req_sent m' = ack_req_sent m /\ m_rto m' = m_rto m /\ rexmt m <= rexmt m'.

(** What a run may do to the buffer. *)
Record turned (s s' : maint_st W) : Prop := {
  tu_ok : st_ok s';
  tu_max : max_len (maint_buf s') = max_len (maint_buf s);
  tu_lock : locked (maint_buf s') = locked (maint_buf s);
  tu_from : Forall (λ m', exists m, m ∈ elems (maint_buf s) /\ same_entry m m') (elems (maint_buf s'))
}.

Lemma same_entry_refl m : same_entry m m.
Proof. repeat split; lia. Qed.
Lemma same_entry_trans a b c : same_entry a b -> same_entry b c -> same_entry a c.
Proof. intros (?&?&?&?&?&?) (?&?&?&?&?&?). repeat split; try congruence; lia. Qed.

Lemma turned_refl s : st_ok s -> turned s s.
Proof.
  intros Hs. constructor; try done. apply Forall_forall. intros m Hm. exists m. split; [done|apply same_entry_refl].
Qed.
Lemma turned_trans a b c : turned a b -> turned b c -> turned a c.
Proof.
  intros [A1 A2 A3 A4] [B1 B2 B3 B4]. constructor; [done|congruence|congruence|].
  eapply Forall_impl; [exact B4|]. intros m' (m & Hm & Hs). rewrite Forall_forall in A4.
  destruct (A4 m Hm) as (m0 & H0 & Hs0). exists m0. split; [done|]. by eapply same_entry_trans.
Qed.

(** ** The turns that are left *)

Local Abbreviation total l := (list_sum (map entry_turns l)).

Lemma entry_turns_pos m : (1 <= entry_turns m)%nat.
Proof. unfold MaintBuf.entry_turns. lia. Qed.

Lemma total_sublist l k : l `sublist_of` k -> (total l <= total k)%nat.
Proof. induction 1; simpl; lia. Qed.

Lemma total_app l k : total (l ++ k) = (total l + total k)%nat.
Proof. by rewrite map_app, list_sum_app. Qed.

Lemma total_alter p g l : (forall m, rexmt (g m) = rexmt m) -> total (alter_first p g l) = total l.
Proof.
  intros Hg. induction l as [|m l IH]; [done|]. simpl. destruct (p m); simpl; [|by rewrite IH].
  unfold MaintBuf.entry_turns. by rewrite Hg.
Qed.

(** ** Sending and salvaging under the lock *)

Lemma XMIT_quiet f p s w' :
  quiet p (peers s) -> p_device p (peers s) = Ret w' -> XMIT_locked f p s = Ret (set_peers s w').
Proof using Type.
  intros Hq Hd. unfold MaintBuf.XMIT_locked, dsr_dev_xmit.
  destruct (Z.land (dp_flags p) PKT_REQUEST_ACK =? 0) eqn:E; cbn [negb mbind outcome_bind]; [by rewrite Hd|].
  destruct Hq as [Hq|Hq]; [zb; done|]. unfold maint_buf_add. rewrite Hq. cbn [mbind outcome_bind]. by rewrite Hd.
Qed.

(** Salvaging one packet, as the rest of the node sees it. *)
Definition salvage_one (p : dsr_pkt) (w : W) : outcome W :=
  '(r, w) ← p_salvage p w;
  match r with Some p' => p_device p' w | None => Ret (p_pkt_free p w) end.

Lemma salvage_one_ok p w : P p -> I w -> exists w', salvage_one p w = Ret w' /\ I w'.
Proof using PeersOk0.
  intros Hp Hi. destruct (ok_salvage p w Hp Hi) as (r & w1 & E & Hi1 & _). unfold salvage_one. rewrite E.
  cbn [mbind outcome_bind]. destruct r; [by apply ok_device|]. eexists. split; [done|]. by apply ok_free.
Qed.

Lemma salvage_quiet f p s w' :
  P p -> I (peers s) -> salvage_one p (peers s) = Ret w' ->
  salvage_or_free (XMIT_locked f) p s = Ret (set_peers s w').
Proof using PeersOk0.
  intros Hp Hi. destruct (ok_salvage p (peers s) Hp Hi) as (r & w1 & E & Hi1 & Hq).
  unfold salvage_or_free, salvage_one. rewrite E. cbn [mbind outcome_bind]. destruct r as [p'|]; [|by intros [= <-]].
  intros Hd. by rewrite (XMIT_quiet f p' (set_peers s w1) w' (Hq p' eq_refl) Hd).
Qed.

Lemma salvage_loop_ok f fuel a s :
  st_ok s -> (length (elems (maint_buf s)) < fuel)%nat ->
  exists w', run_all salvage_one (m_dp <$> hits (λ m, crit_addr m a) (elems (maint_buf s))) (peers s) = Ret w'
    /\ I w'
    /\ let rest := misses (λ m, crit_addr m a) (elems (maint_buf s)) in
       salvage_loop (XMIT_locked f) fuel a s
       = Ret (MaintSt (set_elems (maint_buf s) rest (zlen rest)) (ack_timer s) w').
Proof using PeersOk0.
  revert s. induction fuel as [|fuel IH]; intros s Hs Hf; [lia|]. destruct Hs as (Hwf & Hi & Hall).
  pose proof (find_detach_hit (maint_buf s) a crit_addr Hwf) as Hd. cbn [salvage_loop].
  destruct (hits (λ m, crit_addr m a) (elems (maint_buf s))) as [|m ms] eqn:Eh.
  - rewrite Hd. cbn [mbind outcome_bind]. exists (peers s). rewrite misses_all by done.
    split_and!; [done|done|]. destruct s as [[es ln mx lk] tm w], Hwf as (Hl & _). simpl in *. by rewrite Hl.
  - destruct Hd as (t1 & Hd & Hwf1 & Hm1 & Hl1 & Hh1 & Hs1 & Hlen). rewrite Hd. cbn [mbind outcome_bind].
    destruct (find_detach_sub _ _ _ _ _ Hd) as [Hin Hsub].
    assert (Hall1 : Forall entry_ok (elems t1)) by (by eapply Forall_sublist).
    assert (Hm : entry_ok m) by (rewrite Forall_forall in Hall; by apply Hall).
    destruct (salvage_one_ok (m_dp m) (peers s) (proj1 Hm) Hi) as (w1 & E1 & Hi1).
    rewrite (salvage_quiet f (m_dp m) (set_buf s t1) w1 (proj1 Hm) Hi E1). cbn [mbind outcome_bind].
    destruct (IH (set_peers (set_buf s t1) w1)) as (w2 & E2 & Hi2 & Hr); [by split_and!|simpl; lia|].
    cbn [maint_buf set_peers set_buf peers] in E2, Hr. exists w2.
    rewrite Hh1 in E2. rewrite Hs1 in Hr. cbn [fmap list_fmap run_all]. rewrite E1. split_and!; [done|done|].
    cbv zeta. rewrite Hr. unfold set_elems. by rewrite Hm1, Hl1.
Qed.

(** ** One turn of the timer *)

Lemma detach_first_wf {A} (t : tbl A) m rest :
  tbl_wf t -> elems t = m :: rest ->
  __tbl_detach_first t = (Some m, set_elems t rest (zlen rest)) /\ tbl_wf (set_elems t rest (zlen rest))
  /\ zlen rest < max_len t.
Proof.
  intros (Hl & Hm & Hx) He. pose proof (zlen_nonneg rest). unfold __tbl_detach_first. rewrite He.
  rewrite Hl, He, zlen_cons, u32_small by (rewrite He, zlen_cons in Hm; lia).
  rewrite He, zlen_cons in Hm. unfold tbl_wf. simpl.
  replace (zlen rest + 1 - 1) with (zlen rest) by lia. split_and!; try done; lia.
Qed.

(** Putting an entry back where there is room. *)
Lemma add_expires_wf (t : tbl maint_entry) m :
  tbl_wf t -> zlen (elems t) < max_len t ->
  exists r t' a b, __tbl_add t m (pure_crit crit_expires) = Ret (r, t')
    /\ elems t = a ++ b /\ elems t' = a ++ m :: b /\ tbl_wf t' /\ max_len t' = max_len t /\ locked t' = locked t
    /\ Forall (λ x, timeval_diff (expires x) (expires m) <= 0) a
    /\ Forall (λ x, timeval_diff (expires x) (expires m) > 0) (option_list (head b)).
Proof.
  intros (Hl & Hm & Hx) Hroom. pose proof (zlen_nonneg (elems t)). unfold __tbl_add.
  rewrite Hl. destruct (zlen (elems t) >=? max_len t) eqn:E; zb; [lia|].
  assert (Hins : exists ys, (if TBL_EMPTY t then Ret [m] else insert_before (pure_crit crit_expires) m (elems t)) = Ret ys
    /\ insert_before (pure_crit crit_expires) m (elems t) = Ret ys).
  { unfold TBL_EMPTY. destruct (elems t) as [|x xs]; [by exists [m]|].
    destruct (insert_before_pure crit_expires m (x :: xs)) as [ys ->]. by exists ys. }
  destruct Hins as (ys & -> & Hins). cbn [mbind outcome_bind].
  apply insert_before_spec in Hins as (a & b & Eab & -> & Ha & Hb).
  rewrite u32_small by lia. do 2 eexists. exists a, b. split; [reflexivity|]. unfold tbl_wf. simpl.
  assert (Hz : zlen (a ++ m :: b) = zlen (elems t) + 1) by (rewrite Eab, !zlen_app, zlen_cons; lia).
  rewrite Hz. split_and!; try done; [lia| |].
  - eapply Forall_impl; [exact Ha|]. intros y [= Hy]. unfold crit_expires in Hy. zb. lia.
  - destruct b as [|y b]; simpl; constructor; [|constructor].
    injection Hb as Hb. unfold crit_expires in Hb. zb. lia.
Qed.

(** The entry after one more retransmission. *)
Definition again (m : maint_entry) : maint_entry :=
  set_tx_time (set_rexmt m (rexmt m + 1)) now (timeval_add_usecs now (m_rto m)).

(** A state with other entries, in a buffer that is otherwise the same. *)
Definition with_entries (s : maint_st W) (l : list maint_entry) (w : W) : maint_st W :=
  MaintSt (set_elems (maint_buf s) l (zlen l)) None w.

Section Turn.
Context (f : nat) (s : maint_st W) (m : maint_entry) (rest : list maint_entry).
Context (Hs : st_ok s) (Htm : ack_timer s = None) (He : elems (maint_buf s) = m :: rest).

Lemma turn_unfold :
  st_ok (with_entries s rest (peers s)) /\ entry_ok m /\ zlen rest < max_len (maint_buf s)
  /\ __tbl_detach_first (maint_buf s) = (Some m, set_elems (maint_buf s) rest (zlen rest))
  /\ u32 (rexmt m + 1) = rexmt m + 1.
Proof using Hs He max_range.
  destruct Hs as (Hwf & Hi & Hall). destruct (detach_first_wf _ _ _ Hwf He) as (Hdf & Hwf1 & Hroom).
  rewrite He in Hall. apply Forall_cons in Hall as [Hm Hall]. split_and!; try done.
  destruct Hm as [_ Hr]. rewrite u32_small; lia.
Qed.

Lemma turn_again :
  rexmt m + 1 < max_rexmt ->
  exists a b w', rest = a ++ b
    /\ (if ack_req_sent m then p_ack_req_send (m_nxt_hop m) (m_id m) (peers s) else Ret (peers s)) = Ret w' /\ I w'
    /\ maint_turn dn myaddr now (XMIT_locked f) s = Ret (true, with_entries s (a ++ again m :: b) w')
    /\ Forall (λ x, timeval_diff (expires x) (expires (again m)) <= 0) a
    /\ Forall (λ x, timeval_diff (expires x) (expires (again m)) > 0) (option_list (head b)).
Proof using Hs Htm He PeersOk0 max_range.
  intros Hr. destruct turn_unfold as ((Hwf1 & Hi & Hall) & Hm & Hroom & Hdf & Hu).
  unfold maint_turn. rewrite Htm, Hdf, Hu. cbn [timer_pending rexmt set_rexmt].
  destruct (rexmt m + 1 >=? max_rexmt) eqn:Emax; zb; [lia|].
  destruct (add_expires_wf _ (again m) Hwf1 Hroom) as (r & t' & a & b & Ea & Eab & Et & Hwf' & Hm' & Hl' & H1 & H2).
  assert (Hw : exists w1, (if ack_req_sent m then p_ack_req_send (m_nxt_hop m) (m_id m) (peers s) else Ret (peers s)) = Ret w1 /\ I w1).
  { destruct (ack_req_sent m); [by apply ok_ack_req_send|by eexists]. }
  destruct Hw as (w1 & E1 & Hi1). exists a, b, w1. split_and!; try done.
  cbn [ack_req_sent m_nxt_hop m_id peers set_buf maint_buf set_rexmt set_tx_time m_rto]. rewrite E1.
  cbn [mbind outcome_bind]. cbn [maint_buf with_entries] in Ea.
  change (set_tx_time (set_rexmt m (rexmt m + 1)) now (timeval_add_usecs now (m_rto m))) with (again m).
  rewrite Ea. cbn [mbind outcome_bind]. unfold with_entries. rewrite <- Et.
  destruct t' as [es ln mx lk], Hwf' as (Hl & _). simpl in *. unfold set_elems. cbn [ack_timer set_buf]. rewrite Htm. congruence.
Qed.

Lemma turn_unasked :
  max_rexmt <= rexmt m + 1 -> ack_req_sent m = false ->
  maint_turn dn myaddr now (XMIT_locked f) s = Ret (true, with_entries s rest (p_pkt_free (m_dp m) (peers s))).
Proof using Hs Htm He max_range.
  intros Hr Ha. destruct turn_unfold as (_ & _ & _ & Hdf & Hu).
  unfold maint_turn. rewrite Htm, Hdf, Hu. cbn [timer_pending rexmt set_rexmt].
  destruct (rexmt m + 1 >=? max_rexmt) eqn:Emax; zb; [|lia].
  cbn [ack_req_sent set_rexmt]. rewrite Ha. cbn [mbind outcome_bind]. unfold with_entries, set_peers, set_buf.
  cbn [ack_timer peers maint_buf m_dp set_rexmt]. by rewrite Htm.
Qed.

Lemma turn_broken :
  max_rexmt <= rexmt m + 1 -> ack_req_sent m = true ->
  let hop := m_nxt_hop m in
  exists w1 w2 w', p_link_del myaddr hop (peers s) = Ret w1 /\ p_rerr_send (m_dp m) hop w1 = Ret w2
    /\ run_all salvage_one (m_dp m :: (m_dp <$> hits (λ x, crit_addr x hop) rest)) w2 = Ret w' /\ I w'
    /\ maint_turn dn myaddr now (XMIT_locked f) s
       = Ret (true, with_entries s (misses (λ x, crit_addr x hop) rest) w').
Proof using Hs Htm He PeersOk0 max_range.
  intros Hr Ha hop. destruct turn_unfold as ((Hwf1 & Hi & Hall) & [Hp _] & Hroom & Hdf & Hu).
  unfold maint_turn. rewrite Htm, Hdf, Hu. cbn [timer_pending rexmt set_rexmt].
  destruct (rexmt m + 1 >=? max_rexmt) eqn:Emax; zb; [|lia].
  cbn [ack_req_sent set_rexmt m_nxt_hop m_dp peers set_buf]. rewrite Ha. fold hop.
  destruct (ok_link_del myaddr hop (peers s) Hi) as (w1 & E1 & Hi1). rewrite E1. cbn [mbind outcome_bind].
  destruct (ok_rerr_send (m_dp m) hop w1 Hp Hi1) as (w2 & E2 & Hi2). rewrite E2. cbn [mbind outcome_bind].
  destruct (salvage_one_ok (m_dp m) w2 Hp Hi2) as (w3 & E3 & Hi3).
  set (s1 := set_peers _ w2). rewrite (salvage_quiet f (m_dp m) s1 w3 Hp Hi2 E3). cbn [mbind outcome_bind].
  destruct (salvage_loop_ok f (S (length (elems (maint_buf (set_peers s1 w3))))) hop (set_peers s1 w3))
    as (w4 & E4 & Hi4 & Hloop); [by split_and!|lia|].
  exists w1, w2, w4. cbn [run_all]. rewrite E3. split_and!; try done. cbv zeta in Hloop. rewrite Hloop.
  cbn [mbind outcome_bind]. unfold with_entries. cbn [ack_timer s1 set_peers set_buf]. by rewrite Htm.
Qed.

Lemma turned_sub l w : l `sublist_of` rest -> I w -> turned s (with_entries s l w).
Proof using Hs He max_range.
  intros Hl Hi. destruct turn_unfold as ((Hwf1 & _ & Hall) & _). pose proof (sublist_length _ _ Hl).
  constructor; try done.
  - split_and!; [|done|by eapply Forall_sublist].
    unfold tbl_wf, with_entries, zlen in *. simpl in *. lia.
  - simpl. apply Forall_forall. intros x Hx. exists x. split; [|apply same_entry_refl].
    rewrite He. right. by eapply elem_of_sublist.
Qed.

Lemma turned_again a b w :
  rest = a ++ b -> rexmt m + 1 < max_rexmt -> I w -> turned s (with_entries s (a ++ again m :: b) w).
Proof using Hs Htm He PeersOk0 max_range.
  intros Hab Hr Hi. destruct turn_unfold as ((Hwf1 & _ & Hall) & [Hp Hrx] & Hroom & _).
  assert (Hz : zlen (a ++ again m :: b) = zlen rest + 1) by (rewrite Hab, !zlen_app, zlen_cons; lia).
  constructor; try done.
  - split_and!; [|done|].
    + destruct Hwf1 as (_ & _ & Hx). unfold tbl_wf, with_entries in *. simpl in *. lia.
    + cbn [with_entries maint_buf elems set_elems] in Hall |- *. rewrite Hab in Hall. apply Forall_app in Hall as [Ha Hb].
      apply Forall_app. split; [done|]. constructor; [|done]. split; [done|]. right. simpl. lia.
  - cbn [with_entries maint_buf elems set_elems]. rewrite He, Hab.
    assert (Hin : forall l, (forall x, x ∈ l -> x ∈ m :: a ++ b) -> Forall (λ m', exists m0, m0 ∈ m :: a ++ b /\ same_entry m0 m') l).
    { intros l Hl. apply Forall_forall. intros x Hx. exists x. split; [by apply Hl|apply same_entry_refl]. }
    apply Forall_app. split; [|constructor]; [apply Hin; set_solver| |apply Hin; set_solver].
    exists m. split; [left|]. repeat split; simpl; lia.
Qed.

Lemma maint_turn_ok :
  exists s', maint_turn dn myaddr now (XMIT_locked f) s = Ret (true, s')
    /\ turned s s' /\ ack_timer s' = None
    /\ (total (elems (maint_buf s')) < total (elems (maint_buf s)))%nat.
Proof using Hs Htm He PeersOk0 max_range.
  destruct turn_unfold as ((_ & Hi & _) & [_ Hrx] & _). pose proof (entry_turns_pos m) as Hpos. rewrite He.
  destruct (decide (rexmt m + 1 < max_rexmt)) as [Hr|Hr].
  - destruct (turn_again Hr) as (a & b & w' & Hab & _ & Hi' & E & _). eexists. split; [exact E|].
    split; [by apply turned_again|]. split; [done|]. cbn [with_entries maint_buf elems set_elems].
    assert (entry_turns (again m) < entry_turns m)%nat by (unfold MaintBuf.entry_turns, again; simpl; lia).
    rewrite Hab, total_app. simpl. rewrite total_app. lia.
  - destruct (ack_req_sent m) eqn:Ea.
    + destruct turn_broken as (w1 & w2 & w' & _ & _ & _ & Hi' & E); [lia|done|]. eexists. split; [exact E|].
      assert (Hmis : misses (λ x, crit_addr x (m_nxt_hop m)) rest `sublist_of` rest) by apply sublist_filter.
      split; [by apply turned_sub|]. split; [done|]. pose proof (total_sublist _ _ Hmis). simpl. lia.
    + eexists. split; [apply turn_unasked; [lia|done]|]. split; [by apply turned_sub, ok_free|]. split; [done|]. simpl. lia.
Qed.
End Turn.

(** ** The timer run *)

(** Whenever a packet with an acknowledgement request waits, the timer runs. *)
Definition armed (s : maint_st W) : Prop :=
  Exists (λ m, ack_req_sent m = true) (elems (maint_buf s)) -> timer_pending (ack_timer s) = true.

(** Writing the expiry of the entry the timer is set for. *)
Lemma alter_turned s tm ln g :
  st_ok s -> ln = len (maint_buf s) -> (forall m, same_entry m (g m) /\ rexmt (g m) = rexmt m) ->
  turned s (MaintSt (set_elems (maint_buf s) (alter_first ack_req_sent g (elems (maint_buf s))) ln) tm (peers s)).
Proof using Type.
  intros ((Hl & Hm & Hx) & Hi & Hall) -> Hg.
  assert (Hlen : forall l, length (alter_first ack_req_sent g l) = length l).
  { induction l as [|m l IH]; [done|]. simpl. destruct (ack_req_sent m); simpl; congruence. }
  assert (Hfrom : forall l, Forall (λ m', exists m, m ∈ l /\ same_entry m m' /\ rexmt m' = rexmt m) (alter_first ack_req_sent g l)).
  { induction l as [|m l IH]; [constructor|]. simpl. destruct (ack_req_sent m); constructor.
    - exists m. split; [left|apply Hg].
    - apply Forall_forall. intros x Hx'. exists x. split; [by right|]. split; [apply same_entry_refl|done].
    - exists m. split; [left|]. split; [apply same_entry_refl|done].
    - eapply Forall_impl; [exact IH|]. intros x (y & Hy & Hs). exists y. split; [by right|done]. }
  specialize (Hlen (elems (maint_buf s))). specialize (Hfrom (elems (maint_buf s))). constructor; try done.
  - split_and!; [|done|].
    + unfold tbl_wf, zlen in *. simpl. rewrite Hlen. done.
    + simpl. eapply Forall_impl; [exact Hfrom|]. intros x (y & Hy & (_ & _ & Hd & _) & Hr).
      rewrite Forall_forall in Hall. specialize (Hall y Hy). unfold entry_ok in *. by rewrite Hd, Hr.
  - simpl. eapply Forall_impl; [exact Hfrom|]. intros x (y & Hy & Hs & _). by exists y.
Qed.

Lemma set_timeout_ok fuel s :
  st_ok s -> (total (elems (maint_buf s)) < fuel)%nat ->
  exists s', _maint_buf_set_timeout dn myaddr now fuel s = Ret s' /\ turned s s' /\ armed s'.
Proof using PeersOk0 max_range.
  revert s. induction fuel as [|fuel IH]; intros s Hs Hf; [lia|]. cbn [_maint_buf_set_timeout].
  unfold tbl_empty, TBL_FIRST. destruct (elems (maint_buf s)) as [|m0 rest0] eqn:Ee; cbn [head].
  { exists s. split; [done|]. split; [by apply turned_refl|]. unfold armed. rewrite Ee. intros Hx. by apply Exists_nil in Hx. }
  unfold __tbl_find. rewrite find_elem_pure, <- Ee. cbn [mbind outcome_bind].
  destruct (find_pos (λ a, crit_ack_req_sent a ()) (elems (maint_buf s))) as [[i m]|] eqn:Ef.
  2: { exists s. split; [done|]. split; [by apply turned_refl|]. intros Hx. exfalso.
       apply find_pos_None in Ef. apply Exists_exists in Hx as (x & Hx & Ha). rewrite Forall_forall in Ef.
       specialize (Ef x Hx). unfold crit_ack_req_sent in Ef. congruence. }
  set (g := λ m0, set_tx_time m0 (tx_time m0) (timeval_add_usecs (tx_time m) (m_rto m))).
  assert (Hg : forall x, same_entry x (g x) /\ rexmt (g x) = rexmt x) by (intros; repeat split; simpl; lia).
  set (s1 := set_buf s _).
  assert (Ht1 : turned s s1) by (by apply alter_turned).
  assert (Htot : total (elems (maint_buf s1)) = total (elems (maint_buf s))) by (by apply total_alter).
  cbn [ack_timer set_buf s1]. case_if.
  - destruct (ack_timer s1) as [due|] eqn:Etm.
    + unfold maint_turn. rewrite Etm. cbn [timer_pending mbind outcome_bind]. exists s1.
      split; [done|]. split; [done|]. intros _. by rewrite Etm.
    + destruct (elems (maint_buf s1)) as [|m1 rest1] eqn:E1.
      { rewrite Ee in Htot. simpl in Htot. pose proof (entry_turns_pos m0). lia. }
      destruct (maint_turn_ok fuel s1 m1 rest1 (tu_ok _ _ Ht1) Etm E1) as (s2 & E2 & Ht2 & _ & Hlt).
      fold (XMIT_locked fuel). rewrite E2. cbn [mbind outcome_bind].
      rewrite E1, Htot in Hlt.
      destruct (IH s2 (tu_ok _ _ Ht2)) as (s3 & E3 & Ht3 & Ha3); [rewrite Ee in Hlt; lia|].
      exists s3. split; [done|]. split; [|done]. eapply turned_trans; [exact Ht1|]. by eapply turned_trans.
  - eexists. split; [reflexivity|]. split; [|intros _; cbn; by rewrite set_timer_due].
    destruct Ht1 as [T1 T2 T3 T4]. constructor; done.
Qed.



(** ** Acknowledgements *)

(** The entries an acknowledgement from [a] with this identity covers. *)
Definition acked (a id : Z) (m : maint_entry) : bool := (m_nxt_hop m =? a) && (m_id m <=? id).

(** The round-trip time it measures: that of the last covered entry with the
    very identity that was sent only once; 0 when there is none. *)
Definition ack_rtt (id : Z) (l : list maint_entry) : Z :=
  foldl (λ r m, if (m_id m =? id) && (rexmt m =? 0) then u64 (timeval_diff now (tx_time m)) else r) 0 l.

Lemma acked_fold id l r w :
  foldl (λ (q : Z * W) m, ((if (m_id m =? id) && (rexmt m =? 0) then u64 (timeval_diff now (tx_time m)) else q.1),
                           p_pkt_free (m_dp m) q.2)) (r, w) l
  = (foldl (λ r m, if (m_id m =? id) && (rexmt m =? 0) then u64 (timeval_diff now (tx_time m)) else r) r l,
     foldl (λ w m, p_pkt_free (m_dp m) w) w l).
Proof. revert r w. induction l as [|m l IH]; intros r w; [done|]. simpl. apply IH. Qed.

Lemma acked_del a id t w :
  tbl_wf t -> max_len t < 2 ^ 31 ->
  __tbl_for_each_del t (0, w) (crit_addr_id_del now a id)
  = Ret (zlen (hits (acked a id) (elems t)), set_elems t (misses (acked a id) (elems t)) (zlen (misses (acked a id) (elems t))),
         (ack_rtt id (hits (acked a id) (elems t)), foldl (λ w m, p_pkt_free (m_dp m) w) w (hits (acked a id) (elems t)))).
Proof.
  intros (Hl & Hm & Hx) Hb. pose proof (zlen_nonneg (elems t)). unfold __tbl_for_each_del.
  rewrite (for_each_del_acc _ (acked a id)
    (λ m q, ((if (m_id m =? id) && (rexmt m =? 0) then u64 (timeval_diff now (tx_time m)) else q.1), p_pkt_free (m_dp m) q.2)));
    [|by intros m [r w']; unfold crit_addr_id_del, acked; case_match|lia..].
  cbn [mbind outcome_bind]. rewrite acked_fold. fold (ack_rtt id (hits (acked a id) (elems t))).
  pose proof (hits_misses_len (acked a id) (elems t)).
  rewrite Z.add_0_l, Hl. by replace (zlen (elems t) - zlen (hits (acked a id) (elems t)))
    with (zlen (misses (acked a id) (elems t))) by lia.
Qed.

(** An acknowledgement empties the buffer up to its identity.  The packets
    for that next hop with an identity up to the acknowledged one are freed, in
    order, and their number is returned; the round-trip time goes to the
    neighbour table only if it comes from a packet that was never retransmitted
    (Karn's rule); then the timer is set for what is left.  No covered packet is
    left, none is added, and the lock is released. *)
Theorem maint_buf_del_all_id_spec s a id :
  st_ok s -> locked (maint_buf s) = false -> max_len (maint_buf s) < 2 ^ 31 ->
  let l := elems (maint_buf s) in
  let freed := foldl (λ w m, p_pkt_free (m_dp m) w) (peers s) (hits (acked a id) l) in
  exists w s',
    (if ack_rtt id (hits (acked a id) l) >? 0
     then p_set_rto a (rtt_info id (ack_rtt id (hits (acked a id) l))) freed else Ret freed) = Ret w
    /\ maint_buf_del_all_id dn myaddr now a id s = Ret (zlen (hits (acked a id) l), s')
    /\ turned s s' /\ armed s' /\ locked (maint_buf s') = false
    /\ Forall (λ m, acked a id m = false) (elems (maint_buf s'))
    /\ (_maint_buf_set_timeout dn myaddr now (turns_left dn (set_elems (maint_buf s) (misses (acked a id) l) 0))
           (MaintSt (Tbl (misses (acked a id) l) (zlen (misses (acked a id) l)) (max_len (maint_buf s)) true) None w)
         = Ret (set_buf s' (Tbl (elems (maint_buf s')) (len (maint_buf s')) (max_len (maint_buf s')) true))).
Proof using PeersOk0 max_range.
  intros Hs Hl Hb l freed. pose proof Hs as (Hwf & Hi & Hall).
  assert (Hfree : I freed).
  { subst freed. generalize (hits (acked a id) l). revert Hi. generalize (peers s). clear -PeersOk0.
    intros w Hi k. revert w Hi. induction k as [|m k IH]; intros w Hi; [done|]. simpl. by apply IH, ok_free. }
  assert (Hw : exists w, (if ack_rtt id (hits (acked a id) l) >? 0
     then p_set_rto a (rtt_info id (ack_rtt id (hits (acked a id) l))) freed else Ret freed) = Ret w /\ I w).
  { case_match; [by apply ok_set_rto|by eexists]. }
  destruct Hw as (w & Ew & Hiw). exists w.
  assert (Hsub : misses (acked a id) l `sublist_of` l) by apply sublist_filter.
  pose proof (sublist_length _ _ Hsub).
  set (s1 := MaintSt (Tbl (misses (acked a id) l) (zlen (misses (acked a id) l)) (max_len (maint_buf s)) true) None w).
  assert (Hs1 : st_ok s1).
  { split_and!; [|done|by eapply Forall_sublist]. unfold tbl_wf, zlen in *. fold l in Hwf. simpl. lia. }
  destruct (set_timeout_ok (turns_left dn (set_elems (maint_buf s) (misses (acked a id) l) 0)) s1 Hs1)
    as (s2 & E2 & [(T1 & T1' & T1'') T2 T3 T4] & Ha); [unfold turns_left; simpl; lia|].
  exists (set_buf s2 (write_unlock_bh (maint_buf s2))). split; [done|].
  assert (Hlocked : maint_buf s2 = Tbl (elems (maint_buf s2)) (len (maint_buf s2)) (max_len (maint_buf s2)) true).
  { destruct (maint_buf s2) as [es ln mx lk]. simpl in T3. by rewrite T3. }
  split_and!; try done.
  - unfold maint_buf_del_all_id, write_lock_bh. rewrite Hl. cbn [mbind outcome_bind].
    assert ((if timer_pending (ack_timer s) then del_timer (ack_timer s) else ack_timer s) = None) as ->
      by (by destruct (ack_timer s)).
    rewrite acked_del by done. cbn [mbind outcome_bind fst snd elems]. fold l freed. rewrite Ew.
    cbn [mbind outcome_bind]. fold (rtt_info id (ack_rtt id (hits (acked a id) l))).
    change (_maint_buf_set_timeout dn myaddr now _ _) with
      (_maint_buf_set_timeout dn myaddr now (turns_left dn (set_elems (maint_buf s) (misses (acked a id) l) 0)) s1).
    by rewrite E2.
  - constructor; [by split_and!|done|by cbn; rewrite Hl|].
    cbn. eapply Forall_impl; [exact T4|]. intros x (y & Hy & Hxy). exists y. split; [|done].
    by eapply elem_of_sublist.
  - cbn. eapply Forall_impl; [exact T4|]. intros x (y & Hy & (Ha1 & Ha2 & _)).
    apply list_elem_of_filter in Hy as [Hy _]. unfold acked in *. by rewrite Ha1, Ha2.
  - rewrite E2. destruct s2 as [b2 tm2 p2]. simpl in *. by rewrite Hlocked.
Qed.

(** What is not quiet deadlocks: a salvaged data packet whose new next hop is a
    known neighbour goes back into the buffer it came from, whose lock the timer
    run holds. *)
Lemma XMIT_under_lock_deadlocks f p s info q w :
  locked (maint_buf s) = true -> Z.land (dp_flags p) PKT_REQUEST_ACK <> 0 ->
  p_neigh_query (nxt_hop p) (peers s) = Ret (Some info) ->
  p_entry_pkt p (peers s) = Ret (Some q, w) ->
  u64 (timeval_diff now (i_last_ack_req info)) <= confval_to_usecs dn MaintHoldoffTime ->
  XMIT_locked f p s = Fault Deadlock.
Proof.
  intros Hl Hf Hq He Ht. unfold MaintBuf.XMIT_locked, dsr_dev_xmit.
  rewrite (proj2 (Z.eqb_neq _ _) Hf). cbn [negb]. unfold maint_buf_add. rewrite Hq. cbn [mbind outcome_bind].
  unfold maint_entry_create. rewrite He. cbn [mbind outcome_bind].
  rewrite (proj2 (Z.eqb_neq _ _) Hf). cbn [negb].
  destruct (_ >? _) eqn:E; zb; [lia|]. cbn [mbind outcome_bind]. unfold write_lock_bh. by rewrite Hl.
Qed.
End Laws.

(** ** A node that keeps a log *)

(** Calls and an address each: 1 device, 2 route error, 3 link removed, 4 request
    sent again, 5 freed, 6 round-trip time.  No neighbour is known. *)
Definition logger : Peers (list (Z * Z)) := {|
  p_neigh_query _ _ := Ret None;
  p_set_ack_req_time _ w := Ret w;
  p_id_inc _ w := Ret w;
  p_set_rto a i w := Ret ((6, i_rtt i) :: w);
  p_link_del a b w := Ret ((3, b) :: w);
  p_rerr_send p a w := Ret ((2, a) :: w);
  p_ack_req_send a i w := Ret ((4, a) :: w);
  p_ack_req_opt_add p i w := Ret (p, w);
  p_entry_pkt p w := Ret (Some p, w);
  p_salvage p w := Ret (Some p, w);
  p_device p w := Ret ((1, dp_dst p) :: w);
  p_pkt_free p w := (5, dp_dst p) :: w
|}.
#[local] Existing Instance logger.

#[local] Instance logger_ok : PeersOk (λ _, True) (λ _, True).
Proof.
  constructor; try (intros; eexists; done); try done.
  intros p w _ _. exists (Some p), w. split_and!; try done. intros p' [= <-]. by right.
Qed.

(** The default configuration: two retransmissions at most. *)
Definition sample_dn : option dsr_node := Some (dsr_node_init (DsrNode 0 0 [])).

(** Packets to 7 and 9 over hop 5, one of which was sent twice, and one to 8 over
    hop 6. *)
Definition sample_entry (hop id n dst : Z) : maint_entry :=
  Maint hop n id (Timeval 10 0) (Timeval 11 0) 1000000 true (set_addrs pkt0 1 dst hop).
Definition sample_st : maint_st (list (Z * Z)) :=
  MaintSt (Tbl [sample_entry 5 3 1 7; sample_entry 6 1 0 8; sample_entry 5 4 0 9] 3 100 false) None [].

Lemma sample_st_ok : st_ok sample_dn (λ _, True) (λ _, True) sample_st.
Proof.
  split_and!; [repeat split; vm_compute; congruence|done|].
  repeat constructor; vm_compute; tauto.
Qed.

Lemma sample_max : 0 <= get_confval sample_dn MaxMaintRexmt < 2 ^ 32.
Proof. split; vm_compute; congruence. Qed.



Lemma maint_buf_del_all_id_spec_witness :
  exists s', maint_buf_del_all_id sample_dn 2 (Timeval 10 400) 5 4 sample_st = Ret (2, s')
    /\ Forall (λ m, acked 5 4 m = false) (elems (maint_buf s')).
Proof.
  destruct (maint_buf_del_all_id_spec sample_dn 2 (Timeval 10 400) (λ _, True) (λ _, True) sample_max sample_st 5 4
    sample_st_ok eq_refl ltac:(vm_compute; congruence)) as (w & s' & _ & E & _ & _ & _ & Hf & _).
  exists s'. split; [exact E | exact Hf].
Defined.
