(* ===== verification/Core.v ===== *)
(** * The node below its buffers

    The part of the node's state that the maintenance buffer works on - link
    cache, neighbour table, gratuitous replies, the allocator - with the
    operations that send a packet, and the operations the buffer expects. *)

From S2P Require Import Prelude Timer Config Mem Tbl Srt LinkCache Neigh GratRrep Pkt Opt Send Salvage MaintBuf.

(** What the world outside sees.  The hardware address of a frame is unknown when
    the neighbour table has none: the code then reads a variable it never set. *)
Inductive event :=
| EvXmit (hw : option bytes) (frame : bytes) (** [dev_queue_xmit] *)
| EvDeliver (frame : bytes) (** [netif_rx] *)
| EvIcmp (p : dsr_pkt) (** [icmp_send] *)
| EvFree (skb : option Z). (** [dsr_pkt_free], with the [sk_buff] it frees *)

Record core := Core {
  conf : dsr_node;
  slave_dev : bool; (** there is a device to send on *)
  lc : lc_graph;
  neigh : tbl neighbor;
  grat : grat_st;
  alloc : oracle; (** the next answers of the allocator *)
  next_skb : Z; (** the name of the next [sk_buff] *)
  log : list event (** latest first *)
}.

Definition set_lc (c : core) v := Core (conf c) (slave_dev c) v (neigh c) (grat c) (alloc c) (next_skb c) (log c).
Definition set_neigh (c : core) v := Core (conf c) (slave_dev c) (lc c) v (grat c) (alloc c) (next_skb c) (log c).
Definition set_grat (c : core) v := Core (conf c) (slave_dev c) (lc c) (neigh c) v (alloc c) (next_skb c) (log c).
Definition set_alloc (c : core) v := Core (conf c) (slave_dev c) (lc c) (neigh c) (grat c) v (next_skb c) (log c).
Definition set_next_skb (c : core) v := Core (conf c) (slave_dev c) (lc c) (neigh c) (grat c) (alloc c) v (log c).
Definition emit (e : event) (c : core) := Core (conf c) (slave_dev c) (lc c) (neigh c) (grat c) (alloc c) (next_skb c) (e :: log c).

Definition dn (c : core) : option dsr_node := Some (conf c).
Definition me (c : core) : Z := ifaddr (conf c).

Section Core.
(** The kernel's checksum, what a fresh block holds, and the clock. *)
Context (ip_csum : bytes -> Z) (junk : Z -> Z) (now : timeval).

Definition draw (c : core) : bool * core :=
  let '(ok, mem) := kmalloc (alloc c) in (ok, set_alloc c mem).
Definition draw_bytes (c : core) : byte_ans * core :=
  let '(ok, c) := draw c in (if ok then Some junk else None, c).

Definition dsr_pkt_free (p : dsr_pkt) (c : core) : core :=
  emit (EvFree (match skb p with Some s => Some (skb_id s) | None => None end)) c.

(** ** Tables and routes *)

Definition neigh_query (a : Z) (c : core) : outcome (option neighbor_info) :=
  '(r, info) ← neigh_tbl_query (dn c) (neigh c) a (Some (NeighborInfo [] 0 0 0 (Timeval 0 0)));
  Ret (if r =? 0 then None else info).

(** [lc_srt_find], [dsr_rtc_find] *)
Definition rtc_find (src dst : Z) (c : core) : outcome (option dsr_srt * core) :=
  '(r, g, mem) ← lc_srt_find (lc c) (alloc c) src dst;
  Ret (r, set_alloc (set_lc c g) mem).

(** [lc_srt_add], [dsr_rtc_add] *)
Definition rtc_add (srt : dsr_srt) (c : core) : outcome core :=
  '(_, g, mem) ← lc_srt_add (lc c) (alloc c) now (Some srt) (confval_to_usecs (dn c) RouteCacheTimeout);
  Ret (set_alloc (set_lc c g) mem).

Definition link_add (src dst : Z) (c : core) : outcome core :=
  '(_, g, mem) ← lc_link_add (lc c) (alloc c) now src dst (confval_to_usecs (dn c) RouteCacheTimeout) 0 1;
  Ret (set_alloc (set_lc c g) mem).

Definition neigh_add (a : Z) (hw : bytes) (c : core) : outcome core :=
  '(_, t, mem) ← neigh_tbl_add (neigh c) (alloc c) a hw;
  Ret (set_alloc (set_neigh c t) mem).

(** ** Sending *)

Definition eth_broadcast : bytes := repeat 255 6.

(** The hardware address [dsr_hw_header_create] puts on the frame.  It tests the
    look-up for a negative result, which a miss does not give. *)
Definition dsr_hw_header_create (p : dsr_pkt) (c : core) : outcome (option bytes) :=
  if dp_dst p =? DSR_BROADCAST then Ret (Some eth_broadcast)
  else info ← neigh_query (nxt_hop p) c; Ret (match info with Some i => Some (i_hw_addr i) | None => None end).

(** The rest of [dsr_dev_xmit].  Whatever [dev_queue_xmit] returns the packet is
    freed. *)
Definition dsr_dev_send (p : dsr_pkt) (c : core) : outcome core :=
  if slave_dev c then
    let '(ans, c) := draw_bytes c in
    frame ← dsr_skb_create ip_csum ans p;
    match frame with
    | None => (* Could not create skb! *) Ret (dsr_pkt_free p c)
    | Some b =>
        hw ← dsr_hw_header_create p c;
        Ret (dsr_pkt_free p (emit (EvXmit hw b) c))
    end
  else Ret (dsr_pkt_free p c).

(** [dsr_dev_deliver].  [rr p] is the place of the record-route option the kernel
    noted for a header with options. *)
Context (rr : dsr_pkt -> option Z).

Definition fix_record_route (p : dsr_pkt) : outcome dsr_pkt :=
  match skb p with
  | None => Fault BadAccess
  | Some s =>
      ihl ← ip_ihl (skb_data s);
      match (if ihl >? 5 then rr p else None) with
      | None => Ret p
      | Some o =>
          off ← load8 (skb_data s) (o + 2);
          if off <? 32 then
            b ← store8 (skb_data s) (o + 2) (off - 4);
            len ← load8 b (o + 1);
            b ← store8 b (o + 1) (len - 4);
            Ret (set_skb p (Some (Skb (skb_id s) (h_source s) b)))
          else Ret p
      end
  end.

Definition dsr_dev_deliver (p : dsr_pkt) (c : core) : outcome core :=
  p ← fix_record_route p;
  p ← (match dh p with Dh _ => '(_, p) ← dsr_opt_remove ip_csum p; Ret p | _ => Ret p end);
  let '(ans, c) := draw_bytes c in
  frame ← dsr_skb_create ip_csum ans p;
  match frame with
  | None => Ret (dsr_pkt_free p c)
  | Some b => Ret (dsr_pkt_free p (emit (EvDeliver b) c))
  end.

(** ** Route errors and acknowledgement requests

    Their packets are fresh, without [PKT_REQUEST_ACK], so [XMIT] takes them
    straight to the device. *)

Definition dsr_rerr_send (trigg : dsr_pkt) (unr_addr : Z) (c : core) : outcome core :=
  if dp_src trigg =? me c then Ret c
  else
    match srt_opt (slots trigg) with
    | None => (* Could not find source route option *) Ret c
    | Some so =>
        dst ← rerr_dst trigg so;
        let '(ok, c) := draw c in
        if negb ok then Ret c
        else
          '(r, c) ← rtc_find (me c) dst c;
          match r with
          | None => (* the packet is not freed *) Ret c
          | Some r =>
              let '(ans, c) := draw_bytes c in
              p ← rerr_pkt ip_csum ans (get_confval (dn c) MAX_SALVAGE_COUNT) (me c) dst unr_addr trigg so r;
              match p with Some p => dsr_dev_send p c | None => Ret (dsr_pkt_free pkt0 c) end
          end
    end.

Definition dsr_ack_req_send (neigh_addr id : Z) (c : core) : outcome core :=
  let '(ok, c) := draw c in
  let '(ans, c) := draw_bytes c in
  p ← ack_req_pkt ip_csum ok ans (me c) neigh_addr id;
  match p with Some p => dsr_dev_send p c | None => Ret (dsr_pkt_free pkt0 c) end.

(** ** The operations of the maintenance buffer's interface *)

(** Room for the entry, [skb_copy] and [dsr_pkt_alloc]: three allocations and the
    options block.  A copy that fails leaves a packet without any data. *)
Definition entry_pkt (p : dsr_pkt) (c : core) : outcome (option dsr_pkt * core) :=
  let '(ok1, c) := draw c in
  if negb ok1 then Ret (None, c)
  else
    match skb p with
    | None => Fault BadAccess
    | Some s =>
        let '(ok2, c) := draw c in
        let copy := if ok2 then Some (Skb (next_skb c) (h_source s) (skb_data s)) else None in
        let c := set_next_skb c (next_skb c + 1) in
        let '(ok3, c) := draw c in
        let '(ans, c) := draw_bytes c in
        r ← dsr_pkt_alloc ok3 ans copy;
        Ret (r, c)
    end.

(** The answers salvaging may need are drawn at once. *)
Definition salvage_pkt (p : dsr_pkt) (c : core) : outcome (option dsr_pkt * core) :=
  '(alt, c) ← rtc_find (me c) (dp_dst p) c;
  let '(m1, c) := draw c in
  let '(m2, c) := draw c in
  let '(m3, c) := draw c in
  let '(m4, c) := draw c in
  let '(ans, c) := draw_bytes c in
  r ← maint_buf_salvage (SalvageMem m1 m2 m3 m4 ans) (me c) alt p;
  Ret (r, c).

Definition core_peers : Peers core := {|
  p_neigh_query a c := neigh_query a c;
  p_set_ack_req_time a c := '(_, t) ← neigh_tbl_set_ack_req_time (neigh c) now a; Ret (set_neigh c t);
  p_id_inc a c := '(_, t) ← neigh_tbl_id_inc (neigh c) a; Ret (set_neigh c t);
  p_set_rto a i c := '(_, t) ← neigh_tbl_set_rto (neigh c) a i; Ret (set_neigh c t);
  p_link_del a b c := '(_, g) ← lc_link_del (lc c) a b; Ret (set_lc c g);
  p_rerr_send p a c := dsr_rerr_send p a c;
  p_ack_req_send a i c := dsr_ack_req_send a i c;
  p_ack_req_opt_add p i c :=
    let '(ans, c) := draw_bytes c in
    '(_, p) ← dsr_ack_req_opt_add ip_csum ans p i; Ret (p, c);
  p_entry_pkt p c := entry_pkt p c;
  p_salvage p c := salvage_pkt p c;
  p_device p c := dsr_dev_send p c;
  p_pkt_free p c := dsr_pkt_free p c
|}.

End Core.
