(* ===== verification/Node.v ===== *)
(** * The node (dsr-io.c, dsr-opt.c, dsr-rreq.c, dsr-rrep.c, dsr-rerr.c, dsr-ack.c, dsr-srt.c)

    The whole state of a node, the handlers of the options it receives, the
    dispatch over the options of a packet and over the actions they ask for, and
    what it does with a packet of its own. *)

From S2P Require Import Prelude Timer Config Mem Tbl Srt LinkCache Neigh RreqTbl GratRrep Pkt Opt Send SendBuf Salvage MaintBuf Core.

Definition DSR_PKT_NONE : Z := 1.
Definition DSR_PKT_SRT_REMOVE : Z := Z.shiftl DSR_PKT_NONE 2.
Definition DSR_PKT_SEND_ICMP : Z := Z.shiftl DSR_PKT_NONE 3.
Definition DSR_PKT_SEND_RREP : Z := Z.shiftl DSR_PKT_NONE 4.
Definition DSR_PKT_SEND_BUFFERED : Z := Z.shiftl DSR_PKT_NONE 5.
Definition DSR_PKT_SEND_ACK : Z := Z.shiftl DSR_PKT_NONE 6.
Definition DSR_PKT_FORWARD : Z := Z.shiftl DSR_PKT_NONE 7.
Definition DSR_PKT_FORWARD_RREQ : Z := Z.shiftl DSR_PKT_NONE 8.
Definition DSR_PKT_DROP : Z := Z.shiftl DSR_PKT_NONE 9.
Definition DSR_PKT_ERROR : Z := Z.shiftl DSR_PKT_NONE 10.
Definition DSR_PKT_DELIVER : Z := Z.shiftl DSR_PKT_NONE 11.
Definition DSR_PKT_ACTION_LAST : Z := 12.

Definition ETH_P_IP : Z := 2048.

(** [skb->pkt_type] *)
Inductive pkt_type :=
| PACKET_HOST | PACKET_BROADCAST | PACKET_MULTICAST | PACKET_OTHERHOST
| PACKET_OUTGOING | PACKET_LOOPBACK | PACKET_FASTROUTE.

#[export] Instance pkt_type_eq_dec : EqDecision pkt_type.
Proof. solve_decision. Defined.

(** Every buffered packet waits for [dsr_dev_xmit]. *)
Record node := Node {
  n_m : maint_st core; (** the maintenance buffer and what lies below it *)
  n_rreq : rreq_tbl_st;
  rreq_seqno : Z;
  n_sbuf : send_st unit
}.

Definition n_core (n : node) : core := peers (n_m n).
Definition set_m (n : node) v := Node v (n_rreq n) (rreq_seqno n) (n_sbuf n).
Definition set_rreq (n : node) v q := Node (n_m n) v q (n_sbuf n).
Definition set_sbuf (n : node) v := Node (n_m n) (n_rreq n) (rreq_seqno n) v.
Definition set_core (n : node) c := set_m n (set_peers (n_m n) c).

(** Whether a packet was overheard. *)
Definition promisc (p : dsr_pkt) : bool := negb (Z.land (dp_flags p) PKT_PROMISC_RECV =? 0).

Section Node.
Context (ip_csum : bytes -> Z) (junk : Z -> Z) (now : timeval) (rr : dsr_pkt -> option Z).
(** Memory that [crit_time] of the gratuitous replies reads past its argument. *)
Context (stale : timeval).
#[local] Instance peers_core : Peers core := core_peers ip_csum junk now.

Local Abbreviation draw n := (let '(ok, c) := Core.draw (n_core n) in (ok, set_core n c)).
Local Abbreviation draw_bytes n := (let '(ans, c) := Core.draw_bytes junk (n_core n) in (ans, set_core n c)).

(** A step of the core as a step of the node. *)
Definition on_core (f : core -> outcome core) (n : node) : outcome node :=
  c ← f (n_core n); Ret (set_core n c).

(** ** Sending *)

Definition xmit_m (p : dsr_pkt) (m : maint_st core) : outcome (maint_st core) :=
  XMIT (dn (peers m)) (me (peers m)) now p m.

Definition XMIT (p : dsr_pkt) (n : node) : outcome node := m ← xmit_m p (n_m n); Ret (set_m n m).
Definition DELIVER (p : dsr_pkt) (n : node) : outcome node := on_core (dsr_dev_deliver ip_csum junk rr p) n.
Definition free (p : dsr_pkt) (n : node) : node := set_core n (dsr_pkt_free p (n_core n)).

(** [dsr_rreq_send]: the sequence number is taken when there was memory. *)
Definition dsr_rreq_send (target ttl : Z) (w : Z * maint_st core) : outcome (Z * maint_st core) :=
  let '(seqno, m) := w in
  let '(ok, c) := Core.draw (peers m) in
  let '(ans, c) := Core.draw_bytes junk c in
  let m := set_peers m c in
  p ← rreq_pkt ip_csum ok ans (me c) target ttl (u32 (seqno + 1));
  match p with
  | Some p => m ← xmit_m p m; Ret (u32 (seqno + 1), m)
  | None => Ret (seqno, if ok then set_peers m (dsr_pkt_free pkt0 c) else m)
  end.

(** [dsr_rreq_route_discovery]: the table asks the allocator at most twice, for
    an entry and its timer. *)
Definition route_discovery (target : Z) (n : node) : outcome node :=
  let c := n_core n in
  let m := set_peers (n_m n) (set_alloc c (drop 2 (alloc c))) in
  '(_, r, w, _) ← dsr_rreq_route_discovery dsr_rreq_send (dn c) (take 2 (alloc c)) now target (n_rreq n) (rreq_seqno n, m);
  Ret (Node w.2 r w.1 (n_sbuf n)).

Definition dsr_rrep_send (srt srt_to_me : dsr_srt) (n : node) : outcome node :=
  let '(ok, n) := draw n in
  let '(ans, n) := draw_bytes n in
  p ← rrep_pkt ip_csum ok ans (me (n_core n)) srt srt_to_me;
  match p with
  | Some p => XMIT p n
  | None => Ret (if ok then free pkt0 n else n)
  end.

Definition dsr_ack_send (dst id : Z) (n : node) : outcome node :=
  let '(ok, n) := draw n in
  let '(ans, n) := draw_bytes n in
  p ← ack_pkt ip_csum ok ans (me (n_core n)) dst id;
  match p with Some p => XMIT p n | None => Ret (free pkt0 n) end.

(** [send_buf_set_verdict(SEND_BUF_SEND, dst)] *)
Definition send_buffered (dst : Z) (n : node) : outcome node :=
  '(_, b, m) ← send_buf_set_verdict
     (λ s d m, '(r, c) ← rtc_find s d (peers m); Ret (r, set_peers m c))
     (λ p m, let '(ans, c) := Core.draw_bytes junk (peers m) in
             '(r, p) ← dsr_srt_add ip_csum ans p; Ret (r, p, set_peers m c))
     (λ _ p m, xmit_m p m)
     (λ p m, set_peers m (dsr_pkt_free p (peers m)))
     (λ p m, set_peers m (emit (EvIcmp p) (peers m)))
     (n_sbuf n) SEND_BUF_SEND dst (n_m n);
  Ret (Node m (n_rreq n) (rreq_seqno n) b).

(** ** The handlers

    Each returns the action it asks for.  An option is given by its pointer: a
    handler that finds the block gone reads freed memory. *)

Definition dsr_ack_opt_recv (p : dsr_pkt) (o : optr) (n : node) : outcome (Z * node) :=
  off ← opt_off p o;
  let b := mem (dh_mem p) in
  dst ← ack_opt_dst b off;
  src ← ack_opt_src b off;
  id ← ack_opt_id b off;
  let c := n_core n in
  if negb (dst =? me c) then Ret (DSR_PKT_ERROR, n)
  else
    (* Purge packets buffered for this next hop *)
    '(_, m) ← maint_buf_del_all_id (dn c) (me c) now src id (n_m n);
    Ret (DSR_PKT_NONE, set_m n m).

Definition dsr_ack_req_opt_recv (p : dsr_pkt) (o : optr) (n : node) : outcome (Z * dsr_pkt * node) :=
  if promisc p then Ret (DSR_PKT_ERROR, p, n)
  else
    let p := set_slots p (set_ack_req_opt (slots p) (Some o)) in
    off ← opt_off p o;
    id ← ack_opt_id (mem (dh_mem p)) off;
    let p := match srt_opt (slots p) with None => set_prv_hop p (dp_src p) | Some _ => p end in
    n ← dsr_ack_send (prv_hop p) id n;
    Ret (DSR_PKT_NONE, p, n).

(** The caller has found room for the pointer. *)
Definition dsr_rerr_opt_recv (p : dsr_pkt) (o : optr) (n : node) : outcome (Z * dsr_pkt * node) :=
  a ← zset (rerr_opt (slots p)) (num_rerr_opts (slots p)) (Some o);
  let p := set_slots p (set_rerr_opt (slots p) (num_rerr_opts (slots p) + 1) a) in
  off ← opt_off p o;
  let b := mem (dh_mem p) in
  t ← rerr_opt_type b off;
  if t =? NODE_UNREACHABLE then
    err_src ← rerr_opt_src b off;
    err_dst ← rerr_opt_dst b off;
    unr_addr ← rerr_opt_info b off;
    let c := n_core n in
    (* For now we drop all unacked packets... should probably salvage *)
    '(_, m) ← maint_buf_del_all (dn c) (me c) now err_dst (n_m n);
    let n := set_m n m in
    (* Remove broken link from cache *)
    '(_, g) ← lc_link_del (lc (n_core n)) err_src unr_addr;
    Ret (0, p, set_core n (set_lc (n_core n) g))
  else Ret (0, p, n).

(** [dsr_srt_new] with a length that may be the unsigned form of a negative
    number: that asks for four gigabytes. *)
Definition srt_of_opt (ok : bool) (src dst length : Z) (b : bytes) (off : Z) : outcome (option dsr_srt) :=
  if length <? 0 then Ret None else dsr_srt_new ok src dst length (Some (b, off)).

Definition dsr_rrep_opt_recv (p : dsr_pkt) (o : optr) (n : node) : outcome (Z * dsr_pkt * node) :=
  if promisc p then Ret (DSR_PKT_ERROR, p, n)
  else if negb (num_rrep_opts (slots p) <? MAX_RREP_OPTS) then Ret (DSR_PKT_ERROR, p, n)
  else
    a ← zset (rrep_opt (slots p)) (num_rrep_opts (slots p)) (Some o);
    let p := set_slots p (set_rrep_opt (slots p) (num_rrep_opts (slots p) + 1) a) in
    off ← opt_off p o;
    let b := mem (dh_mem p) in
    length ← opt_length b off;
    srt_dst ← rrep_opt_addr b off (DSR_RREP_ADDRS_LEN length / 4);
    let '(ok, n) := draw n in
    s ← srt_of_opt ok (dp_dst p) srt_dst (length - 1 - 4) b (off + 4);
    match s with
    | None => Ret (DSR_PKT_ERROR, p, n)
    | Some s =>
        n ← on_core (rtc_add now s) n;
        (* Remove pending RREQs *)
        '(_, r) ← rreq_tbl_route_discovery_cancel now (Srt.dst s) (n_rreq n);
        let n := set_rreq n r (rreq_seqno n) in
        if dp_dst p =? me (n_core n) then (* RREP for me! *) Ret (DSR_PKT_SEND_BUFFERED, p, n)
        else Ret (DSR_PKT_FORWARD, p, n)
    end.

(** [dp->mac.ethh]: the link-layer source of the [sk_buff]. *)
Definition mac_source (p : dsr_pkt) : outcome bytes :=
  match skb p with Some s => Ret (h_source s) | None => Fault BadAccess end.

(** *** Source routes *)

(** The route the packet has come by goes to the cache: all of it at the
    destination, else up to this node, or up to the node it was overheard from. *)
Definition learn_srt (p : dsr_pkt) (s : dsr_srt) (n : node) : outcome node :=
  if dp_dst p =? me (n_core n) then on_core (rtc_add now s) n
  else
    let '(ok, n) := draw n in
    srt_split ← dsr_srt_new_split ok (Some s) (if promisc p then prv_hop p else me (n_core n));
    match srt_split with
    | Some s' => on_core (rtc_add now s') n
    | None => Ret n
    end.

(** What a node learns from a source route: who sent it the packet, and the
    links the packet has crossed. *)
Definition srt_learn (p : dsr_pkt) (s : dsr_srt) (n : node) : outcome node :=
  hw ← mac_source p;
  n ← on_core (neigh_add (prv_hop p) hw) n;
  (* Do not add a link based on a packet that was overheard *)
  n ← (if promisc p then Ret n else on_core (link_add now (me (n_core n)) (prv_hop p)) n);
  learn_srt p s n.

(** Automatic route shortening; [false]: the handler returns [DSR_PKT_DROP]. *)
Definition grat_reply (p : dsr_pkt) (s : dsr_srt) (n : node) : outcome (bool * node) :=
  let myaddr := me (n_core n) in
  let '(ok1, n) := draw n in
  cut ← dsr_srt_shortcut ok1 (Some s) (prv_hop p) myaddr;
  match cut with
  | None => Ret (false, n)
  | Some cut =>
      let '(ok2, n) := draw n in
      let '(ok3, n) := draw n in
      srt ← (if laddrs cut / 4 =? 0 then dsr_srt_new_rev ok2 (Some cut)
             else dsr_srt_new_split_rev ok2 ok3 (Some cut) myaddr);
      match srt with
      | None => Ret (false, n)
      | Some srt =>
          let c := n_core n in
          '(_, g, mem) ← grat_rrep_tbl_add (dn c) now stale (alloc c) (grat c) (dp_src p) (prv_hop p);
          n ← dsr_rrep_send srt cut (set_core n (set_alloc (set_grat c g) mem));
          Ret (true, n)
      end
  end.

(** Whether this node should send a gratuitous reply for the packet. *)
Definition may_shorten (p : dsr_pkt) (s : dsr_srt) (next_hop_intended sleft : Z) (n : node) : outcome bool :=
  let c := n_core n in
  if get_confval (dn c) AutomaticRouteShortening =? 0 then Ret false
  else if next_hop_intended =? me c then Ret false
  else
    there ← dsr_srt_find_addr s (me c) sleft;
    if there =? 0 then Ret false
    else found ← grat_rrep_tbl_find (grat c) (dp_src p) (prv_hop p); Ret (found =? 0).

Definition dsr_srt_opt_recv (p : dsr_pkt) (o : optr) (n : node) : outcome (Z * dsr_pkt * node) :=
  let p := set_slots p (set_srt_opt (slots p) (Some o)) in
  off ← opt_off p o;
  let b := mem (dh_mem p) in
  length ← opt_length b off;
  let '(ok, n) := draw n in
  (* the length still counts the two bytes in front of the addresses *)
  s ← dsr_srt_new ok (dp_src p) (dp_dst p) length (Some (b, off + 4));
  let p := Pkt.set_srt p s in
  match s with
  | None => Ret (DSR_PKT_ERROR, p, n)
  | Some s =>
      salv ← srt_opt_salv b off;
      let p := set_salvage p salv in
      sleft ← srt_opt_sleft b off;
      next_hop_intended ← dsr_srt_next_hop s sleft;
      prv ← dsr_srt_prev_hop s (sleft - 1);
      nxt ← dsr_srt_next_hop s (sleft - 1);
      let p := set_nxt_hop (set_prv_hop p prv) nxt in
      n ← srt_learn p s n;
      shorten ← may_shorten p s next_hop_intended sleft n;
      '(go, n) ← (if (shorten : bool) then grat_reply p s n else Ret (true, n));
      if negb (go : bool) then Ret (DSR_PKT_DROP, p, n)
      else if promisc p then Ret (DSR_PKT_DROP, p, n)
      else if sleft =? 0 then Ret (DSR_PKT_SRT_REMOVE, p, n)
      else if sleft >? srt_n s then (* Send ICMP parameter error *) Ret (DSR_PKT_SEND_ICMP, p, n)
      else
        m ← set_srt_opt_sleft b off (sleft - 1);
        Ret (DSR_PKT_FORWARD, set_mem p m, n)
  end.

(** *** Route requests *)

(** The request goes on with this node's address added.  The room may be in a new
    block; the option is then still looked for in the old one. *)
Definition rreq_forward (p : dsr_pkt) (o : optr) (naddrs : Z) (n : node) : outcome (Z * dsr_pkt * node) :=
  let '(ans, n) := draw_bytes n in
  '(_, p) ← dsr_pkt_alloc_opts_expand ans p 4;
  d ← dh_buf p;
  p_len ← load16 (mem d) 2;
  off ← opt_off p o;
  length ← opt_length (mem d) off;
  m ← (if ntohs p_len + 4 =? off + length + 2 then Ret (mem d)
       else x ← memread (mem d) (off + length + 2) 4; memwrite (mem d) (off + length + 2 + 4) x);
  m ← store32 m (off + 8 + 4 * naddrs) (me (n_core n));
  length ← opt_length m off;
  m ← store8 m (off + 1) (length + 4);
  p_len ← load16 m 2;
  m ← store16 m 2 (htons (ntohs p_len + 4));
  let p := set_mem p m in
  h ← nh_bytes p;
  tot ← ip_tot_len h;
  ttl ← ip_ttl h;
  p ← dsr_build_ip ip_csum p (dp_src p) (dp_dst p) IP_HDR_LEN (ntohs tot + 4) IPPROTO_DSR ttl;
  Ret (DSR_PKT_FORWARD_RREQ, p, n).

(** A reply from the cache; [None]: the request is to be forwarded. *)
Definition rreq_cached (p : dsr_pkt) (s srt_rev : dsr_srt) (trg : Z) (n : node)
  : outcome (option dsr_pkt * node) :=
  '(srt_rc, c) ← rtc_find (me (n_core n)) trg (n_core n);
  let n := set_core n c in
  match srt_rc with
  | None => Ret (None, n)
  | Some rc =>
      let '(ok1, n) := draw n in
      cat ← dsr_srt_concatenate ok1 (Some s) (Some rc);
      match cat with
      | None => (* Could not concatenate *) Ret (None, n)
      | Some cat =>
          let '(ok2, n) := draw n in
          dup ← dsr_srt_check_duplicate ok2 cat;
          if dup >? 0 then (* Duplicate address in source route!!! *) Ret (None, n)
          else
            p ← set_daddr p trg;
            n ← dsr_rrep_send srt_rev cat n;
            Ret (Some p, n)
      end
  end.

(** What happens to a request that is new. *)
Definition rreq_answer (p : dsr_pkt) (o : optr) (off : Z) (s srt_rev : dsr_srt) (n : node)
  : outcome (Z * dsr_pkt * node) :=
  let myaddr := me (n_core n) in
  target ← (d ← dh_buf p; rreq_opt_target (mem d) off);
  if target =? myaddr then
    (* RREQ OPT for me - Send RREP *)
    p ← set_daddr p target;
    n ← dsr_rrep_send srt_rev s n;
    Ret (DSR_PKT_NONE, p, n)
  else
    length ← (d ← dh_buf p; opt_length (mem d) off);
    let naddrs := DSR_RREQ_ADDRS_LEN length / 4 in
    if Srt.src s =? myaddr then Ret (DSR_PKT_DROP, p, n)
    else if existsb (λ a, a =? myaddr) (take (Z.to_nat naddrs) (addrs s)) then Ret (DSR_PKT_DROP, p, n)
    else
      '(r, n) ← rreq_cached p s srt_rev target n;
      match r with
      | Some p => Ret (DSR_PKT_NONE, p, n)
      | None => rreq_forward p o naddrs n
      end.

Definition dsr_rreq_opt_recv (p : dsr_pkt) (o : optr) (n : node) : outcome (Z * dsr_pkt * node) :=
  if promisc p then Ret (DSR_PKT_DROP, p, n)
  else
    let k := num_rreq_opts (slots p) + 1 in
    let p := set_slots p (set_rreq_opt (slots p) k (rreq_opt (slots p))) in
    if k >? 1 then (* More than one RREQ opt!!! - Ignoring *) Ret (DSR_PKT_ERROR, p, n)
    else
      let p := set_slots p (set_rreq_opt (slots p) k (Some o)) in
      off ← opt_off p o;
      let b := mem (dh_mem p) in
      trg ← rreq_opt_target b off;
      id ← rreq_opt_id b off;
      dup ← dsr_rreq_duplicate (dp_src p) trg id (n_rreq n);
      if negb (dup =? 0) then Ret (DSR_PKT_DROP, p, n)
      else
        let c := n_core n in
        '(_, r, al) ← rreq_tbl_add_id (dn c) (alloc c) now (dp_src p) trg id (n_rreq n);
        let n := set_rreq (set_core n (set_alloc c al)) r (rreq_seqno n) in
        length ← opt_length b off;
        let '(ok1, n) := draw n in
        s ← srt_of_opt ok1 (dp_src p) (me c) (DSR_RREQ_ADDRS_LEN length) b (off + 8);
        let p := Pkt.set_srt p s in
        match s with
        | None => Ret (DSR_PKT_ERROR, p, n)
        | Some s =>
            (* Add reversed source route *)
            let '(ok2, n) := draw n in
            rev ← dsr_srt_new_rev ok2 (Some s);
            match rev with
            | None => Ret (DSR_PKT_ERROR, p, n)
            | Some rev =>
                n ← on_core (rtc_add now rev) n;
                (* Set previous hop *)
                prv ← (if laddrs rev >? 0 then srt_addr rev 0 else Ret (Srt.dst rev));
                let p := set_prv_hop p prv in
                hw ← mac_source p;
                n ← on_core (neigh_add prv hw) n;
                (* Send buffered packets *)
                n ← send_buffered (Srt.dst rev) n;
                rreq_answer p o off s rev n
            end
        end.

(** ** The options of a packet *)

(** One turn of the [switch] on the option's type. *)
Definition recv_case (p : dsr_pkt) (t : Z) (o : optr) (n : node) : outcome (Z * dsr_pkt * node) :=
  let skip := Ret (0, p, n) in
  if t =? DSR_OPT_RREQ then
    if promisc p then skip else dsr_rreq_opt_recv p o n
  else if t =? DSR_OPT_RREP then
    (* We should probably allow promisuously receiving RREPs *)
    if promisc p then skip else dsr_rrep_opt_recv p o n
  else if t =? DSR_OPT_RERR then
    if promisc p then skip
    else if num_rerr_opts (slots p) <? MAX_RERR_OPTS then dsr_rerr_opt_recv p o n else skip
  else if t =? DSR_OPT_ACK then
    if promisc p then skip
    else if num_ack_opts (slots p) <? MAX_ACK_OPTS then
      a ← zset (ack_opt (slots p)) (num_ack_opts (slots p)) (Some o);
      let p := set_slots p (set_ack_opt (slots p) (num_ack_opts (slots p) + 1) a) in
      '(a, n) ← dsr_ack_opt_recv p o n; Ret (a, p, n)
    else skip
  else if t =? DSR_OPT_SRT then dsr_srt_opt_recv p o n
  else if t =? DSR_OPT_ACK_REQ then dsr_ack_req_opt_recv p o n
  else (* nothing to do, or unknown *) skip.

(** [bk] is the block the options are read from. *)
Fixpoint recv_loop (fuel : nat) (bk dsr_len l dopt action : Z) (p : dsr_pkt) (n : node)
  : outcome (Z * dsr_pkt * node) :=
  match fuel with
  | O => Fault OutOfFuel
  | S fuel' =>
      if (l <? dsr_len) && (dsr_len - l >? 2) then
        _ ← opt_off p (Optr bk dopt);
        t ← load8 (mem (dh_mem p)) dopt;
        if t =? DSR_OPT_PAD1 then recv_loop fuel' bk dsr_len (l + 1) (dopt + 2) action p n
        else
          '(a, p, n) ← recv_case p t (Optr bk dopt) n;
          _ ← opt_off p (Optr bk dopt);
          len ← load8 (mem (dh_mem p)) (dopt + 1);
          recv_loop fuel' bk dsr_len (l + len + 2) (dopt + len + 2) (Z.lor action a) p n
      else Ret (action, p, n)
  end.

Definition dsr_opt_recv (p : dsr_pkt) (n : node) : outcome (Z * dsr_pkt * node) :=
  let action := if (dp_dst p =? me (n_core n)) && negb (payload_len p =? 0) then DSR_PKT_DELIVER else 0 in
  dsr_len ← dsr_pkt_opts_len p;
  recv_loop (S (Z.to_nat dsr_len)) (blk (dh_mem p)) dsr_len DSR_OPT_HDR_LEN DSR_OPT_HDR_LEN action p n.

(** ** A packet from the network *)

(** [send_buf_set_verdict] for the target of each route reply of the packet. *)
Fixpoint send_replied (p : dsr_pkt) (turns : nat) (i : Z) (n : node) : outcome node :=
  match turns with
  | O => Ret n
  | S turns' =>
      off ← slot_off p (rrep_opt (slots p)) i;
      let b := mem (dh_mem p) in
      length ← opt_length b off;
      dst ← rrep_opt_addr b off (DSR_RREP_ADDRS_LEN length / 4);
      n ← send_buffered dst n;
      send_replied p turns' (i + 1) n
  end.

(** One turn of the loop over the actions: whether it goes on. *)
Definition act (p : dsr_pkt) (a : Z) (n : node) : outcome (bool * node) :=
  if (a =? DSR_PKT_DROP) || (a =? DSR_PKT_ERROR) then Ret (false, free p n)
  else if a =? DSR_PKT_FORWARD then
    h ← nh_bytes p;
    ttl ← ip_ttl h;
    if ttl <? 1 then (* ttl=0, dropping! *) Ret (false, free p n)
    else n ← XMIT p n; Ret (false, n)
  else if a =? DSR_PKT_FORWARD_RREQ then n ← XMIT p n; Ret (false, n)
  else if a =? DSR_PKT_SEND_BUFFERED then
    n ← send_replied p (Z.to_nat (num_rrep_opts (slots p))) 0 n; Ret (true, n)
  else if a =? DSR_PKT_DELIVER then n ← DELIVER p n; Ret (false, n)
  else (* nothing to do here, or unknown *) Ret (true, n).

(** The actions from bit [i] on; at the end the packet is freed. *)
Fixpoint act_loop (turns : nat) (i : Z) (action : Z) (p : dsr_pkt) (n : node) : outcome node :=
  match turns with
  | O => Ret (free p n)
  | S turns' =>
      '(more, n) ← act p (Z.land action (Z.shiftl DSR_PKT_NONE i)) n;
      if (more : bool) then act_loop turns' (i + 1) action p n else Ret n
  end.

Definition dsr_recv (p : dsr_pkt) (n : node) : outcome node :=
  (* Ignore packets that are originated by this node *)
  if promisc p && (dp_src p =? me (n_core n)) then Ret (free p n)
  else
    '(action, p, n) ← dsr_opt_recv p n;
    if promisc p then Ret (free p n)
    else act_loop (Z.to_nat DSR_PKT_ACTION_LAST) 0 action p n.

(** [skb_len] and [t]: the length and the type the device gave. *)
Definition dsr_ip_recv (s : sk_buff) (skb_len : Z) (t : pkt_type) (n : node) : outcome node :=
  let '(ok, n) := draw n in
  let '(ans, n) := draw_bytes n in
  p ← dsr_pkt_alloc ok ans (Some s);
  match p with
  | None => Ret (set_core n (emit (EvFree (Some (skb_id s))) (n_core n)))
  | Some p =>
      let p := if decide (t = PACKET_OTHERHOST) then set_flags p (Z.lor (dp_flags p) PKT_PROMISC_RECV) else p in
      ihl ← ip_ihl (skb_data s);
      tot ← ip_tot_len (skb_data s);
      if skb_len + Z.shiftl ihl 2 <? ntohs tot then (* Data to short! *) Ret (free p n)
      else dsr_recv p n
  end.

(** The handler of the device's packets: frames for other hosts end here. *)
Definition dsr_dev_llrecv (s : sk_buff) (skb_len : Z) (t : pkt_type) (n : node) : outcome node :=
  match t with
  | PACKET_HOST | PACKET_BROADCAST | PACKET_MULTICAST => dsr_ip_recv s skb_len t n
  | PACKET_OTHERHOST | PACKET_OUTGOING | PACKET_LOOPBACK | PACKET_FASTROUTE =>
      Ret (set_core n (emit (EvFree (Some (skb_id s))) (n_core n)))
  end.

(** ** A packet of this node *)

Definition dsr_start_xmit (p : dsr_pkt) (n : node) : outcome node :=
  '(r, c) ← rtc_find (dp_src p) (dp_dst p) (n_core n);
  let n := set_core n c in
  let p := Pkt.set_srt p r in
  match r with
  | Some _ =>
      let '(ans, n) := draw_bytes n in
      '(res, p) ← dsr_srt_add ip_csum ans p;
      if res <? 0 then (* Could not add source route *) Ret (free p n)
      else (* Send packet *) XMIT p n
  | None =>
      let c := n_core n in
      '(res, b, al, w) ← send_buf_enqueue_packet (λ p c, dsr_pkt_free p c) (dn c) now now (alloc c) (n_sbuf n) p () c;
      let n := set_core (set_sbuf n b) (set_alloc w al) in
      if res <? 0 then (* Queueing failed! *) Ret (free p n)
      else route_discovery (dp_dst p) n
  end.

(** A packet the host gives to the DSR device; [h_proto] is the type of its
    Ethernet header. *)
Definition dsr_dev_start_xmit (s : sk_buff) (h_proto : Z) (n : node) : outcome node :=
  let drop_skb n := set_core n (emit (EvFree (Some (skb_id s))) (n_core n)) in
  if negb (slave_dev (n_core n)) then Ret (drop_skb n)
  else if ntohs h_proto =? ETH_P_IP then
    let '(ok, n) := draw n in
    let '(ans, n) := draw_bytes n in
    p ← dsr_pkt_alloc ok ans (Some s);
    match p with
    | None => Ret (drop_skb n)
    | Some p => dsr_start_xmit p n
    end
  else (* Unknown packet type, dropping... *) Ret (drop_skb n).

(** ** Timers and lifecycle

    A timer that expires is no longer pending when its handler runs. *)

Definition maint_timer_fires (n : node) : outcome node :=
  let m := n_m n in
  m ← maint_buf_timeout (dn (peers m)) (me (peers m)) now (set_ack_timer m (del_timer (ack_timer m)));
  Ret (set_m n m).

Definition send_timer_fires (n : node) : outcome node :=
  let b := n_sbuf n in
  '(b, c) ← send_buf_timeout (λ p c, dsr_pkt_free p c) (dn (n_core n)) now
     (SendSt (send_buf b) (del_timer (send_buf_timer b))) (n_core n);
  Ret (set_core (set_sbuf n b) c).

(** The timer of the route request table's entry at [e]. *)
Definition rreq_timer_fires (e : ptr) (n : node) : outcome node :=
  '(r, w) ← expire dsr_rreq_send (dn (n_core n)) now e (n_rreq n) (rreq_seqno n, n_m n);
  Ret (Node w.2 r w.1 (n_sbuf n)).

Definition grat_timer_fires (n : node) : outcome node :=
  let g := grat (n_core n) in
  g ← grat_rrep_tbl_timeout (GratSt (gtbl g) (del_timer (gtimer g)));
  Ret (set_core n (set_grat (n_core n) g)).

Definition node_init (c : dsr_node) (dev : bool) (seqno : Z) : node :=
  Node (maint_buf_init (Core c dev lc_init neigh_tbl_init grat_rrep_tbl_init [] 0 []))
       rreq_tbl_init seqno send_buf_init.

End Node.
