(* ===== verification/Module.v ===== *)
(** * The module's interface (dsr-module.c)

    The configuration commands written to /proc/net/dsr_config, the list of
    hardware addresses to ignore, and the hooks that hand packets to the node.
    Characters are their codes, a string ends at its NUL. *)

From Stdlib Require Import String Ascii.
From S2P Require Import Prelude Timer Config Mem Text Tbl LinkCache RreqTbl Pkt Opt SendBuf MaintBuf Core Node.


(** ** Strings *)

(** [strlen] of the string at offset 0 reads until a NUL. *)
Fixpoint strlen (b : list Z) : outcome Z :=
  match b with
  | [] => Fault BadAccess
  | c :: b' => if c =? 0 then Ret 0 else n ← strlen b'; Ret (n + 1)
  end.

(** [strncmp(b, s, strlen(s)) == 0]; [s] has no NUL. *)
Fixpoint prefix_of (s b : list Z) : bool :=
  match s, b with
  | [], _ => true
  | _ :: _, [] => false
  | x :: s', y :: b' => (x =? y) && prefix_of s' b'
  end.

(** What is behind the first [c] of the string, [strstr(b, "c") + 1]. *)
Fixpoint strchr_next (c : Z) (b : list Z) : option (list Z) :=
  match b with
  | [] => None
  | x :: b' => if x =? 0 then None else if x =? c then Some b' else strchr_next c b'
  end.

(** ** Configuration commands *)

Definition CMD_MAX_LEN : Z := 256.

Definition set_conf (n : node) (cv : confval) (v : Z) : node :=
  let c := n_core n in
  match set_confval (dn c) cv v with
  | (_, Some d) => set_core n (Core d (slave_dev c) (lc c) (neigh c) (grat c) (alloc c) (next_skb c) (Core.log c))
  | _ => n
  end.

Section Module.
(** [simple_strtol(from, &to, 10)], and [dev_set_promiscuity] on the device. *)
Context (strtol : list Z -> Z) (set_promiscuity : bool -> node -> node).

(** What a new value means for the node's tables. *)
Definition conf_changed (cv : confval) (val_prev val : Z) (n : node) : node :=
  let n := match cv with
           | PromiscOperation => if val_prev =? val then n else set_promiscuity (negb (val =? 0)) n
           | _ => n
           end in
  match cv with
  | RequestTableSize => set_rreq n (rreq_tbl_set_max_len (n_rreq n) val) (rreq_seqno n)
  | RexmtBufferSize => set_m n (maint_buf_set_max_len (n_m n) val)
  | SendBufferSize => set_sbuf n (send_buf_set_max_len (n_sbuf n) val)
  | _ => n
  end.

(** The loop over the configuration values. *)
Fixpoint config_write_loop (cvs : list confval) (cmd : list Z) (n : node) : outcome node :=
  match cvs with
  | [] => Ret n
  | i :: cvs' =>
      let name := chars (confval_name i) in
      if prefix_of name cmd then
        if decide (confval_ty i = COMMAND) then
          (if decide (i = FlushLinkCache) then g ← lc_flush (lc (n_core n)); Ret (set_core n (Core.set_lc (n_core n) g))
           else Ret n)
        else
          l ← strlen cmd;
          if u64 (l - 2) <=? zlen name then config_write_loop cvs' cmd n
          else
            from ← deref (strchr_next 61 cmd);
            let val_prev := get_confval (dn (n_core n)) i in
            let val := u32 (strtol from) in
            let val := if decide (confval_ty i = BINARY) then (if val =? 0 then 0 else 1) else val in
            config_write_loop cvs' cmd (conf_changed i val_prev val (set_conf n i val))
      else config_write_loop cvs' cmd n
  end.

(** [buffer] is the user's, [fault] whether it cannot be read. *)
Definition dsr_config_proc_write (buffer : list Z) (fault : bool) (n : node) : outcome (Z * node) :=
  let count := zlen buffer in
  if count >? CMD_MAX_LEN then Ret (- EINVAL, n)
  else if fault then Ret (- EFAULT, n)
  else
    n ← config_write_loop all_confvals (buffer ++ repeat 0 (Z.to_nat (CMD_MAX_LEN - count))) n;
    Ret (count, n).
End Module.

(** ** Hardware addresses to ignore *)

Definition MAX_MACKILL : nat := 10.
Definition ETH_ALEN : nat := 6.

Definition isxdigit (c : Z) : bool :=
  ((48 <=? c) && (c <=? 57)) || ((65 <=? c) && (c <=? 70)) || ((97 <=? c) && (c <=? 102)).
Definition xdigit_val (c : Z) : Z := if c <=? 57 then c - 48 else Z.land c 7 + 9.

(** [strsep(&cp, ",")] on the string at [cp]: the token's place, and where the
    next one starts; the comma is overwritten with a NUL. *)
Fixpoint strsep_at (fuel : nat) (b : bytes) (cp : Z) : outcome (bytes * option Z) :=
  match fuel with
  | O => Fault OutOfFuel
  | S fuel' =>
      c ← load8 b cp;
      if c =? 0 then Ret (b, None)
      else if c =? 44 then b ← store8 b cp 0; Ret (b, Some (cp + 1))
      else strsep_at fuel' b (cp + 1)
  end.

Fixpoint split_mackill (turns : nat) (b : bytes) (cp : option Z) : outcome (bytes * list Z) :=
  match turns, cp with
  | S turns', Some p =>
      '(b, cp) ← strsep_at (length b) b p;
      '(b, pa) ← split_mackill turns' b cp;
      Ret (b, p :: pa)
  | _, _ => Ret (b, [])
  end.

(** [for (; isxdigit( *cp); cp++)]: one byte of an address. *)
Fixpoint hex_loop (fuel : nat) (b : bytes) (cp v : Z) : outcome (Z * Z) :=
  match fuel with
  | O => Fault OutOfFuel
  | S fuel' =>
      c ← load8 b cp;
      if isxdigit c then hex_loop fuel' b (cp + 1) (u8 (Z.lor (Z.shiftl v 4) (xdigit_val c))) else Ret (v, cp)
  end.

(** The bytes of the address at [cp], and whether all of them were there. *)
Fixpoint mac_loop (turns : nat) (b : bytes) (cp : Z) : outcome (bool * list Z) :=
  match turns with
  | O => Ret (true, [])
  | S turns' =>
      '(v, cp) ← hex_loop (S (length b)) b cp 0;
      c ← load8 b cp;
      if negb (c =? 0) && negb (c =? 58) then Ret (false, v :: repeat 0 turns')
      else '(ok, vs) ← mac_loop turns' b (cp + 1); Ret (ok, v :: vs)
  end.

(** The addresses of the list in order; it stops at the first that is not one. *)
Fixpoint parse_macs (b : bytes) (pa : list Z) : outcome (bool * list (list Z)) :=
  match pa with
  | [] => Ret (true, [])
  | p :: pa' =>
      '(ok, m) ← mac_loop ETH_ALEN b p;
      if (ok : bool) then '(ok, ms) ← parse_macs b pa'; Ret (ok, m :: ms)
      else Ret (false, m :: repeat (repeat 0 ETH_ALEN) (length pa'))
  end.

(** [mackill_list] up to [mackill_len]; an error takes one off the length. *)
Definition parse_mackill (mackill : option bytes) : outcome (Z * list (list Z)) :=
  '(b, pa) ← split_mackill MAX_MACKILL (default [] mackill) (match mackill with Some _ => Some 0 | None => None end);
  '(ok, ms) ← parse_macs b pa;
  Ret (if (ok : bool) then (0, ms) else (-1, removelast ms)).

Definition do_mackill (mackill_list : list (list Z)) (mac : list Z) : bool :=
  existsb (λ m, bool_decide (m = take ETH_ALEN mac)) mackill_list.

(** ** The hooks of the network stack *)

Inductive nf_verdict := NF_DROP | NF_ACCEPT | NF_STOLEN.

(** [from_slave]: the packet came in on the slave device. *)
Definition dsr_pre_routing_recv (mackill_list : list (list Z)) (from_slave : bool) (protocol : Z) (s : sk_buff) : nf_verdict :=
  if from_slave && (protocol =? htons ETH_P_IP) then
    if do_mackill mackill_list (h_source s) then NF_DROP else NF_ACCEPT
  else NF_ACCEPT.

(** The node gets the packet as from its network header on; its length is then
    that of what is behind the header. *)
Definition dsr_ip_forward_recv (recv : sk_buff -> Z -> pkt_type -> node -> outcome node)
  (from_slave : bool) (protocol : Z) (t : pkt_type) (s : sk_buff) (n : node) : outcome (nf_verdict * node) :=
  if from_slave && (protocol =? htons ETH_P_IP) then
    prot ← ip_protocol (skb_data s);
    daddr ← ip_daddr (skb_data s);
    if (prot =? IPPROTO_DSR) && negb (daddr =? me (n_core n)) && negb (daddr =? DSR_BROADCAST) then
      ihl ← ip_ihl (skb_data s);
      n ← recv s (zlen (skb_data s) - Z.shiftl ihl 2) t n;
      Ret (NF_STOLEN, n)
    else Ret (NF_ACCEPT, n)
  else Ret (NF_ACCEPT, n).

(** ** Configuration commands *)

Lemma prefix_of_name cv cv' rest :
  prefix_of (chars (confval_name cv')) (chars (confval_name cv) ++ 61 :: rest) = bool_decide (cv = cv').
Proof. destruct cv, cv'; reflexivity. Qed.

Lemma strlen_app a b : Forall (λ c, c <> 0) a -> strlen (a ++ 0 :: b) = Ret (zlen a).
Proof.
  induction 1 as [|x a Hx _ IH]; [done|]. cbn [app strlen]. rewrite (proj2 (Z.eqb_neq _ _) Hx), IH.
  cbn [mbind outcome_bind]. by rewrite zlen_cons.
Qed.

Lemma strchr_next_app a b : Forall (λ c, c <> 0 /\ c <> 61) a -> strchr_next 61 (a ++ 61 :: b) = Some b.
Proof.
  induction 1 as [|x a [H0 H1] _ IH]; [done|]. cbn [app strchr_next].
  by rewrite (proj2 (Z.eqb_neq _ _) H0), (proj2 (Z.eqb_neq _ _) H1).
Qed.

Lemma name_plain cv : Forall (λ c, c <> 0 /\ c <> 61) (chars (confval_name cv)).
Proof. apply (bool_decide_unpack _). by destruct cv. Qed.

Lemma list_elem_of_split_nodup cv :
  exists cvs1 cvs2, all_confvals = cvs1 ++ cv :: cvs2 /\ (cv ∉ cvs1) /\ (cv ∉ cvs2).
Proof.
  pose proof (confval_ix_lookup cv) as L. exists (take (confval_ix cv) all_confvals), (drop (S (confval_ix cv)) all_confvals).
  split; [by rewrite take_drop_middle|]. split; apply (bool_decide_unpack _); by destruct cv.
Qed.

Section Write.
Context (strtol : list Z -> Z) (set_promiscuity : bool -> node -> node).

(** A command names one value: the loop passes over all others. *)
Lemma config_loop_skip cvs cv rest n :
  (cv ∉ cvs) -> config_write_loop strtol set_promiscuity cvs (chars (confval_name cv) ++ 61 :: rest) n = Ret n.
Proof.
  induction cvs as [|i cvs IH]; [done|]. intros Hn. cbn [config_write_loop]. rewrite prefix_of_name.
  rewrite bool_decide_false by set_solver. apply IH. set_solver.
Qed.

Lemma config_loop_hit cv ds pad n :
  confval_ty cv <> COMMAND -> Forall (λ c, c <> 0) ds -> 2 <= zlen ds < 2 ^ 32 ->
  let val := u32 (strtol (ds ++ 0 :: pad)) in
  let val := if decide (confval_ty cv = BINARY) then (if val =? 0 then 0 else 1) else val in
  forall cvs1 cvs2, (cv ∉ cvs1) -> (cv ∉ cvs2) ->
  config_write_loop strtol set_promiscuity (cvs1 ++ cv :: cvs2) (chars (confval_name cv) ++ 61 :: ds ++ 0 :: pad) n
  = Ret (conf_changed set_promiscuity cv (get_confval (dn (n_core n)) cv) val (set_conf n cv val)).
Proof.
  intros Hty Hnz Hw val0 val cvs1 cvs2 H1 H2. induction cvs1 as [|i cvs1 IH].
  - cbn [app config_write_loop]. rewrite prefix_of_name, bool_decide_true by done. rewrite decide_False by done.
    rewrite app_comm_cons, app_assoc, strlen_app.
    2: { apply Forall_app. split; [|by constructor]. eapply Forall_impl; [apply name_plain|]. by intros x []. }
    cbn [mbind outcome_bind]. rewrite zlen_app, zlen_cons.
    pose proof (zlen_nonneg (chars (confval_name cv))).
    assert (zlen (chars (confval_name cv)) < 2 ^ 8) by (by destruct cv).
    rewrite u64_small by lia. rewrite (proj2 (Z.leb_gt _ _)) by lia.
    rewrite <- app_assoc. cbn [app]. rewrite strchr_next_app by apply name_plain. cbn [mbind outcome_bind deref of_option].
    by apply config_loop_skip.
  - cbn [app config_write_loop]. rewrite prefix_of_name, bool_decide_false by set_solver. apply IH. set_solver.
Qed.

End Write.

(** [strtol] on plain digits. *)
Fixpoint digits_val (acc : Z) (b : list Z) : Z :=
  match b with c :: b' => if (48 <=? c) && (c <=? 57) then digits_val (acc * 10 + (c - 48)) b' else acc | [] => acc end.


(** ** The list of hardware addresses *)

(** A byte as two digits, an address as its bytes between colons. *)
Definition xdigit (v : Z) : Z := if v <? 10 then 48 + v else 87 + v.
Definition show_byte (v : Z) : list Z := [xdigit (v / 16); xdigit (v mod 16)].
Fixpoint show_mac (m : list Z) : list Z :=
  match m with
  | [] => []
  | v :: m' => match m' with [] => show_byte v | _ => show_byte v ++ 58 :: show_mac m' end
  end.
(** The list of addresses, each ended by [sep] but the last, which a NUL ends. *)
Fixpoint show_macs (sep : Z) (ms : list (list Z)) : list Z :=
  match ms with
  | [] => []
  | m :: ms' => show_mac m ++ match ms' with [] => [0] | _ => sep :: show_macs sep ms' end
  end.

Lemma xdigit_ok v : 0 <= v < 16 -> isxdigit (xdigit v) = true /\ xdigit_val (xdigit v) = v /\ xdigit v <> 0 /\ xdigit v <> 44.
Proof.
  intros Hv. assert (Hin : v ∈ map Z.of_nat (seq 0 16)).
  { apply list_elem_of_In, in_map_iff. exists (Z.to_nat v). split; [lia|]. apply in_seq. lia. }
  simpl in Hin. repeat (apply elem_of_cons in Hin as [->|Hin]; [by split_and!; vm_compute|]). by apply not_elem_of_nil in Hin.
Qed.

Lemma byte_digits v : is_byte v -> u8 (Z.lor (Z.shiftl (v / 16) 4) (v mod 16)) = v.
Proof.
  intros Hv. unfold is_byte in Hv. pose proof (Z.div_mod v 16 ltac:(lia)). pose proof (Z.mod_pos_bound v 16 ltac:(lia)).
  rewrite Z.lor_comm, lor_shiftl by (simpl; lia). rewrite u8_small; lia.
Qed.

Lemma load8_at pre x post cp : cp = zlen pre -> load8 (pre ++ x :: post) cp = Ret x.
Proof. intros ->. apply load8_here. Qed.

Lemma store8_here pre x post v : store8 (pre ++ x :: post) (zlen pre) v = Ret (pre ++ u8 v :: post).
Proof.
  apply memwrite_Ret. pose proof (zlen_nonneg pre). pose proof (zlen_nonneg post).
  rewrite zlen_app, !zlen_cons. split_and!; [lia|change (zlen []) with 0; lia|].
  unfold zlen. rewrite Nat2Z.id, take_app_length, drop_app_ge by lia.
  by replace (length pre + length [u8 v] - length pre)%nat with 1%nat by (simpl; lia).
Qed.

(** One byte of an address, and the character behind it. *)
Lemma hex_byte pre v t post fuel :
  is_byte v -> isxdigit t = false -> (3 <= fuel)%nat ->
  hex_loop fuel (pre ++ show_byte v ++ t :: post) (zlen pre) 0 = Ret (v, zlen pre + 2).
Proof.
  intros Hv Ht Hf. destruct fuel as [|[|[|fuel]]]; [lia..|]. unfold show_byte.
  pose proof (Z.mod_pos_bound v 16 ltac:(lia)).
  assert (0 <= v / 16 < 16) by (unfold is_byte in Hv; split; [apply Z.div_pos|apply Z.div_lt_upper_bound]; lia).
  destruct (xdigit_ok (v / 16)) as (D1 & D2 & _), (xdigit_ok (v mod 16)) as (D3 & D4 & _); [done..|].
  cbn [app hex_loop]. rewrite load8_here. cbn [mbind outcome_bind]. rewrite D1, D2.
  change (Z.lor (Z.shiftl 0 4) (v / 16)) with (v / 16). rewrite (u8_small (v / 16)) by lia.
  rewrite (cons_middle (xdigit (v / 16)) pre), app_assoc.
  rewrite (load8_at _ _ _ (zlen pre + 1)) by (rewrite zlen_app; reflexivity). cbn [mbind outcome_bind]. rewrite D3, D4, byte_digits by done.
  rewrite (cons_middle (xdigit (v mod 16))), app_assoc.
  rewrite load8_at by (rewrite !zlen_app; change (zlen [xdigit (v / 16)]) with 1; change (zlen [xdigit (v mod 16)]) with 1; lia).
  cbn [mbind outcome_bind]. rewrite Ht. do 2 f_equal. lia.
Qed.

Lemma mac_step pre v t post turns :
  is_byte v -> t = 0 \/ t = 58 ->
  mac_loop (S turns) (pre ++ show_byte v ++ t :: post) (zlen pre)
  = '(ok, vs) ← mac_loop turns (pre ++ show_byte v ++ t :: post) (zlen pre + 3); Ret (ok, v :: vs).
Proof.
  intros Hv Ht. cbn [mac_loop].
  rewrite hex_byte; [|done|by destruct Ht as [-> | ->]|rewrite !length_app; simpl; lia]. cbn [mbind outcome_bind].
  rewrite (app_assoc pre). rewrite load8_at by (rewrite zlen_app; reflexivity). cbn [mbind outcome_bind].
  rewrite <- (app_assoc pre). rewrite <- Z.add_assoc. by destruct Ht as [-> | ->].
Qed.

(** A whole address. *)
Lemma mac_bytes m pre post :
  Forall is_byte m -> mac_loop (length m) (pre ++ show_mac m ++ 0 :: post) (zlen pre) = Ret (true, m).
Proof.
  revert pre. induction m as [|v m IH]; intros pre Hm; [done|]. apply Forall_cons in Hm as [Hv Hm].
  cbn [length show_mac]. destruct m as [|w m].
  - rewrite mac_step by auto. done.
  - rewrite <- app_assoc. cbn [app]. rewrite mac_step by auto.
    replace (pre ++ show_byte v ++ 58 :: show_mac (w :: m) ++ 0 :: post)
      with ((pre ++ show_byte v ++ [58]) ++ show_mac (w :: m) ++ 0 :: post) by (by rewrite <- !app_assoc).
    replace (zlen pre + 3) with (zlen (pre ++ show_byte v ++ [58])) by (rewrite !zlen_app; reflexivity).
    by rewrite IH.
Qed.

(** The places of the addresses, in a list that starts at [cp]. *)
Fixpoint mac_places (cp : Z) (ms : list (list Z)) : list Z :=
  match ms with
  | [] => []
  | m :: ms' => cp :: mac_places (cp + zlen (show_mac m) + 1) ms'
  end.

Lemma show_mac_plain m : Forall is_byte m -> Forall (λ c, c <> 0 /\ c <> 44) (show_mac m).
Proof.
  induction 1 as [|v m Hv Hm IH]; [constructor|].
  assert (Forall (λ c, c <> 0 /\ c <> 44) (show_byte v)).
  { pose proof (Z.mod_pos_bound v 16 ltac:(lia)).
    assert (0 <= v / 16 < 16) by (unfold is_byte in Hv; split; [apply Z.div_pos|apply Z.div_lt_upper_bound]; lia).
    destruct (xdigit_ok (v / 16)) as (_ & _ & ? & ?), (xdigit_ok (v mod 16)) as (_ & _ & ? & ?); [done..|].
    by repeat constructor. }
  destruct m; [done|]. apply Forall_app. split; [done|]. constructor; [done|exact IH].
Qed.

(** [strsep] overwrites the comma behind the token. *)
Lemma strsep_token pre tok c post fuel :
  Forall (λ x, x <> 0 /\ x <> 44) tok -> c = 0 \/ c = 44 -> (length tok < fuel)%nat ->
  strsep_at fuel (pre ++ tok ++ c :: post) (zlen pre)
  = Ret (pre ++ tok ++ 0 :: post, if c =? 0 then None else Some (zlen pre + zlen tok + 1)).
Proof.
  revert pre fuel. induction tok as [|x tok IH]; intros pre fuel Ht Hc Hf; (destruct fuel as [|fuel]; [cbn in Hf; lia|]);
    cbn [app strsep_at]; rewrite load8_here; cbn [mbind outcome_bind].
  - destruct Hc as [-> | ->]; cbn [Z.eqb Pos.eqb]; [done|]. rewrite store8_here. cbn [mbind outcome_bind].
    change (zlen []) with 0. by rewrite Z.add_0_r.
  - apply Forall_cons in Ht as [[H0 H1] Ht]. rewrite (proj2 (Z.eqb_neq _ _) H0), (proj2 (Z.eqb_neq _ _) H1).
    rewrite (cons_middle x pre), app_assoc. replace (zlen pre + 1) with (zlen (pre ++ [x])) by (rewrite zlen_app; reflexivity).
    rewrite IH by (auto; cbn in Hf; lia). rewrite <- app_assoc. cbn [app]. rewrite zlen_app, !zlen_cons.
    change (zlen []) with 0. destruct (c =? 0); [done|]. do 3 f_equal. lia.
Qed.

(** The string with the separators made NULs. *)
Lemma split_macs ms pre post turns :
  Forall (Forall is_byte) ms -> ms <> [] -> (length ms <= turns)%nat ->
  split_mackill turns (pre ++ show_macs 44 ms ++ post) (Some (zlen pre))
  = Ret (pre ++ show_macs 0 ms ++ post, mac_places (zlen pre) ms).
Proof.
  intros Hms. revert pre turns. induction Hms as [|m ms Hm Hms IH]; intros pre turns Hne Ht; [done|].
  destruct turns as [|turns]; [cbn in Ht; lia|]. cbn [split_mackill show_macs mac_places].
  destruct ms as [|m' ms].
  - rewrite <- app_assoc. cbn [app]. rewrite strsep_token; [|by apply show_mac_plain|auto|rewrite !length_app; simpl; lia].
    cbn [mbind outcome_bind Z.eqb]. by destruct turns.
  - rewrite <- app_assoc. cbn [app]. rewrite strsep_token; [|by apply show_mac_plain|auto|rewrite !length_app; simpl; lia].
    cbn [mbind outcome_bind Z.eqb Pos.eqb].
    assert (E : zlen pre + zlen (show_mac m) + 1 = zlen (pre ++ show_mac m ++ [0])) by (rewrite !zlen_app; change (zlen [0]) with 1; lia).
    rewrite E. replace (pre ++ show_mac m ++ 0 :: show_macs 44 (m' :: ms) ++ post)
      with ((pre ++ show_mac m ++ [0]) ++ show_macs 44 (m' :: ms) ++ post) by (by rewrite <- !app_assoc).
    rewrite IH by (done || (cbn in Ht |- *; lia)). cbn [mbind outcome_bind].
    by rewrite <- !app_assoc.
Qed.

Lemma parse_macs_all ms pre post :
  Forall (Forall is_byte) ms -> Forall (λ m, length m = ETH_ALEN) ms -> 
  parse_macs (pre ++ show_macs 0 ms ++ post) (mac_places (zlen pre) ms) = Ret (true, ms).
Proof.
  intros Hb. revert pre. induction Hb as [|m ms Hm Hms IH]; intros pre Hl; [done|].
  apply Forall_cons in Hl as [Hlm Hl]. cbn [show_macs mac_places parse_macs].
  assert (Em : forall rest, mac_loop ETH_ALEN (pre ++ show_mac m ++ 0 :: rest) (zlen pre) = Ret (true, m)).
  { intros rest. rewrite <- Hlm. by apply mac_bytes. }
  assert (E : zlen pre + zlen (show_mac m) + 1 = zlen (pre ++ show_mac m ++ [0])) by (rewrite !zlen_app; change (zlen [0]) with 1; lia).
  destruct ms as [|m' ms].
  - rewrite <- app_assoc. cbn [app]. rewrite Em. done.
  - rewrite <- app_assoc. cbn [app]. rewrite Em. cbn [mbind outcome_bind]. rewrite E.
    replace (pre ++ show_mac m ++ 0 :: show_macs 0 (m' :: ms) ++ post)
      with ((pre ++ show_mac m ++ [0]) ++ show_macs 0 (m' :: ms) ++ post) by (by rewrite <- !app_assoc).
    by rewrite IH.
Qed.

(** The list of hardware addresses to ignore is read back as it was written:
    up to ten addresses of six bytes, in hexadecimal with colons between the
    bytes and commas between the addresses, give exactly these addresses and no
    error; and then the hook at the slave device drops an IP packet just when it
    comes from one of them. *)
Theorem mackill_roundtrip ms protocol s :
  Forall (Forall is_byte) ms -> Forall (λ m, length m = ETH_ALEN) ms ->
  ms <> [] -> (length ms <= MAX_MACKILL)%nat -> length (h_source s) = ETH_ALEN ->
  parse_mackill (Some (show_macs 44 ms)) = Ret (0, ms)
  /\ (dsr_pre_routing_recv ms true protocol s = NF_DROP <-> protocol = htons ETH_P_IP /\ (h_source s ∈ ms)).
Proof.
  intros Hb Hl Hne Hlen Hs. split.
  - unfold parse_mackill. change (default [] (Some (show_macs 44 ms))) with (show_macs 44 ms).
    pose proof (split_macs ms [] [] MAX_MACKILL Hb Hne Hlen) as E. cbn [app] in E. rewrite !app_nil_r in E.
    change (zlen []) with 0 in E. rewrite E. cbn [mbind outcome_bind].
    pose proof (parse_macs_all ms [] [] Hb Hl) as E2. cbn [app] in E2. rewrite app_nil_r in E2.
    change (zlen []) with 0 in E2. rewrite E2. done.
  - unfold dsr_pre_routing_recv, do_mackill. cbn [andb].
    rewrite take_ge by lia. destruct (protocol =? htons ETH_P_IP) eqn:Ep.
    + apply Z.eqb_eq in Ep. destruct (existsb _ ms) eqn:Ex.
      * apply existsb_exists in Ex as (m & Hin & Hm%bool_decide_eq_true). subst m. split; [|done]. intros _. split; [done|]. by apply list_elem_of_In.
      * split; [done|]. intros [_ Hin]. apply not_true_iff_false in Ex. destruct Ex. apply existsb_exists.
        exists (h_source s). split; [by apply list_elem_of_In|]. by apply bool_decide_eq_true.
    + split; [done|]. apply Z.eqb_neq in Ep. by intros [].
Qed.

Lemma mackill_roundtrip_witness :
  exists ms s, length ms = 2%nat
    /\ (parse_mackill (Some (show_macs 44 ms)) = Ret (0, ms)
        /\ (dsr_pre_routing_recv ms true (htons ETH_P_IP) s = NF_DROP <-> htons ETH_P_IP = htons ETH_P_IP /\ (h_source s ∈ ms))).
Proof.
  exists [[0; 12; 255; 16; 7; 200]; [2; 0; 0; 0; 0; 1]], (Skb 0 [2; 0; 0; 0; 0; 1] []). split; [done|].
  apply mackill_roundtrip; [by apply (bool_decide_unpack _)|by repeat constructor|done|unfold MAX_MACKILL; simpl; lia|done].
Defined.
