(* ===== verification/ConfigRead.v ===== *)
(** * Reading the configuration (dsr-module.c)

    The text that reading /proc/net/dsr_config gives: one line for each value of
    the configuration, handed out in the pieces the reader asks for. *)

From Stdlib Require Import String Ascii.
From S2P Require Import Prelude Mem Text Config Module.

(** ** The file *)

Definition confval_names (t : confval_type) : string :=
  match t with
  | SECONDS => "Seconds (s)"
  | MILLISECONDS => "Milliseconds (ms)"
  | MICROSECONDS => "Microseconds (us)"
  | NANOSECONDS => "Nanoseconds (ns)"
  | QUANTA => "Quanta"
  | BINARY => "Binary"
  | COMMAND => "Command"
  end%string.

Definition config_head : list Z :=
  chars "# " ++ ljust 23 (chars "Name") ++ [32] ++ ljust 6 (chars "Value") ++ [32] ++ chars "Type" ++ [10].
Definition config_line (dn : option dsr_node) (cv : confval) : list Z :=
  ljust 25 (chars (confval_name cv)) ++ [32] ++ ljust 6 (dec (get_confval dn cv)) ++ [32]
  ++ chars (confval_names (confval_ty cv)) ++ [10].

Definition dsr_config_proc_read (dn : option dsr_node) : handler_t unit := fun buffer offset length st =>
  '(b, len, st) ← (o ← put config_head (buffer, 0, st); print_each (λ i, put (config_line dn i)) all_confvals o);
  let start := offset in
  let len := s32 (len - offset) in
  let len := if len >? length then length else if len <? 0 then 0 else len in
  Ret (b, start, len, st).

(** What is read back from a line: the name up to the first blank, and the number
    behind the blanks. *)
Fixpoint word (s : list Z) : list Z := match s with [] => [] | c :: s' => if c =? 32 then [] else c :: word s' end.
Fixpoint unword (s : list Z) : list Z := match s with [] => [] | c :: s' => if c =? 32 then s else unword s' end.
Fixpoint skip_blanks (s : list Z) : list Z := match s with [] => [] | c :: s' => if c =? 32 then skip_blanks s' else s end.
Definition undec (s : list Z) : Z := fold_left (λ a c, 10 * a + (c - 48)) s 0.
Definition parse_line (s : list Z) : list Z * Z := (word s, undec (word (skip_blanks (unword s)))).

(** ** Numbers *)

Lemma undec_app s c : undec (s ++ [c]) = 10 * undec s + (c - 48).
Proof. unfold undec. by rewrite fold_left_app. Qed.

Lemma undec_digits fuel x : 0 <= x < 10 ^ Z.of_nat fuel -> undec (digits 10 (λ d, 48 + d) fuel x []) = x.
Proof.
  revert x. induction fuel as [|fuel IH]; intros x Hx; cbn [digits].
  { change (10 ^ Z.of_nat 0) with 1 in Hx. unfold undec. simpl. lia. }
  rewrite Nat2Z.inj_succ, Z.pow_succ_r in Hx by lia. pose proof (Z.div_mod x 10). pose proof (Z.mod_pos_bound x 10).
  case_if.
  - unfold undec. simpl. lia.
  - rewrite digits_acc, undec_app, IH; [lia|]. split; [apply Z.div_pos; lia|apply Z.div_lt_upper_bound; lia].
Qed.

Lemma undec_dec x : 0 <= x < 2 ^ 32 -> undec (dec x) = x.
Proof. intros Hx. apply undec_digits. assert (2 ^ 32 < 10 ^ Z.of_nat 20) by (vm_compute; reflexivity). lia. Qed.

(** ** Lines *)

Lemma word_app s t : Forall (λ c, c <> 32) s -> word (s ++ 32 :: t) = s /\ unword (s ++ 32 :: t) = 32 :: t.
Proof.
  induction 1 as [|c s Hc _ [IH1 IH2]]; cbn; [done|]. rewrite (proj2 (Z.eqb_neq _ _)), IH1, IH2 by done. done.
Qed.
Lemma skip_blanks_app n s : match s with c :: _ => c <> 32 | [] => True end -> skip_blanks (repeat 32 n ++ s) = s.
Proof.
  intros Hs. induction n as [|n IH]; cbn; [|done]. destruct s as [|c s]; [done|]. cbn.
  by rewrite (proj2 (Z.eqb_neq _ _)).
Qed.

(** A padded word ends in a blank when one more follows. *)
Lemma ljust_blank w s t : exists n, ljust w s ++ 32 :: t = s ++ 32 :: repeat 32 n ++ t.
Proof.
  exists (w - length s)%nat. unfold ljust. rewrite <- app_assoc. f_equal.
  induction (w - length s)%nat as [|n IH]; cbn; [done|]. by rewrite IH.
Qed.

Lemma names_no_blank cv : Forall (λ c, c <> 32) (chars (confval_name cv)) /\ (length (chars (confval_name cv)) <= 25)%nat.
Proof. destruct cv; (split; [apply (bool_decide_unpack _); vm_compute; exact I|vm_compute; lia]). Qed.
Lemma types_short t : (length (chars (confval_names t)) <= 17)%nat.
Proof. destruct t; vm_compute; lia. Qed.

Lemma parse_config_line n cv :
  node_ok n -> parse_line (config_line (Some n) cv) = (chars (confval_name cv), get_confval (Some n) cv).
Proof.
  intros Hn. pose proof (undec_dec _ (get_confval_range _ cv Hn)) as D1. pose proof (dec_digits (get_confval (Some n) cv)) as D2.
  unfold parse_line, config_line. set (v := get_confval _ _) in *. set (rest := chars _ ++ [10]).
  cbn [app]. destruct (ljust_blank 25 (chars (confval_name cv)) (ljust 6 (dec v) ++ 32 :: rest)) as (n1 & ->).
  destruct (word_app (chars (confval_name cv)) (repeat 32 n1 ++ ljust 6 (dec v) ++ 32 :: rest) (proj1 (names_no_blank cv))) as [-> ->].
  destruct (ljust_blank 6 (dec v) rest) as (n2 & ->).
  assert (Hd : Forall (λ c, c <> 32) (dec v)) by (eapply Forall_impl; [exact D2|]; cbn; lia).
  change (32 :: repeat 32 n1 ++ ?t) with (repeat 32 (S n1) ++ t). rewrite skip_blanks_app.
  - by rewrite (proj1 (word_app _ _ Hd)), D1.
  - pose proof (proj1 (dec_length v)). destruct (dec v) as [|c s]; [cbn in *; lia|]. by inversion Hd.
Qed.

(** ** The text *)

Definition config_text (dn : option dsr_node) : list Z := config_head ++ concat (config_line dn <$> all_confvals).

(** The text fits into the page, whatever the configuration. *)
Lemma config_text_short n : node_ok n -> zlen (config_text (Some n)) + 1 <= 2048.
Proof.
  intros Hn. unfold config_text. rewrite zlen_app.
  assert (0 * zlen all_confvals <= zlen (concat (config_line (Some n) <$> all_confvals)) <= 70 * zlen all_confvals) as [_ H].
  { apply concat_bound. intros cv _. pose proof (dec_short 10 (get_confval (Some n) cv)) as D.
    pose proof (get_confval_range _ cv Hn). change (10 ^ Z.of_nat 10) with 10000000000 in D.
    pose proof (proj2 (names_no_blank cv)). pose proof (types_short (confval_ty cv)). unfold config_line, zlen.
    rewrite !length_app, !ljust_length. cbn [length]. lia. }
  change (zlen all_confvals) with 23 in H. change (zlen config_head) with 38. lia.
Qed.

Lemma config_prints dn :
  prints_page (λ _ : (), True) (config_text dn)
    (λ buffer (st : ()), put config_head (buffer, 0, st) ≫= print_each (λ i, put (config_line dn i)) all_confvals).
Proof.
  apply (writes_prints _ (λ o, put config_head o ≫= print_each (λ i, put (config_line dn i)) all_confvals)).
  apply (writes_seq _ (λ _ : (), True)); [apply writes_put|]. apply writes_each. intros cv _. apply writes_put.
Qed.

(** Reading the configuration in pieces is reading it whole.  For every
    configuration the text fits into the kernel's page; whatever lengths a reader
    asks for, one after the other, it gets the text from the start, in order and
    without gaps, until it has all of it; and each line of the text reads back as
    the name of a configuration value and the value it has. *)
Theorem config_read_pieces n page ls :
  node_ok n -> zlen page = PAGE_SIZE -> Forall (λ l, 0 < l) ls ->
  read_pieces (dsr_config_proc_read (Some n)) page 0 ls () = Ret (take (Z.to_nat (foldr Z.add 0 ls)) (config_text (Some n)), ())
  /\ forall cv, parse_line (config_line (Some n) cv) = (chars (confval_name cv), get_confval (Some n) cv).
Proof.
  intros Hn Hp Hls. split; [|by intros cv; apply parse_config_line].
  pose proof (config_text_short n Hn) as Hs.
  destruct (read_pieces_run _ _ _ page ls () (config_prints (Some n))) as ([] & E & _); [done..|unfold PAGE_SIZE; lia|done|done].
Qed.

(** The first bytes of a configuration as the module starts with it. *)
Lemma config_read_pieces_witness :
  let n := dsr_node_init (DsrNode 1 2 []) in
  read_pieces (dsr_config_proc_read (Some n)) (repeat 0 4096) 0 [2; 4] () = Ret (chars "# Name", ())
  /\ parse_line (config_line (Some n) RoundTripTimeout) = (chars "RoundTripTimeout", 2000).
Proof.
  intros n. assert (Hn : node_ok n) by (split; [reflexivity|]; repeat constructor; vm_compute; congruence).
  destruct (config_read_pieces n (repeat 0 4096) [2; 4] Hn) as [H1 H2].
  - reflexivity.
  - repeat constructor; lia.
  - split; [rewrite H1; reflexivity|rewrite H2; reflexivity].
Defined.
