(* ===== verification/ProcTables.v ===== *)
(** * The tables' /proc files

    What a read of the files of the neighbour table, the two reply and request
    tables, the two buffers and the link cache prints into the kernel's page
    (neigh.c, dsr-rrep.c, dsr-rreq.c, send-buf.c, maint-buf.c, link-cache.c), and
    which of them stay inside it. *)

From Stdlib Require Import String.
From S2P Require Import Prelude Timer Config Mem Srt Text Tbl LinkCache LinkCacheInv LinkCacheSpec Neigh RreqTbl GratRrep Pkt SendBuf MaintBuf.

(** Columns: [c] and a blank; the end of the line. *)
Definition blank : list Z := [32].
Definition newline : list Z := [10].

(** [%lu] of a [long]: seconds that are left, or that have passed. *)
Definition secs (diff : Z) : list Z := dec (u64 (Z.quot diff 1000000)).

(** ** The neighbour table (neigh.c) *)

Definition neigh_head : list Z :=
  chars "# " ++ ljust 15 (chars "Addr") ++ blank ++ ljust 17 (chars "HwAddr") ++ blank
  ++ ljust 10 (chars "RTO (usec)") ++ blank ++ ljust 6 (chars "Id") ++ newline.
Definition neigh_line (addr hw : list Z) (n : neighbor) : list Z :=
  chars "  " ++ ljust 15 addr ++ blank ++ ljust 17 hw ++ blank ++ ljust 10 (dec (t_rxtcur n)) ++ blank
  ++ ljust 6 (dec (n_id n)) ++ newline.

Definition neigh_row (n : neighbor) (o : bytes * Z * statics) : outcome (bytes * Z * statics) :=
  let '(b, len, st) := o in
  '(p1, st) ← print_ip (n_addr n) st;
  '(p2, st) ← print_eth (n_hw_addr n) st;
  s1 ← text_at st p1; s2 ← text_at st p2;
  put (neigh_line s1 s2 n) (b, len, st).

Definition neigh_tbl_print (t : tbl neighbor) (buf : bytes) (st : statics) : outcome (bytes * Z * statics) :=
  t ← read_lock_bh t;
  o ← put neigh_head (buf, 0, st);
  print_each neigh_row (elems t) o.
Definition neigh_tbl_proc_info (t : tbl neighbor) : handler_t statics := proc_info (neigh_tbl_print t).

(** ** The gratuitous replies (dsr-rrep.c) *)

Definition grat_head : list Z :=
  chars "# " ++ ljust 15 (chars "Source") ++ blank ++ ljust 15 (chars "Prev hop") ++ chars " Time" ++ newline.
Definition grat_line (now : timeval) (src prev : list Z) (e : grat_rrep_entry) : list Z :=
  chars "  " ++ ljust 15 src ++ blank ++ ljust 15 prev ++ blank ++ secs (timeval_diff (g_expires e) now) ++ newline.

Definition grat_row (now : timeval) (e : grat_rrep_entry) (o : bytes * Z * statics) : outcome (bytes * Z * statics) :=
  let '(b, len, st) := o in
  '(p1, st) ← print_ip (g_src e) st;
  '(p2, st) ← print_ip (g_prev_hop e) st;
  s1 ← text_at st p1; s2 ← text_at st p2;
  put (grat_line now s1 s2 e) (b, len, st).

Definition grat_rrep_tbl_print (now : timeval) (t : tbl grat_rrep_entry) (buf : bytes) (st : statics)
  : outcome (bytes * Z * statics) :=
  t ← read_lock_bh t;
  o ← put grat_head (buf, 0, st);
  print_each (grat_row now) (elems t) o.
Definition grat_rrep_tbl_proc_info (now : timeval) (t : tbl grat_rrep_entry) : handler_t statics :=
  proc_info (grat_rrep_tbl_print now t).

(** ** The buffers (send-buf.c, maint-buf.c) *)

Definition queue_tail {A} (t : tbl A) : list Z :=
  newline ++ chars "Queue length      : " ++ dec (len t) ++ newline
  ++ chars "Queue max. length : " ++ dec (max_len t) ++ newline.

Section SendBufFile.
Context {F : Type}.
Definition send_head : list Z := chars "# " ++ ljust 15 (chars "IPAddr") ++ blank ++ ljust 8 (chars "Age (s)") ++ newline.
Definition send_line (now : timeval) (dst : list Z) (e : send_buf_entry F) : list Z :=
  chars "  " ++ ljust 15 dst ++ blank ++ ljust 8 (secs (timeval_diff now (qtime e))) ++ newline.

Definition send_row (now : timeval) (e : send_buf_entry F) (o : bytes * Z * statics) : outcome (bytes * Z * statics) :=
  let '(b, len, st) := o in
  '(p, st) ← print_ip (dp_dst (e_dp e)) st;
  s ← text_at st p;
  put (send_line now s e) (b, len, st).

Definition send_buf_print (now : timeval) (t : tbl (send_buf_entry F)) (buffer : bytes) (st : statics)
  : outcome (bytes * Z * statics) :=
  o ← put send_head (buffer, 0, st);
  t ← read_lock_bh t;
  o ← print_each (send_row now) (elems t) o;
  put (queue_tail t) o.
Definition send_buf_get_info (now : timeval) (t : tbl (send_buf_entry F)) : handler_t statics :=
  proc_info (send_buf_print now t).
End SendBufFile.

Definition maint_head : list Z :=
  chars "# " ++ ljust 15 (chars "NeighAddr") ++ blank ++ ljust 5 (chars "Rexmt") ++ blank ++ ljust 6 (chars "Id") ++ blank
  ++ ljust 2 (chars "AR") ++ blank ++ ljust 8 (chars "RTO") ++ blank ++ ljust 15 (chars "TxTime") ++ blank
  ++ ljust 15 (chars "Expires") ++ newline.
Definition maint_line (nxt tx exp : list Z) (e : maint_entry) : list Z :=
  chars "  " ++ ljust 15 nxt ++ blank ++ ljust 5 (sdec (s32 (rexmt e))) ++ blank ++ ljust 6 (dec (m_id e)) ++ blank
  ++ ljust 2 (dec (if ack_req_sent e then 1 else 0)) ++ blank ++ ljust 8 (dec (u32 (m_rto e))) ++ blank
  ++ ljust 15 tx ++ blank ++ ljust 15 exp ++ newline.

Definition maint_row (e : maint_entry) (o : bytes * Z * statics) : outcome (bytes * Z * statics) :=
  let '(b, len, st) := o in
  '(p1, st) ← print_ip (m_nxt_hop e) st;
  '(p2, st) ← print_timeval (tx_time e) st;
  '(p3, st) ← print_timeval (expires e) st;
  s1 ← text_at st p1; s2 ← text_at st p2; s3 ← text_at st p3;
  put (maint_line s1 s2 s3 e) (b, len, st).

Definition maint_buf_print (t : tbl maint_entry) (buffer : bytes) (st : statics) : outcome (bytes * Z * statics) :=
  o ← put maint_head (buffer, 0, st);
  t ← read_lock_bh t;
  o ← print_each maint_row (elems t) o;
  put (queue_tail t) o.
Definition maint_buf_get_info (t : tbl maint_entry) : handler_t statics := proc_info (maint_buf_print t).

(** ** The route requests (dsr-rreq.c) *)

(** [first] is declared outside both loops. *)
Definition rreq_head : list Z :=
  chars "# " ++ ljust 15 (chars "IPAddr") ++ blank ++ ljust 6 (chars "TTL") ++ blank ++ ljust 8 (chars "Used") ++ blank
  ++ rjust 15 (chars "TargetIPAddr") ++ chars ":" ++ chars "ID" ++ newline.
Definition rreq_line (now : timeval) (addr trg id : list Z) (e : rreq_tbl_entry) : list Z :=
  chars "  " ++ ljust 15 addr ++ blank ++ ljust 6 (dec (u32 (e_ttl e))) ++ blank
  ++ ljust 8 (secs (timeval_diff now (e_last_used e))) ++ blank ++ rjust 15 trg ++ chars ":" ++ id ++ newline.
Definition id_line (trg : list Z) (e : id_entry) : list Z := rjust 49 trg ++ chars ":" ++ dec (id_id e) ++ newline.

Definition id_row (id_e : id_entry) (o : bytes * Z * (statics * bool)) : outcome (bytes * Z * (statics * bool)) :=
  let '(b, len, (st, first)) := o in
  if negb first then
    '(p, st) ← print_ip (trg_addr id_e) st;
    s ← text_at st p;
    put (id_line s id_e) (b, len, (st, false))
  else Ret (b, len, (st, false)).

Definition rreq_row (r : rreq_tbl_st) (now : timeval) (p : ptr) (o : bytes * Z * (statics * bool))
  : outcome (bytes * Z * (statics * bool)) :=
  let '(b, len, (st, first)) := o in
  e ← deref (rreq_heap r !! p);
  o ← (if TBL_EMPTY (rreq_id_tbl e) then
         '(p, st) ← print_ip (node_addr e) st;
         s ← text_at st p;
         put (rreq_line now s (chars "-") (chars "-") e) (b, len, (st, first))
       else
         id_e ← deref (TBL_FIRST (rreq_id_tbl e));
         '(p1, st) ← print_ip (node_addr e) st;
         '(p2, st) ← print_ip (trg_addr id_e) st;
         s1 ← text_at st p1; s2 ← text_at st p2;
         put (rreq_line now s1 s2 (dec (id_id id_e)) e) (b, len, (st, first)));
  print_each id_row (elems (rreq_id_tbl e)) o.

Definition rreq_tbl_print (now : timeval) (r : rreq_tbl_st) (buf : bytes) (st : statics) : outcome (bytes * Z * statics) :=
  let first := true in
  t ← read_lock_bh (rreq_tbl r);
  o ← put rreq_head (buf, 0, (st, first));
  '(b, len, (st, _)) ← print_each (rreq_row r now) (elems t) o;
  Ret (b, len, st).
Definition rreq_tbl_proc_info (now : timeval) (r : rreq_tbl_st) : handler_t statics := proc_info (rreq_tbl_print now r).

(** ** The link cache (link-cache.c) *)

Definition print_hops (hops : Z) (st : statics) : outcome (text_ptr * statics) :=
  c ← sprintf (hops_buf st) 0 (count_text LC_HOPS_INF hops);
  Ret (InHops, Statics (ip_buf st) (ip_index st) (eth_buf st) (tv_buf st) (tv_n st) (srt_buf st) c (cost_buf st)).
Definition print_cost (cost : Z) (st : statics) : outcome (text_ptr * statics) :=
  c ← sprintf (cost_buf st) 0 (count_text LC_COST_INF cost);
  Ret (InCost, Statics (ip_buf st) (ip_index st) (eth_buf st) (tv_buf st) (tv_n st) (srt_buf st) (hops_buf st) c).

Definition links_head : list Z :=
  chars "# " ++ ljust 15 (chars "Src Addr") ++ blank ++ ljust 15 (chars "Dst Addr") ++ blank ++ ljust 4 (chars "Cost")
  ++ chars " Timeout" ++ newline.
Definition link_line (now : timeval) (src dst : list Z) (l : lc_link) : list Z :=
  chars "  " ++ ljust 15 src ++ blank ++ ljust 15 dst ++ blank ++ ljust 4 (dec (l_cost l)) ++ blank
  ++ secs (timeval_diff (l_expires l) now) ++ newline.
Definition nodes_head : list Z :=
  newline ++ chars "# " ++ ljust 15 (chars "Addr") ++ blank ++ ljust 4 (chars "Hops") ++ blank ++ ljust 4 (chars "Cost")
  ++ blank ++ ljust 5 (chars "Links") ++ blank ++ rjust 12 (chars "This") ++ blank ++ rjust 12 (chars "Pred") ++ newline.
Definition node_line (addr hops cost : list Z) (this pred : Z) (n : lc_node) : list Z :=
  chars "  " ++ ljust 15 addr ++ blank ++ rjust 4 hops ++ blank ++ rjust 4 cost ++ blank ++ rjust 5 (dec (n_links n)) ++ blank
  ++ rjust 12 (hex this) ++ blank ++ rjust 12 (hex pred) ++ newline.

Section LinkCacheFile.
(** Where the blocks of the model lie in memory. *)
Context (address : ptr -> Z).

Definition link_row (lc : lc_graph) (now : timeval) (p : ptr) (o : bytes * Z * statics) : outcome (bytes * Z * statics) :=
  let '(b, len, st) := o in
  link ← deref (lheap lc !! p);
  src ← deref (nheap lc !! l_src link);
  '(p1, st) ← print_ip (LinkCache.n_addr src) st;
  dst ← deref (nheap lc !! l_dst link);
  '(p2, st) ← print_ip (LinkCache.n_addr dst) st;
  s1 ← text_at st p1; s2 ← text_at st p2;
  put (link_line now s1 s2 link) (b, len, st).

Definition node_row (lc : lc_graph) (p : ptr) (o : bytes * Z * statics) : outcome (bytes * Z * statics) :=
  let '(b, len, st) := o in
  n ← deref (nheap lc !! p);
  '(p1, st) ← print_ip (LinkCache.n_addr n) st;
  '(p2, st) ← print_hops (n_hops n) st;
  '(p3, st) ← print_cost (n_cost n) st;
  s1 ← text_at st p1; s2 ← text_at st p2; s3 ← text_at st p3;
  put (node_line s1 s2 s3 (address p) (match n_pred n with Some q => address q | None => 0 end) n) (b, len, st).

Definition lc_print (now : timeval) (lc : lc_graph) (buf : bytes) (st : statics) : outcome (bytes * Z * statics) :=
  if lc_locked lc then Fault Deadlock else
  o ← put links_head (buf, 0, st);
  o ← print_each (link_row lc now) (elems (lc_links lc)) o;
  o ← put nodes_head o;
  print_each (node_row lc) (elems (lc_nodes lc)) o.
Definition lc_proc_info (now : timeval) (lc : lc_graph) : handler_t statics := proc_info (lc_print now lc).
End LinkCacheFile.

(** ** What is printed *)

Definition hw_text (hw : bytes) : list Z :=
  match hw with a0 :: a1 :: a2 :: a3 :: a4 :: a5 :: _ => eth_text a0 a1 a2 a3 a4 a5 | _ => [] end.
(** A hardware address, and a time, of the types they have. *)
Definition hw_ok (hw : bytes) : Prop := (6 <= length hw)%nat /\ Forall is_byte hw.
Definition tv_long (tv : timeval) : Prop := is_long (tv_sec tv) /\ is_long (tv_usec tv).

Definition neigh_text (t : tbl neighbor) : list Z :=
  neigh_head ++ concat ((λ n, neigh_line (ip_text (n_addr n)) (hw_text (n_hw_addr n)) n) <$> elems t).
Definition grat_text (now : timeval) (t : tbl grat_rrep_entry) : list Z :=
  grat_head ++ concat ((λ e, grat_line now (ip_text (g_src e)) (ip_text (g_prev_hop e)) e) <$> elems t).
Definition send_text {F} (now : timeval) (t : tbl (send_buf_entry F)) : list Z :=
  send_head ++ concat ((λ e, send_line now (ip_text (dp_dst (e_dp e))) e) <$> elems t) ++ queue_tail t.
Definition maint_text (t : tbl maint_entry) : list Z :=
  maint_head ++ concat ((λ e, maint_line (ip_text (m_nxt_hop e)) (tv_text (tx_time e)) (tv_text (expires e)) e) <$> elems t)
  ++ queue_tail t.

(** The helpers of one line, one after the other. *)
Lemma print_pair m1 m2 at1 at2 s1 s2 st :
  prints m1 at1 s1 -> prints m2 at2 s2 ->
  (forall st1, ip_index st1 = (match at1 st with InIp _ => (ip_index st + 16) mod 64 | _ => ip_index st end) ->
     at1 st <> at2 st1) ->
  statics_ok st ->
  exists p1 p2 st1 st2, m1 st = Ret (p1, st1) /\ m2 st1 = Ret (p2, st2) /\ statics_ok st2 /\ shows st2 p1 s1 /\ shows st2 p2 s2.
Proof.
  intros M1 M2 Hne Hst. destruct (pr_run _ _ _ M1 st Hst) as (st1 & E1 & H1 & S1 & _ & N1 & _).
  destruct (pr_run _ _ _ M2 st1 H1) as (st2 & E2 & H2 & S2 & F2 & _).
  exists (at1 st), (at2 st1), st1, st2. split_and!; try done. apply F2; [done|by apply Hne].
Qed.

Lemma two_ips a1 a2 st :
  statics_ok st ->
  exists p1 p2 st1 st2, print_ip a1 st = Ret (p1, st1) /\ print_ip a2 st1 = Ret (p2, st2) /\ statics_ok st2
    /\ shows st2 p1 (ip_text a1) /\ shows st2 p2 (ip_text a2).
Proof.
  intros Hst. eapply print_pair; [apply print_ip_prints..| |done].
  intros st1 Hi [= Heq]. destruct (st_index _ Hst) as (k & Hk & Hk'). cbn in Hi. rewrite Hi, Hk' in Heq.
  assert (k = 0 \/ k = 1 \/ k = 2 \/ k = 3) as [-> | [-> | [-> | ->]]] by lia; discriminate.
Qed.

(** Rows: what one adds to the page. *)
Lemma neigh_row_writes n :
  hw_ok (n_hw_addr n) -> writes statics_ok statics_ok (neigh_row n) (neigh_line (ip_text (n_addr n)) (hw_text (n_hw_addr n)) n).
Proof.
  intros [Hl Hb]. apply (writes_after _ statics_ok _ _ _ _ (writes_put _ _)). intros st Hst.
  destruct (n_hw_addr n) as [|a0 [|a1 [|a2 [|a3 [|a4 [|a5 rest]]]]]] eqn:Ehw; cbn in Hl; try lia. cbn [hw_text].
  destruct (print_pair _ _ _ _ _ _ st (print_ip_prints (n_addr n)) (print_eth_prints a0 a1 a2 a3 a4 a5 rest
    ltac:(change (Forall is_byte ([a0; a1; a2; a3; a4; a5] ++ rest)) in Hb; by apply Forall_app in Hb as [? _])))
    as (p1 & p2 & st1 & st2 & E1 & E2 & H2 & S1 & S2); [done|done|].
  exists st2. split; [done|]. intros b len. unfold neigh_row. rewrite E1. cbn [mbind outcome_bind]. rewrite Ehw, E2.
  cbn [mbind outcome_bind]. rewrite (shows_text _ _ _ S1), (shows_text _ _ _ S2). done.
Qed.

Lemma grat_row_writes now e :
  writes statics_ok statics_ok (grat_row now e) (grat_line now (ip_text (g_src e)) (ip_text (g_prev_hop e)) e).
Proof.
  apply (writes_after _ statics_ok _ _ _ _ (writes_put _ _)). intros st Hst.
  destruct (two_ips (g_src e) (g_prev_hop e) st Hst) as (p1 & p2 & st1 & st2 & E1 & E2 & H2 & S1 & S2).
  exists st2. split; [done|]. intros b len. unfold grat_row. rewrite E1. cbn [mbind outcome_bind]. rewrite E2.
  cbn [mbind outcome_bind]. by rewrite (shows_text _ _ _ S1), (shows_text _ _ _ S2).
Qed.

Lemma send_row_writes {F} now (e : send_buf_entry F) :
  writes statics_ok statics_ok (send_row now e) (send_line now (ip_text (dp_dst (e_dp e))) e).
Proof.
  apply (writes_after _ statics_ok _ _ _ _ (writes_put _ _)). intros st Hst.
  destruct (pr_run _ _ _ (print_ip_prints (dp_dst (e_dp e))) st Hst) as (st1 & E1 & H1 & S1 & _).
  exists st1. split; [done|]. intros b len. unfold send_row. rewrite E1. cbn [mbind outcome_bind].
  by rewrite (shows_text _ _ _ S1).
Qed.

Lemma maint_row_writes e :
  tv_long (tx_time e) -> tv_long (expires e) ->
  writes statics_ok statics_ok (maint_row e)
    (maint_line (ip_text (m_nxt_hop e)) (tv_text (tx_time e)) (tv_text (expires e)) e).
Proof.
  intros [L1 L2] [L3 L4]. apply (writes_after _ statics_ok _ _ _ _ (writes_put _ _)). intros st Hst.
  destruct (pr_run _ _ _ (print_ip_prints (m_nxt_hop e)) st Hst) as (st1 & E1 & H1 & S1 & _).
  destruct (pr_run _ _ _ (print_timeval_prints _ L1 L2) st1 H1) as (st2 & E2 & H2 & S2 & F2 & _ & N2 & _).
  destruct (pr_run _ _ _ (print_timeval_prints _ L3 L4) st2 H2) as (st3 & E3 & H3 & S3 & F3 & _).
  exists st3. split; [done|]. intros b len. unfold maint_row. rewrite E1. cbn [mbind outcome_bind]. rewrite E2.
  cbn [mbind outcome_bind]. rewrite E3. cbn [mbind outcome_bind].
  rewrite (shows_text st3 _ _ (F3 _ _ (F2 _ _ S1 ltac:(done)) ltac:(done))).
  rewrite (shows_text st3 _ _ (F3 _ _ S2 ltac:(cbn in N2; intros [=]; destruct (st_n _ H1); lia))).
  by rewrite (shows_text _ _ _ S3).
Qed.

(** Files. *)
Lemma prints_page_ext {S} (I : S -> Prop) t p1 p2 : (forall b st, p1 b st = p2 b st) -> prints_page I t p2 -> prints_page I t p1.
Proof. intros He Hp b st. rewrite He. apply Hp. Qed.

Lemma neigh_prints t :
  locked t = false -> Forall (λ n, hw_ok (n_hw_addr n)) (elems t) -> prints_page statics_ok (neigh_text t) (neigh_tbl_print t).
Proof.
  intros Hl Hw. apply (prints_page_ext _ _ _ (λ b st, put neigh_head (b, 0, st) ≫= print_each neigh_row (elems t))).
  { intros b st. unfold neigh_tbl_print, read_lock_bh. by rewrite Hl. }
  apply (writes_prints _ (λ o, put neigh_head o ≫= print_each neigh_row (elems t))).
  apply (writes_seq _ statics_ok); [apply writes_put|]. apply writes_each. intros n Hn.
  rewrite Forall_forall in Hw. by apply neigh_row_writes, Hw.
Qed.

Lemma grat_prints now t : locked t = false -> prints_page statics_ok (grat_text now t) (grat_rrep_tbl_print now t).
Proof.
  intros Hl. apply (prints_page_ext _ _ _ (λ b st, put grat_head (b, 0, st) ≫= print_each (grat_row now) (elems t))).
  { intros b st. unfold grat_rrep_tbl_print, read_lock_bh. by rewrite Hl. }
  apply (writes_prints _ (λ o, put grat_head o ≫= print_each (grat_row now) (elems t))).
  apply (writes_seq _ statics_ok); [apply writes_put|]. apply writes_each. intros e _. apply grat_row_writes.
Qed.

(** The two buffers have the same shape. *)
Lemma queue_prints {A} (row : A -> bytes * Z * statics -> outcome (bytes * Z * statics)) (line : A -> list Z) hd t :
  locked t = false -> (forall e, e ∈ elems t -> writes statics_ok statics_ok (row e) (line e)) ->
  prints_page statics_ok (hd ++ concat (line <$> elems t) ++ queue_tail t) (λ b st,
    o ← put hd (b, 0, st); t ← read_lock_bh t; o ← print_each row (elems t) o; put (queue_tail t) o).
Proof.
  intros Hl Hrow. apply (prints_page_ext _ _ _ (λ b st, put hd (b, 0, st) ≫= λ o, print_each row (elems t) o ≫= put (queue_tail t))).
  { intros b st. apply bind_ext. intros o. unfold read_lock_bh. by rewrite Hl. }
  apply (writes_prints _ (λ o, put hd o ≫= λ o, print_each row (elems t) o ≫= put (queue_tail t))).
  apply (writes_seq _ statics_ok); [apply writes_put|]. apply (writes_seq _ statics_ok); [by apply writes_each|apply writes_put].
Qed.

Lemma send_prints {F} now (t : tbl (send_buf_entry F)) :
  locked t = false -> prints_page statics_ok (send_text now t) (send_buf_print now t).
Proof. intros Hl. apply (queue_prints (send_row now)); [done|]. intros e _. apply send_row_writes. Qed.

Lemma maint_prints t :
  locked t = false -> Forall (λ e, tv_long (tx_time e) /\ tv_long (expires e)) (elems t) ->
  prints_page statics_ok (maint_text t) (maint_buf_print t).
Proof.
  intros Hl Ht. apply (queue_prints maint_row); [done|]. intros e He.
  rewrite Forall_forall in Ht. destruct (Ht e He). by apply maint_row_writes.
Qed.

(** *** The link cache *)

Lemma count_text_short inf x : is_word x -> zlen (count_text inf x) <= 10 /\ plain (count_text inf x).
Proof.
  intros Hx. unfold is_word in Hx. unfold count_text. case_if; [split; [vm_compute; discriminate|by repeat constructor]|].
  split; [|apply plain_dec]. pose proof (dec_short 10 x ltac:(lia)) as H. change (10 ^ Z.of_nat 10) with 10000000000 in H.
  unfold zlen. lia.
Qed.

Lemma print_hops_prints x : is_word x -> prints (print_hops x) (λ _, InHops) (count_text LC_HOPS_INF x).
Proof.
  intros Hx. destruct (count_text_short LC_HOPS_INF x Hx) as [Hl Hp]. split. intros st [H1 Hi H2 H3 H4 H5 H6 H7]. unfold print_hops.
  destruct (sprintf_total (hops_buf st) 0 (count_text LC_HOPS_INF x)) as (b & -> & Hb & Hs & Hf); [done|done|lia|].
  cbn [mbind outcome_bind]. eexists. split; [reflexivity|]. split_and!; try done.
  - split; cbn; try done. lia.
  - intros p s' Hp' Hne. by destruct p.
Qed.
Lemma print_cost_prints x : is_word x -> prints (print_cost x) (λ _, InCost) (count_text LC_COST_INF x).
Proof.
  intros Hx. destruct (count_text_short LC_COST_INF x Hx) as [Hl Hp]. split. intros st [H1 Hi H2 H3 H4 H5 H6 H7]. unfold print_cost.
  destruct (sprintf_total (cost_buf st) 0 (count_text LC_COST_INF x)) as (b & -> & Hb & Hs & Hf); [done|done|lia|].
  cbn [mbind outcome_bind]. eexists. split; [reflexivity|]. split_and!; try done.
  - split; cbn; try done. lia.
  - intros p s' Hp' Hne. by destruct p.
Qed.

Definition node_addr_at (lc : lc_graph) (p : ptr) : Z :=
  match nheap lc !! p with Some n => LinkCache.n_addr n | None => 0 end.
Definition link_text (lc : lc_graph) (now : timeval) (p : ptr) : list Z :=
  match lheap lc !! p with
  | Some l => link_line now (ip_text (node_addr_at lc (l_src l))) (ip_text (node_addr_at lc (l_dst l))) l
  | None => []
  end.
Definition node_text (address : ptr -> Z) (lc : lc_graph) (p : ptr) : list Z :=
  match nheap lc !! p with
  | Some n => node_line (ip_text (LinkCache.n_addr n)) (count_text LC_HOPS_INF (n_hops n)) (count_text LC_COST_INF (n_cost n))
      (address p) (match n_pred n with Some q => address q | None => 0 end) n
  | None => []
  end.
Definition lc_text (address : ptr -> Z) (now : timeval) (lc : lc_graph) : list Z :=
  links_head ++ concat (link_text lc now <$> elems (lc_links lc)) ++ nodes_head
  ++ concat (node_text address lc <$> elems (lc_nodes lc)).

(** The counters of a node are of type [unsigned int]. *)
Definition node_typed (lc : lc_graph) (p : ptr) : Prop :=
  forall n, nheap lc !! p = Some n -> is_word (n_hops n) /\ is_word (n_cost n).

Lemma link_row_writes lc now p :
  lc_inv lc -> p ∈ elems (lc_links lc) -> writes statics_ok statics_ok (link_row lc now p) (link_text lc now p).
Proof.
  intros Hi Hp. destruct (lo_link _ _ _ (inv_links _ Hi) p Hp) as (l & El & Hs & Hd & _).
  destruct (no_live _ _ _ _ (inv_nodes _ Hi) Hs) as [ns Es]. destruct (no_live _ _ _ _ (inv_nodes _ Hi) Hd) as [nd Ed].
  unfold link_text, node_addr_at. rewrite El, Es, Ed.
  apply (writes_after _ statics_ok _ _ _ _ (writes_put _ _)). intros st Hst.
  destruct (two_ips (LinkCache.n_addr ns) (LinkCache.n_addr nd) st Hst) as (p1 & p2 & st1 & st2 & E1 & E2 & H2 & S1 & S2).
  exists st2. split; [done|]. intros b len. unfold link_row. rewrite El. cbn [of_option mbind outcome_bind]. rewrite Es.
  cbn [of_option mbind outcome_bind]. rewrite E1. cbn [mbind outcome_bind]. rewrite Ed. cbn [of_option mbind outcome_bind]. rewrite E2.
  cbn [mbind outcome_bind]. by rewrite (shows_text _ _ _ S1), (shows_text _ _ _ S2).
Qed.

Lemma node_row_writes address lc p :
  lc_inv lc -> p ∈ elems (lc_nodes lc) -> node_typed lc p ->
  writes statics_ok statics_ok (node_row address lc p) (node_text address lc p).
Proof.
  intros Hi Hp Ht. destruct (no_live _ _ _ _ (inv_nodes _ Hi) Hp) as [n En]. destruct (Ht n En) as [Hh Hc].
  unfold node_text. rewrite En. apply (writes_after _ statics_ok _ _ _ _ (writes_put _ _)). intros st Hst.
  destruct (pr_run _ _ _ (print_ip_prints (LinkCache.n_addr n)) st Hst) as (st1 & E1 & H1 & S1 & _).
  destruct (pr_run _ _ _ (print_hops_prints _ Hh) st1 H1) as (st2 & E2 & H2 & S2 & F2 & _).
  destruct (pr_run _ _ _ (print_cost_prints _ Hc) st2 H2) as (st3 & E3 & H3 & S3 & F3 & _).
  exists st3. split; [done|]. intros b len. unfold node_row. rewrite En. cbn [of_option mbind outcome_bind]. rewrite E1.
  cbn [mbind outcome_bind]. rewrite E2. cbn [mbind outcome_bind]. rewrite E3. cbn [mbind outcome_bind].
  rewrite (shows_text st3 _ _ (F3 _ _ (F2 _ _ S1 ltac:(done)) ltac:(done))).
  by rewrite (shows_text st3 _ _ (F3 _ _ S2 ltac:(done))), (shows_text _ _ _ S3).
Qed.

Lemma lc_prints address now lc :
  lc_inv lc -> lc_locked lc = false -> Forall (node_typed lc) (elems (lc_nodes lc)) ->
  prints_page statics_ok (lc_text address now lc) (lc_print address now lc).
Proof.
  intros Hi Hl Ht. apply (prints_page_ext _ _ _ (λ b st, put links_head (b, 0, st) ≫= λ o,
    print_each (link_row lc now) (elems (lc_links lc)) o ≫= λ o, put nodes_head o ≫= print_each (node_row address lc) (elems (lc_nodes lc)))).
  { intros b st. unfold lc_print. by rewrite Hl. }
  apply (writes_prints _ (λ o, put links_head o ≫= λ o,
    print_each (link_row lc now) (elems (lc_links lc)) o ≫= λ o, put nodes_head o ≫= print_each (node_row address lc) (elems (lc_nodes lc)))).
  apply (writes_seq _ statics_ok); [apply writes_put|]. apply (writes_seq _ statics_ok).
  { apply writes_each. intros p Hp. by apply link_row_writes. }
  apply (writes_seq _ statics_ok); [apply writes_put|]. apply writes_each. intros p Hp.
  rewrite Forall_forall in Ht. by apply node_row_writes, Ht.
Qed.

(** *** The request table *)

(** The lines of the identifications behind the first of the table, where
    [first] says that none came yet. *)
Fixpoint ids_text (first : bool) (ids : list id_entry) : list Z :=
  match ids with
  | [] => []
  | i :: ids' => (if first then [] else id_line (ip_text (trg_addr i)) i) ++ ids_text false ids'
  end.
Definition rreq_entry_text (now : timeval) (e : rreq_tbl_entry) : list Z :=
  match elems (rreq_id_tbl e) with
  | [] => rreq_line now (ip_text (node_addr e)) (chars "-") (chars "-") e
  | i :: _ => rreq_line now (ip_text (node_addr e)) (ip_text (trg_addr i)) (dec (id_id i)) e
  end.
Fixpoint rreq_text (now : timeval) (first : bool) (es : list rreq_tbl_entry) : list Z :=
  match es with
  | [] => []
  | e :: es' =>
      rreq_entry_text now e ++ ids_text first (elems (rreq_id_tbl e))
      ++ rreq_text now (first && TBL_EMPTY (rreq_id_tbl e)) es'
  end.

(** The helpers' buffers are fine and [first] has this value. *)
Definition at_first (b : bool) (s : statics * bool) : Prop := statics_ok s.1 /\ s.2 = b.

Lemma id_row_writes first i :
  writes (at_first first) (at_first false) (id_row i) (if first then [] else id_line (ip_text (trg_addr i)) i).
Proof.
  destruct first.
  - apply (writes_after _ (at_first false) _ _ _ _ (writes_nil _)). intros [st f] [Hst Hf]. cbn in Hst, Hf. subst f.
    exists (st, false). by split.
  - apply (writes_after _ (at_first false) _ _ _ _ (writes_put _ _)). intros [st f] [Hst Hf]. cbn in Hst, Hf. subst f.
    destruct (pr_run _ _ _ (print_ip_prints (trg_addr i)) st Hst) as (st1 & E1 & H1 & S1 & _).
    exists (st1, false). split; [done|]. intros b len. unfold id_row. cbn [negb]. rewrite E1. cbn [mbind outcome_bind].
    by rewrite (shows_text _ _ _ S1).
Qed.

Lemma ids_writes first ids :
  writes (at_first first) (at_first (first && match ids with [] => true | _ => false end)) (print_each id_row ids) (ids_text first ids).
Proof.
  revert first. induction ids as [|i ids IH]; intros first; cbn [print_each ids_text].
  { rewrite andb_true_r. apply writes_nil. }
  rewrite andb_false_r. apply (writes_seq _ (at_first false)); [apply id_row_writes|]. apply (IH false).
Qed.

Lemma rreq_row_writes r now p e first :
  rreq_heap r !! p = Some e ->
  writes (at_first first) (at_first (first && TBL_EMPTY (rreq_id_tbl e))) (rreq_row r now p)
    (rreq_entry_text now e ++ ids_text first (elems (rreq_id_tbl e))).
Proof.
  intros He. pose proof (ids_writes first (elems (rreq_id_tbl e))) as Hids.
  unfold rreq_entry_text. unfold TBL_EMPTY. destruct (elems (rreq_id_tbl e)) as [|i ids] eqn:Ei.
  - eapply writes_after; [apply (writes_seq _ (at_first first) _ _ _ _ _ (writes_put _ _) Hids)|].
    intros [st f] [Hst Hf]. cbn in Hst, Hf. subst f.
    destruct (pr_run _ _ _ (print_ip_prints (node_addr e)) st Hst) as (st1 & E1 & H1 & S1 & _).
    exists (st1, first). split; [done|]. intros b len. unfold rreq_row, TBL_EMPTY. rewrite He. cbn [of_option mbind outcome_bind]. rewrite Ei.
    rewrite E1. cbn [mbind outcome_bind]. by rewrite (shows_text _ _ _ S1).
  - eapply writes_after; [apply (writes_seq _ (at_first first) _ _ _ _ _ (writes_put _ _) Hids)|].
    intros [st f] [Hst Hf]. cbn in Hst, Hf. subst f.
    destruct (two_ips (node_addr e) (trg_addr i) st Hst) as (p1 & p2 & st1 & st2 & E1 & E2 & H2 & S1 & S2).
    exists (st2, first). split; [done|]. intros b len. unfold rreq_row, TBL_EMPTY, TBL_FIRST. rewrite He. cbn [of_option mbind outcome_bind]. rewrite Ei.
    cbn [head of_option mbind outcome_bind]. rewrite E1. cbn [mbind outcome_bind]. rewrite E2. cbn [mbind outcome_bind].
    by rewrite (shows_text _ _ _ S1), (shows_text _ _ _ S2).
Qed.

Lemma rreq_rows_writes r now ps es first :
  Forall2 (λ p e, rreq_heap r !! p = Some e) ps es ->
  exists last, writes (at_first first) (at_first last) (print_each (rreq_row r now) ps) (rreq_text now first es).
Proof.
  intros H. revert first. induction H as [|p e ps es He _ IH]; intros first; cbn [print_each rreq_text].
  { exists first. apply writes_nil. }
  destruct (IH (first && TBL_EMPTY (rreq_id_tbl e))) as [last Hl]. exists last. rewrite app_assoc.
  by apply (writes_seq _ (at_first (first && TBL_EMPTY (rreq_id_tbl e)))); [apply rreq_row_writes|].
Qed.

Lemma rreq_prints now r es :
  locked (rreq_tbl r) = false -> Forall2 (λ p e, rreq_heap r !! p = Some e) (elems (rreq_tbl r)) es ->
  prints_page statics_ok (rreq_head ++ rreq_text now true es) (rreq_tbl_print now r).
Proof.
  intros Hl Hes. destruct (rreq_rows_writes r now _ es true Hes) as [last Hw].
  pose proof (writes_seq _ _ _ _ _ _ _ (writes_put (at_first true) rreq_head) Hw) as Hs. intros b st Hst Hb.
  destruct (writes_start _ _ _ _ b (st, true) Hs) as [R F]; [by split|done|].
  unfold rreq_tbl_print, read_lock_bh. rewrite Hl. cbn [mbind outcome_bind]. split.
  - intros Ht. destruct (R Ht) as (b' & [st' f] & E & H1 & H2 & [H3 _]). exists b', st'. split_and!; try done.
    destruct (put rreq_head (b, 0, (st, true))) as [o|]; [|done]. cbn [mbind outcome_bind] in *. by rewrite E.
  - intros Ht. specialize (F Ht). destruct (put rreq_head (b, 0, (st, true))) as [o|]; cbn [mbind outcome_bind] in *; [by rewrite F|congruence].
Qed.

(** ** How long it is *)

Lemma secs_length d : (1 <= length (secs d) <= 20)%nat.
Proof. apply dec_length. Qed.

(** Sums of the lengths of columns. *)
Ltac columns := unfold zlen, blank, newline; rewrite ?length_app, ?ljust_length, ?rjust_length; cbn [length chars].

Lemma hw_text_length hw : (length (hw_text hw) <= 17)%nat.
Proof. do 6 (destruct hw as [|? hw]; [cbn; lia|]). cbn. lia. Qed.

Lemma neigh_line_length n : zlen (neigh_line (ip_text (n_addr n)) (hw_text (n_hw_addr n)) n) <= 78.
Proof.
  pose proof (ip_text_length (n_addr n)). pose proof (hw_text_length (n_hw_addr n)).
  pose proof (dec_length (t_rxtcur n)). pose proof (dec_length (n_id n)). unfold neigh_line. columns. lia.
Qed.
Lemma grat_line_length now e : zlen (grat_line now (ip_text (g_src e)) (ip_text (g_prev_hop e)) e) <= 55.
Proof.
  pose proof (ip_text_length (g_src e)). pose proof (ip_text_length (g_prev_hop e)).
  pose proof (secs_length (timeval_diff (g_expires e) now)). unfold grat_line. columns. lia.
Qed.
Lemma send_line_length {F} now (e : send_buf_entry F) : zlen (send_line now (ip_text (dp_dst (e_dp e))) e) <= 39.
Proof.
  pose proof (ip_text_length (dp_dst (e_dp e))). pose proof (secs_length (timeval_diff now (qtime e))).
  unfold send_line. columns. lia.
Qed.
Lemma queue_tail_length {A} (t : tbl A) : 45 <= zlen (queue_tail t) <= 83.
Proof. pose proof (dec_length (len t)). pose proof (dec_length (max_len t)). unfold queue_tail. columns. lia. Qed.

Lemma maint_line_length e :
  tv_long (tx_time e) -> tv_long (expires e) ->
  75 <= zlen (maint_line (ip_text (m_nxt_hop e)) (tv_text (tx_time e)) (tv_text (expires e)) e) <= 151.
Proof.
  intros [L1 L2] [L3 L4]. pose proof (ip_text_length (m_nxt_hop e)).
  pose proof (tv_text_length _ L1 L2). pose proof (tv_text_length _ L3 L4). pose proof (dec_length (m_id e)).
  assert ((length (sdec (s32 (rexmt e))) <= 11)%nat).
  { apply sdec_short; [lia|]. change (10 ^ Z.of_nat 10) with 10000000000. unfold s32.
    pose proof (Z.mod_pos_bound (rexmt e + 2 ^ 31) (2 ^ 32) ltac:(lia)). lia. }
  assert ((length (dec (u32 (m_rto e))) <= 10)%nat).
  { apply dec_short; [lia|]. change (10 ^ Z.of_nat 10) with 10000000000. pose proof (u32_range (m_rto e)). lia. }
  assert (length (dec (if ack_req_sent e then 1 else 0)) = 1%nat) by (destruct (ack_req_sent e); reflexivity).
  unfold maint_line. columns. lia.
Qed.

(** The text of a table: so many lines of such lengths. *)
Lemma lines_length {A} (line : A -> list Z) lo hi l :
  (forall x, x ∈ l -> lo <= zlen (line x) <= hi) ->
  lo * zlen l <= zlen (concat (line <$> l)) <= hi * zlen l.
Proof. apply concat_bound. Qed.

Lemma neigh_text_short t : neigh_ok t -> zlen (neigh_text t) < PAGE_SIZE.
Proof.
  intros Hok. destruct (nk_wf _ Hok) as (Hl & Hm & _). rewrite (nk_max _ Hok) in Hm. unfold NEIGH_TBL_MAX_LEN in Hm.
  unfold neigh_text, PAGE_SIZE. rewrite zlen_app. change (zlen neigh_head) with 54.
  pose proof (lines_length (λ n, neigh_line (ip_text (n_addr n)) (hw_text (n_hw_addr n)) n) 0 78 (elems t)
    (λ n _, conj (zlen_nonneg _) (neigh_line_length n))). lia.
Qed.
Lemma grat_text_short now st : grat_ok st -> zlen (grat_text now (gtbl st)) < PAGE_SIZE.
Proof.
  intros Hok. destruct (go_wf _ Hok) as (Hl & Hm & _). rewrite (go_max _ Hok) in Hm. unfold GRAT_RREP_TBL_MAX_LEN in Hm.
  unfold grat_text, PAGE_SIZE. rewrite zlen_app. change (zlen grat_head) with 39.
  pose proof (lines_length (λ e, grat_line now (ip_text (g_src e)) (ip_text (g_prev_hop e)) e) 0 55 (elems (gtbl st))
    (λ e _, conj (zlen_nonneg _) (grat_line_length now e))). lia.
Qed.
Lemma send_text_short {F} now (t : tbl (send_buf_entry F)) :
  tbl_wf t -> max_len t <= SEND_BUF_MAX_LEN -> zlen (send_text now t) < PAGE_SIZE.
Proof.
  intros (Hl & Hm & _) Hmax. unfold SEND_BUF_MAX_LEN in Hmax.
  unfold send_text, PAGE_SIZE. rewrite !zlen_app. change (zlen send_head) with 27. pose proof (queue_tail_length t).
  pose proof (lines_length (λ e, send_line now (ip_text (dp_dst (e_dp e))) e) 0 39 (elems t)
    (λ e _, conj (zlen_nonneg _) (send_line_length now e))). lia.
Qed.


Definition one_neighbor : tbl neighbor :=
  match neigh_tbl_add neigh_tbl_init [] 16777343 [0; 1; 2; 3; 170; 255] with Ret (_, t, _) => t | Fault _ => neigh_tbl_init end.
Lemma one_neighbor_ok : neigh_ok one_neighbor.
Proof.
  destruct (neigh_add_spec neigh_tbl_init [] 16777343 [0; 1; 2; 3; 170; 255] neigh_init_ok) as (r & t & m & E & Hok & _).
  unfold one_neighbor. by rewrite E.
Qed.

(** ** Files that leave the page *)

Lemma link_text_length lc now p : lc_inv lc -> p ∈ elems (lc_links lc) -> 41 <= zlen (link_text lc now p) <= 76.
Proof.
  intros Hi Hp. destruct (lo_link _ _ _ (inv_links _ Hi) p Hp) as (l & El & _). unfold link_text. rewrite El.
  pose proof (ip_text_length (node_addr_at lc (l_src l))). pose proof (ip_text_length (node_addr_at lc (l_dst l))).
  pose proof (dec_length (l_cost l)). pose proof (secs_length (timeval_diff (l_expires l) now)). unfold link_line. columns. lia.
Qed.
Lemma node_text_length address lc p :
  lc_inv lc -> node_typed lc p -> p ∈ elems (lc_nodes lc) -> 60 <= zlen (node_text address lc p) <= 95.
Proof.
  intros Hi Ht Hp. destruct (no_live _ _ _ _ (inv_nodes _ Hi) Hp) as [n En]. destruct (Ht n En) as [Hh Hc]. unfold node_text. rewrite En.
  destruct (count_text_short LC_HOPS_INF _ Hh) as [Lh _]. destruct (count_text_short LC_COST_INF _ Hc) as [Lc _].
  set (q := match n_pred n with Some q => address q | None => 0 end).
  pose proof (ip_text_length (LinkCache.n_addr n)). pose proof (dec_length (n_links n)).
  pose proof (hex_length (address p)). pose proof (hex_length q). unfold node_line. columns. unfold zlen in *. lia.
Qed.

Definition maint_typed (e : maint_entry) : Prop := tv_long (tx_time e) /\ tv_long (expires e).

(** A file that prints [t] into a page: whole when it fits, and else outside. *)
Definition file_whole (print : bytes -> statics -> outcome (bytes * Z * statics)) (t : list Z) : Prop := forall page st,
  zlen page = PAGE_SIZE -> statics_ok st -> exists b st', print page st = Ret (b, zlen t, st') /\ memread b 0 (zlen t) = Ret t.
Definition file_leaves (print : bytes -> statics -> outcome (bytes * Z * statics)) : Prop := forall page st,
  zlen page = PAGE_SIZE -> statics_ok st -> print page st = Fault BadAccess.

Lemma prints_whole t print : prints_page statics_ok t print -> zlen t < PAGE_SIZE -> file_whole print t.
Proof.
  intros Hp Ht page st Hpg Hst. unfold PAGE_SIZE in *. destruct (Hp page st Hst ltac:(lia)) as [R _].
  destruct R as (b & st' & E & _ & Hr & _); [lia|]. by exists b, st'.
Qed.
Lemma prints_leaves t print : prints_page statics_ok t print -> PAGE_SIZE <= zlen t -> file_leaves print.
Proof.
  intros Hp Ht page st Hpg Hst. unfold PAGE_SIZE in *. destruct (Hp page st Hst ltac:(lia)) as [_ F]. apply F. lia.
Qed.

(** C38: Two of the tables outgrow the page.  The maintenance buffer is printed
    whole while at most 26 packets wait; with 54 of the 100 it may hold, printing
    it writes outside the kernel's page, whatever is in it.  The link cache is
    printed whole while 76 characters a link and 95 a node leave room; once 41 a
    link and 60 a node do not, printing it writes outside: 67 of its 500 nodes
    are enough. *)
Theorem big_tables_leave_page tm address now lc :
  locked tm = false -> Forall maint_typed (elems tm) ->
  lc_inv lc -> lc_locked lc = false -> Forall (node_typed lc) (elems (lc_nodes lc)) ->
  let links := zlen (elems (lc_links lc)) in let nodes := zlen (elems (lc_nodes lc)) in
  (zlen (elems tm) <= 26 -> file_whole (maint_buf_print tm) (maint_text tm))
  /\ (54 <= zlen (elems tm) -> file_leaves (maint_buf_print tm))
  /\ (76 * links + 95 * nodes < 3988 -> file_whole (lc_print address now lc) (lc_text address now lc))
  /\ (3988 <= 41 * links + 60 * nodes -> file_leaves (lc_print address now lc)).
Proof.
  intros Hm Hmt Hi Hl Ht links nodes. pose proof (maint_prints tm Hm Hmt) as Pm. pose proof (lc_prints address now lc Hi Hl Ht) as Pl.
  assert (Lm : 120 + 75 * zlen (elems tm) <= zlen (maint_text tm) <= 158 + 151 * zlen (elems tm)).
  { unfold maint_text. rewrite !zlen_app. change (zlen maint_head) with 75. pose proof (queue_tail_length tm).
    pose proof (lines_length (λ e, maint_line (ip_text (m_nxt_hop e)) (tv_text (tx_time e)) (tv_text (expires e)) e) 75 151 (elems tm)) as Hlen.
    rewrite Forall_forall in Hmt. specialize (Hlen (λ e He, maint_line_length e (proj1 (Hmt e He)) (proj2 (Hmt e He)))). lia. }
  assert (Ll : 108 + 41 * links + 60 * nodes <= zlen (lc_text address now lc) <= 108 + 76 * links + 95 * nodes).
  { unfold lc_text. rewrite !zlen_app. change (zlen links_head) with 47. change (zlen nodes_head) with 61. rewrite Forall_forall in Ht.
    pose proof (lines_length (link_text lc now) 41 76 (elems (lc_links lc)) (λ p, link_text_length lc now p Hi)).
    pose proof (lines_length (node_text address lc) 60 95 (elems (lc_nodes lc)) (λ p Hp, node_text_length address lc p Hi (Ht p Hp) Hp)).
    unfold links, nodes. lia. }
  split_and!; intros Hsz.
  - eapply prints_whole; [exact Pm|unfold PAGE_SIZE; lia].
  - eapply prints_leaves; [exact Pm|unfold PAGE_SIZE; lia].
  - eapply prints_whole; [exact Pl|unfold PAGE_SIZE; lia].
  - eapply prints_leaves; [exact Pl|unfold PAGE_SIZE; lia].
Qed.

(** A packet that waits, and a buffer with 54 of them. *)
Definition waiting : maint_entry := Maint 33554442 0 7 (Timeval 10 0) (Timeval 10 500000) 500000 false pkt0.
Lemma big_tables_leave_page_witness :
  file_leaves (maint_buf_print (Tbl (replicate 54 waiting) 54 100 false))
  /\ file_whole (lc_print (λ p, p) (Timeval 0 0) lc_init) (lc_text (λ p, p) (Timeval 0 0) lc_init).
Proof.
  destruct (big_tables_leave_page (Tbl (replicate 54 waiting) 54 100 false) (λ p, p) (Timeval 0 0) lc_init) as (_ & H1 & H2 & _).
  - reflexivity.
  - apply (Forall_replicate maint_typed 54 waiting). split; split; vm_compute; split; congruence.
  - apply lc_init_inv.
  - reflexivity.
  - constructor.
  - split; [apply H1|apply H2]; vm_compute; congruence.
Defined.

(** [first] is set once for the whole file: the identifications of the second
    node are printed one line too many, the first of them twice. *)
Example rreq_first_id_twice :
  let e a := RreqTblEntry STATE_IDLE a 1 None (Timeval 0 0) 0 0 (Tbl [IdEntry 9 5] 1 16 false) in
  rreq_text (Timeval 0 0) true [e 1; e 2]
  = rreq_entry_text (Timeval 0 0) (e 1) ++ rreq_entry_text (Timeval 0 0) (e 2) ++ id_line (ip_text 9) (IdEntry 9 5).
Proof. vm_compute. reflexivity. Qed.
