(* ===== verification/NodeSpec.v ===== *)
(** * Packets through a node

    What a node does with a packet that carries a source route: forwarding it to
    the next node of the route, and delivering it at the end. *)

From S2P Require Import Prelude Timer Config Mem Tbl TblDel Srt Neigh RreqTbl GratRrep Pkt Opt Send SendBuf Salvage MaintBuf Core Node Wire.

(** ** The actions *)

Section Spec.
Context (ip_csum : bytes -> Z) (junk : Z -> Z) (now : timeval) (rr : dsr_pkt -> option Z) (stale : timeval).

Local Abbreviation XMIT := (XMIT ip_csum junk now).
Local Abbreviation DELIVER := (DELIVER ip_csum junk rr).
Local Abbreviation act := (act ip_csum junk now rr).
Local Abbreviation act_loop := (act_loop ip_csum junk now rr).

Lemma act_step turns i action b p n :
  Z.land action (Z.shiftl DSR_PKT_NONE i) = b ->
  act_loop (S turns) i action p n
  = ('(more, n') ← act p b n; if (more : bool) then act_loop turns (i + 1) action p n' else Ret n').
Proof. by intros <-. Qed.

(** An action that is not asked for, or asks for nothing here, is passed over. *)
Lemma act_skip turns i action p n :
  Z.land action (Z.shiftl DSR_PKT_NONE i) ∈ [0; DSR_PKT_NONE; DSR_PKT_SRT_REMOVE] ->
  act_loop (S turns) i action p n = act_loop turns (i + 1) action p n.
Proof.
  intros Hin. cbn [Node.act_loop]. unfold Node.act.
  repeat (apply elem_of_cons in Hin as [->|Hin]; [reflexivity|]). by apply elem_of_nil in Hin.
Qed.

(** A packet that also asked for an acknowledgement is handled the same. *)
Lemma act_forward p n h ttl x :
  x = 0 \/ x = DSR_PKT_NONE -> nh_bytes p = Ret h -> ip_ttl h = Ret ttl ->
  act_loop (Z.to_nat DSR_PKT_ACTION_LAST) 0 (Z.lor DSR_PKT_FORWARD x) p n
  = if ttl <? 1 then Ret (free p n) else XMIT p n.
Proof.
  intros Hx Hh Ht. change (Z.to_nat DSR_PKT_ACTION_LAST) with 12%nat.
  do 7 (rewrite act_skip by (destruct Hx as [->| ->]; apply (bool_decide_unpack _); vm_compute; exact I)).
  rewrite (act_step _ _ _ DSR_PKT_FORWARD) by (by destruct Hx as [->| ->]). unfold Node.act.
  cbn -[XMIT ip_ttl nh_bytes Z.ltb]. rewrite Hh. cbn [mbind outcome_bind]. rewrite Ht. cbn [mbind outcome_bind].
  destruct (ttl <? 1); [done|]. by destruct (XMIT p n).
Qed.

Lemma act_deliver p n x :
  x = 0 \/ x = DSR_PKT_NONE ->
  act_loop (Z.to_nat DSR_PKT_ACTION_LAST) 0 (Z.lor (Z.lor DSR_PKT_DELIVER DSR_PKT_SRT_REMOVE) x) p n = DELIVER p n.
Proof.
  intros Hx. change (Z.to_nat DSR_PKT_ACTION_LAST) with 12%nat.
  do 11 (rewrite act_skip by (destruct Hx as [->| ->]; apply (bool_decide_unpack _); vm_compute; exact I)).
  rewrite (act_step _ _ _ DSR_PKT_DELIVER) by (by destruct Hx as [->| ->]). unfold Node.act.
  cbn -[DELIVER]. by destruct (DELIVER p n).
Qed.

Lemma bind_decide_True {A B} (m : outcome A) (P : Prop) `{!Decision P} (f g : A -> outcome B) :
  P -> (x ← m; if decide P then f x else g x) = (x ← m; f x).
Proof. intros HP. apply bind_ext. intros x. by rewrite decide_True. Qed.
Lemma bind_decide_False {A B} (m : outcome A) (P : Prop) `{!Decision P} (f g : A -> outcome B) :
  ~ P -> (x ← m; if decide P then f x else g x) = (x ← m; g x).
Proof. intros HP. apply bind_ext. intros x. by rewrite decide_False. Qed.

(** ** A packet with a source route *)

(** A request for an acknowledgement, if there is one. *)
Definition ack_opts (ak : option Z) : list (Z * bytes) :=
  match ak with Some id => [(DSR_OPT_ACK_REQ, bytes16 (htons id))] | None => [] end.
Definition ack_raw (ak : option Z) : bytes := concat (opt_enc <$> ack_opts ak).

Lemma ack_raw_len ak : zlen (ack_raw ak) = match ak with Some _ => 4 | None => 0 end.
Proof. by destruct ak. Qed.

(** A packet that was received, not overheard, with a source route over these
    hops and perhaps, behind it, a request for an acknowledgement; [room] is what
    the block holds behind them. *)
Record routed (p : dsr_pkt) (d : dhbuf) (hd : bytes) (bits : Z) (hops : list Z) (ak : option Z) (room : bytes) : Prop := {
  rt_dh : dh p = Dh d;
  rt_tail : Pkt.tail d = 8 + 4 * zlen hops + zlen (ack_raw ak);
  rt_mem : mem d = hd ++ srt_raw bits (carried p hops) ++ ack_raw ak ++ room;
  rt_hd : zlen hd = 4;
  rt_room : 2 <= zlen room;
  rt_bits : 0 <= bits < 65536;
  rt_words : Forall is_word hops;
  rt_hops : zlen hops <= 63;
  rt_id : forall id, ak = Some id -> 0 <= id < 65536;
  rt_skb : exists s, skb p = Some s;
  rt_heard : promisc p = false
}.

(** The packet as the handler leaves it, up to the segments left: [s] is the
    route it has read. *)
Definition heard (p : dsr_pkt) (d : dhbuf) (bits : Z) (s : dsr_srt) (prv nxt : Z) : dsr_pkt :=
  set_nxt_hop (set_prv_hop (set_salvage (Pkt.set_srt
    (set_slots p (set_srt_opt (slots p) (Some (Optr (blk d) 4)))) (Some s)) (bits_salv bits)) prv) nxt.

Local Abbreviation srt_learn := (srt_learn now).

Lemma on_core_conf f n n' :
  (forall c c', f c = Ret c' -> conf c' = conf c) -> on_core f n = Ret n' -> conf (n_core n') = conf (n_core n).
Proof. intros Hf H. unfold on_core in H. obind H as c E. injection H as <-. by apply Hf in E. Qed.

Lemma neigh_add_conf a hw c c' : neigh_add a hw c = Ret c' -> conf c' = conf c.
Proof. unfold neigh_add. intros H. obind H as [[r t] m] E. by injection H as <-. Qed.
Lemma link_add_conf a b c c' : link_add now a b c = Ret c' -> conf c' = conf c.
Proof. unfold link_add. intros H. obind H as [[r t] m] E. by injection H as <-. Qed.
Lemma rtc_add_conf s c c' : rtc_add now s c = Ret c' -> conf c' = conf c.
Proof. unfold rtc_add. intros H. obind H as [[r t] m] E. by injection H as <-. Qed.

(** Learning does not touch the configuration. *)
Lemma srt_learn_conf p s n n' : srt_learn p s n = Ret n' -> conf (n_core n') = conf (n_core n).
Proof.
  unfold Node.srt_learn, learn_srt. intros H. obind H as hw E0.
  obind H as n1 E1. apply (on_core_conf _ _ _ (neigh_add_conf _ _)) in E1. obind H as n2 E2.
  assert (E12 : conf (n_core n2) = conf (n_core n1)).
  { destruct (promisc p); [by injection E2 as <-|]. by apply (on_core_conf _ _ _ (link_add_conf _ _)) in E2. }
  rewrite <- E1, <- E12. clear E0 E1 E2 E12. case_match; [by apply (on_core_conf _ _ _ (rtc_add_conf s)) in H|].
  unfold Core.draw in H. destruct (kmalloc _) as [ok al]. obind H as sp E3.
  destruct sp as [s'|]; [|injection H as <-; done].
  apply (on_core_conf _ _ _ (rtc_add_conf s')) in H. by rewrite H.
Qed.

Section Routed.
Context (p : dsr_pkt) (d : dhbuf) (hd : bytes) (bits : Z) (hops : list Z) (ak : option Z) (room : bytes).
Context (Hr : routed p d hd bits hops ak room).
Local Abbreviation back := (ack_raw ak ++ room).

(** What the handler reads; the route it makes has the right hops and a partial
    word, since the option's length still counts the two bytes in front. *)
Lemma routed_reads :
  opt_off p (Optr (blk d) 4) = Ret 4 /\ load8 (mem d) 4 = Ret DSR_OPT_SRT
  /\ opt_length (mem d) 4 = Ret (4 * zlen hops + 2)
  /\ srt_opt_salv (mem d) 4 = Ret (bits_salv bits) /\ srt_opt_sleft (mem d) 4 = Ret (bits_sleft bits)
  /\ exists t, zlen t = 2
     /\ dsr_srt_new true (dp_src p) (dp_dst p) (4 * zlen hops + 2) (Some (mem d, 4 + 4))
        = Ret (Some (DsrSrt (dp_src p) (dp_dst p) 0 (4 * zlen hops + 2) hops t)).
Proof using Hr.
  destruct Hr as [Hd Ht Hm Hh Hro Hb Hw Hn _ _ _]. pose proof (zlen_nonneg hops).
  pose proof (carried_aligned p hops Hn) as [Hwf _].
  unfold opt_off, dh_buf. rewrite Hd. cbn [mbind outcome_bind o_blk o_off]. rewrite Z.eqb_refl. split; [done|].
  assert (Hmr : memread (mem d) 4 (DSR_SRT_OPT_LEN (carried p hops)) = Ret (srt_raw bits (carried p hops))).
  { rewrite Hm, <- Hh. apply memread_behind. by rewrite srt_raw_len. }
  destruct (srt_raw_read _ _ bits _ Hwf ltac:(cbn; lia) Hb Hmr) as (R1 & R2 & R3 & R4).
  split; [exact R1|]. split; [exact R2|]. unfold srt_opt_salv, srt_opt_sleft. rewrite R3.
  split; [done|]. split; [done|]. cbn [carried addrs atail laddrs] in R4. rewrite app_nil_r in R4.
  destruct (split3 back 2 (zlen back - 2) 0) as (t & r1 & r2 & Hback & Ht2 & _);
    [lia|lia|rewrite zlen_app; pose proof (zlen_nonneg (ack_raw ak)); lia|lia|]. rewrite Hback in *.
  exists t. split; [done|].
  assert (Ht' : memread (mem d) (4 + 4 + 4 * zlen hops) 2 = Ret t).
  { rewrite Hm, app_assoc.
    replace (4 + 4 + 4 * zlen hops) with (zlen (hd ++ srt_raw bits (carried p hops)))
      by (rewrite zlen_app, srt_raw_len, Hh by done; unfold DSR_SRT_OPT_LEN, DSR_SRT_HDR_LEN; cbn; lia).
    rewrite <- Ht2. by apply memread_behind. }
  rewrite <- Ht2 at 1. rewrite <- Ht2. apply dsr_srt_new_read; [|done|lia].
  apply memread_join; [done|]. by rewrite Ht2.
Qed.

Lemma routed_set_sleft v :
  set_srt_opt_sleft (mem d) 4 v = Ret (hd ++ srt_raw (bits_set_sleft bits v) (carried p hops) ++ back).
Proof using Hr. destruct Hr as [_ _ Hm Hh _ Hb _ _ _ _ _]. rewrite Hm, <- Hh. by apply set_sleft_block. Qed.

(** The handler, for the node at place [S k] of the route. *)
Lemma srt_opt_recv_eq n al (k : nat) :
  (k <= length hops)%nat -> bits_sleft bits = zlen hops - Z.of_nat k ->
  srt_path (carried p hops) !! S k = Some (me (n_core n)) ->
  kmalloc (alloc (n_core n)) = (true, al) ->
  exists s prv nxt, srt_wf s /\ srt_path s = srt_path (carried p hops)
    /\ srt_path s !! k = Some prv /\ srt_path s !! Nat.min (S (S k)) (S (length hops)) = Some nxt
    /\ let p1 := heard p d bits s prv nxt in
       let m1 := hd ++ srt_raw (bits_set_sleft bits (bits_sleft bits - 1)) (carried p hops) ++ back in
       dsr_srt_opt_recv ip_csum junk now stale p (Optr (blk d) 4) n
       = (n1 ← srt_learn p1 s (set_core n (set_alloc (n_core n) al));
          if decide (k = length hops) then Ret (DSR_PKT_SRT_REMOVE, p1, n1)
          else Ret (DSR_PKT_FORWARD, set_mem p1 m1, n1)).
Proof using Hr.
  intros Hk Hsl Hme Hal. destruct routed_reads as (R1 & _ & R3 & R4 & R5 & t & Ht & R6).
  pose proof (rt_hops _ _ _ _ _ _ _ Hr) as Hn. pose proof (rt_heard _ _ _ _ _ _ _ Hr) as Hheard.
  set (s := DsrSrt (dp_src p) (dp_dst p) 0 (4 * zlen hops + 2) hops t) in *.
  assert (Hwf : srt_wf s) by (unfold srt_wf; cbn; lia).
  destruct (proj1 (hops_spec s k Hwf) Hk) as (me' & prv & Hme' & Hprv & N1 & N2 & nxt & N3 & Hnxt).
  change (srt_path s) with (srt_path (carried p hops)) in Hme'. rewrite Hme in Hme'. injection Hme' as <-.
  change (addrs s) with hops in N1, N2, N3, Hnxt. rewrite <- Hsl in N1, N2, N3.
  exists s, prv, nxt. split; [done|]. split; [done|]. split; [done|]. split; [done|].
  set (p0 := set_slots p (set_srt_opt (slots p) (Some (Optr (blk d) 4)))).
  assert (Hm0 : dh_mem p0 = d) by (unfold dh_mem, p0; cbn [dh set_slots]; by rewrite (rt_dh _ _ _ _ _ _ _ Hr)).
  unfold dsr_srt_opt_recv. fold p0. change (opt_off p0 (Optr (blk d) 4)) with (opt_off p (Optr (blk d) 4)).
  rewrite R1, Hm0. cbn [mbind outcome_bind]. rewrite R3. cbn [mbind outcome_bind].
  unfold Core.draw. rewrite Hal. change (dp_src p0) with (dp_src p). change (dp_dst p0) with (dp_dst p).
  rewrite R6. cbn [mbind outcome_bind]. rewrite R4. cbn [mbind outcome_bind].
  rewrite R5. cbn [mbind outcome_bind]. rewrite N1. cbn [mbind outcome_bind]. rewrite N2. cbn [mbind outcome_bind].
  rewrite N3. cbn [mbind outcome_bind].
  change (set_nxt_hop (set_prv_hop _ prv) nxt) with (heard p d bits s prv nxt).
  destruct (srt_learn (heard p d bits s prv nxt) s _) as [n1|] eqn:El; [|done]. cbn [mbind outcome_bind].
  apply srt_learn_conf in El. change (conf (n_core _)) with (conf (n_core n)) in El at 2.
  assert (Hms : may_shorten (heard p d bits s prv nxt) s (me (n_core n)) (bits_sleft bits) n1 = Ret false).
  { unfold may_shorten. case_match; [done|]. assert ((me (n_core n) =? me (n_core n1)) = true) as ->; [|done].
    unfold me. rewrite El. apply Z.eqb_refl. }
  rewrite Hms. cbn [mbind outcome_bind negb]. unfold promisc. cbn [dp_flags heard set_nxt_hop set_prv_hop set_salvage Pkt.set_srt set_slots].
  fold (promisc p). rewrite Hheard. rewrite srt_n_wf by done. change (addrs s) with hops.
  case_decide as Hkn.
  - rewrite Hsl, Hkn. unfold zlen. rewrite Z.sub_diag. done.
  - rewrite (proj2 (Z.eqb_neq (bits_sleft bits) 0)) by (rewrite Hsl; unfold zlen; lia).
    destruct (bits_sleft bits >? zlen hops) eqn:E; zb; [lia|]. by rewrite routed_set_sleft.
Qed.

End Routed.

(** The request behind the route. *)
Definition ack_back (ak : option Z) (prv : Z) (n : node) : outcome node :=
  match ak with Some id => dsr_ack_send ip_csum junk now prv id n | None => Ret n end.
Definition ack_action (ak : option Z) : Z := match ak with Some _ => DSR_PKT_NONE | None => 0 end.
Lemma ack_action_none ak : ack_action ak = 0 \/ ack_action ak = DSR_PKT_NONE.
Proof. destruct ak; [by right|by left]. Qed.
Definition ack_noted (ak : option Z) (o : optr) (p : dsr_pkt) : dsr_pkt :=
  match ak with Some _ => set_slots p (set_ack_req_opt (slots p) (Some o)) | None => p end.

Lemma routed_ack q d hd bits hops id room :
  routed q d hd bits hops (Some id) room ->
  let off := 8 + 4 * zlen hops in
  load8 (mem d) off = Ret DSR_OPT_ACK_REQ /\ load8 (mem d) (off + 1) = Ret 2 /\ ack_opt_id (mem d) off = Ret id.
Proof.
  intros [Hd Ht Hm Hh Hro Hb Hw Hn Hid _ _] off. pose proof (carried_aligned q hops Hn) as [Hwf _].
  set (pre := hd ++ srt_raw bits (carried q hops)).
  assert (Hpre : zlen pre = off).
  { unfold pre. rewrite zlen_app, Hh, srt_raw_len by done. unfold DSR_SRT_OPT_LEN, DSR_SRT_HDR_LEN, off. cbn. lia. }
  assert (Hm' : mem d = pre ++ DSR_OPT_ACK_REQ :: 2 :: bytes16 (htons id) ++ room) by (unfold pre; by rewrite Hm, <- app_assoc).
  split_and!.
  - rewrite Hm', <- Hpre. apply load8_here.
  - rewrite Hm', <- Hpre. apply load8_next.
  - unfold ack_opt_id, load16.
    assert (memread (mem d) (off + 2) 2 = Ret (bytes16 (htons id))) as ->.
    { rewrite Hm', (cons_middle DSR_OPT_ACK_REQ), (cons_middle 2), !app_assoc, <- (app_assoc _ (bytes16 _)).
      replace (off + 2) with (zlen ((pre ++ [DSR_OPT_ACK_REQ]) ++ [2])) by (rewrite !zlen_app, Hpre; change (zlen [_]) with 1; change (zlen [2]) with 1; lia).
      by apply memread_behind. }
    cbn [mbind outcome_bind]. simpl. rewrite le16_bytes16 by apply htons_range.
    rewrite ntohs_htons; [done|]. by apply Hid.
Qed.

(** The rest of the loop over the options. *)
Lemma recv_loop_ack fuel q d hd bits hops ak room a o n :
  routed q d hd bits hops ak room -> srt_opt (slots q) = Some o ->
  recv_loop ip_csum junk now stale (S (S fuel)) (blk d) (Pkt.tail d) (8 + 4 * zlen hops) (8 + 4 * zlen hops) a q n
  = (n' ← ack_back ak (prv_hop q) n;
     Ret (Z.lor a (ack_action ak), ack_noted ak (Optr (blk d) (8 + 4 * zlen hops)) q, n')).
Proof.
  intros Hq Ho. pose proof (zlen_nonneg hops). cbn [recv_loop]. rewrite (rt_tail _ _ _ _ _ _ _ Hq), ack_raw_len.
  destruct ak as [id|].
  2: { rewrite (proj2 (Z.ltb_ge _ _)) by lia. cbn. by rewrite Z.lor_0_r. }
  destruct (routed_ack _ _ _ _ _ _ _ Hq) as (A1 & A2 & A3).
  rewrite (proj2 (Z.ltb_lt _ _)) by lia. destruct (_ >? 2) eqn:E; zb; [|lia]. cbn [andb].
  assert (Hoff : forall q', dh q' = dh q -> opt_off q' (Optr (blk d) (8 + 4 * zlen hops)) = Ret (8 + 4 * zlen hops)).
  { intros q' Hd'. unfold opt_off, dh_buf. rewrite Hd', (rt_dh _ _ _ _ _ _ _ Hq). cbn. by rewrite Z.eqb_refl. }
  assert (Hmem : forall q', dh q' = dh q -> mem (dh_mem q') = mem d).
  { intros q' Hd'. unfold dh_mem. by rewrite Hd', (rt_dh _ _ _ _ _ _ _ Hq). }
  rewrite Hoff, Hmem, A1 by done. cbn [mbind outcome_bind].
  change (DSR_OPT_ACK_REQ =? DSR_OPT_PAD1) with false. cbv iota.
  change (recv_case ip_csum junk now stale q DSR_OPT_ACK_REQ (Optr (blk d) (8 + 4 * zlen hops)) n)
    with (dsr_ack_req_opt_recv ip_csum junk now q (Optr (blk d) (8 + 4 * zlen hops)) n).
  unfold dsr_ack_req_opt_recv. rewrite (rt_heard _ _ _ _ _ _ _ Hq).
  set (q1 := set_slots q _). rewrite (Hoff q1) by done. cbn [mbind outcome_bind]. rewrite (Hmem q1), A3 by done. cbn [mbind outcome_bind].
  change (srt_opt (slots q1)) with (srt_opt (slots q)). rewrite Ho. cbn [ack_back].
  change (prv_hop q1) with (prv_hop q).
  destruct (dsr_ack_send _ _ _ _ _ n) as [n'|]; [|done]. cbn [mbind outcome_bind].
  rewrite Hoff, Hmem, A2 by done. cbn [mbind outcome_bind].
  rewrite (proj2 (Z.ltb_ge _ _)) by lia. done.
Qed.

Section Handled.
Context (p : dsr_pkt) (d : dhbuf) (hd : bytes) (bits : Z) (hops : list Z) (ak : option Z) (room : bytes).
Context (Hr : routed p d hd bits hops ak room).

(** The handler leaves a packet of the same shape. *)
Lemma routed_heard s prv nxt : routed (heard p d bits s prv nxt) d hd bits hops ak room.
Proof using Hr. by destruct Hr. Qed.

Definition next_bits : Z := bits_set_sleft bits (bits_sleft bits - 1).
Definition next_buf : dhbuf := Dhbuf (blk d) (hd ++ srt_raw next_bits (carried p hops) ++ ack_raw ak ++ room) (Pkt.tail d).

Lemma routed_next s prv nxt :
  routed (set_mem (heard p d bits s prv nxt) (mem next_buf)) next_buf hd next_bits hops ak room.
Proof using Hr.
  pose proof (proj1 (bits_set_sleft_fields bits (bits_sleft bits - 1) (rt_bits _ _ _ _ _ _ _ Hr))).
  destruct Hr as [Hd Ht Hm Hh Hro Hb Hw Hn Hid Hs Hp].
  assert (E : set_mem (heard p d bits s prv nxt) (mem next_buf)
              = set_dh (heard p d bits s prv nxt) (Dh next_buf) (nblk p)).
  { unfold set_mem. change (dh (heard p d bits s prv nxt)) with (dh p). by rewrite Hd. }
  rewrite E. constructor; done.
Qed.

(** The options of the packet, given what the handler returns. *)
Lemma dsr_opt_recv_eq n a0 K :
  a0 = (if (dp_dst p =? me (n_core n)) && negb (payload_len p =? 0) then DSR_PKT_DELIVER else 0) ->
  dsr_srt_opt_recv ip_csum junk now stale p (Optr (blk d) 4) n = K ->
  (forall a q n', K = Ret (a, q, n') ->
     exists d' bits' o, routed q d' hd bits' hops ak room /\ blk d' = blk d /\ srt_opt (slots q) = Some o) ->
  dsr_opt_recv ip_csum junk now stale p n
  = ('(a, q, n') ← K; n' ← ack_back ak (prv_hop q) n';
     Ret (Z.lor (Z.lor a0 a) (ack_action ak), ack_noted ak (Optr (blk d) (8 + 4 * zlen hops)) q, n')).
Proof using Hr.
  intros Ha HK Hq. destruct (routed_reads p d hd bits hops ak room Hr) as (R1 & R2 & R3 & _).
  assert (Hm0 : dh_mem p = d) by (unfold dh_mem; by rewrite (rt_dh _ _ _ _ _ _ _ Hr)).
  pose proof (zlen_nonneg hops). pose proof (zlen_nonneg (ack_raw ak)). pose proof (rt_tail _ _ _ _ _ _ _ Hr) as Ht.
  unfold dsr_opt_recv, dsr_pkt_opts_len. rewrite <- Ha.
  rewrite Hm0, (rt_dh _ _ _ _ _ _ _ Hr). cbn [mbind outcome_bind].
  replace (S (Z.to_nat (Pkt.tail d))) with (S (S (S (Z.to_nat (Pkt.tail d - 2))))) by lia.
  set (fuel := S (S (Z.to_nat (Pkt.tail d - 2)))). cbn [recv_loop]. change DSR_OPT_HDR_LEN with 4.
  rewrite (proj2 (Z.ltb_lt 4 _)) by lia. destruct (_ >? 2) eqn:E; zb; [|lia]. cbn [andb].
  rewrite Hm0, R1. cbn [mbind outcome_bind]. rewrite R2. cbn [mbind outcome_bind].
  change (recv_case ip_csum junk now stale p DSR_OPT_SRT (Optr (blk d) 4) n)
    with (dsr_srt_opt_recv ip_csum junk now stale p (Optr (blk d) 4) n).
  change (DSR_OPT_SRT =? DSR_OPT_PAD1) with false. cbv iota. rewrite HK.
  destruct K as [[[a q] n']|]; [|done]. cbn [mbind outcome_bind].
  destruct (Hq a q n' eq_refl) as (d' & bits' & o & Hq' & Hb & Ho).
  destruct (routed_reads q d' hd bits' hops ak room Hq') as (Q1 & _ & Q3 & _). rewrite <- Hb, Q1.
  cbn [mbind outcome_bind]. unfold dh_mem. rewrite (rt_dh _ _ _ _ _ _ _ Hq'). unfold opt_length in Q3. rewrite Q3.
  cbn [mbind outcome_bind]. replace (4 + (4 * zlen hops + 2) + 2) with (8 + 4 * zlen hops) by lia.
  assert (Pkt.tail d = Pkt.tail d') as -> by (rewrite Ht; symmetry; apply Hq').
  by apply (recv_loop_ack _ q d' hd bits' hops ak room _ o).
Qed.
End Handled.

(** The options and the actions of such a packet, once the source route is
    handled with this action, packet and node. *)
Lemma recv_after p d hd bits hops ak room n (a0 a : Z) q d' bits' m :
  routed p d hd bits hops ak room -> routed q d' hd bits' hops ak room -> blk d' = blk d ->
  a0 = (if (dp_dst p =? me (n_core n)) && negb (payload_len p =? 0) then DSR_PKT_DELIVER else 0) ->
  dsr_srt_opt_recv ip_csum junk now stale p (Optr (blk d) 4) n = (n1 ← m; Ret (a, q, n1)) ->
  (exists o, srt_opt (slots q) = Some o) ->
  let q' := ack_noted ak (Optr (blk d) (8 + 4 * zlen hops)) q in
  dsr_recv ip_csum junk now rr stale p n
  = (n1 ← m; n2 ← ack_back ak (prv_hop q) n1;
     act_loop (Z.to_nat DSR_PKT_ACTION_LAST) 0 (Z.lor (Z.lor a0 a) (ack_action ak)) q' n2).
Proof.
  intros Hr Hq Hb Ha E [o Ho] q'. unfold dsr_recv. rewrite (rt_heard _ _ _ _ _ _ _ Hr). cbn [andb].
  rewrite (dsr_opt_recv_eq p d hd bits hops ak room Hr n _ _ Ha E).
  2: { intros a' q0 n' Hq'. obind Hq' as n1 En. injection Hq' as <- <- <-. by exists d', bits', o. }
  destruct m as [n1|]; [|done]. cbn [mbind outcome_bind].
  destruct (ack_back ak (prv_hop q) n1) as [n2|]; [|done]. cbn [mbind outcome_bind].
  fold q'. assert (promisc q' = false) as ->; [|done].
  unfold q'. destruct ak; [apply (rt_heard _ _ _ _ _ _ _ Hq)..].
Qed.

(** Receiving such a packet. *)
Lemma recv_routed p d hd bits hops ak room n al (k : nat) :
  routed p d hd bits hops ak room ->
  (k <= length hops)%nat -> bits_sleft bits = zlen hops - Z.of_nat k ->
  srt_path (carried p hops) !! S k = Some (me (n_core n)) ->
  kmalloc (alloc (n_core n)) = (true, al) ->
  exists s prv nxt, srt_wf s /\ srt_path s = srt_path (carried p hops)
    /\ srt_path s !! k = Some prv /\ srt_path s !! Nat.min (S (S k)) (S (length hops)) = Some nxt
    /\ let p1 := heard p d bits s prv nxt in
       let noted := ack_noted ak (Optr (blk d) (8 + 4 * zlen hops)) in
       let p2 := noted (set_mem p1 (mem (next_buf p d hd bits hops ak room))) in
       let n0 := set_core n (set_alloc (n_core n) al) in
       ((k < length hops)%nat -> dp_dst p <> me (n_core n) ->
          forall h ttl, nh_bytes p = Ret h -> ip_ttl h = Ret ttl ->
          dsr_recv ip_csum junk now rr stale p n
          = (n1 ← srt_learn p1 s n0; n2 ← ack_back ak prv n1;
             if ttl <? 1 then Ret (free p2 n2) else XMIT p2 n2))
       /\ (k = length hops -> payload_len p <> 0 ->
          dsr_recv ip_csum junk now rr stale p n
          = (n1 ← srt_learn p1 s n0; n2 ← ack_back ak prv n1; DELIVER (noted p1) n2)).
Proof.
  intros Hr Hk Hsl Hme Hal.
  destruct (srt_opt_recv_eq p d hd bits hops ak room Hr n al k Hk Hsl Hme Hal) as (s & prv & nxt & Hwf & Hp & Hprv & Hnxt & E).
  exists s, prv, nxt. do 4 (split; [done|]). cbv zeta in E |- *.
  set (p1 := heard p d bits s prv nxt) in *. set (n0 := set_core n _) in *.
  split.
  - intros Hkn Hdst h ttl Hh Httl. rewrite bind_decide_False in E by lia.
    change (hd ++ srt_raw _ _ ++ ack_raw ak ++ room) with (mem (next_buf p d hd bits hops ak room)) in E.
    pose proof (routed_next p d hd bits hops ak room Hr s prv nxt) as Hq.
    rewrite (recv_after p d hd bits hops ak room n 0 _ _ _ _ _ Hr Hq eq_refl) with (2 := E).
    2: by rewrite (proj2 (Z.eqb_neq _ _) Hdst).
    2: { eexists. unfold set_mem. change (dh (heard p d bits s prv nxt)) with (dh p). by rewrite (rt_dh _ _ _ _ _ _ _ Hr). }
    apply bind_ext. intros n1.
    assert (Hsm : prv_hop (set_mem p1 (mem (next_buf p d hd bits hops ak room))) = prv
             /\ nh_bytes (set_mem p1 (mem (next_buf p d hd bits hops ak room))) = nh_bytes p).
    { unfold set_mem. change (dh p1) with (dh p). by rewrite (rt_dh _ _ _ _ _ _ _ Hr). }
    destruct Hsm as [Hpv Hnh]. fold p1. rewrite Hpv. apply bind_ext. intros n2.
    change (Z.lor 0 DSR_PKT_FORWARD) with DSR_PKT_FORWARD. apply (act_forward _ _ h); [apply ack_action_none| |done].
    rewrite <- Hh, <- Hnh. by destruct ak.
  - intros Hkn Hpl. rewrite bind_decide_True in E by done.
    assert (Hdst : dp_dst p = me (n_core n)).
    { rewrite Hkn in Hme. change (S (length hops)) with (S (length (addrs (carried p hops)))) in Hme.
      rewrite path_lookup_last in Hme. by injection Hme. }
    rewrite (recv_after p d hd bits hops ak room n DSR_PKT_DELIVER _ p1 d bits _ Hr) with (4 := E);
      [|by apply routed_heard|done|by rewrite Hdst, Z.eqb_refl, (proj2 (Z.eqb_neq _ _) Hpl)|by eexists].
    apply bind_ext. intros n1. apply bind_ext. intros n2. apply act_deliver, ack_action_none.
Qed.

End Spec.

(** Node 2 has a packet from 1 to 3 over itself, which 1 wants acknowledged. *)
Definition passing_pkt : dsr_pkt :=
  let m := [6; 0; 0; 12] ++ srt_raw (srt_bits 0 0 0 0 1) (DsrSrt 1 3 0 4 [2] []) ++ ack_raw (Some 77) ++ repeat 0 128 in
  let h := iph_enc (Iph 0 (htons 44) 0 0 64 IPPROTO_DSR 0 1 3) in
  set_skb (set_ip (set_dh (set_addrs pkt0 1 3 0) (Dh (Dhbuf 0 m 16)) 1) NhSkb (repeat 0 60)) (Some (Skb 7 (repeat 9 6) h)).

Lemma passing_routed :
  routed passing_pkt (dh_mem passing_pkt) [6; 0; 0; 12] (srt_bits 0 0 0 0 1) [2] (Some 77) (repeat 0 128).
Proof.
  constructor; try reflexivity.
  - by vm_compute.
  - split; vm_compute; congruence.
  - repeat constructor; vm_compute; congruence.
  - by vm_compute.
  - intros id [= <-]. lia.
  - by eexists.
Qed.

