(* ===== verification/CoreKept.v ===== *)
(** * What the node's operations keep

    The operations on the link cache, on the node below its buffers and on the
    maintenance buffer leave every table well formed, whatever the packets hold
    and whatever the allocator answers. *)

From S2P Require Import Prelude Timer Config Mem Tbl Keep Srt LinkCache Neigh GratRrep Pkt Opt Send Salvage MaintBuf Core.

(** ** The link cache *)

Record lkept (g g' : lc_graph) : Prop := {
  lk_nodes : tkept (lc_nodes g) (lc_nodes g');
  lk_links : tkept (lc_links g) (lc_links g');
  lk_lock : lc_locked g' = lc_locked g
}.

#[export] Instance lkept_pre : PreOrder lkept.
Proof.
  split; [by split|]. intros a b c [N1 L1 K1] [N2 L2 K2]. split; [by etransitivity..|congruence].
Qed.

Lemma lkept_nodes g t h : tkept (lc_nodes g) t -> lkept g (LinkCache.set_nodes g t h).
Proof. by split. Qed.
Lemma lkept_links g t h : tkept (lc_links g) t -> lkept g (LinkCache.set_links g t h).
Proof. by split. Qed.
Lemma lkept_src g s : lkept g (LinkCache.set_src g s).
Proof. by split. Qed.
Lemma lkept_next g p : lkept g (LinkCache.set_next g p).
Proof. by split. Qed.
#[export] Hint Resolve lkept_nodes lkept_links lkept_src lkept_next : kept.

Lemma lkept_lock g g1 g2 : lc_lock g = Ret g1 -> lkept g1 g2 -> lkept g (lc_unlock g2).
Proof.
  unfold lc_lock. intros H [N L K]. run H. split; simpl in *; [done..|]. by destruct (lc_locked g).
Qed.

Section LinkCacheKept.
Implicit Types g : lc_graph.

Lemma node_free_kept g p g' : lc_node_free g p = Ret g' -> lkept g g'.
Proof. unfold lc_node_free. intros H. run H; eauto with kept. Qed.
#[local] Hint Resolve node_free_kept : kept.

Lemma node_unlink_kept g p g' : node_unlink g p = Ret g' -> lkept g g'.
Proof.
  unfold node_unlink. intros H. run H; [|by apply lkept_nodes].
  etransitivity; [|eauto with kept]. by apply lkept_nodes.
Qed.
#[local] Hint Resolve node_unlink_kept : kept.

Lemma link_del_kept g q g' : __lc_link_del g q = Ret g' -> lkept g g'.
Proof.
  unfold __lc_link_del. intros H. run H; (etransitivity; [|eapply lkept_links; eauto with kept]); chain.
Qed.
#[local] Hint Resolve link_del_kept : kept.

Lemma lc_link_del_kept g a b r g' : lc_link_del g a b = Ret (r, g') -> lkept g g'.
Proof.
  unfold lc_link_del. intros H. run H; (eapply lkept_lock; [eassumption|]);
    (etransitivity; [|apply lkept_src]); chain.
Qed.

Lemma node_create_kept g mem a r g' mem' : lc_node_create g mem a = (r, g', mem') -> lkept g g'.
Proof. unfold lc_node_create. intros H. run H; [by split|done]. Qed.
#[local] Hint Resolve node_create_kept : kept.

Lemma node_get_kept g mem a r g' mem' : lc_node_get g mem a = Ret (r, g', mem') -> lkept g g'.
Proof.
  unfold lc_node_get. intros H. run H; chain.
Qed.
#[local] Hint Resolve node_get_kept : kept.

Lemma node_link_kept g p g' : node_link g p = Ret g' -> lkept g g'.
Proof. unfold node_link. intros H. run H. by apply lkept_nodes. Qed.
Lemma link_update_kept g q now t s c g' : link_update g q now t s c = Ret g' -> lkept g g'.
Proof. unfold link_update. intros H. run H. by apply lkept_links. Qed.
#[local] Hint Resolve node_link_kept link_update_kept : kept.

Lemma link_tbl_add_kept g mem now s d t st c r g' mem' :
  __lc_link_tbl_add g mem now s d t st c = Ret (r, g', mem') -> lkept g g'.
Proof.
  unfold __lc_link_tbl_add. intros H. run H; try done; chain.
Qed.
#[local] Hint Resolve link_tbl_add_kept : kept.

Lemma link_add_kept g mem now a b t st c r g' mem' : __lc_link_add g mem now a b t st c = Ret (r, g', mem') -> lkept g g'.
Proof. unfold __lc_link_add. intros H. run H; chain. Qed.
#[local] Hint Resolve link_add_kept : kept.

Lemma lc_link_add_kept g mem now a b t st c r g' mem' : lc_link_add g mem now a b t st c = Ret (r, g', mem') -> lkept g g'.
Proof. unfold lc_link_add. intros H. run H. eapply lkept_lock; eauto with kept. Qed.

Lemma add_hop_kept bi g mem now a b t r g' mem' : srt_add_hop bi g mem now a b t = Ret (r, g', mem') -> lkept g g'.
Proof. unfold srt_add_hop. intros H. run H; chain. Qed.
#[local] Hint Resolve add_hop_kept : kept.

Lemma add_loop_kept srt bi turns i g mem now a t n r g' mem' :
  srt_add_loop srt bi turns i g mem now a t n = Ret (r, g', mem') -> lkept g g'.
Proof.
  revert i g mem a n. induction turns as [|turns IH]; intros i g mem a n H; cbn [srt_add_loop] in H; run H; [done|].
  etransitivity; [|eapply IH; eassumption]. chain.
Qed.

Lemma lc_srt_add_kept g mem now srt t r g' mem' : lc_srt_add g mem now srt t = Ret (r, g', mem') -> lkept g g'.
Proof.
  unfold lc_srt_add. intros H. run H; [|done]. eapply lkept_lock; [eassumption|].
  etransitivity; [eapply add_loop_kept; eassumption|]. chain.
Qed.

Lemma move_kept fuel to from to' from' : __lc_move fuel to from = Ret (to', from') -> tkept to to'.
Proof.
  revert to from. induction fuel as [|fuel IH]; intros to from H; cbn [__lc_move] in H; run H; try done.
  etransitivity; [|eapply IH; eassumption]. chain.
Qed.

Lemma dijkstra_loop_kept fuel ls lh ns s h ns' s' h' :
  dijkstra_loop fuel ls lh ns s h = Ret (ns', s', h') -> tkept ns ns'.
Proof.
  revert ns s h. induction fuel as [|fuel IH]; intros ns s h H; cbn [dijkstra_loop] in H; run H; try done.
  etransitivity; [|eapply IH; eassumption]. chain.
Qed.

Lemma init_single_source_kept t h a t' h' : __dijkstra_init_single_source t h a = Ret (t', h') -> tkept t t'.
Proof. unfold __dijkstra_init_single_source. intros H. run H. eauto with kept. Qed.
#[local] Hint Resolve init_single_source_kept : kept.

Lemma dijkstra_kept g a g' : __dijkstra g a = Ret g' -> lkept g g'.
Proof.
  unfold __dijkstra. intros H. run H; try done; [|eauto with kept].
  split; simpl; [|done|done]. etransitivity; [|eapply move_kept; eassumption].
  etransitivity; [|eapply dijkstra_loop_kept; eassumption]. chain.
Qed.

Lemma lc_srt_find_kept g mem a b r g' mem' : lc_srt_find g mem a b = Ret (r, g', mem') -> lkept g g'.
Proof. unfold lc_srt_find. intros H. run H; try done; (eapply lkept_lock; [eassumption|]); by eapply dijkstra_kept. Qed.
End LinkCacheKept.
#[export] Hint Resolve lc_link_del_kept lc_link_add_kept lc_srt_add_kept lc_srt_find_kept : kept.

(** ** The node below its buffers *)

Record ckept (c c' : core) : Prop := {
  ck_conf : conf c' = conf c;
  ck_lc : lkept (lc c) (lc c');
  ck_neigh : neigh_ok (neigh c) -> neigh_ok (neigh c');
  ck_grat : grat_ok (grat c) -> grat_ok (grat c')
}.

#[export] Instance ckept_pre : PreOrder ckept.
Proof.
  split; [by split|]. intros a b c [N1 L1 K1 G1] [N2 L2 K2 G2]. split; [congruence|by etransitivity|auto..].
Qed.

Lemma ckept_lc c g : lkept (lc c) g -> ckept c (Core.set_lc c g).
Proof. by split. Qed.
Lemma ckept_neigh c t : (neigh_ok (neigh c) -> neigh_ok t) -> ckept c (set_neigh c t).
Proof. by split. Qed.
Lemma ckept_grat c t : (grat_ok (grat c) -> grat_ok t) -> ckept c (set_grat c t).
Proof. by split. Qed.
Lemma ckept_alloc c m : ckept c (set_alloc c m).
Proof. by split. Qed.
Lemma ckept_skb c k : ckept c (set_next_skb c k).
Proof. by split. Qed.
Lemma ckept_emit c e : ckept c (emit e c).
Proof. by split. Qed.
Lemma ckept_free p c : ckept c (dsr_pkt_free p c).
Proof. apply ckept_emit. Qed.
#[export] Hint Resolve ckept_lc ckept_neigh ckept_grat ckept_alloc ckept_skb ckept_emit ckept_free : kept.

Lemma neigh_add_kept t mem a hw r t' mem' : neigh_tbl_add t mem a hw = Ret (r, t', mem') -> neigh_ok t -> neigh_ok t'.
Proof. intros H. apply neigh_step_ok. by eapply nst_add. Qed.
Lemma neigh_ack_req_kept t now a r t' : neigh_tbl_set_ack_req_time t now a = Ret (r, t') -> neigh_ok t -> neigh_ok t'.
Proof. intros H. apply neigh_step_ok. by eapply nst_ack_req. Qed.
Lemma neigh_id_inc_kept t a r t' : neigh_tbl_id_inc t a = Ret (r, t') -> neigh_ok t -> neigh_ok t'.
Proof. intros H. apply neigh_step_ok. by eapply nst_id_inc. Qed.
Lemma neigh_set_rto_kept t a i r t' : neigh_tbl_set_rto t a i = Ret (r, t') -> neigh_ok t -> neigh_ok t'.
Proof. intros H. apply neigh_step_ok. by eapply nst_set_rto. Qed.
Lemma grat_add_kept dn now stale mem st a b r st' mem' :
  grat_rrep_tbl_add dn now stale mem st a b = Ret (r, st', mem') -> grat_ok st -> grat_ok st'.
Proof. intros H. eapply grat_step_ok. by eapply GratRrep.step_add. Qed.
#[export] Hint Resolve neigh_add_kept neigh_ack_req_kept neigh_id_inc_kept neigh_set_rto_kept grat_add_kept : kept.

Section CoreKept.
Context (ip_csum : bytes -> Z) (junk : Z -> Z) (now : timeval) (rr : dsr_pkt -> option Z).
Implicit Types c : core.

Lemma draw_kept c ok c' : draw c = (ok, c') -> ckept c c'.
Proof. unfold draw. intros H. run H. apply ckept_alloc. Qed.
Lemma draw_bytes_kept c ans c' : draw_bytes junk c = (ans, c') -> ckept c c'.
Proof. unfold draw_bytes. intros H. destruct (draw c) as [ok c1] eqn:E. run H. by eapply draw_kept. Qed.
#[local] Hint Resolve draw_kept draw_bytes_kept : kept.

Lemma rtc_find_kept a b c r c' : rtc_find a b c = Ret (r, c') -> ckept c c'.
Proof. unfold rtc_find. intros H. run H. chain. Qed.
Lemma rtc_add_kept s c c' : rtc_add now s c = Ret c' -> ckept c c'.
Proof. unfold rtc_add. intros H. run H. chain. Qed.
Lemma link_add_kept' a b c c' : link_add now a b c = Ret c' -> ckept c c'.
Proof. unfold link_add. intros H. run H. chain. Qed.
Lemma neigh_add_kept' a hw c c' : neigh_add a hw c = Ret c' -> ckept c c'.
Proof. unfold neigh_add. intros H. run H. chain. Qed.
#[local] Hint Resolve rtc_find_kept rtc_add_kept link_add_kept' neigh_add_kept' : kept.

Lemma dev_send_kept p c c' : dsr_dev_send ip_csum junk p c = Ret c' -> ckept c c'.
Proof. unfold dsr_dev_send. intros H. run H; chain. Qed.
Lemma dev_deliver_kept p c c' : dsr_dev_deliver ip_csum junk rr p c = Ret c' -> ckept c c'.
Proof. unfold dsr_dev_deliver. intros H. run H; chain. Qed.
#[local] Hint Resolve dev_send_kept dev_deliver_kept : kept.

Lemma rerr_send_kept p a c c' : dsr_rerr_send ip_csum junk p a c = Ret c' -> ckept c c'.
Proof. unfold dsr_rerr_send. intros H. run H; chain. Qed.
Lemma ack_req_send_kept a i c c' : dsr_ack_req_send ip_csum junk a i c = Ret c' -> ckept c c'.
Proof. unfold dsr_ack_req_send. intros H. run H; chain. Qed.
Lemma entry_pkt_kept p c r c' : entry_pkt junk p c = Ret (r, c') -> ckept c c'.
Proof. unfold entry_pkt. intros H. run H; chain. Qed.
Lemma salvage_pkt_kept p c r c' : salvage_pkt junk p c = Ret (r, c') -> ckept c c'.
Proof. unfold salvage_pkt. intros H. run H; chain. Qed.
End CoreKept.

(** ** The maintenance buffer *)

(** What the operations of the interface keep of the rest of the node. *)
Class PeersKept {W : Type} `{Peers W} (R : relation W) := {
  pk_pre :: PreOrder R;
  pk_set_ack_req_time a w w' : p_set_ack_req_time a w = Ret w' -> R w w';
  pk_id_inc a w w' : p_id_inc a w = Ret w' -> R w w';
  pk_set_rto a i w w' : p_set_rto a i w = Ret w' -> R w w';
  pk_link_del a b w w' : p_link_del a b w = Ret w' -> R w w';
  pk_rerr_send p a w w' : p_rerr_send p a w = Ret w' -> R w w';
  pk_ack_req_send a i w w' : p_ack_req_send a i w = Ret w' -> R w w';
  pk_ack_req_opt_add p i w p' w' : p_ack_req_opt_add p i w = Ret (p', w') -> R w w';
  pk_entry_pkt p w r w' : p_entry_pkt p w = Ret (r, w') -> R w w';
  pk_salvage p w r w' : p_salvage p w = Ret (r, w') -> R w w';
  pk_device p w w' : p_device p w = Ret w' -> R w w';
  pk_pkt_free p w : R w (p_pkt_free p w)
}.

Record mkept {W} (R : relation W) (s s' : maint_st W) : Prop := {
  mk_peers : R (peers s) (peers s');
  mk_buf : tkept (maint_buf s) (maint_buf s')
}.

#[export] Instance mkept_pre {W} (R : relation W) `{!PreOrder R} : PreOrder (mkept R).
Proof. split; [by split|]. intros a b c [P1 B1] [P2 B2]. split; by etransitivity. Qed.

Lemma for_each_del_data {A D} (R : relation D) `{!PreOrder R} (crit : del_crit_t A D) d n ln l n' ln' l' d' :
  (forall a x b y, crit a x = Ret (b, y) -> R x y) ->
  for_each_del crit d n ln l = Ret (n', ln', l', d') -> R d d'.
Proof.
  intros Hc. revert d n ln n' ln' l' d'. induction l as [|a l IH]; intros d n ln n' ln' l' d' H; cbn [for_each_del] in H; run H.
  - done.
  - etransitivity; [by eapply Hc|by eapply IH].
  - etransitivity; [by eapply Hc|by eapply IH].
Qed.

Section Parts.
Context {W : Type} (R : relation W).
Implicit Types s : maint_st W.
Lemma mk_set_peers s w : R (peers s) w -> mkept R s (set_peers s w).
Proof. by split. Qed.
Lemma mk_parts s t tm w : tkept (maint_buf s) t -> R (peers s) w -> mkept R s (MaintSt t tm w).
Proof. by split. Qed.
End Parts.
#[export] Hint Resolve mk_set_peers mk_parts : kept.

Section MaintKept.
Context {W : Type} `{Peers W} (R : relation W) `{!PeersKept R}.
Context (dn : option dsr_node) (myaddr : Z) (now : timeval).
Implicit Types s : maint_st W.

Ltac peer_step := first
  [ eapply pk_set_ack_req_time; eassumption | eapply pk_id_inc; eassumption | eapply pk_set_rto; eassumption
  | eapply pk_link_del; eassumption | eapply pk_rerr_send; eassumption | eapply pk_ack_req_send; eassumption
  | eapply pk_ack_req_opt_add; eassumption | eapply pk_entry_pkt; eassumption | eapply pk_salvage; eassumption
  | eapply pk_device; eassumption | apply pk_pkt_free ].
#[local] Hint Extern 1 (R _ _) => peer_step : kept.

Lemma mk_set_buf s t : tkept (maint_buf s) t -> mkept R s (set_buf s t).
Proof using PeersKept0. by split. Qed.
Lemma mk_set_timer s tm : mkept R s (set_ack_timer s tm).
Proof using PeersKept0. by split. Qed.
#[local] Hint Resolve mk_set_buf mk_set_timer : kept.

(** Under the lock of the buffer. *)
Lemma mk_locked s t s1 tm w :
  write_lock_bh (maint_buf s) = Ret t -> R (peers s) w -> mkept R (MaintSt t tm w) s1 ->
  mkept R s (set_buf s1 (write_unlock_bh (maint_buf s1))).
Proof using PeersKept0.
  intros E Hw [P B]. split; [by etransitivity|]. by eapply locked_kept.
Qed.

Lemma entry_create_kept p i rto w r w' : maint_entry_create now p i rto w = Ret (r, w') -> R w w'.
Proof using PeersKept0. unfold maint_entry_create. intros H1. run H1; eauto with kept. Qed.
#[local] Hint Resolve entry_create_kept : kept.

(** The request goes onto the packet when the last one is some time ago. *)
Lemma ask_kept (b : bool) m p w m' p' w' :
  (if b then
     w ← p_set_ack_req_time (m_nxt_hop m) w;
     w ← p_id_inc (m_nxt_hop m) w;
     '(dp, w) ← p_ack_req_opt_add p (m_id m) w;
     Ret (set_ack_req_sent m true, dp, w)
   else Ret (m, p, w)) = Ret (m', p', w') -> R w w'.
Proof using PeersKept0. intros E. run E; chain. Qed.
#[local] Hint Resolve ask_kept : kept.

Section Add.
Context (set_timeout : maint_st W -> outcome (maint_st W)).
Context (Hst : forall s s', set_timeout s = Ret s' -> mkept R s s').

Lemma maint_buf_add_kept p s r p' s' : maint_buf_add dn now set_timeout p s = Ret (r, p', s') -> mkept R s s'.
Proof using Hst PeersKept0.
  unfold maint_buf_add. intros H1. run H1; try done.
  - split; simpl; [chain|]. eapply locked_kept; [eassumption|]. chain.
  - eapply (mk_locked s _ _ (ack_timer s)); [eassumption| |etransitivity; [|eapply Hst; eassumption]; apply mk_parts]; chain.
  - apply mk_set_peers. chain.
  - apply mk_set_peers. chain.
Qed.

Lemma dev_xmit_kept p s s' :
  dsr_dev_xmit (maint_buf_add dn now set_timeout) p s = Ret s' -> mkept R s s'.
Proof using Hst PeersKept0.
  unfold dsr_dev_xmit. intros H1. run H1. etransitivity; [|apply mk_set_peers; chain].
  run E; [by eapply maint_buf_add_kept|done].
Qed.
End Add.

Section Turn.
Context (xmit : dsr_pkt -> maint_st W -> outcome (maint_st W)).
Context (Hx : forall p s s', xmit p s = Ret s' -> mkept R s s').

Lemma salvage_or_free_kept p s s' : salvage_or_free xmit p s = Ret s' -> mkept R s s'.
Proof using Hx PeersKept0.
  unfold salvage_or_free. intros H1. run H1; [|apply mk_set_peers; chain].
  etransitivity; [|eapply Hx; eassumption]. apply mk_set_peers. chain.
Qed.

Lemma salvage_loop_kept fuel a s s' : salvage_loop xmit fuel a s = Ret s' -> mkept R s s'.
Proof using Hx PeersKept0.
  revert s. induction fuel as [|fuel IH]; intros s H1; cbn [salvage_loop] in H1; run H1; [|apply mk_set_buf; chain].
  etransitivity; [|eapply IH; eassumption]. etransitivity; [|eapply salvage_or_free_kept; eassumption].
  apply mk_set_buf. chain.
Qed.

Lemma maint_turn_kept s out s' : maint_turn dn myaddr now xmit s = Ret (out, s') -> mkept R s s'.
Proof using Hx PeersKept0.
  unfold maint_turn. intros H1. run H1; try done.
  - run E3.
    + etransitivity; [|eapply salvage_loop_kept; eassumption].
      etransitivity; [|eapply salvage_or_free_kept; eassumption].
      split; simpl; chain.
    + split; simpl; chain.
  - split; simpl; [run E3; [chain|done]|chain].
Qed.
End Turn.

Lemma alter_kept {A} p g (t : tbl A) : tkept t (set_elems t (alter_first p g (elems t)) (len t)).
Proof.
  split; [|done..]. unfold tbl_wf, zlen. simpl. by rewrite alter_first_length.
Qed.

Lemma set_timeout_kept fuel s s' : _maint_buf_set_timeout dn myaddr now fuel s = Ret s' -> mkept R s s'.
Proof using PeersKept0.
  revert s s'. induction fuel as [|fuel IH]; intros s s' H1; [done|]. cbn [_maint_buf_set_timeout] in H1.
  assert (Hx : forall p s s', dsr_dev_xmit (maint_buf_add dn now (_maint_buf_set_timeout dn myaddr now fuel)) p s = Ret s' -> mkept R s s').
  { intros p a b. apply dev_xmit_kept. apply IH. }
  pose proof (fun p g => mk_set_buf s _ (alter_kept p g (maint_buf s))) as Ha.
  run H1; try done; (etransitivity; [apply Ha|]).
  - etransitivity; [eapply maint_turn_kept; eassumption|]. by eapply IH.
  - eapply maint_turn_kept; eassumption.
  - apply mk_set_timer.
Qed.

Lemma XMIT_kept p s s' : MaintBuf.XMIT dn myaddr now p s = Ret s' -> mkept R s s'.
Proof using PeersKept0. apply dev_xmit_kept. apply set_timeout_kept. Qed.

Lemma with_lock_kept f s s' :
  (forall a b, f a = Ret b -> mkept R a b) -> with_lock f s = Ret s' -> mkept R s s'.
Proof using PeersKept0.
  unfold with_lock. intros Hf H1. run H1. eapply (mk_locked s _ _ (ack_timer s)); [eassumption| |by eapply Hf]. chain.
Qed.

Lemma timeout_kept s s' : maint_buf_timeout dn myaddr now s = Ret s' -> mkept R s s'.
Proof using PeersKept0.
  apply with_lock_kept. unfold _maint_buf_timeout. intros a b H1.
  run H1; (etransitivity; [eapply maint_turn_kept; [|eassumption]; apply dev_xmit_kept; apply set_timeout_kept|]).
  - by eapply set_timeout_kept.
  - done.
Qed.

Lemma acked_kept a id q t r t' q' :
  __tbl_for_each_del t q (crit_addr_id_del now a id) = Ret (r, t', q') -> R q.2 q'.2.
Proof using PeersKept0.
  unfold __tbl_for_each_del. intros E. run E.
  assert (PreOrder (λ x y : Z * W, R x.2 y.2)).
  { split; [intros x; reflexivity|intros x y z ??; by etransitivity]. }
  eapply (for_each_del_data (λ x y : Z * W, R x.2 y.2)); [|eassumption].
  intros m [x w] b y H1. unfold crit_addr_id_del in H1. run H1; [apply pk_pkt_free|done].
Qed.

Lemma del_all_id_kept a id s r s' : maint_buf_del_all_id dn myaddr now a id s = Ret (r, s') -> mkept R s s'.
Proof using PeersKept0.
  unfold maint_buf_del_all_id. intros H1. run H1.
  eapply (mk_locked s _ _ (ack_timer s) (peers s)); [eassumption|reflexivity|].
  etransitivity; [|eapply set_timeout_kept; eassumption]. apply mk_parts; [chain|].
  etransitivity; [exact (acked_kept _ _ _ _ _ _ _ E0)|]. run E3; [chain|done].
Qed.

Lemma dropped_kept a q t r t' q' : __tbl_for_each_del t q (crit_addr_del now a) = Ret (r, t', q') -> R q.2 q'.2.
Proof using PeersKept0.
  unfold __tbl_for_each_del. intros E. run E.
  assert (PreOrder (λ x y : Z * W, R x.2 y.2)).
  { split; [intros x; reflexivity|intros x y z ??; by etransitivity]. }
  eapply (for_each_del_data (λ x y : Z * W, R x.2 y.2)); [|eassumption].
  intros m [x w] b y H1. unfold crit_addr_del in H1. run H1; [apply pk_pkt_free|done].
Qed.

Lemma del_all_kept a s r s' : maint_buf_del_all dn myaddr now a s = Ret (r, s') -> mkept R s s'.
Proof using PeersKept0.
  unfold maint_buf_del_all. intros H1. run H1.
  eapply (mk_locked s _ _ (ack_timer s) (peers s)); [eassumption|reflexivity|].
  etransitivity; [|eapply set_timeout_kept; eassumption]. apply mk_parts; [chain|].
  exact (dropped_kept _ _ _ _ _ _ E0).
Qed.
End MaintKept.

#[export] Instance core_peers_kept ip_csum junk now : PeersKept (H := core_peers ip_csum junk now) ckept.
Proof.
  split; [apply _|..]; cbn; intros *.
  - intros H. run H. chain.
  - intros H. run H. chain.
  - intros H. run H. chain.
  - intros H. run H. chain.
  - apply rerr_send_kept.
  - apply ack_req_send_kept.
  - intros H. destruct (draw_bytes junk w) as [ans c] eqn:E. run H. by eapply draw_bytes_kept.
  - apply entry_pkt_kept.
  - apply salvage_pkt_kept.
  - apply dev_send_kept.
  - apply ckept_free.
Qed.
