(* ===== verification/NodeInv.v ===== *)
(** * The invariant of a node

    What holds in every state a node reaches, whatever arrives, whatever the
    allocator answers and whichever timers expire: every lock is free between two
    events, and the tables are what their operations take them to be. *)

From S2P Require Import Prelude Timer Config Mem Tbl Keep Srt LinkCache Neigh RreqTbl GratRrep Pkt Opt Send SendBuf Salvage MaintBuf Core CoreKept Node Wire.

(** ** The route request table *)

Definition rgood (K : Z) (r : rreq_tbl_st) : Prop := rq_ok K r /\ locked (rreq_tbl r) = false.

(** The allocator only decides whether there is an entry. *)
Lemma entry_last_any dn mem a r o r' mem' :
  rreq_entry_last dn mem a r = Ret (o, r', mem') ->
  match o with
  | None => r' = r
  | Some p => exists mem2, rreq_entry_last dn [] a r = Ret (Some p, r', mem2)
  end.
Proof.
  unfold rreq_entry_last, __rreq_tbl_add, __rreq_tbl_entry_create. intros H. obind H as x E. rewrite E. cbn [mbind outcome_bind].
  destruct x as [p|].
  - obind H as [d t1] E1. rewrite E1. cbn [mbind outcome_bind]. destruct (__tbl_add_tail t1 p) as [k t2]. injection H as <- <- <-. by eexists.
  - destruct (kmalloc mem) as [[] m1]; [|injection H as <- <- <-; done].
    destruct (kmalloc m1) as [[] m2]; [|injection H as <- <- <-; done].
    cbn [kmalloc]. obind H as r2 E2. cbn [rreq_tbl rreq_heap] in E2 |- *. rewrite E2. cbn [mbind outcome_bind].
    destruct (__tbl_add_tail _ _) as [k t]. injection H as <- <- <-. by eexists.
Qed.

Lemma find_pos_ptr (p : ptr) a b : p ∉ a -> find_pos (λ x, x =? p) (a ++ p :: b) = Some (length a, p).
Proof.
  induction a as [|x a IH]; intros Hp; simpl; [by rewrite Z.eqb_refl|].
  rewrite (proj2 (Z.eqb_neq _ _)) by set_solver. by rewrite IH by set_solver.
Qed.

(** The entry found first is the one that is taken off. *)
Lemma find_detach_is {D} (t : tbl ptr) (d : D) crit p t' :
  NoDup (elems t) -> locked t = false -> tbl_find_detach t d crit = Ret (Some p, t') ->
  p ∈ elems t /\ __tbl_detach t (λ x, x =? p) = Ret (Some p, t').
Proof.
  intros Hnd Hl H. rewrite tbl_find_detach_free in H by done. unfold __tbl_find_detach in H.
  obind H as o E. destruct o as [[i q]|]; [|done]. injection H as -> <-.
  apply find_elem_Some in E as (E & _). pose proof E as E'. split; [rewrite E; set_solver|].
  assert (Hn : p ∉ take i (elems t)). { rewrite E in Hnd. apply NoDup_app in Hnd as (_ & Hd & _). intros Hx. apply (Hd p Hx). left. }
  assert (Hi : length (take i (elems t)) = i).
  { apply length_take_le. rewrite E, length_app, length_take. simpl. rewrite length_drop.
    destruct (decide (i <= length (elems t))%nat); [lia|]. exfalso. apply (f_equal length) in E.
    rewrite length_app, length_take in E. simpl in E. rewrite length_drop in E. lia. }
  unfold __tbl_detach, TBL_EMPTY. destruct (elems t) as [|x l] eqn:El; [destruct i; discriminate E|].
  rewrite <- El in *. rewrite E at 1. rewrite find_pos_ptr by done. rewrite Hi. done.
Qed.

Section RreqKept.
Context (dn : option dsr_node) (HK : 0 < get_confval dn RequestTableIds < 2 ^ 31).
Local Abbreviation K := (get_confval dn RequestTableIds).
Implicit Types r : rreq_tbl_st.

Lemma entry_last_ok mem a r p r' mem' :
  rq_ok K r -> rreq_entry_last dn mem a r = Ret (Some p, r', mem') ->
  rq_ok K r' /\ exists e, rreq_heap r' !! p = Some e /\ RreqTbl.entry_ok K e /\ p ∈ elems (rreq_tbl r').
Proof using HK.
  intros Hok H. apply entry_last_any in H as (mem2 & H).
  destruct (rq_entry_last_spec K dn [] a r Hok eq_refl ltac:(lia) ltac:(apply not_elem_of_nil))
    as (p1 & r1 & m1 & e & l1 & E & Hok1 & _ & _ & He & _ & Heok & Hel & _).
  rewrite E in H. injection H as <- <- _. split; [done|]. exists e. split; [done|]. split; [done|].
  rewrite Hel. set_solver.
Qed.

Lemma rgood_unlock r : rq_ok K r -> rgood K (set_rtbl r (write_unlock_bh (rreq_tbl r))).
Proof. intros H. split; [|done]. by apply (rq_ok_locked K r false). Qed.

Lemma put_ids_ok r p e now ids :
  rq_ok K r -> rreq_heap r !! p = Some e -> RreqTbl.entry_ok K e -> tkept (rreq_id_tbl e) ids ->
  rgood K (set_rtbl (put_entry r p (set_ids (set_last_used e now) ids)) (write_unlock_bh (rreq_tbl r))).
Proof.
  intros Hok He [W M L S] [W' M' L']. apply (rgood_unlock (put_entry r p _)). eapply rq_ok_put; [done|done|done|].
  split; simpl; [auto|congruence..|done].
Qed.

Lemma room_kept {A} (t t' : tbl A) :
  (if TBL_FULL t then '(_, t) ← tbl_del_first t; Ret t else Ret t) = Ret t' -> tkept t t'.
Proof.
  unfold tbl_del_first. intros H. run H; [|done]. run E0. eauto with kept.
Qed.

Lemma rreq_add_id_kept mem now i t id r x r' mem' :
  rreq_tbl_add_id dn mem now i t id r = Ret (x, r', mem') -> rgood K r -> rgood K r'.
Proof using HK.
  intros H [Hok Hl]. unfold rreq_tbl_add_id, write_lock_bh in H. rewrite Hl in H. cbn [mbind outcome_bind] in H.
  pose proof (rq_ok_locked K r true Hok) as Hok0. run H.
  - destruct (entry_last_ok _ _ _ _ _ _ Hok0 E) as (Hok1 & e & He & Heok & _).
    rewrite He in E3. injection E3 as <-. apply put_ids_ok; [done..|].
    etransitivity; [exact (room_kept _ _ E4)|]. eauto with kept.
  - destruct (entry_last_ok _ _ _ _ _ _ Hok0 E) as (Hok1 & e & He & Heok & _).
    rewrite He in E3. injection E3 as <-. apply put_ids_ok; [done..|]. exact (room_kept _ _ E4).
  - apply entry_last_any in E. subst. by apply rgood_unlock.
Qed.

Lemma discovery_kept {W} (send : Z -> Z -> W -> outcome W) mem now a r w x r' w' mem' :
  dsr_rreq_route_discovery send dn mem now a r w = Ret (x, r', w', mem') -> rgood K r -> rgood K r'.
Proof using HK.
  intros H [Hok Hl]. unfold dsr_rreq_route_discovery, write_lock_bh in H. rewrite Hl in H. cbn [mbind outcome_bind] in H.
  pose proof (rq_ok_locked K r true Hok) as Hok0. run H.
  - destruct (entry_last_ok _ _ _ _ _ _ Hok0 E) as (Hok1 & _). by apply rgood_unlock.
  - destruct (entry_last_ok _ _ _ _ _ _ Hok0 E) as (Hok1 & e & He & [W1 M1 L1 S1] & _).
    rewrite He in E3. injection E3 as <-. eapply (rgood_unlock (put_entry _ _ _)), rq_ok_put; [done..|].
    split; simpl; [done..|]. unfold set_timer. split; [|done]. intros _. by destruct (timer_pending _).
  - apply entry_last_any in E. subst. by apply rgood_unlock.
Qed.

Lemma discovery_sent {W} (Q : relation W) `{!PreOrder Q} (send : Z -> Z -> W -> outcome W) mem now a r w x r' w' mem' :
  (forall a t w w', send a t w = Ret w' -> Q w w') ->
  dsr_rreq_route_discovery send dn mem now a r w = Ret (x, r', w', mem') -> Q w w'.
Proof. intros Hs H. unfold dsr_rreq_route_discovery in H. run H; [done|by eapply Hs|done]. Qed.

Lemma expire_sent {W} (Q : relation W) `{!PreOrder Q} (send : Z -> Z -> W -> outcome W) now p r w r' w' :
  (forall a t w w', send a t w = Ret w' -> Q w w') ->
  expire send dn now p r w = Ret (r', w') -> Q w w'.
Proof. intros Hs H. unfold expire, rreq_tbl_timeout in H. run H; [done|by eapply Hs]. Qed.

(** A [send] that returns everywhere; a run that returns is one with it, too. *)
Definition total_send {W} (send : Z -> Z -> W -> outcome W) (a t : Z) (w : W) : outcome W :=
  Ret (match send a t w with Ret w' => w' | Fault _ => w end).

Lemma expire_total {W} (send : Z -> Z -> W -> outcome W) now p r w x :
  expire send dn now p r w = Ret x ->
  expire (total_send send) dn now p r w = Ret x.
Proof.
  unfold expire, rreq_tbl_timeout. intros H.
  apply bind_ret_inv in H as (e & E & H). rewrite E. cbn [mbind outcome_bind].
  apply bind_ret_inv in H as ([y t1] & E1 & H). rewrite E1. cbn [mbind outcome_bind].
  apply bind_ret_inv in H as (e2 & E2 & H). rewrite E2. cbn [mbind outcome_bind].
  destruct (_ >=? _); [exact H|]. apply bind_ret_inv in H as (w1 & E3 & H). unfold total_send at 1. rewrite E3. exact H.
Qed.

(** The timer of an entry on the table expires. *)
Lemma expire_kept {W} (send : Z -> Z -> W -> outcome W) now p r w r' w' e :
  p ∈ elems (rreq_tbl r) -> rreq_heap r !! p = Some e -> timer_pending (e_timer e) = true ->
  expire send dn now p r w = Ret (r', w') -> rgood K r -> rgood K r'.
Proof.
  intros Hp He Ht H [Hok Hl]. destruct (rq_live _ _ Hok p Hp) as (e' & E & Heok). rewrite He in E. injection E as <-.
  apply expire_total in H.
  destruct (expire_spec (total_send send) K dn now p e r w _ Hok Hl Hp He (proj2 (eo_state _ _ Heok) Ht) eq_refl) as (r1 & Hok1 & Hl1 & _ & Hr).
  destruct (_ <=? _); destruct Hr as [Hr _]; rewrite Hr in H; by injection H as <- _.
Qed.

Lemma cancel_kept now a r x r' : rreq_tbl_route_discovery_cancel now a r = Ret (x, r') -> rgood K r -> rgood K r'.
Proof.
  intros H [Hok Hl]. unfold rreq_tbl_route_discovery_cancel in H. run H.
  - destruct (find_detach_is _ _ _ _ _ (rq_nd _ _ Hok) Hl E) as [Hp Hd].
    pose proof (tk_lock _ _ (detach_kept _ _ _ _ Hd)) as Hl1. rewrite Hl in Hl1.
    rewrite tbl_add_tail_free in E3 by done. injection E3 as E3.
    destruct (rq_ok_rotate K r z t t0 z0 Hok Hp Hd E3) as (Hok' & _ & _ & Hl2).
    destruct (rq_live _ _ Hok z Hp) as (e & He & [W M L S]). rewrite He in E2. injection E2 as <-.
    split; [|simpl; congruence]. eapply rq_ok_put; [exact Hok'|exact He|by case_decide|].
    case_decide as Hd'; split; simpl; try done. split; [done|]. intros Ht. by apply S in Ht.
  - rewrite tbl_find_detach_free in E by done. unfold __tbl_find_detach in E. run E; [done|]. by destruct r; split.
Qed.
End RreqKept.

(** ** The send buffer *)

Lemma tbl_for_each_del_data {A D} (R : relation D) `{!PreOrder R} (t : tbl A) (crit : del_crit_t A D) d n t' d' :
  (forall a x b y, crit a x = Ret (b, y) -> R x y) -> tbl_for_each_del t d crit = Ret (n, t', d') -> R d d'.
Proof.
  intros Hc H. unfold tbl_for_each_del in H. run H. unfold __tbl_for_each_del in E0. run E0.
  by eapply for_each_del_data.
Qed.

Section SendKept.
Context {W F : Type} (R : relation W) `{!PreOrder R}.
Context (find : Z -> Z -> W -> outcome (option dsr_srt * W)) (srt_add : dsr_pkt -> W -> outcome (Z * dsr_pkt * W)).
Context (call : F -> dsr_pkt -> W -> outcome W) (pkt_free icmp : dsr_pkt -> W -> W).
Context (Hfind : forall a b w r w', find a b w = Ret (r, w') -> R w w').
Context (Hadd : forall p w r p' w', srt_add p w = Ret (r, p', w') -> R w w').
Context (Hcall : forall f p w w', call f p w = Ret w' -> R w w').
Context (Hfree : forall p w, R w (pkt_free p w)) (Hicmp : forall p w, R w (icmp p w)).
Implicit Types (t : tbl (send_buf_entry F)) (s : send_st F).

Lemma send_entry_kept e w w' : send_entry find srt_add call pkt_free e w = Ret w' -> R w w'.
Proof using All.
  unfold send_entry. intros H. run H.
  - etransitivity; [by eapply Hfind|]. etransitivity; [by eapply Hadd|]. apply Hfree.
  - etransitivity; [by eapply Hfind|]. etransitivity; [by eapply Hadd|]. by eapply Hcall.
  - etransitivity; [by eapply Hfind|]. apply Hfree.
Qed.

Lemma send_loop_kept fuel t dst n w t' n' w' :
  send_loop find srt_add call pkt_free fuel t dst n w = Ret (t', n', w') ->
  R w w' /\ tkept t t' /\ (elems t = [] -> elems t' = []).
Proof using All.
  revert t n w. induction fuel as [|fuel IH]; intros t n w H; cbn [send_loop] in H; run H.
  - destruct (IH _ _ _ H) as (R1 & T1 & N1).
    split; [etransitivity; [by eapply send_entry_kept|done]|]. split; [chain|].
    intros He. unfold __tbl_find_detach in E. rewrite He in E. done.
  - split; [done|]. split; [chain|]. unfold __tbl_find_detach in E. run E; done.
Qed.

Lemma send_ok_step s t :
  send_ok s -> tkept (send_buf s) t -> (elems (send_buf s) = [] -> elems t = []) ->
  send_ok (SendSt t (send_buf_timer s)).
Proof.
  intros [Wf Lk Mx Tm] [W1 M1 L1] He. split; simpl; [auto|congruence|congruence|]. intros Hne. apply Tm. auto.
Qed.

Lemma set_verdict_kept s dst w n s' w' :
  send_buf_set_verdict find srt_add call pkt_free icmp s SEND_BUF_SEND dst w = Ret (n, s', w') ->
  R w w' /\ (send_ok s -> send_ok s').
Proof using All.
  unfold send_buf_set_verdict. intros H. run H.
  destruct (send_loop_kept _ _ _ _ _ _ _ _ E0) as (R1 & T1 & N1). split; [done|]. intros Hok.
  apply send_ok_step; [done|by eapply locked_kept|].
  intros He. simpl. apply N1. unfold write_lock_bh in E. run E. done.
Qed.

Lemma enqueue_kept dn now now2 mem s p f w n s' mem' w' :
  send_buf_enqueue_packet pkt_free dn now now2 mem s p f w = Ret (n, s', mem', w') ->
  R w w' /\ (send_ok s -> send_ok s').
Proof using PreOrder0.
  unfold send_buf_enqueue_packet. intros H. run H; try done.
  all: assert (Hx : locked x = true /\ elems x = elems (send_buf s)) by (unfold write_lock_bh in E1; run E1; done).
  all: destruct Hx as [Hx Hex].
  all: destruct (z <? 0) eqn:Ez;
    [exfalso; destruct (__tbl_detach_first t) as [f0 t1] eqn:Ed;
     assert (Hl : locked t1 = true)
       by (rewrite (tk_lock _ _ (detach_first_kept _ _ _ Ed)), (tk_lock _ _ (add_tail_kept _ _ _ _ E2)); done);
     unfold tbl_add_tail, write_lock_bh in E3; by rewrite Hl in E3|].
  - by run E3.
  - run E3. split; [done|]. intros [Wf Lk Mx Tm].
    pose proof (locked_kept _ _ _ E1 (add_tail_kept _ _ _ _ E2)) as [W1 M1 L1].
    split; simpl in *; [auto|done|congruence|]. intros _.
    destruct (tbl_empty x) eqn:Ee; [by destruct (send_buf_timer s)|]. apply Tm.
    rewrite <- Hex. unfold tbl_empty, TBL_FIRST in Ee. by destruct (elems x).
Qed.

Lemma garbage_kept dn now s w s' w' :
  send_buf_timeout pkt_free dn now s w = Ret (s', w') -> R w w' /\ (tbl_wf (send_buf s) -> locked (send_buf s) = false ->
    max_len (send_buf s) < 2 ^ 31 -> send_ok s').
Proof using PreOrder0 Hfree.
  unfold send_buf_timeout. intros H. run H.
  all: assert (HR : R w w') by (eapply tbl_for_each_del_data; [exact _| |eassumption];
    intros e a b y Hc; unfold crit_garbage in Hc; run Hc; [apply Hfree|done]).
  all: split; [done|]; intros Wf Lk Mx; pose proof (tbl_for_each_del_kept _ _ _ _ _ _ E) as [W1 M1 L1].
  - split; simpl; [auto|congruence|congruence|]. by rewrite set_timer_due.
  - split; simpl; [auto|congruence|congruence|]. intros Hne. exfalso.
    unfold read_lock_bh in E2. run E2. unfold __tbl_find in E3. destruct (elems x0) as [|e l] eqn:Ee; [done|].
    cbn in E3. discriminate E3.
Qed.
End SendKept.

(** ** The node *)

Definition conf_ids (n : node) : Z := get_confval (dn (n_core n)) RequestTableIds.

Record nkept (n n' : node) : Prop := {
  nk_m : mkept ckept (n_m n) (n_m n');
  nk_rreq : 0 < conf_ids n < 2 ^ 31 -> rgood (conf_ids n) (n_rreq n) -> rgood (conf_ids n) (n_rreq n');
  nk_sbuf : send_ok (n_sbuf n) -> send_ok (n_sbuf n')
}.

Lemma nkept_conf n n' : nkept n n' -> conf (n_core n') = conf (n_core n).
Proof. intros [[P _] _ _]. exact (ck_conf _ _ P). Qed.

Lemma nkept_ids n n' : mkept ckept (n_m n) (n_m n') -> conf_ids n' = conf_ids n.
Proof. intros [P _]. unfold conf_ids, dn, n_core. by rewrite (ck_conf _ _ P). Qed.

#[export] Instance nkept_pre : PreOrder nkept.
Proof.
  split; [by split|]. intros a b c [M1 R1 S1] [M2 R2 S2]. split; [by etransitivity| |auto].
  rewrite (nkept_ids _ _ M1) in R2. auto.
Qed.

Lemma nkept_core n c : ckept (n_core n) c -> nkept n (set_core n c).
Proof. intros H. split; [|done..]. by apply mk_set_peers. Qed.
Lemma nkept_m n m : mkept ckept (n_m n) m -> nkept n (set_m n m).
Proof. by split. Qed.
Lemma nkept_free p n : nkept n (free p n).
Proof. apply nkept_core, ckept_free. Qed.
#[export] Hint Resolve nkept_core nkept_m nkept_free : kept.

Section NodeKept.
Context (ip_csum : bytes -> Z) (junk : Z -> Z) (now : timeval) (rr : dsr_pkt -> option Z) (stale : timeval).
Implicit Types n : node.

Lemma node_draw_kept n ok n' : (let '(ok, c) := Core.draw (n_core n) in (ok, set_core n c)) = (ok, n') -> nkept n n'.
Proof. intros H. run H. apply nkept_core. by eapply draw_kept. Qed.
Lemma node_draw_bytes_kept n ans n' :
  (let '(ans, c) := Core.draw_bytes junk (n_core n) in (ans, set_core n c)) = (ans, n') -> nkept n n'.
Proof. intros H. run H. apply nkept_core. by eapply draw_bytes_kept. Qed.
#[local] Hint Resolve node_draw_kept node_draw_bytes_kept : kept.

Lemma on_core_kept f n n' : (forall c c', f c = Ret c' -> ckept c c') -> on_core f n = Ret n' -> nkept n n'.
Proof. unfold on_core. intros Hf H. run H. apply nkept_core. by apply Hf. Qed.

Lemma xmit_m_kept p m m' : xmit_m ip_csum junk now p m = Ret m' -> mkept ckept m m'.
Proof. apply (XMIT_kept (H := core_peers ip_csum junk now) ckept). Qed.
Lemma node_XMIT_kept p n n' : Node.XMIT ip_csum junk now p n = Ret n' -> nkept n n'.
Proof. unfold Node.XMIT. intros H. run H. apply nkept_m. by eapply xmit_m_kept. Qed.
Lemma DELIVER_kept p n n' : DELIVER ip_csum junk rr p n = Ret n' -> nkept n n'.
Proof. apply on_core_kept. intros c c'. apply dev_deliver_kept. Qed.
#[local] Hint Resolve node_XMIT_kept DELIVER_kept : kept.

(** The request's sender works on the sequence number and the node below. *)
Lemma rreq_send_kept a t w w' : dsr_rreq_send ip_csum junk now a t w = Ret w' -> mkept ckept w.2 w'.2.
Proof.
  unfold dsr_rreq_send. intros H. run H; simpl.
  - etransitivity; [|by eapply xmit_m_kept]. apply mk_set_peers.
    etransitivity; [by eapply draw_kept|by eapply draw_bytes_kept].
  - assert (Hc : ckept (peers m) c0) by (etransitivity; [by eapply draw_kept|by eapply draw_bytes_kept]).
    etransitivity; [apply mk_set_peers; exact Hc|]. destruct b; [|done]. by apply mk_set_peers, ckept_free.
Qed.

Lemma node_of_rreq_kept n w r : mkept ckept (n_m n) w.2 ->
  (0 < conf_ids n < 2 ^ 31 -> rgood (conf_ids n) (n_rreq n) -> rgood (conf_ids n) r) ->
  nkept n (Node w.2 r w.1 (n_sbuf n)).
Proof. by split. Qed.

Definition sent (w w' : Z * maint_st core) : Prop := mkept ckept w.2 w'.2.
#[local] Instance sent_pre : PreOrder sent.
Proof. split; [intros x; unfold sent; reflexivity|intros x y z; unfold sent; apply transitivity]. Qed.

Lemma route_discovery_kept a n n' : route_discovery ip_csum junk now a n = Ret n' -> nkept n n'.
Proof.
  unfold route_discovery. intros H. run H. apply node_of_rreq_kept.
  - etransitivity; [|eapply (discovery_sent _ sent); [exact rreq_send_kept|eassumption]]. simpl.
    apply mk_set_peers, ckept_alloc.
  - intros HK. by eapply discovery_kept.
Qed.

Lemma rreq_timer_kept p e n n' :
  p ∈ elems (rreq_tbl (n_rreq n)) -> rreq_heap (n_rreq n) !! p = Some e -> timer_pending (e_timer e) = true ->
  rreq_timer_fires ip_csum junk now p n = Ret n' -> nkept n n'.
Proof.
  unfold rreq_timer_fires. intros Hp He Ht H. run H. apply node_of_rreq_kept.
  - exact (expire_sent _ sent _ _ _ _ _ _ _ rreq_send_kept E).
  - intros HK. by eapply expire_kept.
Qed.

Lemma rrep_send_kept s s' n n' : dsr_rrep_send ip_csum junk now s s' n = Ret n' -> nkept n n'.
Proof. unfold dsr_rrep_send. intros H. run H; [chain|]. destruct b; chain. Qed.
Lemma ack_send_kept a i n n' : dsr_ack_send ip_csum junk now a i n = Ret n' -> nkept n n'.
Proof. unfold dsr_ack_send. intros H. run H; chain. Qed.
#[local] Hint Resolve route_discovery_kept rrep_send_kept ack_send_kept : kept.

Lemma send_buffered_kept a n n' : send_buffered ip_csum junk now a n = Ret n' -> nkept n n'.
Proof.
  unfold send_buffered. intros H. run H.
  apply (set_verdict_kept (mkept ckept)) in E as [HR HS]; [by split| | | | |].
  - intros b d w r w' H. run H. apply mk_set_peers. by eapply rtc_find_kept.
  - intros p w r p' w' H. run H. apply mk_set_peers. by eapply draw_bytes_kept.
  - intros _ p w w'. apply xmit_m_kept.
  - intros p w. apply mk_set_peers, ckept_free.
  - intros p w. apply mk_set_peers, ckept_emit.
Qed.
#[local] Hint Resolve send_buffered_kept : kept.

(** *** The handlers *)

Lemma core_link_add_kept a b n n' : on_core (link_add now a b) n = Ret n' -> nkept n n'.
Proof. apply on_core_kept. intros c c'. apply link_add_kept'. Qed.
Lemma core_neigh_add_kept a hw n n' : on_core (neigh_add a hw) n = Ret n' -> nkept n n'.
Proof. apply on_core_kept. intros c c'. apply neigh_add_kept'. Qed.
Lemma core_rtc_add_kept s n n' : on_core (rtc_add now s) n = Ret n' -> nkept n n'.
Proof. apply on_core_kept. intros c c'. apply rtc_add_kept. Qed.
#[local] Hint Resolve core_link_add_kept core_neigh_add_kept core_rtc_add_kept : kept.

Lemma ack_recv_kept p o n a n' : dsr_ack_opt_recv ip_csum junk now p o n = Ret (a, n') -> nkept n n'.
Proof.
  unfold dsr_ack_opt_recv. intros H. run H; [done|]. apply nkept_m.
  by eapply (del_all_id_kept (H := core_peers ip_csum junk now) ckept).
Qed.
Lemma ack_req_recv_kept p o n a p' n' : dsr_ack_req_opt_recv ip_csum junk now p o n = Ret (a, p', n') -> nkept n n'.
Proof. unfold dsr_ack_req_opt_recv. intros H. run H; chain. Qed.

Lemma rerr_recv_kept p o n a p' n' : dsr_rerr_opt_recv ip_csum junk now p o n = Ret (a, p', n') -> nkept n n'.
Proof.
  unfold dsr_rerr_opt_recv. intros H. run H; [|done].
  etransitivity; [apply nkept_m; by eapply (del_all_kept (H := core_peers ip_csum junk now) ckept)|].
  apply nkept_core, ckept_lc. eauto with kept.
Qed.

Lemma set_rreq_kept n r q :
  (0 < conf_ids n < 2 ^ 31 -> rgood (conf_ids n) (n_rreq n) -> rgood (conf_ids n) r) -> nkept n (set_rreq n r q).
Proof. by split. Qed.

Lemma rrep_recv_kept p o n a p' n' : dsr_rrep_opt_recv now p o n = Ret (a, p', n') -> nkept n n'.
Proof.
  unfold dsr_rrep_opt_recv. intros H. run H; try done; [| |chain].
  all: etransitivity; [|apply set_rreq_kept; intros HK; eapply cancel_kept; eassumption].
  all: chain.
Qed.

Lemma learn_srt_kept p s n n' : learn_srt now p s n = Ret n' -> nkept n n'.
Proof. unfold learn_srt. intros H. run H; chain. Qed.
#[local] Hint Resolve learn_srt_kept : kept.

Lemma srt_learn_kept p s n n' : srt_learn now p s n = Ret n' -> nkept n n'.
Proof.
  unfold srt_learn. intros H. run H.
  assert (nkept x0 x1) by (run E1; chain). chain.
Qed.

Lemma grat_reply_kept p s n b n' : grat_reply ip_csum junk now stale p s n = Ret (b, n') -> nkept n n'.
Proof.
  unfold grat_reply. intros H. run H; try chain.
  etransitivity; [|eapply rrep_send_kept; eassumption].
  etransitivity; [|apply (nkept_core n2); etransitivity; [|apply ckept_alloc]; apply ckept_grat; eauto with kept].
  chain.
Qed.
Lemma shorten_kept (b : bool) p s n g n' :
  (if b then grat_reply ip_csum junk now stale p s n else Ret (true, n)) = Ret (g, n') -> nkept n n'.
Proof. intros H. run H; [by eapply grat_reply_kept|done]. Qed.
#[local] Hint Resolve srt_learn_kept shorten_kept : kept.

Lemma srt_recv_kept p o n a p' n' : dsr_srt_opt_recv ip_csum junk now stale p o n = Ret (a, p', n') -> nkept n n'.
Proof. unfold dsr_srt_opt_recv. intros H. run H; chain. Qed.

Lemma rreq_forward_kept p o k n a p' n' : rreq_forward ip_csum junk p o k n = Ret (a, p', n') -> nkept n n'.
Proof. unfold rreq_forward. intros H. run H; chain. Qed.

Lemma rreq_cached_kept p s s' t n r n' : rreq_cached ip_csum junk now p s s' t n = Ret (r, n') -> nkept n n'.
Proof.
  unfold rreq_cached. intros H. run H.
  all: match goal with E : rtc_find _ _ _ = Ret _ |- _ => apply rtc_find_kept, nkept_core in E end.
  all: chain.
Qed.
#[local] Hint Resolve rreq_forward_kept rreq_cached_kept : kept.

Lemma rreq_answer_kept p o off s s' n a p' n' : rreq_answer ip_csum junk now p o off s s' n = Ret (a, p', n') -> nkept n n'.
Proof. unfold rreq_answer. intros H. run H; chain. Qed.
#[local] Hint Resolve rreq_answer_kept : kept.

(** Recording the request: the table, and what the allocator has left. *)
Lemma recorded_kept n t i id x r al :
  rreq_tbl_add_id (dn (n_core n)) (alloc (n_core n)) now i t id (n_rreq n) = Ret (x, r, al) ->
  nkept n (set_rreq (set_core n (set_alloc (n_core n) al)) r (rreq_seqno n)).
Proof.
  intros H. etransitivity; [apply nkept_core, (ckept_alloc _ al)|]. apply set_rreq_kept. intros HK.
  by eapply rreq_add_id_kept.
Qed.

Lemma rreq_recv_kept p o n a p' n' : dsr_rreq_opt_recv ip_csum junk now p o n = Ret (a, p', n') -> nkept n n'.
Proof.
  unfold dsr_rreq_opt_recv. intros H. run H; try done.
  all: match goal with E : rreq_tbl_add_id _ _ _ _ _ _ _ = Ret _ |- _ => apply recorded_kept in E end.
  all: chain.
Qed.

(** *** Packets *)

#[local] Hint Resolve ack_recv_kept ack_req_recv_kept rerr_recv_kept rrep_recv_kept srt_recv_kept rreq_recv_kept : kept.

Lemma recv_case_kept p t o n a p' n' : recv_case ip_csum junk now stale p t o n = Ret (a, p', n') -> nkept n n'.
Proof. unfold recv_case. intros H. run H; chain. Qed.

Lemma recv_loop_kept fuel bk dl l dopt a p n a' p' n' :
  recv_loop ip_csum junk now stale fuel bk dl l dopt a p n = Ret (a', p', n') -> nkept n n'.
Proof.
  revert l dopt a p n. induction fuel as [|fuel IH]; intros l dopt a p n H; cbn [recv_loop] in H; run H; try done.
  - by eapply IH.
  - etransitivity; [by eapply recv_case_kept|]. by eapply IH.
Qed.

Lemma opt_recv_kept p n a p' n' : dsr_opt_recv ip_csum junk now stale p n = Ret (a, p', n') -> nkept n n'.
Proof. unfold dsr_opt_recv. intros H. run H. by eapply recv_loop_kept. Qed.

Lemma send_replied_kept p turns i n n' : send_replied ip_csum junk now p turns i n = Ret n' -> nkept n n'.
Proof.
  revert i n. induction turns as [|turns IH]; intros i n H; cbn [send_replied] in H; run H; [done|].
  etransitivity; [by eapply send_buffered_kept|]. by eapply IH.
Qed.
#[local] Hint Resolve opt_recv_kept send_replied_kept : kept.

Lemma act_kept p a n b n' : act ip_csum junk now rr p a n = Ret (b, n') -> nkept n n'.
Proof. unfold act. intros H. run H; chain. Qed.

Lemma act_loop_kept turns i a p n n' : act_loop ip_csum junk now rr turns i a p n = Ret n' -> nkept n n'.
Proof.
  revert i n. induction turns as [|turns IH]; intros i n H; cbn [act_loop] in H; run H; [chain| |].
  - etransitivity; [by eapply act_kept|]. by eapply IH.
  - by eapply act_kept.
Qed.
#[local] Hint Resolve act_loop_kept : kept.

Lemma dsr_recv_kept p n n' : dsr_recv ip_csum junk now rr stale p n = Ret n' -> nkept n n'.
Proof. unfold dsr_recv. intros H. run H; chain. Qed.
#[local] Hint Resolve dsr_recv_kept : kept.

Lemma ip_recv_kept s k t n n' : dsr_ip_recv ip_csum junk now rr stale s k t n = Ret n' -> nkept n n'.
Proof. unfold dsr_ip_recv. intros H. run H; chain. Qed.

Lemma llrecv_kept s k t n n' : dsr_dev_llrecv ip_csum junk now rr stale s k t n = Ret n' -> nkept n n'.
Proof. unfold dsr_dev_llrecv. intros H. run H; try (by eapply ip_recv_kept); chain. Qed.

Lemma queued_kept n p k b al w :
  send_buf_enqueue_packet (λ p c, dsr_pkt_free p c) (dn (n_core n)) now now (alloc (n_core n)) (n_sbuf n) p () (n_core n)
  = Ret (k, b, al, w) ->
  nkept n (set_core (set_sbuf n b) (set_alloc w al)).
Proof.
  intros E. apply (enqueue_kept ckept) in E as [HR HS].
  split; [|done|exact HS]. apply mk_set_peers. etransitivity; [exact HR|apply ckept_alloc].
Qed.

Lemma start_xmit_kept p n n' : dsr_start_xmit ip_csum junk now p n = Ret n' -> nkept n n'.
Proof.
  unfold dsr_start_xmit. intros H. run H.
  all: match goal with E : rtc_find _ _ _ = Ret _ |- _ => apply rtc_find_kept, nkept_core in E end.
  all: try match goal with E : send_buf_enqueue_packet _ _ _ _ _ _ _ _ _ = Ret _ |- _ =>
    apply (queued_kept (set_core _ _)) in E end.
  all: chain.
Qed.
#[local] Hint Resolve start_xmit_kept : kept.

Lemma dev_start_xmit_kept s h n n' : dsr_dev_start_xmit ip_csum junk now s h n = Ret n' -> nkept n n'.
Proof. unfold dsr_dev_start_xmit. intros H. run H; chain. Qed.

(** *** Timers *)

Lemma maint_timer_kept n n' : maint_timer_fires ip_csum junk now n = Ret n' -> nkept n n'.
Proof.
  unfold maint_timer_fires. intros H. run H. apply nkept_m.
  etransitivity; [|by eapply (timeout_kept (H := core_peers ip_csum junk now) ckept)]. by split.
Qed.

Lemma send_timer_kept n n' : send_timer_fires now n = Ret n' -> nkept n n'.
Proof.
  unfold send_timer_fires. intros H. run H.
  apply (garbage_kept ckept) in E as [HR HS]; [|intros; apply ckept_free].
  split; [by apply mk_set_peers|done|]. intros [W1 L1 M1 _]. by apply HS.
Qed.

Lemma grat_timer_kept n n' : timer_pending (gtimer (grat (n_core n))) = true -> grat_timer_fires n = Ret n' -> nkept n n'.
Proof.
  unfold grat_timer_fires. intros Ht H. run H. apply nkept_core, ckept_grat. intros Hok.
  pose proof (go_timer _ Hok) as Hg. destruct (elems (gtbl (grat (n_core n)))) as [|e l] eqn:Ee.
  { rewrite Hg in Ht. discriminate Ht. }
  destruct (grat_timeout_ok _ e l Hok Ee) as (st & E' & Hst & _). change (del_timer _) with (@None timeval) in E. rewrite E' in E. by injection E as <-.
Qed.
End NodeKept.

(** ** What may happen to a node *)

Inductive node_step : node -> node -> Prop :=
| ns_frame ip_csum junk now rr stale s k t n n' : (** the device has a frame *)
    dsr_dev_llrecv ip_csum junk now rr stale s k t n = Ret n' -> node_step n n'
| ns_packet ip_csum junk now rr stale s k t n n' : (** the stack has a DSR packet *)
    dsr_ip_recv ip_csum junk now rr stale s k t n = Ret n' -> node_step n n'
| ns_host ip_csum junk now s h n n' : (** the host sends *)
    dsr_dev_start_xmit ip_csum junk now s h n = Ret n' -> node_step n n'
| ns_maint ip_csum junk now n n' :
    timer_pending (ack_timer (n_m n)) = true -> maint_timer_fires ip_csum junk now n = Ret n' -> node_step n n'
| ns_send now n n' :
    timer_pending (send_buf_timer (n_sbuf n)) = true -> send_timer_fires now n = Ret n' -> node_step n n'
| ns_rreq ip_csum junk now p e n n' :
    p ∈ elems (rreq_tbl (n_rreq n)) -> rreq_heap (n_rreq n) !! p = Some e -> timer_pending (e_timer e) = true ->
    rreq_timer_fires ip_csum junk now p n = Ret n' -> node_step n n'
| ns_grat n n' : timer_pending (gtimer (grat (n_core n))) = true -> grat_timer_fires n = Ret n' -> node_step n n'
| ns_memory mem n : (** other answers of the allocator *)
    node_step n (set_core n (set_alloc (n_core n) mem)).

Lemma node_step_kept n n' : node_step n n' -> nkept n n'.
Proof.
  intros [].
  - by eapply llrecv_kept.
  - by eapply ip_recv_kept.
  - by eapply dev_start_xmit_kept.
  - by eapply maint_timer_kept.
  - by eapply send_timer_kept.
  - by eapply rreq_timer_kept.
  - by apply grat_timer_kept.
  - apply nkept_core, ckept_alloc.
Qed.

(** The state between two events, for a node started with configuration [c]. *)
Record node_ok (c : dsr_node) (n : node) : Prop := {
  no_conf : conf (n_core n) = c;
  no_cache : tbl_wf (lc_nodes (lc (n_core n))) /\ tbl_wf (lc_links (lc (n_core n))) /\ lc_locked (lc (n_core n)) = false;
  no_neigh : neigh_ok (neigh (n_core n));
  no_grat : grat_ok (grat (n_core n));
  no_mbuf : tbl_wf (maint_buf (n_m n)) /\ locked (maint_buf (n_m n)) = false;
  no_rreq : rq_ok (get_confval (Some c) RequestTableIds) (n_rreq n) /\ locked (rreq_tbl (n_rreq n)) = false;
  no_sbuf : send_ok (n_sbuf n)
}.

Lemma node_ok_kept c n n' : 0 < get_confval (Some c) RequestTableIds < 2 ^ 31 -> nkept n n' -> node_ok c n -> node_ok c n'.
Proof.
  intros HK Hn [Hc (Hn1 & Hl1 & Hk1) Hne Hg [Hm1 Hm2] Hr Hs]. pose proof (nkept_conf _ _ Hn) as Hc'.
  destruct Hn as [[[Pc Pl Pn Pg] [Bw Bm Bl]] Rr Ss]. unfold conf_ids, dn in Rr. rewrite Hc in Rr.
  destruct Pl as [[Nw _ _] [Lw _ _] Ll].
  unfold n_core in *. split; unfold n_core; [congruence|split_and!; [auto|auto|congruence]|auto|auto|split; [auto|congruence]|by apply Rr|auto].
Qed.

Lemma node_init_ok c dev seqno : node_ok c (node_init c dev seqno).
Proof.
  split; [done|split_and!; done|apply neigh_init_ok|apply grat_init_ok|done|split; [apply rreq_init_ok|done]|].
  by split.
Qed.

(** C2: Whatever happens, a node stays sound.  Start a node and let any events
    follow: frames of the device and packets of the stack with any contents,
    packets of the host, expiries of its pending timers, and an allocator that
    fails when it likes.  In each state that is reached all locks are free again;
    the address and the configuration are those it was started with; every
    table's counter is exact and within its capacity; neighbours and held-off
    replies are recorded once; each entry of the route request table is alive,
    with its timer pending exactly while a discovery runs; and as long as a
    packet waits for a route, the timer that ends its wait is pending. *)
Theorem node_reachable_ok c dev seqno n :
  0 < get_confval (Some c) RequestTableIds < 2 ^ 31 ->
  rtc node_step (node_init c dev seqno) n -> node_ok c n.
Proof.
  intros HK Hr. pose proof (node_init_ok c dev seqno) as Hok.
  induction Hr as [|x y z Hxy _ IH]; [done|]. apply IH. eapply node_ok_kept; [done|by apply node_step_kept|done].
Qed.

(** A node with no route queues the packet of its host and asks for a route; the
    request's timer expires once. *)
Definition host_skb : sk_buff := Skb 7 (repeat 9 6) (iph_enc (Iph 0 (htons 28) 0 0 64 17 0 1 3) ++ repeat 5 8).

Lemma node_reachable_ok_witness :
  exists n, zlen (elems (send_buf (n_sbuf n))) = 1 /\ timer_pending (send_buf_timer (n_sbuf n)) = true
    /\ node_ok (dsr_node_init (DsrNode 1 0 [])) n.
Proof.
  assert (Hs : exists n, dsr_dev_start_xmit (λ _, 0) (λ _, 0) (Timeval 5 0) host_skb (htons ETH_P_IP)
                 (node_init (dsr_node_init (DsrNode 1 0 [])) true 0) = Ret n
               /\ zlen (elems (send_buf (n_sbuf n))) = 1 /\ timer_pending (send_buf_timer (n_sbuf n)) = true).
  { eexists. split; [vm_compute; reflexivity|]. split; reflexivity. }
  destruct Hs as (n & Hs & Hq & Ht). exists n. split; [exact Hq|]. split; [exact Ht|].
  refine (node_reachable_ok _ true 0 n _ (rtc_once _ _ _)); [split; reflexivity|]. exact (ns_host _ _ _ _ _ _ _ Hs).
Defined.
