(* ===== verification/Flood.v ===== *)
(** * Route requests through a node

    A node that has handled a route request recognises the copies of it that its
    neighbours send on: it neither answers nor forwards them, and learns nothing
    from them. *)

From S2P Require Import Prelude Timer Config Mem Tbl Srt Neigh RreqTbl GratRrep Pkt Opt Send SendBuf Salvage MaintBuf Core Node.

Section Flood.
Context (ip_csum : bytes -> Z) (junk : Z -> Z) (now : timeval).

Local Abbreviation rreq_recv := (dsr_rreq_opt_recv ip_csum junk now).

(** ** What the answer to a request leaves alone *)

Lemma on_core_rreq f n n' : on_core f n = Ret n' -> n_rreq n' = n_rreq n.
Proof. unfold on_core. intros H. obind H as c E. by injection H as <-. Qed.

Lemma XMIT_rreq p n n' : Node.XMIT ip_csum junk now p n = Ret n' -> n_rreq n' = n_rreq n.
Proof. unfold Node.XMIT. intros H. obind H as m E. by injection H as <-. Qed.

Lemma send_buffered_rreq a n n' : send_buffered ip_csum junk now a n = Ret n' -> n_rreq n' = n_rreq n.
Proof. unfold send_buffered. intros H. obind H as [[r b] m] E. by injection H as <-. Qed.

Lemma rrep_send_rreq s s' n n' : dsr_rrep_send ip_csum junk now s s' n = Ret n' -> n_rreq n' = n_rreq n.
Proof.
  unfold dsr_rrep_send. destruct (Core.draw (n_core n)) as [ok c]. destruct (Core.draw_bytes junk _) as [ans c'].
  intros H. obind H as p E. destruct p; [by apply XMIT_rreq in H|]. by destruct ok; injection H as <-.
Qed.

Lemma rreq_forward_rreq p o k n a p' n' :
  rreq_forward ip_csum junk p o k n = Ret (a, p', n') -> n_rreq n' = n_rreq n.
Proof.
  unfold rreq_forward. destruct (Core.draw_bytes junk _) as [ans c]. intros H.
  repeat (match type of H with
          | (match ?x with _ => _ end) = _ => destruct x
          | _ => let x := fresh in let E := fresh in obind H as x E
          end).
  by injection H as _ _ <-.
Qed.

Lemma rreq_cached_rreq p s s' t n r n' :
  rreq_cached ip_csum junk now p s s' t n = Ret (r, n') -> n_rreq n' = n_rreq n.
Proof.
  unfold rreq_cached. intros H. obind H as [rc c] E. destruct rc as [rc|]; [|by injection H as _ <-].
  destruct (Core.draw _) as [ok1 c1]. obind H as cat E1. destruct cat as [cat|]; [|by injection H as _ <-].
  destruct (Core.draw _) as [ok2 c2]. obind H as dup E2. destruct (dup >? 0); [by injection H as _ <-|].
  obind H as q E3. obind H as n1 E4. injection H as _ <-. by apply rrep_send_rreq in E4.
Qed.

Lemma rreq_answer_rreq p o off s s' n a p' n' :
  rreq_answer ip_csum junk now p o off s s' n = Ret (a, p', n') -> n_rreq n' = n_rreq n.
Proof.
  unfold rreq_answer. intros H. obind H as t E. destruct (t =? _).
  - obind H as q E1. obind H as n1 E2. injection H as _ _ <-. by apply rrep_send_rreq in E2.
  - obind H as length E1. destruct (Srt.src s =? _); [by injection H as _ _ <-|].
    destruct (existsb _ _); [by injection H as _ _ <-|]. obind H as [r n1] E2.
    apply rreq_cached_rreq in E2. rewrite <- E2. destruct r as [r|]; [by injection H as _ _ <-|].
    by apply rreq_forward_rreq in H.
Qed.

Lemma send_replied_rreq p turns i n n' :
  send_replied ip_csum junk now p turns i n = Ret n' -> n_rreq n' = n_rreq n.
Proof.
  revert i n. induction turns as [|turns IH]; intros i n H; simpl in H; [by injection H as <-|].
  obind H as off E. obind H as length E1. obind H as dst E2. obind H as n1 E3.
  apply IH in H. apply send_buffered_rreq in E3. congruence.
Qed.

Context (rr : dsr_pkt -> option Z) (stale : timeval).

Lemma act_rreq p a n r n' : act ip_csum junk now rr p a n = Ret (r, n') -> n_rreq n' = n_rreq n.
Proof.
  unfold act. intros H. destruct (_ || _); [by injection H as _ <-|].
  destruct (a =? DSR_PKT_FORWARD).
  { obind H as h E. obind H as ttl E1. destruct (ttl <? 1); [by injection H as _ <-|].
    obind H as n1 E2. injection H as _ <-. by apply XMIT_rreq in E2. }
  destruct (a =? DSR_PKT_FORWARD_RREQ).
  { obind H as n1 E2. injection H as _ <-. by apply XMIT_rreq in E2. }
  destruct (a =? DSR_PKT_SEND_BUFFERED).
  { obind H as n1 E2. injection H as _ <-. by apply send_replied_rreq in E2. }
  destruct (a =? DSR_PKT_DELIVER); [|by injection H as _ <-].
  obind H as n1 E2. injection H as _ <-. by apply on_core_rreq in E2.
Qed.

Lemma act_loop_rreq turns i a p n n' :
  act_loop ip_csum junk now rr turns i a p n = Ret n' -> n_rreq n' = n_rreq n.
Proof.
  revert i n. induction turns as [|turns IH]; intros i n H; simpl in H; [by injection H as <-|].
  obind H as [more n1] E. apply act_rreq in E. rewrite <- E.
  destruct more; [by apply IH in H|by injection H as <-].
Qed.

(** ** The room a request takes *)

(** The request [d] holds at 4 is the same in the packet, or longer. *)
Definition keeps_len (length : Z) (p' : dsr_pkt) : Prop :=
  exists length', length <= length' /\ opt_length (mem (dh_mem p')) 4 = Ret length'.

Lemma keeps_len_dh d length p' : dh p' = Dh d -> opt_length (mem d) 4 = Ret length -> keeps_len length p'.
Proof. intros Hd Hl. exists length. split; [lia|]. unfold dh_mem. by rewrite Hd. Qed.

Lemma set_daddr_dh p a p' : set_daddr p a = Ret p' -> dh p' = dh p.
Proof.
  unfold set_daddr. intros H. destruct (nh p), (skb p); try done; obind H as b E; by injection H as <-.
Qed.

Lemma build_ip_dh p src dst l t pr ttl p' : dsr_build_ip ip_csum p src dst l t pr ttl = Ret p' -> dh p' = dh p.
Proof.
  unfold dsr_build_ip. intros H. obind H as b E. obind H as b1 E1. obind H as b2 E2. obind H as b3 E3.
  by injection H as <-.
Qed.

Lemma expand_dh ans p d k r p' :
  dh p = Dh d -> dsr_pkt_alloc_opts_expand ans p k = Ret (r, p') ->
  match dh p' with
  | Dh d' => (blk d' = blk d /\ mem d' = mem d) \/ blk d' = nblk p
  | _ => True
  end.
Proof.
  intros Hd. unfold dsr_pkt_alloc_opts_expand. rewrite Hd. intros H. obind H as tr E.
  destruct (tr >? k); [injection H as _ <-; by left|]. obind H as ol E1.
  unfold dsr_pkt_alloc_opts in H. destruct (if _ <? 0 then _ else _) as [j|].
  - cbn [dh set_dh] in H. obind H as old E2. obind H as m E3. injection H as _ <-. by right.
  - injection H as _ <-. cbn [dh set_dh]. by rewrite Hd.
Qed.

Lemma rreq_cached_dh p s s' t n q n' :
  rreq_cached ip_csum junk now p s s' t n = Ret (Some q, n') -> dh q = dh p.
Proof.
  unfold rreq_cached. intros H. obind H as [rc c] E. destruct rc as [rc|]; [|done].
  destruct (Core.draw _) as [ok1 c1]. obind H as cat E1. destruct cat as [cat|]; [|done].
  destruct (Core.draw _) as [ok2 c2]. obind H as dup E2. destruct (dup >? 0); [done|].
  obind H as q' E3. obind H as n1 E4. injection H as <- _. by apply set_daddr_dh in E3.
Qed.

(** The length grows by one address, in the place it has. *)
Lemma rreq_forward_len p d k n a p' n' length :
  dh p = Dh d -> blk d < nblk p -> opt_length (mem d) 4 = Ret length -> 0 <= length <= 251 -> 0 <= k ->
  rreq_forward ip_csum junk p (Optr (blk d) 4) k n = Ret (a, p', n') -> keeps_len length p'.
Proof.
  intros Hd Hb Hl Hf Hk H. unfold rreq_forward in H. destruct (Core.draw_bytes junk _) as [ans c].
  obind H as [r p1] E. apply (expand_dh _ _ _ _ _ _ Hd) in E.
  unfold opt_off, dh_buf in H. destruct (dh p1) as [| |d1] eqn:Hd1; try done. cbn [mbind outcome_bind] in H.
  obind H as plen E1. cbn [o_blk o_off] in H.
  destruct (blk d =? blk d1) eqn:Hbb; [|done]. zb. destruct E as [[_ Em]|E]; [|lia]. rewrite Em in *.
  cbn [mbind outcome_bind] in H. rewrite Hl in H. cbn [mbind outcome_bind] in H.
  obind H as m1 E2. obind H as m2 E3. obind H as len2 E4. obind H as m3 E5. obind H as plen2 E6. obind H as m4 E7.
  obind H as h E8. obind H as tot E9. obind H as ttl E10. obind H as p2 E11. injection H as _ <- _.
  apply build_ip_dh in E11. unfold set_mem in E11. rewrite Hd1 in E11.
  assert (Hm1 : opt_length m1 4 = Ret length).
  { destruct (_ =? _); [by injection E2 as <-|]. obind E2 as x E12. unfold opt_length in *.
    by rewrite (load8_memwrite _ _ _ _ _ E2) by lia. }
  assert (Hm2 : opt_length m2 4 = Ret length).
  { unfold opt_length in *. by rewrite (load8_memwrite _ _ _ _ _ E3) by lia. }
  rewrite Hm2 in E4. injection E4 as <-.
  exists (length + 4). split; [lia|]. unfold dh_mem. rewrite E11. cbn [mem dh set_dh].
  unfold opt_length, load8. unfold store16 in E7.
  rewrite (memread_memwrite_disjoint _ _ _ _ (4 + 1) 1 E7) by (right; change (zlen (bytes16 _)) with 2; lia).
  unfold store8 in E5. rewrite (memread_memwrite_same _ _ _ _ E5 : memread m3 (4 + 1) 1 = _).
  simpl. by rewrite u8_small by lia.
Qed.
Lemma rreq_answer_len p d s s' n a p' n' length :
  dh p = Dh d -> blk d < nblk p -> opt_length (mem d) 4 = Ret length -> 6 <= length <= 251 ->
  rreq_answer ip_csum junk now p (Optr (blk d) 4) 4 s s' n = Ret (a, p', n') -> keeps_len length p'.
Proof.
  intros Hd Hb Hl Hf H. unfold rreq_answer, dh_buf in H. rewrite Hd in H. cbn [mbind outcome_bind] in H.
  obind H as t E. destruct (t =? _).
  { obind H as q E1. obind H as n1 E2. injection H as _ <- _. apply set_daddr_dh in E1.
    eapply keeps_len_dh; [|done]. congruence. }
  rewrite Hl in H. cbn [mbind outcome_bind] in H.
  destruct (Srt.src s =? _); [injection H as _ <- _; by eapply keeps_len_dh|].
  destruct (existsb _ _); [injection H as _ <- _; by eapply keeps_len_dh|]. obind H as [r n1] E2.
  destruct r as [r|].
  { injection H as _ <- _. eapply keeps_len_dh; [|done]. apply rreq_cached_dh in E2. congruence. }
  eapply (rreq_forward_len p d); [..|exact H]; try done; [lia|].
  unfold DSR_RREQ_ADDRS_LEN. apply Z.div_pos; lia.
Qed.

(** ** A packet with one route request *)

(** [trg] and [id] are what the request asks for, [len] its length. *)
Record request (p : dsr_pkt) (d : dhbuf) (trg id len : Z) : Prop := {
  rq_dh : dh p = Dh d;
  rq_blk : blk d < nblk p;
  rq_tail : Pkt.tail d = 4 + (len + 2);
  rq_type : load8 (mem d) 4 = Ret DSR_OPT_RREQ;
  rq_len : opt_length (mem d) 4 = Ret len;
  rq_fits : 6 <= len <= 251;
  rq_target : rreq_opt_target (mem d) 4 = Ret trg;
  rq_id : rreq_opt_id (mem d) 4 = Ret id;
  rq_heard : promisc p = false;
  rq_first : num_rreq_opts (slots p) = 0
}.

Section Request.
Context (p : dsr_pkt) (d : dhbuf) (trg id length : Z).
Context (Hq : request p d trg id length).
Local Abbreviation o := (Optr (blk d) 4).

Definition noted : dsr_pkt := set_slots p (set_rreq_opt (slots p) 1 (Some o)).

(** A known request is dropped. *)
Lemma rreq_recv_known n :
  dsr_rreq_duplicate (dp_src p) trg id (n_rreq n) = Ret 1 -> rreq_recv p o n = Ret (DSR_PKT_DROP, noted, n).
Proof using Hq.
  intros Hdup. destruct Hq as [Hd _ _ _ _ _ Htr Hid Hh H1].
  unfold dsr_rreq_opt_recv. rewrite Hh, H1. change (0 + 1 >? 1) with false. cbv iota zeta.
  fold noted.
  unfold opt_off, dh_buf, dh_mem. cbn [dh set_slots]. rewrite Hd. cbn [mbind outcome_bind o_blk o_off].
  rewrite Z.eqb_refl. cbn [mbind outcome_bind].
  rewrite Htr. cbn [mbind outcome_bind]. rewrite Hid. cbn [mbind outcome_bind].
  change (dp_src (set_slots _ _)) with (dp_src p). rewrite Hdup. done.
Qed.

(** A new one is put on record, whatever else becomes of it, and its option does
    not get shorter. *)
Lemma rreq_recv_new n a p' n' :
  dsr_rreq_duplicate (dp_src p) trg id (n_rreq n) = Ret 0 -> rreq_recv p o n = Ret (a, p', n') ->
  keeps_len length p'
  /\ exists r al, rreq_tbl_add_id (dn (n_core n)) (alloc (n_core n)) now (dp_src p) trg id (n_rreq n)
                 = Ret (r, n_rreq n', al).
Proof using Hq.
  intros Hdup H. destruct Hq as [Hd Hb Ht Hty Hl Hf Htr Hid Hh H1].
  unfold dsr_rreq_opt_recv in H. rewrite Hh, H1 in H. change (0 + 1 >? 1) with false in H. cbv iota zeta in H.
  unfold opt_off, dh_buf, dh_mem in H. cbn [dh set_slots] in H. rewrite Hd in H. cbn [mbind outcome_bind o_blk o_off] in H.
  rewrite Z.eqb_refl in H. cbn [mbind outcome_bind] in H.
  rewrite Htr in H. cbn [mbind outcome_bind] in H. rewrite Hid in H. cbn [mbind outcome_bind] in H.
  change (dp_src (set_slots _ _)) with (dp_src p) in H. rewrite Hdup in H. cbn [mbind outcome_bind] in H.
  obind H as [[res r] al] Eadd. rewrite Hl in H. cbn [mbind outcome_bind] in H.
  destruct (Core.draw _) as [ok1 c1]. obind H as s Es. destruct s as [s|].
  2: { injection H as _ <- <-. split; [by eapply keeps_len_dh|by exists res, al]. }
  assert (6 <= length).
  { unfold srt_of_opt, DSR_RREQ_ADDRS_LEN in Es. destruct (_ <? 0) eqn:E; [done|]. zb. lia. }
  destruct (Core.draw _) as [ok2 c2]. obind H as rev Er. destruct rev as [rev|].
  2: { injection H as _ <- <-. split; [by eapply keeps_len_dh|by exists res, al]. }
  obind H as n1 E1. apply on_core_rreq in E1. obind H as prv E2. obind H as hw E3.
  obind H as n2 E4. apply on_core_rreq in E4. obind H as n3 E5. apply send_buffered_rreq in E5.
  pose proof (rreq_answer_rreq _ _ _ _ _ _ _ _ _ H) as E6.
  split; [|exists res, al; rewrite Eadd, E6, E5, E4, E1; done].
  eapply (rreq_answer_len _ d); [..|exact H]; done || lia.
Qed.

(** The options of the packet: the request is the only one. *)
Lemma opt_recv_eq n :
  dsr_opt_recv ip_csum junk now stale p n
  = ('(a, q, n') ← rreq_recv p o n;
     _ ← opt_off q o; len ← opt_length (mem (dh_mem q)) 4;
     recv_loop ip_csum junk now stale (S (Z.to_nat (5 + length))) (blk d) (6 + length) (4 + len + 2) (4 + len + 2)
       (Z.lor (if (dp_dst p =? me (n_core n)) && negb (payload_len p =? 0) then DSR_PKT_DELIVER else 0) a) q n').
Proof using Hq.
  destruct Hq as [Hd Hb Ht Hty Hl Hf Htr Hid Hh H1].
  unfold dsr_opt_recv, dsr_pkt_opts_len, dh_mem. rewrite Hd. cbn [mbind outcome_bind]. rewrite Ht.
  replace (4 + (length + 2)) with (6 + length) by lia.
  assert (R1 : opt_off p o = Ret 4).
  { unfold opt_off, dh_buf. rewrite Hd. cbn [mbind outcome_bind o_blk o_off]. by rewrite Z.eqb_refl. }
  assert (R2 : dh_mem p = d) by (unfold dh_mem; by rewrite Hd).
  replace (S (Z.to_nat (5 + length))) with (Z.to_nat (6 + length)) by lia. set (fuel := Z.to_nat (6 + length)).
  set (a0 := if _ && _ then _ else _). cbn [recv_loop]. change DSR_OPT_HDR_LEN with 4.
  rewrite (proj2 (Z.ltb_lt 4 _)) by lia. destruct (_ >? 2) eqn:E; zb; [|lia]. cbn [andb].
  rewrite R1, R2. cbn [mbind outcome_bind]. rewrite Hty. cbn [mbind outcome_bind].
  change (DSR_OPT_RREQ =? DSR_OPT_PAD1) with false. cbv iota.
  unfold recv_case. change (DSR_OPT_RREQ =? DSR_OPT_RREQ) with true. cbv iota. by rewrite Hh.
Qed.

Lemma opt_recv_known n :
  dsr_rreq_duplicate (dp_src p) trg id (n_rreq n) = Ret 1 ->
  exists a0, (a0 = 0 \/ a0 = DSR_PKT_DELIVER)
    /\ dsr_opt_recv ip_csum junk now stale p n = Ret (Z.lor a0 DSR_PKT_DROP, noted, n).
Proof using Hq.
  intros Hdup. rewrite opt_recv_eq, rreq_recv_known by done. cbn [mbind outcome_bind].
  set (a0 := if _ && _ then _ else _). exists a0. split; [by unfold a0; case_match; auto|].
  destruct Hq as [Hd Hb Ht Hty Hl Hf Htr Hid Hh H1].
  unfold opt_off, dh_buf, dh_mem. cbn [dh noted set_slots]. rewrite Hd. cbn [mbind outcome_bind o_blk o_off].
  rewrite Z.eqb_refl. cbn [mbind outcome_bind]. rewrite Hl. cbn [mbind outcome_bind recv_loop].
  by rewrite (proj2 (Z.ltb_ge _ _)) by lia.
Qed.

Lemma opt_recv_new n a q n' :
  dsr_rreq_duplicate (dp_src p) trg id (n_rreq n) = Ret 0 ->
  dsr_opt_recv ip_csum junk now stale p n = Ret (a, q, n') ->
  exists r al, rreq_tbl_add_id (dn (n_core n)) (alloc (n_core n)) now (dp_src p) trg id (n_rreq n)
               = Ret (r, n_rreq n', al).
Proof using Hq.
  intros Hdup. rewrite opt_recv_eq. intros H. obind H as [[a1 q1] n1] E.
  destruct (rreq_recv_new n a1 q1 n1 Hdup E) as [(len & Hlen & E1) Hadd].
  obind H as off E2. rewrite E1 in H. cbn [mbind outcome_bind recv_loop] in H.
  rewrite (proj2 (Z.ltb_ge _ _)) in H by lia. by injection H as _ _ <-.
Qed.
End Request.

(** A packet that is to be dropped is freed, and that is all. *)
Lemma act_drop a0 p n :
  a0 = 0 \/ a0 = DSR_PKT_DELIVER ->
  act_loop ip_csum junk now rr (Z.to_nat DSR_PKT_ACTION_LAST) 0 (Z.lor a0 DSR_PKT_DROP) p n = Ret (free p n).
Proof. by intros [-> | ->]. Qed.

Lemma dsr_recv_known p d trg id length n :
  request p d trg id length -> dsr_rreq_duplicate (dp_src p) trg id (n_rreq n) = Ret 1 ->
  dsr_recv ip_csum junk now rr stale p n = Ret (free p n).
Proof.
  intros Hq Hdup. unfold dsr_recv. rewrite (rq_heard _ _ _ _ _ Hq). cbn [andb].
  destruct (opt_recv_known p d trg id length Hq n Hdup) as (a0 & Ha & ->). cbn [mbind outcome_bind].
  change (promisc (noted p d)) with (promisc p). rewrite (rq_heard _ _ _ _ _ Hq).
  by rewrite (act_drop a0 (noted p d) n Ha).
Qed.

Lemma dsr_recv_new p d trg id length n n' :
  request p d trg id length -> dsr_rreq_duplicate (dp_src p) trg id (n_rreq n) = Ret 0 ->
  dsr_recv ip_csum junk now rr stale p n = Ret n' ->
  exists r al, rreq_tbl_add_id (dn (n_core n)) (alloc (n_core n)) now (dp_src p) trg id (n_rreq n)
               = Ret (r, n_rreq n', al).
Proof.
  intros Hq Hdup H. unfold dsr_recv in H. rewrite (rq_heard _ _ _ _ _ Hq) in H. cbn [andb] in H.
  obind H as [[a q] n1] E. destruct (opt_recv_new p d trg id length Hq n a q n1 Hdup E) as (r & al & Hadd).
  exists r, al. rewrite Hadd. do 3 f_equal.
  destruct (promisc q); [by injection H as <-|]. symmetry. by apply (act_loop_rreq 12 0 a q n1).
Qed.

(** C5: A node handles a route request once.  Whatever it did with the first copy
    - answer it from the target or from its cache, forward it, drop it - a second
    copy of the same request, whichever way it came, is freed, and nothing else
    happens: no answer, no forwarding, no change to the caches, the tables and
    the buffers. *)
Theorem request_handled_once K p d q d' trg id length length' n n' :
  request p d trg id length -> request q d' trg id length' -> dp_src q = dp_src p -> 0 <= id < 65536 ->
  rq_ok K (n_rreq n) -> locked (rreq_tbl (n_rreq n)) = false ->
  get_confval (dn (n_core n)) RequestTableIds = K -> 0 < K < 2 ^ 31 -> false ∉ alloc (n_core n) ->
  dsr_recv ip_csum junk now rr stale p n = Ret n' ->
  dsr_recv ip_csum junk now rr stale q n' = Ret (free q n').
Proof.
  intros Hp Hq Hsrc Hid Hok Hk HK HKb Hal H. apply (dsr_recv_known q d' trg id length' n' Hq). rewrite Hsrc.
  destruct (dup_spec K (dp_src p) trg id (n_rreq n) Hok Hk) as (b & Eb & [-> | ->] & _).
  - rewrite (dsr_recv_known p d trg id length n Hp Eb) in H. injection H as <-. exact Eb.
  - destruct (dsr_recv_new p d trg id length n n' Hp Eb H) as (r & al & Hadd).
    destruct (rreq_add_id_spec K _ (alloc (n_core n)) now (dp_src p) trg id (n_rreq n) Hok Hk HK HKb Hal)
      as (r1 & m1 & x & e & e' & l1 & E & Hok1 & Hk1 & _ & Hel & _ & He' & Hea & _ & Hids & _).
    rewrite Hadd in E. injection E as _ E _. rewrite E.
    destruct (dup_spec K (dp_src p) trg id r1 Hok1 Hk1) as (b & Eb1 & _ & Hb). rewrite Eb1. f_equal.
    apply Hb. exists x, e'. rewrite u16_small in Hids by lia. split_and!; [rewrite Hel; set_solver|done|done|].
    rewrite Hids. set_solver.
Qed.
End Flood.

(** Node 2 hears request 5 of node 1 for node 3, from 1 itself and over node 4. *)
Definition req_pkt (hops : list Z) : dsr_pkt :=
  let o := [DSR_OPT_RREQ; 6 + 4 * zlen hops] ++ bytes16 (htons 5) ++ bytes32 3 ++ bytes_of_words hops in
  let m := [0; 0] ++ bytes16 (htons (zlen o)) ++ o ++ repeat 0 128 in
  let h := repeat 0 20 in
  set_skb (set_ip (set_dh (set_addrs pkt0 1 DSR_BROADCAST 0) (Dh (Dhbuf 0 m (4 + zlen o))) 1) NhSkb (repeat 0 60))
          (Some (Skb 7 (repeat 9 6) ([69] ++ repeat 0 19))).

Lemma req_pkt_direct : request (req_pkt []) (dh_mem (req_pkt [])) 3 5 6.
Proof. constructor; vm_compute; try done; split; discriminate. Qed.
Lemma req_pkt_relayed : request (req_pkt [4]) (dh_mem (req_pkt [4])) 3 5 10.
Proof. constructor; vm_compute; try done; split; discriminate. Qed.

Lemma request_handled_once_witness :
  let n := node_init (dsr_node_init (DsrNode 2 0 [])) true 0 in
  exists n', dsr_recv (λ _, 0) (λ _, 0) (Timeval 5 0) (λ _, None) (Timeval 0 0) (req_pkt []) n = Ret n'
    /\ Core.log (n_core n') <> []
    /\ dsr_recv (λ _, 0) (λ _, 0) (Timeval 5 0) (λ _, None) (Timeval 0 0) (req_pkt [4]) n' = Ret (free (req_pkt [4]) n').
Proof.
  intros n. destruct (dsr_recv (λ _, 0) (λ _, 0) (Timeval 5 0) (λ _, None) (Timeval 0 0) (req_pkt []) n) as [n'|f] eqn:E;
    [|vm_compute in E; discriminate E].
  exists n'. split; [done|]. split; [vm_compute in E; injection E as <-; discriminate|].
  refine (request_handled_once _ _ _ _ _ 16 (req_pkt []) (dh_mem (req_pkt [])) (req_pkt [4]) (dh_mem (req_pkt [4]))
    3 5 6 10 n n' req_pkt_direct req_pkt_relayed eq_refl ltac:(lia) (rreq_init_ok 16) eq_refl eq_refl ltac:(lia)
    (not_elem_of_nil _) E).
Defined.
