(* ===== verification/Sending.v ===== *)
(** * Learning and sending

    What a node learns from a source route, and what it puts on the air when it
    sends a packet or an acknowledgement: which parts of it stay as they were, and
    when nothing can go wrong. *)

From S2P Require Import Prelude Timer Config Mem Tbl TblDel Keep Srt LinkCache LinkCacheInv LinkCacheSpec Neigh RreqTbl GratRrep.
From S2P Require Import Pkt Opt Send SendBuf Salvage MaintBuf Core Node Wire NodeSpec.

(** ** What leaves a node *)

Definition frames (l : list event) : list (option bytes * bytes) :=
  omap (λ e, match e with EvXmit hw f => Some (hw, f) | _ => None end) l.
Definition delivered (l : list event) : list bytes :=
  omap (λ e, match e with EvDeliver f => Some f | _ => None end) l.

Lemma draw_plenty c : false ∉ alloc c -> exists m, Core.draw c = (true, set_alloc c m) /\ (false ∉ m).
Proof. intros H. unfold Core.draw. destruct (kmalloc_free _ H) as (m & -> & Hm). by exists m. Qed.

(** ** Learning *)

(** A core with memory, and room in its link cache for [k] hops. *)
Record sound (k : Z) (c : core) : Prop := {
  so_alloc : false ∉ alloc c;
  so_cache : lc_inv (lc c) /\ lc_locked (lc c) = false;
  so_room : len (lc_nodes (lc c)) + 4 * k <= LC_NODES_MAX /\ len (lc_links (lc c)) + 2 * k <= LC_LINKS_MAX;
  so_neigh : neigh_ok (neigh c)
}.

(** What learning leaves as it was; no neighbour is forgotten. *)
Record learned (c c' : core) : Prop := {
  le_conf : conf c' = conf c;
  le_dev : slave_dev c' = slave_dev c;
  le_log : log c' = log c;
  le_alloc : false ∉ alloc c';
  le_neigh : neigh_ok (neigh c');
  le_known a nb : nview (neigh c) !! a = Some nb -> nview (neigh c') !! a = Some nb
}.

Section Learn.
Context (now : timeval).

Lemma learned_trans c1 c2 c3 : learned c1 c2 -> learned c2 c3 -> learned c1 c3.
Proof. intros [] []. split; try congruence; auto. Qed.
#[local] Instance learned_Transitive : Transitive learned := learned_trans.

Lemma neigh_add_learned k c a hw :
  sound k c -> exists c', neigh_add a hw c = Ret c' /\ sound k c' /\ learned c c'.
Proof.
  intros [Ha Hc Hr Hn]. unfold neigh_add.
  destruct (neigh_add_spec (neigh c) (alloc c) a hw Hn) as (r & t' & m & -> & Hok & Hm & Hv).
  cbn [mbind outcome_bind]. eexists. split; [reflexivity|].
  assert (Hm' : false ∉ m) by set_solver. split; [by split|]. split; try done.
  intros b nb Hb. simpl. destruct (nview (neigh c) !! a) as [x|] eqn:E.
  - by destruct Hv as [_ ->].
  - destruct Hv as [(_ & _ & ->)|[_ ->]]; [done|]. case_decide; [|done]. rewrite lookup_insert_ne; [done|congruence].
Qed.

Lemma link_add_learned k c a b :
  sound (k + 1) c -> 0 <= k -> exists c', link_add now a b c = Ret c' /\ sound k c' /\ learned c c'.
Proof.
  intros [Ha [Hi Hk] [Hr1 Hr2] Hn] Hk0. unfold link_add.
  destruct (link_add_locked_spec (lc c) (alloc c) now a b (confval_to_usecs (dn c) RouteCacheTimeout) 0 1 Hi Hk)
    as (r & l & m & -> & Hi' & Hk' & Hm & Hln & Hll & _); [split; [|right]; lia|].
  cbn [mbind outcome_bind]. eexists. split; [reflexivity|]. specialize (Hm Ha).
  split; [split; simpl; try done; lia|]. by split.
Qed.

Lemma rtc_add_learned c s :
  sound (zlen (addrs s) + 1) c -> srt_wf s -> exists c', rtc_add now s c = Ret c' /\ learned c c'.
Proof.
  intros [Ha [Hi Hk] [Hr1 Hr2] Hn] Hwf. unfold rtc_add. pose proof (zlen_nonneg (addrs s)).
  destruct (srt_add_spec (lc c) (alloc c) now s (confval_to_usecs (dn c) RouteCacheTimeout) Hi Hk Hwf Ha)
    as (l & m & -> & _ & _ & Hm & _).
  { unfold hop_room, per_hop. case_match; lia. }
  cbn [mbind outcome_bind]. eexists. split; [reflexivity|]. by split.
Qed.

Lemma on_core_eq f n c : f (n_core n) = Ret c -> on_core f n = Ret (set_core n c).
Proof. unfold on_core. by intros ->. Qed.

(** Learning from a source route that was received. *)
Lemma srt_learn_total p s n hs :
  skb p = Some hs -> promisc p = false -> srt_wf s -> sound (zlen (addrs s) + 2) (n_core n) ->
  exists c, srt_learn now p s n = Ret (set_core n c) /\ learned (n_core n) c.
Proof.
  intros Hs Hp Hwf Hso. unfold srt_learn, mac_source. rewrite Hs, Hp. cbn [mbind outcome_bind].
  pose proof (zlen_nonneg (addrs s)).
  destruct (neigh_add_learned _ _ (prv_hop p) (h_source hs) Hso) as (c1 & E1 & S1 & L1).
  rewrite (on_core_eq _ _ _ E1). cbn [mbind outcome_bind].
  replace (zlen (addrs s) + 2) with (zlen (addrs s) + 1 + 1) in S1 by lia.
  destruct (link_add_learned _ _ (me c1) (prv_hop p) S1) as (c2 & E2 & S2 & L2); [lia|].
  rewrite (on_core_eq _ _ c2) by exact E2. cbn [mbind outcome_bind].
  unfold learn_srt. rewrite Hp. change (n_core (set_core _ c2)) with c2. case_if.
  - destruct (rtc_add_learned _ _ S2 Hwf) as (c3 & E3 & L3). exists c3.
    rewrite (on_core_eq _ _ c3) by exact E3. split; [done|]. by do 2 (etrans; [eassumption|]).
  - destruct (draw_plenty c2 (so_alloc _ _ S2)) as (m & Ed & Hm). rewrite Ed.
    assert (L3 : learned c2 (set_alloc c2 m)) by (destruct S2; by split).
    assert (S3 : sound (zlen (addrs s) + 1) (set_alloc c2 m)) by (destruct S2; by split).
    set (n3 := set_core _ (set_alloc c2 m)). change (me (n_core n3)) with (me c2).
    destruct (decide (me c2 ∈ addrs s)) as [Hin|Hno].
    + destruct (proj2 (new_split_spec s (me c2) Hwf) Hin) as (s' & i & -> & Hi & _ & Hpath & [Hwf' _]).
      cbn [mbind outcome_bind]. destruct (rtc_add_learned (set_alloc c2 m) s') as (c3 & E3 & L4); [|done|].
      { assert (Hle : zlen (srt_path s') <= zlen (srt_path s)) by (rewrite Hpath; unfold zlen; rewrite length_take; lia).
        unfold srt_path in Hle. autorewrite with dsr_rw in Hle. destruct S3 as [A1 A2 [A3 A4] A5]. split; try done; lia. }
      exists c3. rewrite (on_core_eq _ _ c3) by exact E3. split; [done|]. by do 3 (etrans; [eassumption|]).
    + rewrite (proj1 (new_split_spec s (me c2) Hwf) Hno). cbn [mbind outcome_bind].
      exists (set_alloc c2 m). split; [done|]. by do 2 (etrans; [eassumption|]).
Qed.
End Learn.

(** ** Sending *)

(** No packet that waits for an acknowledgement is overdue. *)
Definition in_time (now : timeval) (m : maint_entry) : Prop := ack_req_sent m = true -> timeval_diff now (tx_time m) <= s32 (m_rto m).
Definition calm (now : timeval) (t : tbl maint_entry) : Prop := Forall (in_time now) (elems t).

Lemma calm_same now t t' :
  (λ m, (ack_req_sent m, tx_time m, m_rto m)) <$> elems t' = (λ m, (ack_req_sent m, tx_time m, m_rto m)) <$> elems t ->
  calm now t -> calm now t'.
Proof.
  unfold calm. intros E Hc. set (P := λ x : bool * timeval * Z, x.1.1 = true -> timeval_diff now x.1.2 <= s32 x.2).
  assert (H : Forall P ((λ m, (ack_req_sent m, tx_time m, m_rto m)) <$> elems t')) by (rewrite E; by apply Forall_fmap).
  by apply Forall_fmap in H.
Qed.

(** A node that sends at once: it has a device and memory, no packet that waits
    for an acknowledgement is overdue, and the time-out it is given fits an [int]. *)
Record ready (now : timeval) (n : node) : Prop := {
  rd_dev : slave_dev (n_core n) = true;
  rd_alloc : false ∉ alloc (n_core n);
  rd_neigh : neigh_ok (neigh (n_core n));
  rd_lock : locked (maint_buf (n_m n)) = false;
  rd_due : calm now (maint_buf (n_m n));
  rd_rto : 0 <= confval_to_usecs (dn (n_core n)) RoundTripTimeout < 2 ^ 31
}.

(** The node knows the hardware address of [a]. *)
Definition hw_addr (c : core) (a : Z) : option bytes := n_hw_addr <$> nview (neigh c) !! a.

Lemma ready_learned now n c : ready now n -> learned (n_core n) c -> ready now (set_core n c).
Proof.
  intros [Hd Ha Hn Hl Hdue Hr] []. split; try done; [change (slave_dev c = true); congruence|].
  unfold dn. change (n_core (set_core n c)) with c. by rewrite le_conf0.
Qed.
Lemma hw_addr_learned c c' a hw : hw_addr c a = Some hw -> learned c c' -> hw_addr c' a = Some hw.
Proof.
  unfold hw_addr. intros Hh [_ _ _ _ _ Hk]. destruct (nview (neigh c) !! a) as [nb|] eqn:E; [|done].
  by rewrite (Hk a nb E).
Qed.

(** What waits in the buffer: for which hop, under which identity, which packet. *)
Definition waiting (t : tbl maint_entry) : list (Z * Z * dsr_pkt) :=
  (λ m, (m_nxt_hop m, m_id m, m_dp m)) <$> elems t.

(** The buffer's timer run when nothing is overdue: only the expiry of the first
    entry that asked for an acknowledgement and the timer are written. *)
Lemma set_timeout_calm {W} `{Peers W} dn a now fuel (s : maint_st W) :
  calm now (maint_buf s) ->
  exists t tm, _maint_buf_set_timeout dn a now (S fuel) s = Ret (MaintSt t tm (peers s))
    /\ waiting t = waiting (maint_buf s) /\ calm now t /\ max_len t = max_len (maint_buf s) /\ len t = len (maint_buf s).
Proof.
  intros Hd. cbn [_maint_buf_set_timeout]. destruct s as [t tm w]. unfold tbl_empty, __tbl_find. cbn [maint_buf peers].
  case_if; [by exists t, tm|].
  rewrite find_elem_pure. cbn [mbind outcome_bind].
  destruct (find_pos _ (elems t)) as [[i m]|] eqn:Ef; cbn [fst snd mbind outcome_bind]; [|by exists t, tm].
  apply find_pos_Some in Ef as (_ & Hm & _ & _ & Hl).
  assert (Hnot : (timeval_diff now (tx_time m) >? s32 (m_rto m)) = false).
  { unfold calm in Hd. cbn [maint_buf] in Hd. rewrite Forall_lookup in Hd. specialize (Hd i m Hl Hm). rewrite Z.gtb_ltb. by apply Z.ltb_ge. }
  rewrite Hnot. cbn. eexists _, _. split; [reflexivity|]. split; [by apply alter_first_fmap|]. split; [|done].
  eapply calm_same; [|exact Hd]. by apply alter_first_fmap.
Qed.

(** What a node does while it puts these frames on the air, the last one first:
    copying and freeing packets, asking neighbours for acknowledgements. *)
Record sent (l : list (option bytes * bytes)) (c c' : core) : Prop := {
  si_conf : conf c' = conf c;
  si_dev : slave_dev c' = slave_dev c;
  si_lc : lc c' = lc c;
  si_neigh : neigh_ok (neigh c) -> neigh_ok (neigh c');
  si_hw a : neigh_ok (neigh c) -> hw_addr c' a = hw_addr c a;
  si_alloc : false ∉ alloc c';
  si_frames : frames (log c') = l ++ frames (log c);
  si_delivered : delivered (log c') = delivered (log c)
}.
Abbreviation silent := (sent []).

Section Send.
Context (ip_csum : bytes -> Z) (junk : Z -> Z) (now : timeval).
#[local] Instance here : Peers core := peers_core ip_csum junk now.

Lemma sent_trans l1 l2 c1 c2 c3 : sent l1 c1 c2 -> sent l2 c2 c3 -> sent (l2 ++ l1) c1 c3.
Proof.
  intros [] []. split; try congruence; [by auto| |].
  - intros a Ha. rewrite si_hw1; auto.
  - by rewrite si_frames1, si_frames0, app_assoc.
Qed.
Lemma silent_trans c1 c2 c3 : silent c1 c2 -> silent c2 c3 -> silent c1 c3.
Proof. exact (sent_trans [] [] _ _ _). Qed.
#[local] Instance silent_Transitive : Transitive silent := silent_trans.

Lemma silent_draw c : false ∉ alloc c -> exists c', Core.draw c = (true, c') /\ silent c c'.
Proof. intros H. destruct (draw_plenty c H) as (m & -> & Hm). eexists. split; [done|]. by split. Qed.
Lemma silent_draw_bytes c : false ∉ alloc c -> exists c', Core.draw_bytes junk c = (Some junk, c') /\ silent c c'.
Proof.
  intros H. unfold Core.draw_bytes. destruct (silent_draw c H) as (c' & -> & Hs). by exists c'.
Qed.
Lemma silent_free p c : false ∉ alloc c -> silent c (dsr_pkt_free p c).
Proof. by split. Qed.

(** A packet whose bytes the node can parse again. *)
Definition copyable (p : dsr_pkt) : Prop :=
  exists hs, skb p = Some hs
    /\ forall i, exists q, dsr_pkt_alloc true (Some junk) (Some (Skb i (h_source hs) (skb_data hs))) = Ret (Some q).

Lemma entry_pkt_silent p c :
  copyable p -> false ∉ alloc c -> exists q c', entry_pkt junk p c = Ret (Some q, c') /\ silent c c'.
Proof.
  intros (hs & Hs & Hq) Ha. unfold entry_pkt. rewrite Hs.
  destruct (silent_draw c Ha) as (c1 & -> & S1). cbn [negb].
  destruct (silent_draw c1 (si_alloc _ _ _ S1)) as (c2 & -> & S2).
  assert (S2' : silent c2 (set_next_skb c2 (next_skb c2 + 1))) by (split; try done; apply (si_alloc _ _ _ S2)).
  destruct (silent_draw _ (si_alloc _ _ _ S2')) as (c3 & -> & S3).
  destruct (silent_draw_bytes c3 (si_alloc _ _ _ S3)) as (c4 & -> & S4).
  destruct (Hq (next_skb c2)) as (q & ->). cbn [mbind outcome_bind].
  exists q, c4. split; [done|]. by do 4 (etrans; [eassumption|]).
Qed.

Lemma nview_elem t a nb : neigh_ok t -> nview t !! a = Some nb -> nb ∈ elems t.
Proof.
  intros Hn H. unfold nview in H. rewrite nview_find in H by apply Hn.
  destruct (find_pos _ (elems t)) as [[i n]|] eqn:E; [|done]. injection H as ->.
  apply find_pos_Some in E as (_ & _ & _ & _ & Hl). by eapply list_elem_of_lookup_2.
Qed.

Lemma neigh_query_known c a nb :
  neigh_ok (neigh c) -> nview (neigh c) !! a = Some nb ->
  exists i, neigh_query a c = Ret (Some i) /\ i_hw_addr i = n_hw_addr nb
    /\ (0 <= confval_to_usecs (dn c) RoundTripTimeout < 2 ^ 31 -> 0 <= s32 (i_rto i)).
Proof.
  intros Hn Hv. unfold neigh_query. rewrite neigh_query_spec, Hv by done. cbn [mbind outcome_bind].
  eexists. split; [reflexivity|]. split; [done|]. intros Hr. cbn [fill_info i_rto].
  pose proof (nk_rto _ Hn) as Hf. rewrite Forall_forall in Hf.
  destruct (Hf nb (nview_elem _ _ _ Hn Hv)) as [_ Hrx]. unfold DSR_MIN, DSR_REXMTMAX in Hrx. case_if.
  - rewrite u64_small by lia. unfold PR_SLOWHZ. pose proof (Z.div_lt_upper_bound (t_rxtcur nb * 1000) 2 1280000 ltac:(lia)).
    pose proof (Z.div_pos (t_rxtcur nb * 1000) 2). rewrite s32_small by lia. lia.
  - rewrite s32_small by lia. lia.
Qed.

(** Asking a neighbour changes its entry, but not its address. *)
Lemma neigh_asked c a (f : tbl neighbor -> Z -> outcome (Z * tbl neighbor)) g :
  (forall nb, n_hw_addr (g nb) = n_hw_addr nb) ->
  (neigh_ok (neigh c) -> exists t', f (neigh c) a = Ret (if decide (is_Some (nview (neigh c) !! a)) then 1 else 0, t')
     /\ neigh_ok t' /\ nview t' = alter g a (nview (neigh c))) ->
  false ∉ alloc c -> neigh_ok (neigh c) ->
  exists c', ('(_, t) ← f (neigh c) a; Ret (set_neigh c t)) = Ret c' /\ silent c c'.
Proof.
  intros Hg Hf Ha Hn. destruct (Hf Hn) as (t' & -> & Hok & Hv). cbn [mbind outcome_bind]. eexists. split; [reflexivity|].
  split; try done. intros b _. unfold hw_addr. cbn [neigh set_neigh]. rewrite Hv.
  destruct (decide (b = a)) as [-> |Hne]; [|by rewrite lookup_alter_ne]. rewrite lookup_alter_eq.
  destruct (nview (neigh c) !! a) as [nb|]; [|done]. cbn. by rewrite Hg.
Qed.

(** What a request for an acknowledgement makes of a packet: the frame of [p] with
    a request [ak] is [g ak], and one can be put on it. *)
Record askable (p : dsr_pkt) (g : option Z -> bytes) (ak : option Z) : Prop := {
  as_frame : dsr_skb_create ip_csum (Some junk) p = Ret (Some (g ak));
  as_asked id : exists r q, dsr_ack_req_opt_add ip_csum (Some junk) p id = Ret (r, q)
    /\ nxt_hop q = nxt_hop p /\ dp_dst q = dp_dst p /\ dsr_skb_create ip_csum (Some junk) q = Ret (Some (g (Some (u16 id))))
}.

(** A packet goes to the maintenance buffer, if there is room, perhaps with a
    request for an acknowledgement. *)
Lemma maint_buf_add_calm p g ak n fuel :
  ready now n -> copyable p -> askable p g ak -> is_Some (nview (neigh (n_core n)) !! nxt_hop p) ->
  exists r q s', maint_buf_add (dn (n_core n)) now (_maint_buf_set_timeout (dn (n_core n)) (me (n_core n)) now (S fuel)) p (n_m n)
                 = Ret (r, q, s') /\ silent (n_core n) (peers s') /\ calm now (maint_buf s') /\ locked (maint_buf s') = false
    /\ (q = p \/ exists r id, dsr_ack_req_opt_add ip_csum (Some junk) p id = Ret (r, q)).
Proof.
  intros [Hdev Ha Hn Hl Hd Hrto] Hc Hask [nb Hnb]. unfold n_core in *. unfold maint_buf_add. cbn [p_neigh_query here peers_core core_peers].
  destruct (neigh_query_known _ _ _ Hn Hnb) as (i & E0 & _ & Hi). rewrite E0. clear E0. cbn [mbind outcome_bind].
  unfold maint_entry_create. cbn [p_entry_pkt here peers_core core_peers].
  destruct (entry_pkt_silent p (peers (n_m n)) Hc Ha) as (q & c & -> & S1). cbn [mbind outcome_bind].
  destruct (negb _); [|exists 1, p, (set_peers (n_m n) c); do 4 (split; [done|]); by left].
  set (m := Maint _ _ _ _ _ _ _ _).
  (* the end, once it is settled whether an acknowledgement is asked for *)
  assert (Hend : forall (b : bool) (p' : dsr_pkt) c', silent c c' ->
    exists r s', (t ← write_lock_bh (maint_buf (n_m n));
       let '(r, t) := __tbl_add_tail t (if b then set_ack_req_sent m true else m) in
       if r <? 0 then Ret (-1, p', MaintSt (write_unlock_bh t) (ack_timer (n_m n)) (p_pkt_free (m_dp (if b then set_ack_req_sent m true else m)) c'))
       else s ← _maint_buf_set_timeout (dn (n_core n)) (me (n_core n)) now (S fuel) (MaintSt t (ack_timer (n_m n)) c');
            Ret (1, p', set_buf s (write_unlock_bh (maint_buf s)))) = Ret (r, p', s')
       /\ silent (n_core n) (peers s') /\ calm now (maint_buf s') /\ locked (maint_buf s') = false).
  { intros b p' c' S2. pose proof (silent_trans _ _ _ S1 S2) as S. unfold write_lock_bh. rewrite Hl. cbn [mbind outcome_bind].
    set (t := Tbl _ _ _ true). set (m' := if b then _ else m).
    assert (Hin : in_time now m').
    { intros _. assert (tx_time m' = now /\ m_rto m' = i_rto i) as [-> ->] by (by destruct b).
      unfold timeval_diff. replace (_ * 1000000 + _ - _) with 0 by lia. by apply Hi. }
    assert (Hfull : forall r t', __tbl_add_tail t m' = (r, t') -> calm now t').
    { unfold __tbl_add_tail. intros r t'. case_if; intros [= <- <-]; [exact Hd|]. apply Forall_app. split; [exact Hd|by constructor]. }
    destruct (__tbl_add_tail t m') as [r t'] eqn:E. specialize (Hfull r t' eq_refl). case_if.
    - eexists _, _. split; [reflexivity|]. split; [|by split]. cbn [peers]. etrans; [exact S|]. apply silent_free, S.
    - destruct (set_timeout_calm (dn (n_core n)) (me (n_core n)) now fuel (MaintSt t' (ack_timer (n_m n)) c') Hfull)
        as (t2 & tm & -> & _ & Hcalm & _).
      eexists _, _. split; [reflexivity|]. split; [exact S|by split]. }
  case_if.
  - cbn [p_set_ack_req_time p_id_inc p_ack_req_opt_add here peers_core core_peers].
    destruct (neigh_asked c (m_nxt_hop m) (λ t a, neigh_tbl_set_ack_req_time t now a) (λ nb, set_last_ack_req nb now)) as (c2 & E2 & S2);
      [done|intros; by apply neigh_ack_req_spec|apply S1|by apply S1|].
    cbv beta in E2. rewrite E2. cbn [mbind outcome_bind].
    destruct (neigh_asked c2 (m_nxt_hop m) neigh_tbl_id_inc (λ nb, set_id nb (u16 (n_id nb + 1)))) as (c3 & E3 & S3);
      [done|intros; by apply neigh_id_inc_spec|apply S2|by apply S2, S1|].
    rewrite E3. cbn [mbind outcome_bind].
    destruct (silent_draw_bytes c3 (si_alloc _ _ _ S3)) as (c4 & -> & S4).
    destruct (as_asked _ _ _ Hask (m_id m)) as (r & q' & Eq & _). rewrite Eq. cbn [mbind outcome_bind].
    destruct (Hend true q' c4) as (r' & s' & E' & S' & Hcl & Hlk).
    { by etrans; [exact S2|]; etrans. }
    exists r', q', s'. split; [exact E'|]. do 3 (split; [done|]). right. by exists r, (m_id m).
  - cbn [mbind outcome_bind]. destruct (Hend false p c) as (r' & s' & E' & S' & Hcl & Hlk).
    { split; try done. apply S1. }
    exists r', p, s'. split; [exact E'|]. do 3 (split; [done|]). by left.
Qed.

(** The device, for a neighbour that may be known or not. *)
Lemma dsr_dev_send_sent p c b :
  slave_dev c = true -> false ∉ alloc c -> neigh_ok (neigh c) -> dsr_skb_create ip_csum (Some junk) p = Ret (Some b) ->
  exists c', dsr_dev_send ip_csum junk p c = Ret c'
    /\ sent [(if decide (dp_dst p = DSR_BROADCAST) then Some eth_broadcast else hw_addr c (nxt_hop p), b)] c c'.
Proof.
  intros Hd Ha Hn Hf. unfold dsr_dev_send. rewrite Hd.
  destruct (silent_draw_bytes c Ha) as (c1 & -> & S1). rewrite Hf. cbn [mbind outcome_bind].
  set (hw := if decide _ then _ else _).
  assert (dsr_hw_header_create p c1 = Ret hw) as ->.
  { unfold dsr_hw_header_create, hw. case_decide as Hb; [by rewrite Hb, Z.eqb_refl|].
    rewrite (proj2 (Z.eqb_neq _ _) Hb). rewrite <- (si_hw _ _ _ S1) by done. unfold hw_addr.
    pose proof (si_neigh _ _ _ S1 Hn) as Hn1.
    destruct (nview (neigh c1) !! nxt_hop p) as [nb|] eqn:E.
    - destruct (neigh_query_known c1 _ nb Hn1 E) as (i & -> & Hw & _). cbn. by rewrite Hw.
    - unfold neigh_query. by rewrite neigh_query_spec, E. }
  cbn [mbind outcome_bind]. eexists. split; [reflexivity|].
  assert (S2 : sent [(hw, b)] c1 (dsr_pkt_free p (emit (EvXmit hw b) c1))) by (split; try done; apply S1).
  exact (sent_trans [] _ _ _ _ S1 S2).
Qed.

(** [XMIT] puts exactly one frame on the air, that of the packet or of the packet
    with a new request. *)
Lemma XMIT_sends p g ak n hw :
  ready now n -> copyable p -> askable p g ak -> hw_addr (n_core n) (nxt_hop p) = Some hw -> dp_dst p <> DSR_BROADCAST ->
  exists n' ak', XMIT ip_csum junk now p n = Ret n' /\ ready now n' /\ (ak' = ak \/ exists id, ak' = Some (u16 id))
    /\ sent [(Some hw, g ak')] (n_core n) (n_core n').
Proof.
  intros Hrd Hc Hask Hk Hb. unfold Node.XMIT, xmit_m, MaintBuf.XMIT.
  assert (Ht : exists fuel, add_turns (dn (peers (n_m n))) (n_m n) = S fuel) by (unfold add_turns, turns_left; by eexists).
  destruct Ht as (fuel & ->). unfold dsr_dev_xmit. cbn [p_device peers_core core_peers].
  assert (Hrun : exists q s', (if negb (Z.land (dp_flags p) PKT_REQUEST_ACK =? 0) then
       '(_, dp, s) ← maint_buf_add (dn (peers (n_m n))) now
         (_maint_buf_set_timeout (dn (peers (n_m n))) (me (peers (n_m n))) now (S fuel)) p (n_m n); Ret (dp, s)
     else Ret (p, n_m n)) = Ret (q, s') /\ silent (n_core n) (peers s')
     /\ calm now (maint_buf s') /\ locked (maint_buf s') = false
     /\ (q = p \/ exists r id, dsr_ack_req_opt_add ip_csum (Some junk) p id = Ret (r, q))).
  { destruct (negb _).
    - destruct (maint_buf_add_calm p g ak n fuel Hrd Hc Hask) as (r & q & s' & E & S1 & Hcl & Hlk & Hq).
      { unfold hw_addr in Hk. by destruct (nview _ !! _). }
      unfold n_core in E. rewrite E. by exists q, s'.
    - exists p, (n_m n). split; [done|]. split; [by split; try apply Hrd|]. split; [apply Hrd|]. split; [apply Hrd|by left]. }
  destruct Hrun as (q & s' & E & S1 & Hcl & Hlk & Hq). unfold here in E. rewrite E. cbn [mbind outcome_bind].
  assert (Hq' : exists ak', (ak' = ak \/ exists id, ak' = Some (u16 id)) /\ nxt_hop q = nxt_hop p /\ dp_dst q = dp_dst p
    /\ dsr_skb_create ip_csum (Some junk) q = Ret (Some (g ak'))).
  { destruct Hq as [-> |(r & id & Eq)]; [exists ak; split_and!; try done; [by left|apply Hask]|].
    destruct (as_asked _ _ _ Hask id) as (r' & q' & Eq' & H1 & H2 & H3). rewrite Eq in Eq'. injection Eq' as <- <-.
    exists (Some (u16 id)). split_and!; try done. right. by exists id. }
  destruct Hq' as (ak' & Hak & Hn & Hd & Hf).
  destruct (dsr_dev_send_sent q (peers s') (g ak')) as (c' & -> & S2); try done.
  - rewrite (si_dev _ _ _ S1). apply Hrd.
  - apply S1.
  - apply S1, Hrd.
  - cbn [mbind outcome_bind]. eexists _, ak'. split; [reflexivity|].
    rewrite decide_False in S2 by congruence. rewrite Hn, (si_hw _ _ _ S1), Hk in S2 by apply Hrd.
    pose proof (sent_trans [] _ _ _ _ S1 S2) as S. split; [|by split]. destruct Hrd as [H1 _ H3 _ _ H6]. split; try done.
    + change (slave_dev c' = true). by rewrite (si_dev _ _ _ S).
    + apply S.
    + by apply S.
    + change (0 <= confval_to_usecs (Some (conf c')) RoundTripTimeout < 2 ^ 31). by rewrite (si_conf _ _ _ S).
Qed.

(** A packet that asks for nothing goes straight to the device. *)
Lemma XMIT_plain p b n :
  ready now n -> dp_flags p = PKT_XMIT_JITTER -> dsr_skb_create ip_csum (Some junk) p = Ret (Some b) ->
  exists hw c, XMIT ip_csum junk now p n = Ret (set_core n c) /\ sent [(hw, b)] (n_core n) c.
Proof.
  intros Hrd Hfl Hf. unfold Node.XMIT, xmit_m, MaintBuf.XMIT, dsr_dev_xmit. rewrite Hfl.
  change (negb (Z.land PKT_XMIT_JITTER PKT_REQUEST_ACK =? 0)) with false. cbn [mbind outcome_bind p_device peers_core core_peers].
  destruct (dsr_dev_send_sent p (peers (n_m n)) b) as (c & -> & S); try apply Hrd; [done|].
  by eexists _, c.
Qed.

Lemma ready_sent l n c : ready now n -> sent l (n_core n) c -> ready now (set_core n c).
Proof.
  intros [Hd Ha Hn Hl Hdue Hr] []. split; try done; [change (slave_dev c = true); congruence|by apply si_neigh0|].
  unfold dn. change (n_core (set_core n c)) with c. by rewrite si_conf0.
Qed.
End Send.

(** ** The acknowledgement *)

Lemma opt_head_enc {A} b buf ty l v (k : bytes -> outcome A) :
  is_byte ty -> is_byte l ->
  (b ← store8 b buf ty; b ← store8 b (buf + 1) l; b ← store16 b (buf + 2) v; k b)
  = (b ← memwrite b buf (ty :: l :: bytes16 v); k b).
Proof.
  intros Ht Hl. unfold store8, store16. rewrite !u8_small by done.
  change (ty :: l :: bytes16 v) with ([ty] ++ [l] ++ bytes16 v). rewrite memwrite_split.
  destruct (memwrite b buf [ty]) as [b1|]; [|done]. cbn [mbind outcome_bind].
  rewrite memwrite_split. change (buf + zlen [ty]) with (buf + 1).
  destruct (memwrite b1 (buf + 1) [l]) as [b2|]; [|done]. cbn [mbind outcome_bind].
  replace (buf + 1 + zlen [l]) with (buf + 2); [done|]. change (zlen [l]) with 1. lia.
Qed.

Section Ack.
Context (ip_csum : bytes -> Z) (junk : Z -> Z) (now : timeval).

(** The frame of an acknowledgement. *)
Definition ack_hdr (src dst : Z) : iph := summed ip_csum (Iph 0 (htons 36) 0 0 64 IPPROTO_DSR 0 src dst).
Definition ack_frame (src dst id : Z) : bytes :=
  iph_enc (ack_hdr src dst)
  ++ opts_enc DSR_NO_NEXT_HDR_TYPE [(DSR_OPT_ACK, bytes16 (htons id) ++ bytes32 src ++ bytes32 dst)].

Lemma dsr_build_ip_new p src dst tot prot ttl :
  skb p = None -> ip_data p = repeat 0 60 -> is_byte prot -> is_byte ttl -> 0 < ttl ->
  dsr_build_ip ip_csum p src dst 20 tot prot ttl
  = Ret (set_ip p NhData (iph_enc (summed ip_csum (Iph 0 (htons tot) 0 0 ttl prot 0 src dst)) ++ repeat 0 40)).
Proof.
  intros Hs Hi Hp Ht Ht0. unfold dsr_build_ip. rewrite Hs, Hi, (proj2 (Z.eqb_neq ttl 0)) by lia.
  unfold store8, store16, store32. rewrite (u8_small ttl), (u8_small prot) by done.
  set (h := Iph _ _ _ _ _ _ _ _ _).
  transitivity (b ← ip_send_check ip_csum (iph_enc h ++ repeat 0 40); Ret (set_ip p NhData b)); [reflexivity|].
  by rewrite ip_send_check_enc.
Qed.

(** The options block of an acknowledgement. *)
Lemma ack_opts_written F src dst id :
  zlen F = 144 ->
  exists m rest, dsr_opt_hdr_add F 0 16 DSR_NO_NEXT_HDR_TYPE = Ret (Some m)
    /\ dsr_ack_opt_add m 4 12 src dst id
       = Ret (Some (opts_enc DSR_NO_NEXT_HDR_TYPE [(DSR_OPT_ACK, bytes16 (htons id) ++ bytes32 src ++ bytes32 dst)] ++ rest)).
Proof.
  intros HF. destruct (split3 F 4 4 136) as (x & y & z & -> & Hx & Hy & Hz); [lia..|].
  destruct (split3 z 4 4 128) as (z1 & z2 & rest & -> & Hz1 & Hz2 & _); [lia..|].
  rewrite dsr_opt_hdr_add_enc by done. change (16 - 4) with 12.
  set (hd := [DSR_NO_NEXT_HDR_TYPE; 0] ++ bytes16 (htons 12)).
  rewrite memwrite_over0 by done. cbn [mbind outcome_bind]. eexists _, rest. split; [reflexivity|].
  unfold dsr_ack_opt_add. change (12 <? DSR_ACK_HDR_LEN) with false. cbv iota.
  rewrite opt_head_enc by done. set (o := DSR_OPT_ACK :: DSR_ACK_OPT_LEN :: bytes16 (htons id)).
  rewrite (memwrite_over hd o y) by done. cbn [mbind outcome_bind]. unfold store32.
  rewrite (app_assoc hd), (app_assoc (hd ++ o)).
  assert (zlen ((hd ++ o) ++ z1) = 12) as HL by (rewrite zlen_app, Hz1; done).
  replace (4 + 8) with (zlen ((hd ++ o) ++ z1)) by lia. rewrite memwrite_over by done. cbn [mbind outcome_bind].
  rewrite <- (app_assoc (hd ++ o)). rewrite (memwrite_over (hd ++ o) (bytes32 src) z1) by done. cbn [mbind outcome_bind].
  unfold opts_enc. cbn [fmap list_fmap concat]. rewrite app_nil_r. unfold opt_enc, hd, o. cbn [fst snd]. by rewrite <- !app_assoc.
Qed.

(** Acknowledging puts one frame on the air. *)
Lemma ack_send_sends dst id n :
  ready now n ->
  exists hw c, dsr_ack_send ip_csum junk now dst id n = Ret (set_core n c)
    /\ sent [(hw, ack_frame (me (n_core n)) dst id)] (n_core n) c.
Proof.
  intros Hrd. unfold dsr_ack_send.
  destruct (silent_draw (n_core n) (rd_alloc _ _ Hrd)) as (c1 & -> & S1). change (n_core (set_core n c1)) with c1.
  destruct (silent_draw_bytes junk c1 (si_alloc _ _ _ S1)) as (c2 & -> & S2).
  change (n_core (set_core (set_core n c1) c2)) with c2.
  assert (S : silent (n_core n) c2) by exact (silent_trans _ _ _ S1 S2).
  assert (Hme : me c2 = me (n_core n)) by (unfold me; by rewrite (si_conf _ _ _ S)).
  destruct (ack_opts_written (fill (16 + 128) junk) (me c2) dst id) as (m & rest & E1 & E2); [by rewrite fill_len|].
  assert (Hp : exists p, ack_pkt ip_csum true (Some junk) (me c2) dst id = Ret (Some p) /\ dp_flags p = PKT_XMIT_JITTER
    /\ dp_dst p = dst /\ nxt_hop p = dst /\ nh_bytes p = Ret (iph_enc (ack_hdr (me c2) dst) ++ repeat 0 40)
    /\ dh p = Dh (Dhbuf 0 (opts_enc DSR_NO_NEXT_HDR_TYPE [(DSR_OPT_ACK, bytes16 (htons id) ++ bytes32 (me c2) ++ bytes32 dst)] ++ rest) 16)
    /\ payload_len p = 0).
  { unfold ack_pkt. change (dsr_pkt_alloc true (Some junk) None) with (Ret (Some pkt0)). cbn [mbind outcome_bind].
    unfold start_ctrl, dsr_pkt_alloc_opts. change (DSR_OPT_HDR_LEN + DSR_ACK_HDR_LEN) with 16.
    change (16 + DEFAULT_TAILROOM <? 0) with false. cbv iota. rewrite dsr_build_ip_new by done. cbn [mbind outcome_bind].
    match goal with |- context [dsr_opt_hdr_add (mem ?d) 0 16 _] => change (mem d) with (fill (16 + 128) junk) end.
    rewrite E1. cbn [mbind outcome_bind].
    unfold set_mem, dh_mem. cbn [dh mem set_ip set_dh dp_src dp_dst set_addrs]. change (16 - DSR_OPT_HDR_LEN) with 12. change DSR_OPT_HDR_LEN with 4.
    rewrite E2. cbn [mbind outcome_bind]. eexists. split; [reflexivity|]. split_and!; reflexivity. }
  destruct Hp as (p & -> & Hfl & Hd & Hn & Hnh & Hdh & Hpl). cbn [mbind outcome_bind].
  destruct (XMIT_plain ip_csum junk now p (ack_frame (me c2) dst id) (set_core n c2)) as (hw & c & E & SX).
  - by eapply ready_sent.
  - done.
  - rewrite (dsr_skb_create_gen ip_csum junk p (ack_hdr (me c2) dst) (repeat 0 40)
      (opts_enc DSR_NO_NEXT_HDR_TYPE [(DSR_OPT_ACK, bytes16 (htons id) ++ bytes32 (me c2) ++ bytes32 dst)]) []); try done.
    + unfold dsr_pkt_opts_len. by rewrite Hdh.
    + right. unfold dh_mem. rewrite Hdh. apply memread_behind0.
    + by left.
  - exists hw, c. split; [exact E|]. change (n_core (set_core n c2)) with c2 in SX. rewrite Hme in SX. exact (sent_trans [] _ _ _ _ S SX).
Qed.

(** The frames of a node at [a] that answers a request [ak] of the node at [prv]. *)
Definition answered (a prv : Z) (ak : option Z) (l : list (option bytes * bytes)) : Prop :=
  match ak with None => l = [] | Some id => exists hw, l = [(hw, ack_frame a prv id)] end.

Lemma ack_back_sends ak prv n :
  ready now n ->
  exists c l, ack_back ip_csum junk now ak prv n = Ret (set_core n c) /\ answered (me (n_core n)) prv ak l /\ sent l (n_core n) c.
Proof.
  intros Hrd. destruct ak as [id|].
  - destruct (ack_send_sends prv id n Hrd) as (hw & c & E & S). exists c, [(hw, ack_frame (me (n_core n)) prv id)].
    split; [exact E|]. split; [by exists hw|done].
  - exists (n_core n), []. split; [by destruct n as [[]]|]. split; [done|]. by split; try apply Hrd.
Qed.
End Ack.

(** ** A packet that goes out, with a request or without *)

Section Asking.
Context (ip_csum : bytes -> Z) (csum_range : forall b, 0 <= ip_csum b < 65536) (junk : Z -> Z).

(** The packet has the IP header [h], up to its length and checksum, these
    options, which end in protocol [prot], and this payload. *)
Context (h : iph) (prot : Z) (os : list (Z * bytes)) (pl : bytes).

Definition way_opts (ak : option Z) : bytes := opts_enc prot (os ++ ack_opts ak).
Definition way_hdr (ak : option Z) : iph :=
  summed ip_csum (set_len_prot h (htons (20 + zlen (way_opts ak) + zlen pl)) IPPROTO_DSR).
Definition way_frame (ak : option Z) : bytes := iph_enc (way_hdr ak) ++ way_opts ak ++ pl.

(** The two agree up to the length, the protocol and the checksum. *)
Definition like_hdr (hs : iph) : Prop := forall t pr, summed ip_csum (set_len_prot hs t pr) = summed ip_csum (set_len_prot h t pr).

Lemma like_way ak : like_hdr (way_hdr ak).
Proof. done. Qed.

Context (Hok : iph_ok h) (Hprot : is_byte prot) (Hsmall : 24 + zlen (opts_enc prot os) + zlen pl < 65536).

Record outgoing (p : dsr_pkt) (ak : option Z) : Prop := {
  og_dh : exists d room, dh p = Dh d /\ mem d = way_opts ak ++ room /\ Pkt.tail d = zlen (way_opts ak);
  og_nh : nh p <> NhNull /\ exists rest, nh_bytes p = Ret (iph_enc (way_hdr ak) ++ rest);
  og_ip : zlen (ip_data p) = 60;
  og_skb : exists s hs rest, skb p = Some s /\ skb_data s = iph_enc hs ++ rest /\ like_hdr hs
     /\ exists off, payload p = Some off /\ memread (skb_data s) off (zlen pl) = Ret pl;
  og_len : payload_len p = zlen pl
}.

(** Where a request goes: to the place of the one there is, or behind the options. *)
Definition ask_place (p : dsr_pkt) (ak : option Z) : Prop :=
  exists d, dh p = Dh d /\ ack_req_opt (slots p) = (λ _, Optr (blk d) (zlen (opts_enc prot os))) <$> ak
    /\ (ak = None -> Pkt.tail d + 4 < zlen (mem d)).

Lemma way_opts_split ak :
  way_opts ak = ([prot; 0] ++ bytes16 (htons (zlen (concat (opt_enc <$> os)) + zlen (ack_raw ak)))) ++ concat (opt_enc <$> os) ++ ack_raw ak.
Proof. unfold way_opts, opts_enc, ack_raw. by rewrite fmap_app, concat_app, zlen_app. Qed.
Lemma way_opts_len ak : zlen (way_opts ak) = zlen (opts_enc prot os) + zlen (ack_raw ak).
Proof. rewrite way_opts_split, opts_enc_len, !zlen_app. change (zlen [prot; 0]) with 2. change (zlen (bytes16 _)) with 2. lia. Qed.

Lemma way_hdr_ok ak : iph_ok (way_hdr ak).
Proof using csum_range Hok. destruct Hok. constructor; simpl; try done. apply htons_range. Qed.
Lemma way_tot ak : ntohs (i_tot (way_hdr ak)) = 20 + zlen (way_opts ak) + zlen pl.
Proof using Hsmall.
  change (i_tot (way_hdr ak)) with (htons (20 + zlen (way_opts ak) + zlen pl)). rewrite ntohs_htons; [done|].
  rewrite way_opts_len, ack_raw_len. pose proof (zlen_nonneg pl). pose proof (zlen_nonneg (opts_enc prot os)). destruct ak; lia.
Qed.

Lemma outgoing_frame p ak : outgoing p ak -> dsr_skb_create ip_csum (Some junk) p = Ret (Some (way_frame ak)).
Proof.
  intros [(d & room & Hd & Hm & Ht) [_ (rest & Hnh)] _ (s & hs & rest' & Hs & _ & _ & off & Hoff & Hr) Hpl].
  apply (dsr_skb_create_spec ip_csum junk p (way_hdr ak) rest (way_opts ak) pl s off); try done.
  - unfold dsr_pkt_opts_len. by rewrite Hd, Ht.
  - right. unfold dh_mem. rewrite Hd, Hm. apply memread_behind0.
Qed.

Lemma ack_req_enc b buf id :
  dsr_ack_req_opt_create b buf DSR_ACK_REQ_HDR_LEN id = (b' ← memwrite b buf (ack_raw (Some (u16 id))); Ret (Some b')).
Proof.
  unfold dsr_ack_req_opt_create. change (DSR_ACK_REQ_HDR_LEN <? DSR_ACK_REQ_HDR_LEN) with false. cbv iota.
  rewrite opt_head_enc by done. unfold ack_raw. cbn [ack_opts fmap list_fmap concat]. by rewrite app_nil_r, <- htons_u16.
Qed.

Lemma opts_enc_nz : (zlen (opts_enc prot os) =? 0) = false.
Proof. rewrite opts_enc_len. pose proof (zlen_nonneg (concat (opt_enc <$> os))). apply Z.eqb_neq. lia. Qed.

(** Options without a request, and room behind them for one. *)
Lemma way_opts_asked room id :
  4 < zlen room ->
  let m := way_opts None ++ room in
  load16 m 2 = Ret (htons (zlen (concat (opt_enc <$> os)))) /\ load8 m 0 = Ret prot
  /\ exists m1 room', dsr_opt_hdr_add m 0 (4 + zlen (concat (opt_enc <$> os)) + 4) prot = Ret (Some m1)
      /\ dsr_ack_req_opt_create m1 (zlen (opts_enc prot os)) DSR_ACK_REQ_HDR_LEN id = Ret (Some (way_opts (Some (u16 id)) ++ room')).
Proof using Hprot Hsmall.
  intros Hroom m. unfold m. rewrite !way_opts_split. set (C := concat _). change (ack_raw None) with (@nil Z).
  pose proof (zlen_nonneg C). pose proof (zlen_nonneg pl). pose proof (opts_enc_len prot os) as HL. fold C in HL.
  rewrite Z.add_0_r, app_nil_r. set (hd := [prot; 0] ++ _). rewrite <- app_assoc. split.
  { unfold load16. unfold hd. rewrite <- (app_assoc [prot; 0]).
    rewrite (memread_behind [prot; 0] (bytes16 (htons (zlen C))) _ 2 eq_refl : memread _ 2 2 = _).
    cbn [mbind outcome_bind]. simpl. by rewrite le16_bytes16 by apply htons_range. }
  split; [exact (load8_here [] prot (0 :: bytes16 _ ++ C ++ room))|].
  destruct (split3 room 4 (zlen room - 4) 0) as (y & room' & z & -> & Hy & _ & Hz); [lia..|].
  rewrite (zlen_0_nil z Hz), app_nil_r in *. rewrite dsr_opt_hdr_add_enc by (done || lia).
  replace (4 + zlen C + 4 - 4) with (zlen C + 4) by lia. rewrite memwrite_over0 by done. cbn [mbind outcome_bind].
  eexists _, room'. split; [reflexivity|]. rewrite ack_req_enc, ack_raw_len.
  set (hd2 := [prot; 0] ++ _). assert (zlen (hd2 ++ C) = zlen (opts_enc prot os)) as HC by (rewrite zlen_app, HL; done).
  rewrite (app_assoc hd2), <- HC, memwrite_over by done. cbn [mbind outcome_bind]. by rewrite <- !app_assoc.
Qed.

(** A packet can be made to ask, or to ask again. *)
Lemma outgoing_asks p ak id :
  outgoing p ak -> ask_place p ak ->
  exists q, dsr_ack_req_opt_add ip_csum (Some junk) p id = Ret (true, q)
    /\ nxt_hop q = nxt_hop p /\ dp_dst q = dp_dst p /\ outgoing q (Some (u16 id)).
Proof using csum_range Hok Hprot Hsmall.
  intros [(d & room & Hd & Hm & Ht) [Hnh0 (rest & Hnh)] Hip (s & hs & rest' & Hs & Hsd & Hlike & Hpl) Hpn] (d' & Hd' & Hslot & Hroom).
  rewrite Hd in Hd'. injection Hd' as <-.
  unfold dsr_ack_req_opt_add. rewrite Hslot. set (C := concat (opt_enc <$> os)) in *.
  pose proof (zlen_nonneg C). pose proof (zlen_nonneg pl). pose proof (opts_enc_len prot os) as HL. fold C in HL.
  destruct ak as [old|]; cbn [fmap option_fmap option_map].
  - unfold opt_off, dh_buf. rewrite Hd. cbn [mbind outcome_bind o_blk o_off]. rewrite Z.eqb_refl. cbn [mbind outcome_bind].
    rewrite ack_req_enc. unfold dh_mem. rewrite Hd, Hm, way_opts_split. fold C.
    set (hd := [prot; 0] ++ _). assert (zlen (hd ++ C) = zlen (opts_enc prot os)) as HC by (rewrite zlen_app, HL; done).
    rewrite (app_assoc hd), <- app_assoc, <- HC, (memwrite_over (hd ++ C)) by done. cbn [mbind outcome_bind].
    eexists. split; [reflexivity|]. unfold set_mem. rewrite Hd. split; [done|]. split; [done|]. constructor; try done.
    + eexists _, room. split; [reflexivity|]. cbn [mem Pkt.tail blk slots set_dh]. split.
      { rewrite way_opts_split. fold C. by rewrite <- !app_assoc. }
      by rewrite Ht, !way_opts_len.
    + split; [done|]. exists rest. assert (way_hdr (Some (u16 id)) = way_hdr (Some old)) as -> by (unfold way_hdr; by rewrite !way_opts_len, !ack_raw_len).
      exact Hnh.
    + by exists s, hs, rest'.
  - specialize (Hroom eq_refl). rewrite Hm, Ht, zlen_app in Hroom. assert (4 < zlen room) as Hroom' by lia. clear Hroom.
    rewrite way_opts_len in Ht. change (zlen (ack_raw None)) with 0 in Ht.
    rewrite Hnh. assert (Htot := way_tot None). rewrite way_opts_len in Htot. change (zlen (ack_raw None)) with 0 in Htot.
    assert ((match nh p with NhNull => Ret (0, 0, IPDEFTTL)
             | _ => h0 ← Ret (iph_enc (way_hdr None) ++ rest); t ← ip_tot_len h0; pr ← ip_protocol h0; tt ← ip_ttl h0; Ret (ntohs t, pr, tt) end)
            = Ret (20 + zlen (opts_enc prot os) + zlen pl, IPPROTO_DSR, i_ttl h)) as ->.
    { cbn [mbind outcome_bind]. rewrite iph_tot by apply way_hdr_ok. cbn [mbind outcome_bind].
      rewrite (iph_prot (way_hdr None) rest), (iph_ttl (way_hdr None) rest). cbn [mbind outcome_bind]. rewrite Htot.
      destruct (nh p); [done|f_equal; f_equal; f_equal; lia..]. }
    cbn [mbind outcome_bind]. unfold dsr_pkt_opts_len. rewrite Hd. cbn [mbind outcome_bind].
    rewrite Ht, Z.add_0_r, opts_enc_nz. unfold dsr_pkt_alloc_opts_expand, dsr_pkt_tailroom. rewrite Hd. cbn [mbind outcome_bind].
    rewrite Hm, zlen_app, way_opts_len, Ht. change (zlen (ack_raw None)) with 0. change DSR_ACK_REQ_HDR_LEN with 4.
    replace (_ >? 4) with true by (symmetry; apply Z.gtb_lt; lia). cbn [mbind outcome_bind].
    destruct (way_opts_asked room id Hroom') as (L1 & L2 & m1 & room' & E1 & E2). fold C in L1, E1. change DSR_ACK_REQ_HDR_LEN with 4 in E2.
    set (p1 := set_dh p _ _).
    assert (dh_mem p1 = Dhbuf (blk d) (way_opts None ++ room) (zlen (opts_enc prot os) + 0 + 4)) as -> by done.
    cbn [mem]. rewrite L1. cbn [mbind outcome_bind].
    change IP_HDR_LEN with 20. rewrite (dsr_build_ip_skb ip_csum p1 s hs rest' (dp_src p1) (dp_dst p1) _ _ _ _ Hs Hsd Hip eq_refl) by done.
    cbn [mbind outcome_bind]. set (p2 := set_ip p1 _ _). change (mem (dh_mem p2)) with (way_opts None ++ room).
    rewrite L1, L2. cbn [mbind outcome_bind]. change DSR_OPT_HDR_LEN with 4. rewrite ntohs_htons by lia. rewrite E1. cbn [mbind outcome_bind].
    change (mem (dh_mem (set_opth p2 (Some m1)))) with m1. rewrite Z.add_0_r, E2. cbn [mbind outcome_bind].
    eexists. split; [reflexivity|]. split; [done|]. split; [done|]. constructor; try done.
    + eexists _, room'. split; [reflexivity|]. cbn [mem Pkt.tail blk slots set_dh set_mem]. split; [done|].
      by rewrite way_opts_len.
    + split; [done|]. exists (drop 20 (ip_data p)).
      transitivity (Ret (ip_data p2)); [done|]. cbn [ip_data p2 set_ip]. rewrite Hlike. unfold way_hdr.
      rewrite way_opts_len. change (zlen (ack_raw (Some (u16 id)))) with 4.
      by replace (20 + (zlen (opts_enc prot os) + 4) + zlen pl) with (20 + zlen (opts_enc prot os) + zlen pl + 4) by lia.
    + transitivity (zlen (ip_data p2)); [done|]. cbn [ip_data p2 set_ip]. unfold zlen in *. rewrite length_app, length_drop.
      change (length (iph_enc _)) with 20%nat. change (ip_data p1) with (ip_data p). lia.
    + by exists s, hs, rest'.
Qed.

Lemma outgoing_askable p ak : outgoing p ak -> ask_place p ak -> askable ip_csum junk p way_frame ak.
Proof using csum_range Hok Hprot Hsmall.
  intros Ho Hp. split; [by apply outgoing_frame|]. intros id.
  destruct (outgoing_asks p ak id Ho Hp) as (q & E & Hn & Hd & Hq). exists true, q. split_and!; try done. by apply outgoing_frame.
Qed.
End Asking.
