(* ===== verification/Delivery.v ===== *)
(** * Delivering a packet

    A packet of one host reaches another over the nodes of a source route: what
    each node learns, acknowledges and sends on the way, and what the last one
    hands to its host. *)

From S2P Require Import Prelude Timer Config Mem Tbl TblDel Keep Srt LinkCache LinkCacheInv LinkCacheSpec Neigh RreqTbl GratRrep.
From S2P Require Import Pkt Opt Send SendBuf Salvage MaintBuf Core Node Wire NodeSpec Sending.

(** ** A packet on its way *)

Definition route_opt (bits : Z) (hops : list Z) : Z * bytes := (DSR_OPT_SRT, bytes16 bits ++ bytes_of_words hops).

(** The frame of a packet with the IP header [h], DSR options that end in protocol
    [prot] and hold a source route over [hops] and perhaps a request for an
    acknowledgement, and payload [pl]. *)
Abbreviation srt_hdr ip_csum h prot bits hops pl ak := (way_hdr ip_csum h prot [route_opt bits hops] pl ak).
Abbreviation srt_frame ip_csum h prot bits hops pl ak := (way_frame ip_csum h prot [route_opt bits hops] pl ak).

(** The length of the options without a request. *)
Abbreviation olen hops := (8 + 4 * zlen hops).

Definition ak_ok (ak : option Z) : Prop := forall id, ak = Some id -> 0 <= id < 65536.

Lemma ak_next ak ak' : ak_ok ak -> (ak' = ak \/ exists id, ak' = Some (u16 id)) -> ak_ok ak'.
Proof. intros Hak [-> |[id ->]]; [done|]. intros i [= <-]. apply u16_range. Qed.

(** Noting where the request is touches nothing else. *)
Lemma ack_noted_keeps ak o p :
  let q := ack_noted ak o p in
  nxt_hop q = nxt_hop p /\ dp_dst q = dp_dst p /\ skb q = skb p /\ nh q = nh p /\ ip_data q = ip_data p
  /\ payload q = payload p /\ payload_len q = payload_len p /\ dh q = dh p
  /\ (ack_req_opt (slots p) = (λ _, o) <$> ak -> ack_req_opt (slots q) = (λ _, o) <$> ak).
Proof. by destruct ak. Qed.

Section Hop.
Context (ip_csum : bytes -> Z) (csum_range : forall b, 0 <= ip_csum b < 65536).
Context (junk : Z -> Z) (now : timeval) (rr : dsr_pkt -> option Z) (stale : timeval).

Record travelling (h : iph) (prot : Z) (hops : list Z) (pl : bytes) : Prop := {
  tr_hdr : iph_ok h;
  tr_ttl : 1 <= i_ttl h;
  tr_small : 24 + olen hops + zlen pl < 65536;
  tr_prot : is_byte prot;
  tr_words : Forall is_word hops;
  tr_hops : zlen hops <= 63;
  tr_pl : pl <> [];
  tr_dst : i_dst h <> DSR_BROADCAST
}.

Context (h : iph) (prot : Z) (hops : list Z) (pl : bytes) (Htr : travelling h prot hops pl).
(** The frame comes in an [sk_buff] with this name, from this hardware address. *)
Context (id : Z) (from : bytes).
(** What the packet asks for when it comes. *)
Context (ak : option Z).

Local Abbreviation frame bits ak := (srt_frame ip_csum h prot bits hops pl ak).
Local Abbreviation skb_of bits := (Skb id from (frame bits ak)).
Local Abbreviation opts bits ak := (way_opts prot [route_opt bits hops] ak).
Local Abbreviation hd := ([prot; 0] ++ bytes16 (htons (4 + 4 * zlen hops + zlen (ack_raw ak)))).
Local Abbreviation alen := (olen hops + zlen (ack_raw ak)).

Definition recv_pkt (i : Z) (src : bytes) (bits : Z) (room : bytes) (sl : opt_slots) : dsr_pkt :=
  Pkt (i_src h) (i_dst h) 0 0 PKT_REQUEST_ACK 0 NhSkb (repeat 0 60) (Dh (Dhbuf 0 (opts bits ak ++ room) alen))
      1 sl None (Some (20 + alen)) (zlen pl) (Some (Skb i src (frame bits ak))).

Lemma route_enc bits p : concat (opt_enc <$> [route_opt bits hops]) = srt_raw bits (carried p hops).
Proof.
  unfold srt_raw, route_opt. cbn [fmap list_fmap concat carried addrs atail]. by rewrite !app_nil_r.
Qed.
Lemma route_enc_len bits : zlen (concat (opt_enc <$> [route_opt bits hops])) = 4 + 4 * zlen hops.
Proof.
  unfold opt_enc, route_opt. cbn [fmap list_fmap concat fst snd].
  autorewrite with dsr_rw. change (zlen (bytes16 bits)) with 2. lia.
Qed.

Lemma opts_eq bits p : opts bits ak = hd ++ srt_raw bits (carried p hops) ++ ack_raw ak.
Proof. by rewrite way_opts_split, route_enc_len, (route_enc bits p). Qed.
Lemma opts_len bits ak' : zlen (opts bits ak') = olen hops + zlen (ack_raw ak').
Proof. rewrite way_opts_len, opts_enc_len, route_enc_len. lia. Qed.
Lemma hdr_bits bits bits' ak' : srt_hdr ip_csum h prot bits hops pl ak' = srt_hdr ip_csum h prot bits' hops pl ak'.
Proof. unfold way_hdr. by rewrite !opts_len. Qed.

Lemma ack_raw_le ak' : 0 <= zlen (ack_raw ak') <= 4.
Proof. rewrite ack_raw_len. destruct ak'; lia. Qed.

Lemma frame_skb i src bits :
  0 <= bits < 65536 ->
  dsr_skb (Skb i src (frame bits ak)) (srt_hdr ip_csum h prot bits hops pl ak) prot ([route_opt bits hops] ++ ack_opts ak) pl.
Proof using csum_range Htr.
  intros Hb. destruct Htr. pose proof (zlen_nonneg hops). pose proof (ack_raw_le ak).
  pose proof (opts_len bits ak) as HL. unfold way_opts in HL. constructor; rewrite ?HL; try done.
  - by apply way_hdr_ok.
  - change (i_tot (srt_hdr ip_csum h prot bits hops pl ak)) with (htons (20 + zlen (opts bits ak) + zlen pl)). by rewrite opts_len.
  - lia.
  - apply Forall_app. split.
    + constructor; [|constructor]. unfold opt_wf, is_byte, route_opt. cbn [fst snd]. autorewrite with dsr_rw.
      change (zlen (bytes16 bits)) with 2. unfold DSR_OPT_SRT, DSR_OPT_PAD1. lia.
    + destruct ak; repeat constructor; done.
  - by destruct ak.
Qed.

Lemma pl_flag : has_payload (zlen pl) = PKT_REQUEST_ACK /\ zlen pl <> 0.
Proof using Htr.
  assert (zlen pl <> 0) by (intros E; by apply (tr_pl _ _ _ _ Htr), zlen_0_nil). split; [|done].
  unfold has_payload. by rewrite (proj2 (Z.eqb_neq _ _)).
Qed.

(** Where the packet keeps a pointer to its request. *)
Definition ak_slot (sl : opt_slots) : Prop := ack_req_opt sl = (λ _, Optr 0 (olen hops)) <$> ak.

Lemma frame_alloc i src bits :
  0 <= bits < 65536 ->
  exists room sl, dsr_pkt_alloc true (Some junk) (Some (Skb i src (frame bits ak))) = Ret (Some (recv_pkt i src bits room sl))
    /\ zlen room = 128 /\ ak_slot sl.
Proof using csum_range Htr.
  intros Hb. destruct (dsr_pkt_alloc_dsr junk _ _ _ _ _ (frame_skb i src bits Hb)) as (sl & E & Hsl).
  change (opts_enc prot ([route_opt bits hops] ++ ack_opts ak)) with (opts bits ak) in E.
  rewrite (proj1 pl_flag), opts_len in E. exists (drop (length (opts bits ak)) (fill (alen + 128) junk)), sl.
  pose proof (zlen_nonneg hops). pose proof (ack_raw_le ak). pose proof (opts_len bits ak) as HL.
  split; [exact E|]. split.
  - unfold zlen in *. rewrite length_drop. pose proof (fill_len (alen + 128) junk ltac:(unfold zlen; lia)) as HF. unfold zlen in HF. lia.
  - unfold ak_slot. rewrite (parsed_ack_req _ _ _ _ Hsl). cbn [app place fst snd route_opt].
    assert (4 + zlen (bytes16 bits ++ bytes_of_words hops) + 2 = olen hops) as ->.
    { autorewrite with dsr_rw. change (zlen (bytes16 bits)) with 2. lia. }
    by destruct ak.
Qed.

Context (Hak : ak_ok ak).

Lemma recv_routed_pkt i src bits room sl :
  0 <= bits < 65536 -> zlen room = 128 ->
  routed (recv_pkt i src bits room sl) (Dhbuf 0 (opts bits ak ++ room) alen) hd bits hops ak room.
Proof using Htr Hak.
  intros Hb Hroom. destruct Htr. constructor; try done.
  - cbn [mem]. rewrite (opts_eq bits (recv_pkt i src bits room sl)). by rewrite <- !app_assoc.
  - lia.
  - by eexists.
Qed.

(** The frame reaches [dsr_recv]. *)
Lemma frame_received bits n :
  0 <= bits < 65536 -> false ∉ alloc (n_core n) ->
  exists room sl al, zlen room = 128 /\ ak_slot sl /\ (false ∉ al)
    /\ dsr_dev_llrecv ip_csum junk now rr stale (skb_of bits) (zlen (frame bits ak)) PACKET_HOST n
       = dsr_recv ip_csum junk now rr stale (recv_pkt id from bits room sl) (set_core n (set_alloc (n_core n) al)).
Proof using csum_range Htr.
  intros Hb Ha. destruct (frame_alloc id from bits Hb) as (room & sl & E & Hroom & Hsl).
  pose proof (frame_skb id from bits Hb) as [_ Hok _ Htot Hsm _ _].
  set (hh := srt_hdr ip_csum h prot bits hops pl ak) in *. set (o := opts_enc _ _) in *.
  unfold dsr_dev_llrecv, dsr_ip_recv, Core.draw_bytes, Core.draw. cbn [n_core set_core set_m set_peers n_m peers].
  destruct (kmalloc_free _ Ha) as (m1 & -> & Hm1). cbn [alloc set_alloc n_core n_m set_m set_core peers set_peers].
  destruct (kmalloc_free _ Hm1) as (m2 & -> & Hm2). exists room, sl, m2. do 3 (split; [done|]).
  rewrite E. cbn [mbind outcome_bind skb_data]. rewrite (iph_ihl hh (o ++ pl) : ip_ihl (frame bits ak) = _).
  rewrite (iph_tot hh Hok (o ++ pl) : ip_tot_len (frame bits ak) = _). cbn [mbind outcome_bind].
  pose proof (zlen_nonneg o). pose proof (zlen_nonneg pl). rewrite Htot, ntohs_htons by lia.
  rewrite decide_False by done. assert (zlen (frame bits ak) = 20 + zlen o + zlen pl) as ->.
  { unfold way_frame. autorewrite with dsr_rw. change (way_opts prot [route_opt bits hops] ak) with o. lia. }
  by rewrite (proj2 (Z.ltb_ge _ _)) by (change (Z.shiftl 5 2) with 20; lia).
Qed.

(** The packet as the handler leaves it can go out, and can be made to ask. *)
Lemma forwarded_out q i src bits room sl bits' :
  0 <= bits < 65536 -> zlen room = 128 ->
  dh q = Dh (Dhbuf 0 (hd ++ srt_raw bits' (carried (recv_pkt i src bits room sl) hops) ++ ack_raw ak ++ room) alen) ->
  nh q = NhSkb -> ip_data q = repeat 0 60 -> skb q = Some (Skb i src (frame bits ak)) ->
  payload q = Some (20 + alen) -> payload_len q = zlen pl ->
  ack_req_opt (slots q) = (λ _, Optr 0 (olen hops)) <$> ak ->
  askable ip_csum junk q (way_frame ip_csum h prot [route_opt bits' hops] pl) ak.
Proof using csum_range Htr.
  intros Hb Hroom Hdh Hnh Hip Hs Hpl Hpn Hslot. pose proof Htr as [Hok _ Hsm Hp _ _ _ _].
  assert (Hm : hd ++ srt_raw bits' (carried (recv_pkt i src bits room sl) hops) ++ ack_raw ak ++ room = opts bits' ak ++ room)
    by (rewrite (opts_eq bits' (recv_pkt i src bits room sl)), <- !app_assoc; done).
  rewrite Hm in Hdh. clear Hm. apply outgoing_askable; try done.
  - rewrite opts_enc_len, route_enc_len. lia.
  - constructor; try done.
    + eexists _, room. split; [exact Hdh|]. split; [done|]. by rewrite opts_len.
    + split; [by rewrite Hnh|]. exists (opts bits ak ++ pl). unfold nh_bytes. rewrite Hnh, Hs. by rewrite (hdr_bits bits' bits).
    + by rewrite Hip.
    + eexists _, (srt_hdr ip_csum h prot bits hops pl ak), (opts bits ak ++ pl). split; [exact Hs|]. split; [done|]. split; [done|].
      exists (20 + alen). split; [done|]. cbn [skb_data]. unfold way_frame.
      rewrite <- (app_nil_r pl) at 2. rewrite (app_assoc (iph_enc _)).
      replace (20 + alen) with (zlen (iph_enc (srt_hdr ip_csum h prot bits hops pl ak) ++ opts bits ak)) by (rewrite zlen_app, opts_len; done).
      by apply memread_behind.
  - eexists. split; [exact Hdh|]. cbn [blk mem Pkt.tail]. split.
    + rewrite Hslot. by rewrite opts_enc_len, route_enc_len; replace (4 + (4 + 4 * zlen hops)) with (olen hops) by lia.
    + intros _. rewrite zlen_app, opts_len. lia.
Qed.

Local Abbreviation path := (i_src h :: hops ++ [i_dst h]).

(** What a node on the route learns from the frame and acknowledges, and what it
    does next; [p1] and [p2] are the packet as it was read, and with one segment
    less to go. *)
Lemma hop_learns bits n (k : nat) :
  0 <= bits < 65536 -> (k <= length hops)%nat -> bits_sleft bits = zlen hops - Z.of_nat k ->
  path !! S k = Some (me (n_core n)) -> ready now n -> sound (zlen hops + 2) (n_core n) ->
  exists room sl s prv nxt c1 c l, zlen room = 128 /\ ak_slot sl
    /\ learned (n_core n) c1 /\ sent l c1 c /\ answered ip_csum (me (n_core n)) prv ak l
    /\ path !! k = Some prv /\ path !! Nat.min (S (S k)) (S (length hops)) = Some nxt
    /\ let p := recv_pkt id from bits room sl in
       let d := Dhbuf 0 (opts bits ak ++ room) alen in
       let p1 := heard p d bits s prv nxt in
       let noted := ack_noted ak (Optr 0 (olen hops)) in
       let p2 := noted (set_mem p1 (mem (next_buf p d hd bits hops ak room))) in
       let run := dsr_dev_llrecv ip_csum junk now rr stale (skb_of bits) (zlen (frame bits ak)) PACKET_HOST n in
       ((k < length hops)%nat -> i_dst h <> me (n_core n) -> run = XMIT ip_csum junk now p2 (set_core n c))
       /\ (k = length hops -> run = DELIVER ip_csum junk rr (noted p1) (set_core n c)).
Proof using csum_range Htr Hak.
  intros Hb Hk Hsl Hme Hrd Hso.
  destruct (frame_received bits n Hb (so_alloc _ _ Hso)) as (room & sl & al & Hroom & Hslot & Hal & Hrun).
  set (p := recv_pkt id from bits room sl) in *. set (n0 := set_core n _) in *.
  destruct (kmalloc_free al Hal) as (al' & Hkm & Hal').
  destruct (recv_routed ip_csum junk now rr stale p _ _ _ _ _ _ n0 al' k (recv_routed_pkt id from bits room sl Hb Hroom))
    as (s & prv & nxt & Hwf & Hp & Hprv & Hnxt & Hf & Hl); [done|done|exact Hme|exact Hkm|].
  set (p1 := heard p _ bits s prv nxt) in *. set (n1 := set_core n0 _) in *.
  assert (Hn : zlen (addrs s) = zlen hops).
  { apply (f_equal zlen) in Hp. revert Hp. unfold srt_path. cbn [carried addrs]. autorewrite with dsr_rw. lia. }
  assert (S1 : sound (zlen (addrs s) + 2) (n_core n1)) by (rewrite Hn; destruct Hso; by split).
  assert (L1 : learned (n_core n) (n_core n1)) by (destruct Hso; by split).
  destruct (srt_learn_total now p1 s n1 (skb_of bits) eq_refl eq_refl Hwf S1) as (c1 & E & L2).
  pose proof (learned_trans _ _ _ L1 L2) as L.
  destruct (ack_back_sends ip_csum junk now ak prv (set_core n c1) (ready_learned _ _ _ Hrd L)) as (c & l & E2 & Hacked & Hsent).
  assert (Hme1 : me (n_core (set_core n c1)) = me (n_core n)) by (unfold me, dn; by rewrite <- (le_conf _ _ L)).
  rewrite Hme1 in Hacked.
  exists room, sl, s, prv, nxt, c1, c, l. rewrite Hp in Hprv, Hnxt. do 7 (split; [done|]).
  cbv zeta. fold p p1. rewrite Hrun, E in *. change (set_core n1 c1) with (set_core n c1) in *. split.
  - intros Hlt Hdst.
    rewrite (Hf Hlt Hdst (iph_enc (srt_hdr ip_csum h prot bits hops pl ak) ++ opts bits ak ++ pl) (i_ttl h) eq_refl (iph_ttl _ _)).
    cbn [mbind outcome_bind]. rewrite E2. cbn [mbind outcome_bind]. by rewrite (proj2 (Z.ltb_ge _ _)) by apply Htr.
  - intros Hlast. rewrite (Hl Hlast (proj2 pl_flag)). cbn [mbind outcome_bind]. rewrite E2. done.
Qed.

(** The node in the middle of the route. *)
Lemma hop_forwards bits n (k : nat) nxt hw :
  0 <= bits < 65536 -> (k < length hops)%nat -> bits_sleft bits = zlen hops - Z.of_nat k ->
  path !! S k = Some (me (n_core n)) -> i_dst h <> me (n_core n) -> path !! S (S k) = Some nxt ->
  ready now n -> sound (zlen hops + 2) (n_core n) -> hw_addr (n_core n) nxt = Some hw ->
  exists n' prv l ak', dsr_dev_llrecv ip_csum junk now rr stale (skb_of bits) (zlen (frame bits ak)) PACKET_HOST n = Ret n'
    /\ path !! k = Some prv /\ answered ip_csum (me (n_core n)) prv ak l /\ ak_ok ak'
    /\ frames (log (n_core n')) = (Some hw, frame (next_bits bits) ak') :: l ++ frames (log (n_core n))
    /\ delivered (log (n_core n')) = delivered (log (n_core n)).
Proof using csum_range Htr Hak.
  intros Hb Hk Hsl Hme Hdst Hnxt Hrd Hso Hit.
  destruct (hop_learns bits n k Hb ltac:(lia) Hsl Hme Hrd Hso)
    as (room & sl & s & prv & nxt' & c1 & c & l & Hroom & Hslot & L & S & Hacked & Hprv & Hnxt' & Hf & _). rewrite (Hf Hk Hdst). clear Hf.
  replace (Nat.min _ _) with (Datatypes.S (Datatypes.S k)) in Hnxt' by lia. rewrite Hnxt in Hnxt'. injection Hnxt' as <-.
  set (p := recv_pkt id from bits room sl). set (p1 := heard p _ bits s prv nxt). set (p2 := ack_noted ak _ _).
  assert (Hp2 : nxt_hop p2 = nxt /\ dp_dst p2 = i_dst h /\ skb p2 = Some (skb_of bits) /\ nh p2 = NhSkb /\ ip_data p2 = repeat 0 60
    /\ payload p2 = Some (20 + alen) /\ payload_len p2 = zlen pl
    /\ dh p2 = Dh (Dhbuf 0 (hd ++ srt_raw (next_bits bits) (carried (recv_pkt id from bits room sl) hops) ++ ack_raw ak ++ room) alen)
    /\ ack_req_opt (slots p2) = (λ _, Optr 0 (olen hops)) <$> ak).
  { pose proof (ack_noted_keeps ak (Optr 0 (olen hops)) (set_mem p1 (mem (next_buf p (Dhbuf 0 (opts bits ak ++ room) alen) hd bits hops ak room)))) as K.
    cbv zeta in K. fold p2 in K. destruct K as (-> & -> & -> & -> & -> & -> & -> & -> & Hsl2). split_and!; try reflexivity. exact (Hsl2 Hslot). }
  destruct Hp2 as (Hn2 & Hd2 & Hs2 & Hnh2 & Hip2 & Hpl2 & Hpn2 & Hdh2 & Hsl2).
  pose proof (ready_learned now n c1 Hrd L) as R1. pose proof (ready_sent now l (set_core n c1) c R1 S) as R2.
  destruct (XMIT_sends ip_csum junk now p2 (way_frame ip_csum h prot [route_opt (next_bits bits) hops] pl) ak (set_core n c) hw)
    as (n' & ak' & E & _ & Hak' & Hsent).
  - exact R2.
  - exists (skb_of bits). split; [done|]. intros i.
    destruct (frame_alloc i from bits Hb) as (room' & sl' & E & _). by eexists.
  - by eapply forwarded_out.
  - rewrite Hn2. change (n_core (set_core n c)) with c. rewrite (si_hw _ _ _ S) by apply L. by eapply hw_addr_learned.
  - rewrite Hd2. apply Htr.
  - exists n', prv, l, ak'. split; [exact E|]. split; [done|]. split; [done|]. split; [by eapply ak_next|].
    rewrite (si_frames _ _ _ Hsent), (si_delivered _ _ _ Hsent). change (n_core (set_core n c)) with c.
    by rewrite (si_frames _ _ _ S), (si_delivered _ _ _ S), (le_log _ _ L).
Qed.

(** The node at the end of it. *)
Lemma hop_delivers bits n :
  0 <= bits < 65536 -> bits_sleft bits = 0 -> i_dst h = me (n_core n) -> ready now n -> sound (zlen hops + 2) (n_core n) ->
  exists n' prv l, dsr_dev_llrecv ip_csum junk now rr stale (skb_of bits) (zlen (frame bits ak)) PACKET_HOST n = Ret n'
    /\ path !! length hops = Some prv /\ answered ip_csum (me (n_core n)) prv ak l
    /\ frames (log (n_core n')) = l ++ frames (log (n_core n))
    /\ delivered (log (n_core n'))
       = (iph_enc (summed ip_csum (set_len_prot h (htons (20 + zlen pl)) prot)) ++ pl) :: delivered (log (n_core n)).
Proof using csum_range Htr Hak.
  intros Hb Hsl Hdst Hrd Hso.
  destruct (hop_learns bits n (length hops) Hb ltac:(lia))
    as (room & sl & s & prv & nxt & c1 & c & l & Hroom & _ & L & S & Hacked & Hprv & _ & _ & Hf);
    [rewrite Hsl; unfold zlen; lia| |done|done|].
  { rewrite <- Hdst. exact (path_lookup_last (DsrSrt (i_src h) (i_dst h) 0 0 hops [])). }
  rewrite (Hf eq_refl). clear Hf. set (p := recv_pkt id from bits room sl). set (p1 := ack_noted ak _ (heard p _ bits s prv nxt)).
  set (hh := srt_hdr ip_csum h prot bits hops pl ak).
  assert (Hp1 : skb p1 = Some (skb_of bits) /\ nh p1 = NhSkb /\ ip_data p1 = repeat 0 60
    /\ dh p1 = Dh (Dhbuf 0 (opts bits ak ++ room) alen) /\ payload p1 = Some (20 + alen) /\ payload_len p1 = zlen pl)
    by (pose proof (ack_noted_keeps ak (Optr 0 (olen hops)) (heard p (Dhbuf 0 (opts bits ak ++ room) alen) bits s prv nxt)) as K;
        cbv zeta in K; fold p1 in K; destruct K as (_ & _ & -> & -> & -> & -> & -> & -> & _); done).
  destruct Hp1 as (Hs1 & Hnh1 & Hip1 & Hdh1 & Hpl1 & Hpn1).
  unfold DELIVER, on_core. change (n_core (set_core n c)) with c. unfold dsr_dev_deliver.
  assert (fix_record_route rr p1 = Ret p1) as ->.
  { unfold fix_record_route. rewrite Hs1. cbn [skb_data]. by rewrite (iph_ihl hh (opts bits ak ++ pl) : ip_ihl (frame bits ak) = _). }
  cbn [mbind outcome_bind].
  destruct (dsr_opt_remove_spec ip_csum p1 (skb_of bits) hh (opts bits ak ++ pl) prot ([route_opt bits hops] ++ ack_opts ak) room
    (Dhbuf 0 (opts bits ak ++ room) alen)) as (q & E & Q1 & Q2 & Q3 & Q4 & Q5); [done|done|done|by rewrite Hip1|done..|apply Htr|].
  rewrite Hdh1. cbv iota. rewrite E. cbn [mbind outcome_bind].
  destruct (silent_draw_bytes junk c (si_alloc _ _ _ S)) as (c2 & -> & S2).
  set (h2 := summed ip_csum (set_len_prot h (htons (20 + zlen pl)) prot)).
  assert (Hfr : dsr_skb_create ip_csum (Some junk) q = Ret (Some (iph_enc (summed ip_csum h2) ++ [] ++ pl))).
  { apply (dsr_skb_create_spec ip_csum junk q h2 (drop 20 (repeat 0 60)) [] pl (skb_of bits) (20 + alen)); try done.
    - rewrite Q5, Hpn1, Hip1. done.
    - unfold dsr_pkt_opts_len. by rewrite Q1.
    - by left.
    - congruence.
    - congruence.
    - cbn [skb_data]. unfold way_frame. fold hh. rewrite <- (app_nil_r pl) at 1. rewrite (app_assoc (iph_enc _)).
      replace (20 + alen) with (zlen (iph_enc hh ++ opts bits ak)) by (rewrite zlen_app, opts_len; done).
      by apply memread_behind. }
  rewrite Hfr. cbn [mbind outcome_bind]. eexists _, prv, l. split; [reflexivity|]. split; [done|]. split; [done|].
  cbn [n_core set_core n_m set_m peers set_peers log dsr_pkt_free emit frames delivered omap list_omap].
  fold (frames (log c2)) (delivered (log c2)).
  rewrite (si_frames _ _ _ S2), (si_delivered _ _ _ S2), (si_frames _ _ _ S), (si_delivered _ _ _ S), (le_log _ _ L). done.
Qed.
End Hop.

(** ** The source *)

(** Finding a route takes at most its own memory. *)
Lemma srt_find_mem g mem a b r g' mem' : lc_srt_find g mem a b = Ret (r, g', mem') -> false ∉ mem -> false ∉ mem'.
Proof.
  intros H Hm. destruct (kmalloc mem) as [ok m] eqn:Ek. destruct (kmalloc_ok _ _ _ Ek) as [_ Hm'].
  unfold lc_srt_find in H. rewrite Ek in H. run H; by auto.
Qed.

Section Source.
Context (ip_csum : bytes -> Z) (csum_range : forall b, 0 <= ip_csum b < 65536) (junk : Z -> Z) (now : timeval).

(** The segments left of a fresh route. *)
Definition first_bits (r : dsr_srt) : Z := srt_bits 0 0 0 0 (zlen (addrs r)).

Lemma first_bits_ok r : 0 <= first_bits r < 65536 /\ bits_sleft (first_bits r) = zlen (addrs r) mod 64.
Proof. destruct (srt_bits_fields 0 0 0 (zlen (addrs r))) as (H1 & _ & H2); by auto. Qed.

Lemma route_opts prot r : srt_aligned r -> srt_opts prot 0 r = way_opts prot [route_opt (first_bits r) (addrs r)] None.
Proof.
  intros [Hwf Ht]. unfold way_opts. rewrite <- srt_only_enc, app_nil_r by done. unfold srt_only, route_opt, first_bits.
  destruct Hwf as (Hl & _). rewrite Hl, Ht, app_nil_r. change (zlen []) with 0.
  rewrite Z.add_0_r, Z.mul_comm, Z.div_mul by lia. done.
Qed.

(** A host's packet with a source route can go out, and can be made to ask. *)
Lemma encap_out s h pl r :
  ip_skb s h pl -> srt_aligned r -> srt_fits r -> zlen pl + 284 < 65536 ->
  exists p1, dsr_srt_add ip_csum (Some junk) (Pkt.set_srt (plain_pkt s h pl) (Some r)) = Ret (0, p1)
    /\ dsr_srt_next_hop r (zlen (addrs r)) = Ret (nxt_hop p1) /\ dp_dst p1 = i_dst h /\ skb p1 = Some s
    /\ askable ip_csum junk p1 (way_frame ip_csum h (i_prot h) [route_opt (first_bits r) (addrs r)] pl) None.
Proof using csum_range.
  intros Hskb Hal Hf Hsz. destruct (dsr_srt_add_spec ip_csum junk (Pkt.set_srt (plain_pkt s h pl) (Some r)) s h pl r)
    as (hop & Hhop & Hadd); [done..|]. cbv zeta in Hadd.
  eexists. split; [exact Hadd|]. split; [exact Hhop|]. split; [done|]. split; [done|].
  pose proof (srt_opts_len (i_prot h) 0 r (proj1 Hf)) as Hol. pose proof (srt_fits_bounds r Hf) as Hb.
  pose proof (route_opts (i_prot h) r Hal) as Hro. change (salvage _) with 0.
  pose proof (is_hdr _ _ _ Hskb) as Hok. set (os := [route_opt _ _]) in *.
  assert (Hlen : zlen (opts_enc (i_prot h) os) = 4 + DSR_SRT_OPT_LEN r).
  { rewrite <- Hol, Hro, way_opts_len. change (zlen (ack_raw None)) with 0. lia. }
  assert (Hway : zlen (way_opts (i_prot h) os None) = 4 + DSR_SRT_OPT_LEN r) by (rewrite <- Hro; exact Hol).
  assert (DSR_SRT_OPT_LEN r <= 256).
  { destruct Hal as [(Hla & _) Ht], Hf as [_ Hfit]. rewrite Ht in Hla. change (zlen []) with 0 in Hla.
    unfold DSR_SRT_OPT_LEN, DSR_SRT_HDR_LEN. lia. }
  apply outgoing_askable; [done|done|apply Hok|lia| |].
  - constructor; try done.
    + eexists _, _. split; [reflexivity|]. cbn [mem Pkt.tail]. by rewrite Hway, Hro.
    + split; [done|]. exists (repeat 0 40). cbn [nh_bytes nh ip_data]. unfold way_hdr. rewrite Hway.
      by replace (20 + zlen pl + (4 + DSR_SRT_OPT_LEN r)) with (20 + (4 + DSR_SRT_OPT_LEN r) + zlen pl) by lia.
    + exists s, h, pl. split; [done|]. split; [apply Hskb|]. split; [done|]. exists 20. split; [done|].
      rewrite (is_data _ _ _ Hskb). rewrite <- (app_nil_r pl) at 1. by apply (memread_behind (iph_enc h)).
  - eexists. split; [reflexivity|]. split; [done|]. intros _. cbn [mem Pkt.tail]. rewrite zlen_app, Hol.
    assert (zlen (drop (Z.to_nat (4 + DSR_SRT_OPT_LEN r)) (fill (4 + DSR_SRT_OPT_LEN r + 128) junk)) = 128); [|lia].
    pose proof (fill_len (4 + DSR_SRT_OPT_LEN r + 128) junk) as HF. unfold zlen in *. rewrite length_drop. lia.
Qed.

(** A host's packet for which the cache has a route goes out with it. *)
Lemma source_sends s h pl n (P : dsr_srt -> Prop) (hw : Z -> bytes) :
  ip_skb s h pl -> i_prot h <> IPPROTO_DSR -> i_dst h <> DSR_BROADCAST -> zlen pl + 284 < 65536 ->
  ready now n ->
  (forall mem, false ∉ mem -> exists r g mem', lc_srt_find (lc (n_core n)) mem (i_src h) (i_dst h) = Ret (Some r, g, mem') /\ P r) ->
  (forall r, P r -> srt_aligned r /\ srt_fits r
     /\ forall a, dsr_srt_next_hop r (zlen (addrs r)) = Ret a -> hw_addr (n_core n) a = Some (hw a)) ->
  exists n' r a ak, dsr_dev_start_xmit ip_csum junk now s (htons ETH_P_IP) n = Ret n'
    /\ P r /\ dsr_srt_next_hop r (zlen (addrs r)) = Ret a /\ ak_ok ak
    /\ frames (log (n_core n'))
       = (Some (hw a), srt_frame ip_csum h (i_prot h) (first_bits r) (addrs r) pl ak) :: frames (log (n_core n))
    /\ delivered (log (n_core n')) = delivered (log (n_core n)).
Proof using csum_range.
  intros Hskb Hnp Hdst Hsz Hrd Hfind HP. unfold dsr_dev_start_xmit. rewrite (rd_dev _ _ Hrd). cbn [negb].
  rewrite ntohs_htons by (unfold ETH_P_IP; lia). rewrite Z.eqb_refl.
  destruct (silent_draw _ (rd_alloc _ _ Hrd)) as (c1 & -> & S1).
  change (n_core (set_core n c1)) with c1.
  destruct (silent_draw_bytes junk c1 (si_alloc _ _ _ S1)) as (c2 & E2 & S2). rewrite E2.
  rewrite (dsr_pkt_alloc_plain _ s h pl Hskb Hnp : _ = Ret (Some (plain_pkt s h pl))). cbn [mbind outcome_bind].
  unfold dsr_start_xmit. change (dp_src (plain_pkt s h pl)) with (i_src h). change (dp_dst (plain_pkt s h pl)) with (i_dst h).
  change (n_core (set_core (set_core n c1) c2)) with c2.
  pose proof (silent_trans _ _ _ S1 S2) as S. destruct (Hfind _ (si_alloc _ _ _ S)) as (r & g & mem' & Eg & Hr).
  destruct (HP r Hr) as (Hal & Hf & Hit).
  unfold rtc_find. rewrite (si_lc _ _ _ S), Eg. cbn [mbind outcome_bind].
  set (c3 := set_alloc (set_lc c2 g) mem').
  assert (Ha3 : false ∉ alloc c3) by exact (srt_find_mem _ _ _ _ _ _ _ Eg (si_alloc _ _ _ S)).
  change (n_core (set_core _ c3)) with c3.
  destruct (silent_draw_bytes junk c3 Ha3) as (c4 & E4 & S4). rewrite E4.
  destruct (encap_out s h pl r Hskb Hal Hf Hsz) as (p1 & Hadd & Hhop & Hd & Hs & Hask). rewrite Hadd.
  cbn [mbind outcome_bind]. change (0 <? 0) with false. cbv iota.
  assert (Hn3 : neigh_ok (neigh c3)) by exact (si_neigh _ _ _ S (rd_neigh _ _ Hrd)).
  assert (Hc : conf c4 = conf (n_core n) /\ slave_dev c4 = slave_dev (n_core n) /\ log c4 = log c4
     /\ frames (log c4) = frames (log (n_core n)) /\ delivered (log c4) = delivered (log (n_core n))).
  { rewrite (si_conf _ _ _ S4), (si_dev _ _ _ S4), (si_frames _ _ _ S4), (si_delivered _ _ _ S4).
    split_and!; try done; apply S. }
  destruct Hc as (Hc1 & Hc2 & _ & Hc3 & Hc4).
  destruct (XMIT_sends ip_csum junk now p1 (way_frame ip_csum h (i_prot h) [route_opt (first_bits r) (addrs r)] pl) None
    (set_core n c4) (hw (nxt_hop p1))) as (n' & ak & E & _ & Hak & Hsent).
  - destruct Hrd as [H1 _ H3 H4 H5 H6]. split; try done.
    + change (slave_dev c4 = true). congruence.
    + apply S4.
    + by apply (si_neigh _ _ _ S4).
    + unfold dn. change (n_core (set_core n c4)) with c4. by rewrite Hc1.
  - exists s. split; [done|]. intros i. exists (plain_pkt (Skb i (h_source s) (skb_data s)) h pl).
    apply dsr_pkt_alloc_plain; [by destruct Hskb|done].
  - exact Hask.
  - change (n_core (set_core n c4)) with c4. rewrite (si_hw _ _ _ S4) by exact Hn3.
    change (hw_addr c2 (nxt_hop p1) = Some (hw (nxt_hop p1))). rewrite (si_hw _ _ _ S) by apply Hrd. by apply Hit.
  - by rewrite Hd.
  - exists n', r, (nxt_hop p1), ak. split; [exact E|]. split; [done|]. split; [done|]. split; [by eapply ak_next; [|exact Hak]|].
    rewrite (si_frames _ _ _ Hsent), (si_delivered _ _ _ Hsent). change (n_core (set_core n c4)) with c4. by rewrite Hc3, Hc4.
Qed.
End Source.

(** ** Paths in the map of links *)

Lemma path_cost_cons g x y p :
  path_cost g (x :: y :: p) = (w ← g !! (x, y); c ← path_cost g (y :: p); Some (w + c)).
Proof. done. Qed.

Lemma path_cost_step g p c (k : nat) a b :
  path_cost g p = Some c -> p !! k = Some a -> p !! S k = Some b -> is_Some (g !! (a, b)).
Proof.
  revert c k. induction p as [|x p IH]; intros c k Hc Ha Hb; [done|]. destruct p as [|y p]; [by destruct k|].
  rewrite path_cost_cons in Hc. destruct (g !! (x, y)) as [w|] eqn:E; [|done]. cbn [mbind option_bind] in Hc.
  destruct k as [|k].
  - injection Ha as <-. injection Hb as <-. by exists w.
  - destruct (path_cost g (y :: p)) as [c'|]; [|done]. by apply (IH c' k).
Qed.

Lemma path_cost_length g p c :
  (forall k w, g !! k = Some w -> 1 <= w) -> path_cost g p = Some c -> zlen p <= c + 1.
Proof.
  intros Hw. revert c. induction p as [|x p IH]; intros c Hc; [done|]. destruct p as [|y p].
  { injection Hc as <-. done. }
  rewrite path_cost_cons in Hc. destruct (g !! (x, y)) as [w|] eqn:E; [|done]. cbn [mbind option_bind] in Hc.
  destruct (path_cost g (y :: p)) as [c'|]; [|done].
  injection Hc as <-. apply Hw in E. specialize (IH c' eq_refl). rewrite zlen_cons. lia.
Qed.

(** ** A network *)

(** A node at the time a packet reaches it, with what its kernel and its device
    add: the hardware address, the contents of fresh memory, the place of
    record-route options and the name of the next [sk_buff]. *)
Record station := Station {
  st_node : node;
  st_now : timeval;
  st_hw : bytes;
  st_junk : Z -> Z;
  st_rr : dsr_pkt -> option Z;
  st_stale : timeval;
  st_skb : Z
}.
Abbreviation st_core x := (n_core (st_node x)).

Section Network.
Context (ip_csum : bytes -> Z) (csum_range : forall b, 0 <= ip_csum b < 65536).
Context (net : Z -> station).

Definition station_recv (x : station) (from f : bytes) : outcome node :=
  dsr_dev_llrecv ip_csum (st_junk x) (st_now x) (st_rr x) (st_stale x) (Skb (st_skb x) from f) (zlen f) PACKET_HOST (st_node x).
Definition station_xmit (x : station) (s : sk_buff) : outcome node :=
  dsr_dev_start_xmit ip_csum (st_junk x) (st_now x) s (htons ETH_P_IP) (st_node x).

(** What a node has put on the air, and given to its host, in one run: first the
    frames [l], then [f] to [hw]; or the frames [l] alone, and [b] to its host. *)
Definition sends (x : station) (n' : node) (l : list (option bytes * bytes)) (hw f : bytes) : Prop :=
  frames (log (n_core n')) = (Some hw, f) :: l ++ frames (log (st_core x))
  /\ delivered (log (n_core n')) = delivered (log (st_core x)).
Definition delivers (x : station) (n' : node) (l : list (option bytes * bytes)) (b : bytes) : Prop :=
  frames (log (n_core n')) = l ++ frames (log (st_core x)) /\ delivered (log (n_core n')) = b :: delivered (log (st_core x)).

(** The frame of a packet with this header, protocol, route and payload, with
    [left] hops to go and the request [ak]. *)
Definition carries (h : iph) (prot : Z) (hops : list Z) (pl : bytes) (left : Z) (ak : option Z) (f : bytes) : Prop :=
  exists bits, bits_sleft bits = left /\ f = srt_frame ip_csum h prot bits hops pl ak.

(** The frame [f] of the packet, sent by [prv] from the hardware address [from],
    goes from node to node along the list.  Each answers the request, if there is
    one, with an acknowledgement to the node before it, sends the packet to the
    next, with one hop less to go, and gives nothing to its host; the host of the
    last one gets [b]. *)
Inductive journey (h : iph) (prot : Z) (hops : list Z) (pl b : bytes) : Z -> list Z -> bytes -> bytes -> Prop :=
| journey_ends prv a from f ak l n' :
    carries h prot hops pl 0 ak f -> station_recv (net a) from f = Ret n' ->
    answered ip_csum a prv ak l -> delivers (net a) n' l b -> journey h prot hops pl b prv [a] from f
| journey_goes prv a a' p from f g ak l n' :
    carries h prot hops pl (zlen (a' :: p)) ak f -> station_recv (net a) from f = Ret n' ->
    answered ip_csum a prv ak l -> sends (net a) n' l (st_hw (net a')) g ->
    journey h prot hops pl b a (a' :: p) (st_hw (net a)) g -> journey h prot hops pl b prv (a :: a' :: p) from f.

(** Routes have at most [K] hops between their ends. *)
Context (K : Z) (K_fits : K <= 63).

(** The node at [a] works, with room in its cache for the links of a route, each
    with the link back; and it is in touch with the node at [b]. *)
Definition works (a : Z) : Prop :=
  me (st_core (net a)) = a /\ ready (st_now (net a)) (st_node (net a)) /\ sound (K + 2) (st_core (net a)).
Definition linked (a b : Z) : Prop := hw_addr (st_core (net a)) b = Some (st_hw (net b)).

Lemma sound_le j k c : j <= k -> sound k c -> sound j c.
Proof. intros Hjk []. split; try done; lia. Qed.

Section Journey.
Context (h : iph) (prot : Z) (hops : list Z) (pl : bytes) (Htr : travelling h prot hops pl).
Local Abbreviation path := (i_src h :: hops ++ [i_dst h]).
Local Abbreviation given := (iph_enc (summed ip_csum (set_len_prot h (htons (20 + zlen pl)) prot)) ++ pl).
Context (path_short : zlen hops <= K).
Context (path_NoDup : NoDup path).
Context (path_works : Forall works (hops ++ [i_dst h])).
Context (path_linked : forall k a b, path !! k = Some a -> path !! S k = Some b -> linked a b).

(** From the node at place [k + 1] of the path on. *)
Lemma journey_from (k : nat) bits from prv ak :
  (k <= length hops)%nat -> 0 <= bits < 65536 -> bits_sleft bits = zlen hops - Z.of_nat k -> path !! k = Some prv -> ak_ok ak ->
  journey h prot hops pl given prv (drop k (hops ++ [i_dst h])) from (srt_frame ip_csum h prot bits hops pl ak).
Proof using All.
  intros Hk. assert (Hj : exists j, (k + j = length hops)%nat) by (exists (length hops - k)%nat; lia).
  destruct Hj as [j Hj]. revert k bits from prv ak Hk Hj. induction j as [|j IH]; intros k bits from prv ak Hk Hj Hb Hsl Hprv Hak.
  - replace k with (length hops) in * by lia. rewrite drop_app_length.
    apply Forall_app in path_works as [_ Hlast]. apply Forall_singleton in Hlast as (Hme & Hrd & Hso).
    destruct (hop_delivers ip_csum csum_range (st_junk (net (i_dst h))) (st_now (net (i_dst h))) (st_rr (net (i_dst h)))
      (st_stale (net (i_dst h))) h prot hops pl Htr (st_skb (net (i_dst h))) from ak Hak bits (st_node (net (i_dst h))))
      as (n' & prv' & l & E & Hp & Hl & H1 & H2); [done|rewrite Hsl; unfold zlen; lia|done|done| |].
    { eapply sound_le; [|exact Hso]. lia. }
    rewrite Hprv in Hp. injection Hp as <-. rewrite Hme in Hl.
    eapply journey_ends; [|exact E|exact Hl|by split]. exists bits. split; [|done]. rewrite Hsl. unfold zlen. lia.
  - destruct (lookup_lt_is_Some_2 hops k ltac:(lia)) as [a Ha].
    assert (Hpa : (hops ++ [i_dst h]) !! k = Some a) by (rewrite lookup_app_l; [done|lia]).
    destruct (lookup_lt_is_Some_2 (hops ++ [i_dst h]) (S k)) as [b Hpb]; [rewrite length_app; cbn; lia|].
    assert (Hlen : zlen (drop (S k) (hops ++ [i_dst h])) = zlen hops - Z.of_nat k)
      by (unfold zlen; rewrite length_drop, length_app; cbn; lia).
    rewrite (drop_S _ _ k Hpa). rewrite (drop_S _ _ (S k) Hpb) in *.
    destruct (Forall_lookup_1 _ _ _ _ path_works Hpa) as (Hme & Hrd & Hso).
    destruct (hop_forwards ip_csum csum_range (st_junk (net a)) (st_now (net a)) (st_rr (net a)) (st_stale (net a))
      h prot hops pl Htr (st_skb (net a)) from ak Hak bits (st_node (net a)) k b (st_hw (net b)))
      as (n' & prv' & l & ak' & E & Hp & Hl & Hak' & H1 & H2); try done; [lia|by rewrite Hme| | | |].
    + rewrite Hme. intros Hd. rewrite <- Hd in Hpa. change (path !! S k = Some (i_dst h)) in Hpa.
      pose proof (NoDup_lookup _ _ _ _ path_NoDup Hpa (path_lookup_last (DsrSrt (i_src h) (i_dst h) 0 0 hops []))) as Hn.
      cbn in Hn. lia.
    + eapply sound_le; [|exact Hso]. lia.
    + by apply (path_linked (S k)).
    + rewrite Hprv in Hp. injection Hp as <-. rewrite Hme in Hl.
      eapply journey_goes; [|exact E|exact Hl|by split|]; [exists bits; by rewrite Hlen|]. rewrite <- (drop_S _ _ (S k) Hpb).
      destruct (bits_set_sleft_fields bits (bits_sleft bits - 1) Hb) as (B1 & B2 & _).
      apply IH; [lia|lia|exact B1| |exact Hpa|exact Hak']. unfold next_bits. rewrite B2, Hsl. pose proof (tr_hops _ _ _ _ Htr).
      unfold zlen in *. rewrite Z.mod_small by lia. lia.
Qed.
End Journey.

(** What the cache of a node records is so. *)
Definition truthful (g : gmap (Z * Z) Z) : Prop :=
  forall a b w, g !! (a, b) = Some w -> 1 <= w /\ is_word b /\ works b /\ linked a b.

Lemma encap_travelling h pl r :
  iph_ok h -> 1 <= i_ttl h -> pl <> [] -> zlen pl + 284 < 65536 -> i_dst h <> DSR_BROADCAST ->
  Forall is_word (addrs r) -> zlen (addrs r) <= 63 -> travelling h (i_prot h) (addrs r) pl.
Proof. intros Hok Httl Hpl Hsz Hd Hw Hn. constructor; try done; [lia|apply Hok]. Qed.

(** A route found in such a cache, when some path costs no more than [c]. *)
Record usable (g : gmap (Z * Z) Z) (a b c : Z) (r : dsr_srt) : Prop := {
  us_ends : src r = a /\ dst r = b;
  us_form : srt_aligned r /\ srt_fits r;
  us_hops : zlen (addrs r) <= K;
  us_NoDup : NoDup (srt_path r);
  us_nodes : Forall (λ b, is_word b /\ works b) (addrs r ++ [dst r]);
  us_links k x y : srt_path r !! k = Some x -> srt_path r !! S k = Some y -> linked x y;
  us_cost : exists c', path_cost g (srt_path r) = Some c' /\ c' <= c
}.

Lemma found_usable g mem a b r p c :
  truthful g -> srt_found g mem a b (Some r) ->
  head p = Some a -> last p = Some b -> path_cost g p = Some c -> c <= K + 1 -> usable g a b c r.
Proof using K_fits.
  intros Htru (Hs & Hd & Hal & Hnd & c' & Hc' & Hmin) Hh Hl Hpc HcK. specialize (Hmin p c Hh Hl Hpc).
  assert (Hstep : forall k x y, srt_path r !! k = Some x -> srt_path r !! S k = Some y -> is_word y /\ works y /\ linked x y).
  { intros k x y Hx Hy. destruct (path_cost_step _ _ _ _ _ _ Hc' Hx Hy) as [w Hw]. by apply (Htru x y w). }
  assert (Hlen : zlen (addrs r) <= K).
  { assert (zlen (srt_path r) <= c' + 1) as Hlen.
    { apply (path_cost_length g); [|done]. intros [x y] w Hw. by apply (Htru x y w). }
    unfold srt_path in Hlen. autorewrite with dsr_rw in Hlen. lia. }
  constructor; try done.
  - split; [done|]. destruct Hal as [Hwf Ht]. split; [done|]. destruct Hwf as (Hla & _). rewrite Ht in Hla.
    change (zlen []) with 0 in Hla. lia.
  - apply Forall_lookup_2. intros k y Hy. change (srt_path r !! S k = Some y) in Hy.
    destruct (lookup_lt_is_Some_2 (srt_path r) k) as [x Hx]; [apply lookup_lt_Some in Hy; lia|].
    by destruct (Hstep k x y Hx Hy) as (? & ? & _).
  - intros k x y Hx Hy. by apply (Hstep k).
  - by exists c'.
Qed.

(** The first hop. *)
Lemma first_hop r a :
  srt_aligned r -> dsr_srt_next_hop r (zlen (addrs r)) = Ret a -> exists l, addrs r ++ [dst r] = a :: l.
Proof.
  intros [Hwf _] Ha. destruct (next_hop_path r 0 Hwf ltac:(lia)) as (a' & Hp & Ha').
  rewrite Z.sub_0_r in Ha'. rewrite Ha in Ha'. injection Ha' as <-. unfold srt_path in Hp.
  destruct (addrs r ++ [dst r]) as [|x l]; [done|]. injection Hp as ->. by exists l.
Qed.

(** C1: A packet reaches its destination.  A host hands its node an IP packet,
    with a valid checksum, a payload and time to live, for another node.  Suppose
    that node's link cache records some path to the destination that costs at
    most [K + 1], for a [K] within what a route option holds, and that what it
    records is so: each link it knows is between nodes that work - with memory,
    and with room in their caches - and know each other's address.  Then the
    node sends one frame, to the first node of a path that is no more expensive,
    perhaps with a request for an acknowledgement; each node of that path answers
    the request, if there is one, with one acknowledgement to the node before it,
    sends one frame of the packet to the next, with its own request, the old one
    or none, and gives its host nothing; and the host at the end gets the very
    packet, byte for byte. *)
Theorem packet_arrives s h pl p c :
  ip_skb s h pl -> i_prot h <> IPPROTO_DSR -> summed ip_csum h = h -> 1 <= i_ttl h -> pl <> [] ->
  zlen pl + 284 < 65536 -> i_dst h <> DSR_BROADCAST -> i_src h <> i_dst h ->
  let x := net (i_src h) in
  let g := view (lc (st_core x)) in
  works (i_src h) -> costs_ok (lc (st_core x)) -> truthful g ->
  head p = Some (i_src h) -> last p = Some (i_dst h) -> path_cost g p = Some c -> c <= K + 1 ->
  exists n' hops a l c' f, station_xmit x s = Ret n' /\ sends x n' [] (st_hw (net a)) f
    /\ path_cost g (i_src h :: a :: l) = Some c' /\ c' <= c /\ a :: l = hops ++ [i_dst h]
    /\ journey h (i_prot h) hops pl (skb_data s) (i_src h) (a :: l) (st_hw x) f.
Proof using csum_range K_fits.
  intros Hskb Hnp Hsum Httl Hpl Hsz Hdst Hne x g (Hme & Hrd & Hso) Hco Htru Hh Hl Hpc HcK.
  pose proof (is_hdr _ _ _ Hskb) as Hok.
  destruct (source_sends ip_csum csum_range (st_junk x) (st_now x) s h pl (st_node x) (usable g (i_src h) (i_dst h) c)
    (λ a, st_hw (net a)) Hskb Hnp Hdst Hsz Hrd) as (n' & r & a & ak & E & Hr & Ha & Hak & F1 & F2).
  { intros mem Hm. destruct (so_cache _ _ Hso) as [Hi Hk].
    destruct (srt_find_spec (lc (st_core x)) mem (i_src h) (i_dst h) Hi Hk Hco) as (r & g' & mem' & E & _ & _ & _ & Hr).
    destruct r as [r|]; [exists r, g', mem'; split; [done|by eapply found_usable]|].
    destruct Hr as [|[Hr|Hr]]; [done| |by specialize (Hr p Hh Hl); unfold g in Hpc; rewrite Hr in Hpc].
    destruct mem as [|b mem]; [done|]. injection Hr as ->. set_solver. }
  { intros r Hr. split; [apply Hr|]. split; [apply Hr|]. intros a Ha. destruct (first_hop r a (proj1 (us_form _ _ _ _ _ Hr)) Ha) as (l & Hl').
    destruct Hr as [[Hs _] _ _ _ _ Hlk _].
    apply (Hlk 0%nat (i_src h) a); unfold srt_path; rewrite Hl'; cbn; congruence. }
  destruct Hr as [[Hrs Hrd'] [Hal _] Hn Hnd Hw Hlk (c' & Hc' & Hle)].
  destruct (first_hop r a Hal Ha) as (l & Hpath).
  exists n', (addrs r), a, l, c', (srt_frame ip_csum h (i_prot h) (first_bits r) (addrs r) pl ak).
  split; [exact E|]. split; [by split|]. unfold srt_path in Hc'. rewrite Hpath, Hrs in Hc'. split; [done|]. split; [done|].
  rewrite <- Hpath, Hrd'. split; [done|].
  assert (Htr : travelling h (i_prot h) (addrs r) pl).
  { apply encap_travelling; try done; [|lia]. rewrite Forall_app in Hw. eapply Forall_impl; [apply Hw|]. by intros ? []. }
  assert (Hback : skb_data s = iph_enc (summed ip_csum (set_len_prot h (htons (20 + zlen pl)) (i_prot h))) ++ pl).
  { rewrite (is_data _ _ _ Hskb), <- (is_tot _ _ _ Hskb). rewrite <- Hsum at 1. by destruct h. }
  destruct (first_bits_ok r) as [B1 B2]. rewrite Z.mod_small in B2 by (pose proof (zlen_nonneg (addrs r)); lia).
  assert (Hsp : i_src h :: addrs r ++ [i_dst h] = srt_path r) by (unfold srt_path; by rewrite Hrs, Hrd').
  rewrite Hback. apply (journey_from _ _ _ _ Htr) with (k := 0%nat); [done|by rewrite Hsp| |by rewrite Hsp|lia|done|rewrite B2; lia|done|done].
  rewrite <- Hrd'. eapply Forall_impl; [exact Hw|]. by intros ? [].
Qed.
End Network.

(** Three nodes in a line; each knows the next one. *)
Definition line_lc : lc_graph :=
  match lc_srt_add lc_init [] (Timeval 0 0) (Some (DsrSrt 1 3 0 4 [2] [])) 1000 with Ret (_, l, _) => l | Fault _ => lc_init end.
Definition line_neigh (a : Z) : tbl neighbor :=
  match neigh_tbl_add neigh_tbl_init [] a (repeat a 6) with Ret (_, t, _) => t | Fault _ => neigh_tbl_init end.
Definition line_node (a : Z) : node :=
  let n := node_init (dsr_node_init (DsrNode a 0 [])) true 0 in
  set_core n (set_neigh (set_lc (n_core n) line_lc) (line_neigh (a + 1))).
Definition line_net (a : Z) : station :=
  Station (line_node a) (Timeval 0 1000) (repeat a 6) (λ _, 0) (λ _, None) (Timeval 0 0) 100.

Lemma line_lc_ok :
  lc_inv line_lc /\ lc_locked line_lc = false /\ view line_lc = <[(2, 3) := 1]> (<[(1, 2) := 1]> ∅)
  /\ len (lc_nodes line_lc) = 3 /\ len (lc_links line_lc) = 2.
Proof.
  destruct (srt_add_spec lc_init [] (Timeval 0 0) (DsrSrt 1 3 0 4 [2] []) 1000 lc_init_inv eq_refl)
    as (l & m & E & Hi & Hk & _ & Hv).
  - unfold srt_wf, zlen. simpl. lia.
  - apply not_elem_of_nil.
  - split; vm_compute; discriminate.
  - unfold line_lc. rewrite E. split; [done|]. split; [done|]. split; [exact Hv|].
    vm_compute in E. injection E as <- _. done.
Qed.

Lemma line_view : view line_lc = <[(2, 3) := 1]> (<[(1, 2) := 1]> ∅).
Proof. apply line_lc_ok. Qed.

Lemma line_links a b w :
  (<[(2, 3) := 1]> (<[(1, 2) := 1]> ∅) : gmap (Z * Z) Z) !! (a, b) = Some w -> w = 1 /\ (a = 1 \/ a = 2) /\ b = a + 1.
Proof.
  intros Hw. apply lookup_insert_Some in Hw as [[? ?]|[_ Hw]]; [simplify_eq; by auto|].
  apply lookup_insert_Some in Hw as [[? ?]|[_ Hw]]; [simplify_eq; by auto|]. by rewrite lookup_empty in Hw.
Qed.

Lemma line_neigh_ok a : neigh_ok (line_neigh a).
Proof.
  destruct (neigh_add_spec neigh_tbl_init [] a (repeat a 6) neigh_init_ok) as (r & t & m & E & Hok & _).
  unfold line_neigh. by rewrite E.
Qed.
Lemma line_cache a : lc (st_core (line_net a)) = line_lc.
Proof. reflexivity. Qed.

Lemma line_works a : works line_net 20 a.
Proof.
  destruct line_lc_ok as (Hi & Hk & _ & Hl1 & Hl2).
  assert (Hm : false ∉ alloc (st_core (line_net a))) by apply not_elem_of_nil.
  split; [reflexivity|]. split; split.
  - reflexivity.
  - exact Hm.
  - apply line_neigh_ok.
  - reflexivity.
  - apply Forall_nil_2.
  - split; [|reflexivity]. by vm_compute.
  - exact Hm.
  - rewrite line_cache. split; [exact Hi|exact Hk].
  - rewrite line_cache, Hl1, Hl2. unfold LC_NODES_MAX, LC_LINKS_MAX; lia.
  - apply line_neigh_ok.
Qed.

Lemma line_linked a : a = 1 \/ a = 2 -> linked line_net a (a + 1).
Proof. by intros [-> | ->]. Qed.

Lemma packet_arrives_witness :
  let h := Iph 0 (htons 24) 1 0 64 17 0 1 3 in
  let s := Skb 7 [] (iph_enc h ++ [1; 2; 3; 4]) in
  exists n' hops a l f, station_xmit (λ _, 0) (line_net 1) s = Ret n' /\ sends (line_net 1) n' [] (repeat a 6) f
    /\ a :: l = hops ++ [3] /\ journey (λ _, 0) line_net h 17 hops [1; 2; 3; 4] (skb_data s) 1 (a :: l) (repeat 1 6) f.
Proof.
  intros h s.
  destruct (packet_arrives (λ _, 0) ltac:(intros; lia) line_net 20 ltac:(lia) s h [1; 2; 3; 4] [1; 2; 3] 2)
    as (n' & hops & a & l & c' & f & E & Hs & _ & _ & Hl & J).
  - constructor; [done| |done|by vm_compute]. constructor; by vm_compute.
  - by vm_compute.
  - done.
  - by vm_compute.
  - done.
  - by vm_compute.
  - by vm_compute.
  - by vm_compute.
  - apply line_works.
  - intros [a b] w Hw. rewrite line_cache, line_view in Hw. apply line_links in Hw as (-> & _). discriminate.
  - intros a b w Hw. rewrite line_cache, line_view in Hw. apply line_links in Hw as (-> & Ha & ->).
    split; [lia|]. split; [unfold is_word; lia|]. split; [apply line_works|by apply line_linked].
  - done.
  - done.
  - rewrite line_cache, line_view. reflexivity.
  - lia.
  - exists n', hops, a, l, f. exact (conj E (conj Hs (conj Hl J))).
Defined.
