(* ===== verification/Handshake.v ===== *)
(** * Acknowledgements

    What an acknowledgement that a neighbour has sent does to the node it is for:
    the packets that waited for it leave the maintenance buffer.  And what becomes
    of a request that a node passes on because it has no need to ask itself. *)

From S2P Require Import Prelude Timer Config Mem Tbl TblDel Keep Srt LinkCache LinkCacheInv LinkCacheSpec Neigh RreqTbl GratRrep.
From S2P Require Import Pkt Opt Send SendBuf Salvage MaintBuf Core Node Wire NodeSpec Sending Delivery.

Section Received.
Context (ip_csum : bytes -> Z) (csum_range : forall b, 0 <= ip_csum b < 65536).
Context (junk : Z -> Z) (now : timeval) (rr : dsr_pkt -> option Z) (stale : timeval).
#[local] Instance here : Peers core := peers_core ip_csum junk now.

(** The acknowledgement of [b] for [a], under this identity. *)
Context (a b id : Z) (Ha : is_word a) (Hb : is_word b) (Hid : 0 <= id < 65536).
Local Abbreviation ack := (bytes16 (htons id) ++ bytes32 b ++ bytes32 a).
Local Abbreviation opts := (opts_enc DSR_NO_NEXT_HDR_TYPE [(DSR_OPT_ACK, ack)]).
Local Abbreviation frame := (ack_frame ip_csum b a id).

Lemma ack_skb i src : dsr_skb (Skb i src frame) (ack_hdr ip_csum b a) DSR_NO_NEXT_HDR_TYPE [(DSR_OPT_ACK, ack)] [].
Proof using csum_range Ha Hb.
  constructor; try done.
  - constructor; try done; apply htons_range || apply csum_range.
  - constructor; [|constructor]. by vm_compute.
Qed.

(** The acknowledgement as it is read. *)
Definition ack_read (i : Z) (src : bytes) (room : bytes) (sl : opt_slots) : dsr_pkt :=
  Pkt b a 0 0 0 0 NhSkb (repeat 0 60) (Dh (Dhbuf 0 (opts ++ room) 16)) 1 sl None (Some 36) 0 (Some (Skb i src frame)).

Lemma ack_alloc i src :
  exists room sl, dsr_pkt_alloc true (Some junk) (Some (Skb i src frame)) = Ret (Some (ack_read i src room sl))
    /\ length (ack_opt sl) = 10%nat /\ num_ack_opts sl = 1.
Proof using csum_range Ha Hb.
  destruct (dsr_pkt_alloc_dsr junk _ _ _ _ _ (ack_skb i src)) as (sl & E & Hsl).
  exists (drop (length opts) (fill (16 + 128) junk)), sl. split; [exact E|].
  destruct (parsed_ack _ _ _ _ Hsl) as (H1 & H2 & _). split; [exact H1|exact H2].
Qed.

(** The reads of its fields. *)
Lemma ack_fields room :
  let m := opts ++ room in
  load8 m 4 = Ret DSR_OPT_ACK /\ load8 m 5 = Ret 10 /\ ack_opt_dst m 4 = Ret a /\ ack_opt_src m 4 = Ret b /\ ack_opt_id m 4 = Ret id.
Proof using Ha Hb Hid.
  intros m. set (hd := [DSR_NO_NEXT_HDR_TYPE; 0] ++ bytes16 (htons 12)).
  assert (Em : m = hd ++ (DSR_OPT_ACK :: 10 :: bytes16 (htons id)) ++ bytes32 b ++ bytes32 a ++ room).
  { unfold m, opts_enc. cbn [fmap list_fmap concat]. rewrite app_nil_r. unfold opt_enc. cbn [fst snd]. by rewrite <- !app_assoc. }
  clearbody m. subst m. split; [exact (load8_here hd _ _)|]. split; [exact (load8_next hd _ _ _)|].
  set (x := DSR_OPT_ACK :: _).
  assert (Hr : forall pre y rest n, zlen pre = n -> is_word y -> load32 (pre ++ bytes32 y ++ rest) n = Ret y).
  { intros pre y rest n <- Hy. unfold load32. rewrite (memread_behind pre (bytes32 y) rest 4 eq_refl). cbn [mbind outcome_bind].
    simpl. by rewrite le32_bytes32. }
  unfold ack_opt_dst, ack_opt_src, ack_opt_id. rewrite (app_assoc hd). split_and!.
  - rewrite (app_assoc (hd ++ x)). by apply Hr.
  - by apply Hr.
  - unfold load16. rewrite <- (app_assoc hd).
    assert (memread (hd ++ x ++ bytes32 b ++ bytes32 a ++ room) (4 + 2) 2 = Ret (bytes16 (htons id))) as ->
      by exact (memread_behind (hd ++ [DSR_OPT_ACK; 10]) (bytes16 (htons id)) (bytes32 b ++ bytes32 a ++ room) 2 eq_refl).
    cbn [mbind outcome_bind]. simpl. rewrite le16_bytes16 by apply htons_range.
    cbn [mbind outcome_bind]. by rewrite ntohs_htons.
Qed.

Lemma silent_frees (k : list maint_entry) c0 c : silent c0 c -> silent c0 (foldl (λ w m, p_pkt_free (m_dp m) w) c k).
Proof.
  revert c. induction k as [|m k IH]; intros c S; [exact S|]. simpl. apply IH.
  eapply silent_trans; [exact S|]. apply silent_free, S.
Qed.

(** The buffer when an acknowledgement comes and nothing is overdue. *)
Lemma del_all_id_calm n :
  ready now n -> tbl_wf (maint_buf (n_m n)) -> max_len (maint_buf (n_m n)) < 2 ^ 31 ->
  exists r s', maint_buf_del_all_id (dn (n_core n)) (me (n_core n)) now b id (n_m n) = Ret (r, s')
    /\ silent (n_core n) (peers s')
    /\ waiting (maint_buf s') = (λ m, (m_nxt_hop m, m_id m, m_dp m)) <$> misses (acked b id) (elems (maint_buf (n_m n)))
    /\ locked (maint_buf s') = false.
Proof.
  intros Hrd Hwf Hmax. pose proof (rd_lock _ _ Hrd) as Hl. unfold maint_buf_del_all_id, write_lock_bh. rewrite Hl. cbn [mbind outcome_bind].
  assert ((if timer_pending (ack_timer (n_m n)) then del_timer (ack_timer (n_m n)) else ack_timer (n_m n)) = None) as ->
    by (by destruct (ack_timer (n_m n))).
  rewrite acked_del by done. cbn [mbind outcome_bind fst snd elems]. set (es := elems (maint_buf (n_m n))).
  set (freed := foldl _ _ _).
  assert (S1 : silent (n_core n) freed).
  { apply silent_frees. by split; try apply Hrd. }
  set (rtt := ack_rtt now id _). set (w0 := if rtt >? 0 then _ else _).
  assert (Hw : exists w, w0 = Ret w /\ silent freed w).
  { unfold w0. case_if; [|exists freed; split; [done|by split; try apply S1]].
    apply (neigh_asked freed b (λ t x, neigh_tbl_set_rto t x (rtt_info id rtt)) (rto_update rtt)).
    - intros nb. unfold rto_update. by destruct (rtt_estimate _ _ _).
    - intros Hn. by apply (neigh_set_rto_spec _ _ (rtt_info id rtt)).
    - apply S1.
    - apply S1, Hrd. }
  destruct Hw as (w & -> & S2). cbn [mbind outcome_bind]. pose proof (silent_trans _ _ _ S1 S2) as S.
  unfold turns_left. set (t1 := set_elems _ _ _). set (fuel := list_sum _).
  destruct (set_timeout_calm (dn (n_core n)) (me (n_core n)) now fuel (MaintSt t1 None w)) as (t & tm & -> & Hwait & _).
  { cbn [maint_buf elems t1 set_elems]. eapply Forall_sublist; [apply sublist_filter|]. apply (rd_due _ _ Hrd). }
  cbn [mbind outcome_bind]. eexists _, _. split; [reflexivity|]. split; [exact S|]. split; [exact Hwait|done].
Qed.

(** A packet of this one option: [n1] is the node once the option is handled. *)
Lemma ack_recv_eq i src room sl n :
  length (ack_opt sl) = 10%nat -> num_ack_opts sl = 1 -> a = me (n_core n) ->
  exists q, dsr_recv ip_csum junk now rr stale (ack_read i src room sl) n
    = ('(_, m) ← maint_buf_del_all_id (dn (n_core n)) (me (n_core n)) now b id (n_m n); Ret (free q (set_m n m))).
Proof using Ha Hb Hid.
  intros Hsl Hnum Hme. set (p := ack_read i src room sl). destruct (ack_fields room) as (F1 & F2 & F3 & F4 & F5).
  destruct (zset (ack_opt sl) 1 (Some (Optr 0 4))) as [ar|] eqn:Ez.
  2: { exfalso. revert Ez. unfold zset, zlen. by rewrite Hsl. }
  set (q := set_slots p (set_ack_opt sl 2 ar)). exists q.
  assert (Hrecv : dsr_ack_opt_recv ip_csum junk now q (Optr 0 4) n
    = ('(_, m) ← maint_buf_del_all_id (dn (n_core n)) (me (n_core n)) now b id (n_m n); Ret (DSR_PKT_NONE, set_m n m))).
  { unfold dsr_ack_opt_recv. change (opt_off q (Optr 0 4)) with (Ret 4 : outcome Z). cbn [mbind outcome_bind].
    change (mem (dh_mem q)) with (opts ++ room). rewrite F3. cbn [mbind outcome_bind]. rewrite F4. cbn [mbind outcome_bind].
    rewrite F5. cbn [mbind outcome_bind]. by rewrite Hme, Z.eqb_refl. }
  unfold dsr_recv. change (promisc p) with false. cbn [andb].
  assert (Hopt : dsr_opt_recv ip_csum junk now stale p n
    = ('(_, m) ← maint_buf_del_all_id (dn (n_core n)) (me (n_core n)) now b id (n_m n); Ret (DSR_PKT_NONE, q, set_m n m))).
  { unfold dsr_opt_recv. change (payload_len p =? 0) with true. rewrite andb_false_r.
    change (dsr_pkt_opts_len p) with (Ret 16 : outcome Z). cbn [mbind outcome_bind].
    change (S (Z.to_nat 16)) with (S (S 15)). change (blk (dh_mem p)) with 0. generalize 15%nat as fuel. intros fuel. cbn [recv_loop].
    change ((DSR_OPT_HDR_LEN <? 16) && (16 - DSR_OPT_HDR_LEN >? 2)) with true. cbv iota.
    change DSR_OPT_HDR_LEN with 4. change (opt_off p (Optr 0 4)) with (Ret 4 : outcome Z). cbn [mbind outcome_bind].
    change (mem (dh_mem p)) with (opts ++ room). rewrite F1. cbn [mbind outcome_bind].
    change (DSR_OPT_ACK =? DSR_OPT_PAD1) with false. cbv iota.
    assert (recv_case ip_csum junk now stale p DSR_OPT_ACK (Optr 0 4) n
            = ('(a, n) ← dsr_ack_opt_recv ip_csum junk now q (Optr 0 4) n; Ret (a, q, n))) as ->.
    { unfold recv_case. change (promisc p) with false. change (num_ack_opts (slots p)) with (num_ack_opts sl). rewrite Hnum.
      change (ack_opt (slots p)) with (ack_opt sl). rewrite Ez. done. }
    rewrite Hrecv. destruct (maint_buf_del_all_id _ _ _ _ _ _) as [[r m]|]; [|done]. cbn [mbind outcome_bind].
    change (opt_off q (Optr 0 4)) with (Ret 4 : outcome Z). change (mem (dh_mem q)) with (opts ++ room).
    cbn [mbind outcome_bind]. change (4 + 1) with 5. rewrite F2. cbn [mbind outcome_bind]. done. }
  rewrite Hopt. destruct (maint_buf_del_all_id _ _ _ _ _ _) as [[r m]|]; [|done]. cbn [mbind outcome_bind].
  change (promisc q) with false. cbv iota. change (Z.to_nat DSR_PKT_ACTION_LAST) with 12%nat.
  do 12 (rewrite act_skip by (apply (bool_decide_unpack _); vm_compute; exact I)). done.
Qed.

(** C13: An acknowledgement releases the packets that wait for it.  A node with
    memory, in whose maintenance buffer no packet is overdue, receives the frame
    with which a neighbour acknowledges an identity.  It puts nothing on the air
    and gives nothing to its host; of the packets that wait for that neighbour
    those with an identity up to the acknowledged one leave the buffer and the
    others stay, in their order; the lock is free again; and no hardware address
    the node knew is lost. *)
Theorem ack_releases i src n :
  a = me (n_core n) -> ready now n -> tbl_wf (maint_buf (n_m n)) -> max_len (maint_buf (n_m n)) < 2 ^ 31 ->
  exists n', dsr_dev_llrecv ip_csum junk now rr stale (Skb i src frame) (zlen frame) PACKET_HOST n = Ret n'
    /\ frames (log (n_core n')) = frames (log (n_core n)) /\ delivered (log (n_core n')) = delivered (log (n_core n))
    /\ waiting (maint_buf (n_m n'))
       = (λ m, (m_nxt_hop m, m_id m, m_dp m)) <$> misses (acked b id) (elems (maint_buf (n_m n)))
    /\ locked (maint_buf (n_m n')) = false
    /\ (forall x, hw_addr (n_core n') x = hw_addr (n_core n) x).
Proof using csum_range Ha Hb Hid.
  intros Hme Hrd Hwf Hmax. destruct (ack_alloc i src) as (room & sl & E & Hsl & Hnum).
  unfold dsr_dev_llrecv, dsr_ip_recv.
  destruct (silent_draw (n_core n) (rd_alloc _ _ Hrd)) as (c1 & -> & S1). change (n_core (set_core n c1)) with c1.
  destruct (silent_draw_bytes junk c1 (si_alloc _ _ _ S1)) as (c2 & -> & S2).
  pose proof (silent_trans _ _ _ S1 S2) as S. rewrite E. cbn [mbind outcome_bind skb_data].
  rewrite (iph_ihl (ack_hdr ip_csum b a) opts : ip_ihl frame = _). cbn [mbind outcome_bind].
  assert (ip_tot_len frame = Ret (htons 36)) as -> by (apply (iph_tot (ack_hdr ip_csum b a)), (ds_hdr _ _ _ _ _ (ack_skb i src))).
  cbn [mbind outcome_bind]. rewrite decide_False by done. rewrite ntohs_htons by lia.
  change (zlen frame + Z.shiftl 5 2 <? 36) with false. cbv iota.
  set (n2 := set_core (set_core n c1) c2).
  pose proof (ready_sent now [] n c2 Hrd S : ready now n2) as R2.
  assert (Hme2 : me (n_core n2) = me (n_core n)) by (unfold me, dn; by rewrite <- (si_conf _ _ _ S)).
  destruct (ack_recv_eq i src room sl n2 Hsl Hnum) as (q & ->); [by rewrite Hme2|].
  destruct (del_all_id_calm n2 R2 Hwf Hmax) as (r & s' & -> & S3 & Hw & Hl). cbn [mbind outcome_bind].
  pose proof (silent_trans _ _ _ S S3) as S'. eexists. split; [reflexivity|].
  change (frames (log (peers s')) = frames (log (n_core n)) /\ delivered (log (peers s')) = delivered (log (n_core n))
    /\ waiting (maint_buf s') = (λ m, (m_nxt_hop m, m_id m, m_dp m)) <$> misses (acked b id) (elems (maint_buf (n_m n)))
    /\ locked (maint_buf s') = false /\ (forall x, hw_addr (peers s') x = hw_addr (n_core n) x)).
  split_and!; [apply S'|apply S'|exact Hw|exact Hl|]. intros x. apply S', Hrd.
Qed.
End Received.

(** Node 2 waits for acknowledgements of 3 and 4; one of 3 comes. *)
Definition waiting_node : node :=
  set_m (line_node 2)
    (MaintSt (Tbl [sample_entry 3 5 0 7; sample_entry 4 1 0 8; sample_entry 3 9 0 9] 3 100 false) None (n_core (line_node 2))).

Lemma waiting_ready : ready (Timeval 10 0) waiting_node.
Proof.
  constructor; try done.
  - apply not_elem_of_nil.
  - apply line_neigh_ok.
  - repeat constructor; done.
Qed.

Lemma ack_releases_witness :
  exists n', dsr_dev_llrecv (λ _, 0) (λ _, 0) (Timeval 10 0) (λ _, None) (Timeval 0 0)
      (Skb 8 (repeat 3 6) (ack_frame (λ _, 0) 3 2 6)) 36 PACKET_HOST waiting_node = Ret n'
    /\ fst <$> waiting (maint_buf (n_m n')) = [(4, 1); (3, 9)].
Proof.
  destruct (ack_releases (λ _, 0) ltac:(intros; lia) (λ _, 0) (Timeval 10 0) (λ _, None) (Timeval 0 0) 2 3 6
    ltac:(unfold is_word; lia) ltac:(unfold is_word; lia) ltac:(lia) 8 (repeat 3 6) waiting_node)
    as (n' & E & _ & _ & Hw & _).
  - reflexivity.
  - apply waiting_ready.
  - repeat split; vm_compute; congruence.
  - reflexivity.
  - exists n'. split; [exact E|]. rewrite Hw. reflexivity.
Defined.

(** A request that is passed on.  Node 2 forwards to 3 a packet in which 1 asks for
    an acknowledgement under 77.  It has asked 3 not long ago and does not ask
    again, so the old request stays in the packet: 3 acknowledges 77 to 2, and
    the packet leaves the buffer of 2, although 2 had never used this identity. *)
Example foreign_request_releases :
  let h := Iph 0 (htons 24) 1 0 64 17 0 1 3 in
  let f left := srt_frame (λ _, 0) h 17 (srt_bits 0 0 0 0 left) [2] [1; 2; 3; 4] (Some 77) in
  exists n1 n2,
    station_recv (λ _, 0) (line_net 2) (repeat 1 6) (f 1) = Ret n1
    /\ frames (log (n_core n1)) = [(Some (repeat 3 6), f 0); (Some (repeat 1 6), ack_frame (λ _, 0) 2 1 77)]
    /\ fst <$> waiting (maint_buf (n_m n1)) = [(3, 1)]
    /\ dsr_dev_llrecv (λ _, 0) (λ _, 0) (Timeval 0 2000) (λ _, None) (Timeval 0 0)
         (Skb 8 (repeat 3 6) (ack_frame (λ _, 0) 3 2 77)) 36 PACKET_HOST n1 = Ret n2
    /\ waiting (maint_buf (n_m n2)) = [].
Proof.
  intros h f.
  destruct (station_recv (λ _, 0) (line_net 2) (repeat 1 6) (f 1)) as [n1|] eqn:E1; vm_compute in E1; [|done].
  injection E1 as <-. eexists _, _. split; [reflexivity|]. split_and!; vm_compute; reflexivity.
Qed.
