(* ===== verification/Release.v ===== *)
(** * A route reply

    A reply to a route request teaches the node a route, ends its discovery, and
    lets the packets that wait for the route leave the send buffer, each with the
    cheapest route the node then knows. *)

From S2P Require Import Prelude Timer Config Mem Tbl TblDel Keep Srt LinkCache LinkCacheInv LinkCacheSpec Neigh RreqTbl GratRrep.
From S2P Require Import Pkt Opt Send SendBuf Salvage MaintBuf Core Node Wire NodeSpec NodeInv Sending Delivery.

(** ** The discovery ends *)

(** No discovery for [a] is under way. *)
Definition no_discovery (a : Z) (r : rreq_tbl_st) : Prop :=
  forall p e, p ∈ elems (rreq_tbl r) -> rreq_heap r !! p = Some e -> node_addr e = a -> e_state e = STATE_IDLE.

Lemma cancel_spec dn now a r :
  let K := get_confval dn RequestTableIds in
  rgood K r -> exists x r', rreq_tbl_route_discovery_cancel now a r = Ret (x, r') /\ rgood K r' /\ no_discovery a r'.
Proof.
  intros K Hg. pose proof Hg as [Hok Hl].
  assert (exists x r', rreq_tbl_route_discovery_cancel now a r = Ret (x, r') /\ no_discovery a r') as (x & r' & E & Hn).
  2: { exists x, r'. split; [done|]. split; [by eapply cancel_kept|done]. }
  unfold rreq_tbl_route_discovery_cancel. rewrite tbl_find_detach_free by done. unfold __tbl_find_detach.
  rewrite (find_elem_total _ (λ p, bool_decide (eaddr r p = Some a))).
  2: { intros p Hp. destruct (rq_live _ _ Hok p Hp) as (e & E & _). unfold RreqTbl.crit_addr, eaddr. rewrite E. simpl.
       f_equal. destruct (Z.eqb_spec (node_addr e) a); case_bool_decide; congruence. }
  cbn [mbind outcome_bind]. destruct (find_pos _ (elems (rreq_tbl r))) as [[i p]|] eqn:Ef; cbn [mbind outcome_bind].
  - apply find_pos_Some in Ef as (Hsp & Hm & _ & Hrm & Hl'). apply bool_decide_eq_true in Hm.
    assert (Hp : p ∈ elems (rreq_tbl r)) by (by eapply list_elem_of_lookup_2).
    destruct (rq_live _ _ Hok p Hp) as (e & He & _). rewrite He. cbn [deref of_option mbind outcome_bind].
    rewrite tbl_add_tail_free by done. destruct (__tbl_add_tail _ p) as [n t2] eqn:Ea. cbn [mbind outcome_bind].
    eexists _, _. split; [reflexivity|]. intros q e' Hq He' Ha. cbn in Hq, He'.
    rewrite lookup_insert in He'. case_decide as Hpq; [by injection He' as <-|]. exfalso. apply Hpq.
    apply (rq_addr _ _ Hok p q Hp); [|by unfold eaddr in *; rewrite Hm, He', <- Ha].
    assert (Hsub : forall y, y ∈ elems t2 -> y = p \/ y ∈ elems (rreq_tbl r)).
    { intros y. set (T := take _ _) in *. set (D := drop _ _) in *. clearbody T D. unfold __tbl_add_tail in Ea. rewrite Hsp.
      revert Ea. case_if; intros [= _ <-]; cbn; rewrite Hrm, ?elem_of_app, ?elem_of_cons, ?elem_of_nil; tauto. }
    destruct (Hsub q Hq) as [->|]; done.
  - eexists _, _. split; [reflexivity|]. intros p e Hp He Ha. exfalso.
    apply find_pos_None in Ef. rewrite Forall_forall in Ef. specialize (Ef p Hp). apply bool_decide_eq_false in Ef.
    apply Ef. unfold eaddr. cbn in He. by rewrite He, <- Ha.
Qed.

(** ** The packets leave *)

Section Release.
Context (ip_csum : bytes -> Z) (csum_range : forall b, 0 <= ip_csum b < 65536) (junk : Z -> Z) (now : timeval).
#[local] Instance here : Peers core := peers_core ip_csum junk now.

(** The way a route is looked up, put on and used for a packet from the buffer. *)
Local Abbreviation find := (λ s d (m : maint_st core), '(r, c) ← rtc_find s d (peers m); Ret (r, set_peers m c)).
Local Abbreviation add := (λ p (m : maint_st core), let '(ans, c) := Core.draw_bytes junk (peers m) in
             '(r, p) ← dsr_srt_add ip_csum ans p; Ret (r, p, set_peers m c)).
Local Abbreviation call := (λ (_ : unit) p m, xmit_m ip_csum junk now p m).
Local Abbreviation drop_pkt := (λ p (m : maint_st core), set_peers m (dsr_pkt_free p (peers m))).

(** A node around the maintenance buffer. *)
Local Abbreviation around m := (Node m rreq_tbl_init 0 send_buf_init).

(** The state while packets leave: the links [g], the addresses [hw] and the
    configuration [cf] stay. *)
Record serving (cf : dsr_node) (g : gmap (Z * Z) Z) (hw : Z -> option bytes) (m : maint_st core) : Prop := {
  sv_ready : ready now (around m);
  sv_cache : lc_inv (lc (peers m)) /\ lc_locked (lc (peers m)) = false /\ view (lc (peers m)) = g;
  sv_conf : conf (peers m) = cf;
  sv_hw a : hw_addr (peers m) a = hw a
}.

(** A packet of the host that waits for a route from [a] to [b]. *)
Record queued (a b : Z) (p : dsr_pkt) (s : sk_buff) (h : iph) (pl : bytes) : Prop := {
  qu_pkt : p = Pkt.set_srt (plain_pkt s h pl) None;
  qu_skb : ip_skb s h pl;
  qu_prot : i_prot h <> IPPROTO_DSR;
  qu_ends : i_src h = a /\ i_dst h = b;
  qu_small : zlen pl + 284 < 65536
}.

Context (cf : dsr_node) (g : gmap (Z * Z) Z) (hw : Z -> option bytes) (a b c : Z).
Context (g_costs : forall k w, g !! k = Some w -> 1 <= w <= W_MAX).
Context (g_path : exists p, head p = Some a /\ last p = Some b /\ path_cost g p = Some c).
Context (c_fits : c <= 64) (g_known : forall x w, g !! (a, x) = Some w -> is_Some (hw x)).
Context (a_b : a <> b) (b_host : b <> DSR_BROADCAST).

(** The frame of such a packet with a route no dearer than [c]. *)
Definition served (h : iph) (pl : bytes) (f : option bytes * bytes) : Prop :=
  exists r x ak c', src r = a /\ dst r = b /\ NoDup (srt_path r) /\ path_cost g (srt_path r) = Some c' /\ c' <= c
    /\ dsr_srt_next_hop r (zlen (addrs r)) = Ret x /\ ak_ok ak /\ is_Some (hw x)
    /\ f = (hw x, srt_frame ip_csum h (i_prot h) (first_bits r) (addrs r) pl ak).

Lemma served_route mem r :
  srt_found g mem a b r -> false ∉ mem ->
  exists s c' x, r = Some s /\ src s = a /\ dst s = b /\ srt_aligned s /\ srt_fits s /\ NoDup (srt_path s)
    /\ path_cost g (srt_path s) = Some c' /\ c' <= c /\ dsr_srt_next_hop s (zlen (addrs s)) = Ret x /\ is_Some (hw x).
Proof using All.
  intros Hf Hm. destruct g_path as (p & Hh & Hl & Hp). destruct r as [s|].
  2: { destruct Hf as [Hf|[Hf|Hf]]; [done| |by rewrite Hf in Hp]. destruct mem; [done|]. injection Hf as ->. set_solver. }
  destruct Hf as (Hs & Hd & Hal & Hnd & c' & Hc' & Hmin). specialize (Hmin p c Hh Hl Hp). pose proof Hal as [Hwf Ht].
  assert (Hlen : zlen (srt_path s) <= c' + 1) by (apply (path_cost_length g); [apply g_costs|done]).
  assert (Hfit : srt_fits s).
  { split; [done|]. destruct Hwf as (Hla & _). rewrite Ht in Hla. change (zlen []) with 0 in Hla.
    unfold srt_path in Hlen. autorewrite with dsr_rw in Hlen. lia. }
  destruct (next_hop_path s 0 Hwf ltac:(lia)) as (x & Hx & Hnx). rewrite Z.sub_0_r in Hnx.
  exists s, c', x. split_and!; try done.
  destruct (path_cost_step g (srt_path s) c' 0 a x Hc') as [w Hw]; [|exact Hx|by apply (g_known x w)].
  unfold srt_path. cbn. by f_equal.
Qed.

Lemma queued_sends m f p s h pl qt :
  serving cf g hw m -> queued a b p s h pl ->
  exists m' fr, send_entry find add call drop_pkt (SendEntry p qt f) m = Ret m' /\ serving cf g hw m'
    /\ served h pl fr /\ frames (log (peers m')) = fr :: frames (log (peers m)) /\ delivered (log (peers m')) = delivered (log (peers m)).
Proof using All.
  intros [Hrd (Hi & Hk & Hv) Hcf Hhw] [-> Hskb Hnp [Hsrc Hdst] Hsz]. unfold send_entry. cbn [e_dp].
  change (dp_src (Pkt.set_srt _ _)) with (i_src h). change (dp_dst (Pkt.set_srt _ _)) with (i_dst h). rewrite Hsrc, Hdst.
  assert (Hal : false ∉ alloc (peers m)) by apply (rd_alloc _ _ Hrd).
  destruct (srt_find_spec (lc (peers m)) (alloc (peers m)) a b Hi Hk) as (r & l' & mem' & E & Hi' & Hv' & Hk' & Hr).
  { intros k w. rewrite Hv. apply g_costs. }
  rewrite Hv in Hr. destruct (served_route _ _ Hr Hal) as (rt & c' & x & -> & R1 & R2 & R3 & R4 & R5 & R6 & R7 & R8 & [hx R9]).
  unfold rtc_find. rewrite E. cbn [mbind outcome_bind]. set (c3 := set_alloc (set_lc (peers m) l') mem').
  assert (Ha3 : false ∉ alloc c3) by exact (srt_find_mem _ _ _ _ _ _ _ E Hal).
  cbn [peers set_peers]. destruct (silent_draw_bytes junk c3 Ha3) as (c4 & -> & S4).
  destruct (encap_out ip_csum csum_range junk s h pl rt Hskb R3 R4 Hsz) as (p1 & Hadd & Hhop & Hd & Hs & Hask).
  change (Pkt.set_srt (Pkt.set_srt (plain_pkt s h pl) None) (Some rt)) with (Pkt.set_srt (plain_pkt s h pl) (Some rt)).
  rewrite Hadd. cbn [mbind outcome_bind]. change (0 <? 0) with false. cbv iota.
  rewrite Hhop in R8. injection R8 as <-.
  assert (R0 : ready now (around (set_peers (set_peers m c3) c4))).
  { apply (ready_sent now [] (around (set_peers m c3)) c4); [|exact S4]. destruct Hrd as [H1 _ H3 H4 H5 H6]. by split. }
  destruct (XMIT_sends ip_csum junk now p1 (way_frame ip_csum h (i_prot h) [route_opt (first_bits rt) (addrs rt)] pl) None
      (around (set_peers (set_peers m c3) c4)) hx R0)
    as (n' & ak & EX & R' & Hak & Hsent).
  - exists s. split; [done|]. intros i. exists (plain_pkt (Skb i (h_source s) (skb_data s)) h pl).
    apply dsr_pkt_alloc_plain; [by destruct Hskb|done].
  - exact Hask.
  - change (hw_addr c4 (nxt_hop p1) = Some hx). rewrite (si_hw _ _ _ S4) by apply (rd_neigh _ _ Hrd).
    by rewrite <- R9, <- Hhw.
  - by rewrite Hd, Hdst.
  - unfold Node.XMIT in EX. cbn [n_m] in EX. obind EX as m' Em. injection EX as <-.
    change (n_core (set_m _ m')) with (peers m') in Hsent.
    change (n_core (around (set_peers (set_peers m c3) c4))) with c4 in Hsent.
    exists m', (hw (nxt_hop p1), srt_frame ip_csum h (i_prot h) (first_bits rt) (addrs rt) pl ak).
    assert (Hnk : neigh_ok (neigh c4)) by (apply (si_neigh _ _ _ S4), (rd_neigh _ _ Hrd)).
    split; [exact Em|]. split; [|split; [|split]].
    + constructor.
      * destruct R' as [A1 A2 A3 A4 A5 A6]. by split.
      * rewrite (si_lc _ _ _ Hsent), (si_lc _ _ _ S4). cbn [lc c3 set_alloc set_lc]. by rewrite Hv'.
      * by rewrite (si_conf _ _ _ Hsent), (si_conf _ _ _ S4).
      * intros y. rewrite (si_hw _ _ _ Hsent) by exact Hnk. rewrite (si_hw _ _ _ S4) by apply (rd_neigh _ _ Hrd). apply Hhw.
    + exists rt, (nxt_hop p1), ak, c'. split_and!; try done. apply (ak_next None); [done|exact Hak].
    + rewrite (si_frames _ _ _ Hsent), (si_frames _ _ _ S4), R9. done.
    + by rewrite (si_delivered _ _ _ Hsent), (si_delivered _ _ _ S4).
Qed.

(** All of them, the oldest first. *)
Lemma queue_sends l m :
  serving cf g hw m -> Forall (λ x, queued a b (e_dp x.1) x.2.1.1 x.2.1.2 x.2.2) l ->
  exists m' fs, run_all (send_entry find add call drop_pkt) l.*1 m = Ret m' /\ serving cf g hw m'
    /\ Forall2 (λ x fr, served x.2.1.2 x.2.2 fr) l fs
    /\ frames (log (peers m')) = rev fs ++ frames (log (peers m)) /\ delivered (log (peers m')) = delivered (log (peers m)).
Proof using All.
  revert m. induction l as [|[[p qt f] [[s h] pl]] l IH]; intros m Hs Hl.
  - exists m, []. by split_and!; [..|constructor| |].
  - apply Forall_cons in Hl as [Hq Hl]. destruct (queued_sends m f p s h pl qt Hs Hq) as (m1 & fr & E & Hs1 & Hfr & F1 & D1).
    destruct (IH m1 Hs1 Hl) as (m2 & fs & E2 & Hs2 & Hfs & F2 & D2). exists m2, (fr :: fs).
    cbn [fmap list_fmap fst run_all]. rewrite E. cbn [mbind outcome_bind]. split; [exact E2|]. split; [done|].
    split; [by constructor|]. split; [|by rewrite D2]. cbn [rev]. by rewrite F2, F1, <- app_assoc.
Qed.

(** [SEND_BUF_SEND] for [b]. *)
Lemma send_buffered_serves n l :
  serving cf g hw (n_m n) -> send_ok (n_sbuf n) -> l.*1 = for_dst b (n_sbuf n) ->
  Forall (λ x, queued a b (e_dp x.1) x.2.1.1 x.2.1.2 x.2.2) l ->
  exists n' fs, send_buffered ip_csum junk now b n = Ret n' /\ serving cf g hw (n_m n') /\ send_ok (n_sbuf n')
    /\ elems (send_buf (n_sbuf n')) = not_for_dst b (n_sbuf n) /\ n_rreq n' = n_rreq n
    /\ Forall2 (λ x fr, served x.2.1.2 x.2.2 fr) l fs
    /\ frames (log (n_core n')) = rev fs ++ frames (log (n_core n)) /\ delivered (log (n_core n')) = delivered (log (n_core n)).
Proof using All.
  intros Hs Hok Hl Hq. pose proof Hok as [Hwf Hf Hm Ht]. pose proof Hwf as (Hln & Hle & _).
  set (st := n_sbuf n) in *. set (t1 := Tbl (elems (send_buf st)) (len (send_buf st)) (max_len (send_buf st)) true).
  destruct (send_loop_spec find add call drop_pkt b (S (length (elems t1))) t1 0) as (t' & Hwf' & Hm' & _ & He & Hr);
    [exact Hwf|simpl; lia|lia|simpl; lia|].
  destruct (queue_sends l (n_m n) Hs Hq) as (m' & fs & E & Hs' & Hfs & F & D). rewrite Hl in E.
  eexists _, fs. split.
  { unfold send_buffered, send_buf_set_verdict, write_lock_bh. fold st. rewrite Hf. cbn [mbind outcome_bind]. fold t1.
    change (elems (send_buf st)) with (elems t1). rewrite Hr. change (filter _ (elems t1)) with (for_dst b st). rewrite E.
    cbn [mbind outcome_bind]. reflexivity. }
  split; [exact Hs'|]. split; [by apply (misses_ok st t' b)|]. split; [exact He|]. split; [done|]. split; [exact Hfs|]. by split.
Qed.
End Release.

(** ** The reply *)

(** A packet for this node with one route reply at this place of its options: the
    parser has noted it. *)
Record replied (p : dsr_pkt) (d : dhbuf) (off : Z) (hops : list Z) (b : Z) : Prop := {
  rp_dh : dh p = Dh d;
  rp_heard : promisc p = false;
  rp_len : opt_length (mem d) off = Ret (4 * zlen hops + 5);
  rp_hops : memread (mem d) (off + 4) (4 * zlen hops) = Ret (bytes_of_words hops);
  rp_dst : rrep_opt_addr (mem d) off (zlen hops) = Ret b;
  rp_words : Forall is_word hops;
  rp_slots : num_rrep_opts (slots p) = 1 /\ length (rrep_opt (slots p)) = 10%nat
             /\ rrep_opt (slots p) !! 0%nat = Some (Some (Optr (blk d) off))
}.

Lemma add_links_old bidir g p k w : add_links bidir g p !! k = Some w -> w = 1 \/ g !! k = Some w.
Proof.
  revert g. induction p as [|x p IH]; intros g H; [by right|]. destruct p as [|y p]; [by right|].
  change (add_links bidir g (x :: y :: p)) with
    (add_links bidir (let g1 := <[(x, y) := 1]> g in if bidir then <[(y, x) := 1]> g1 else g1) (y :: p)) in H.
  apply IH in H as [|H]; [by left|]. revert H. simpl. destruct bidir; rewrite !lookup_insert; repeat case_decide; naive_solver.
Qed.

Section Reply.
Context (ip_csum : bytes -> Z) (csum_range : forall b, 0 <= ip_csum b < 65536) (junk : Z -> Z) (now : timeval).
Context (rr : dsr_pkt -> option Z).

(** The reply, once it is handled: it is noted a second time. *)
Definition noted_twice (p : dsr_pkt) (d : dhbuf) (off : Z) : dsr_pkt :=
  set_slots p (set_rrep_opt (slots p) 2 (<[1%nat := Some (Optr (blk d) off)]> (rrep_opt (slots p)))).

Lemma noted_slot p d off hops b i :
  replied p d off hops b -> i = 0 \/ i = 1 -> slot_off (noted_twice p d off) (rrep_opt (slots (noted_twice p d off))) i = Ret off.
Proof.
  intros Hp Hi. destruct (rp_slots _ _ _ _ _ Hp) as (_ & Hl & H0). unfold slot_off, noted_twice. cbn [slots rrep_opt set_slots set_rrep_opt].
  assert (znth (<[1%nat := Some (Optr (blk d) off)]> (rrep_opt (slots p))) i = Some (Some (Optr (blk d) off))) as ->.
  { apply znth_Some. destruct Hi as [-> | ->]; (split; [lia|]).
    - by rewrite list_lookup_insert_ne.
    - apply list_lookup_insert_eq. lia. }
  cbn [deref of_option mbind outcome_bind]. unfold opt_off, dh_buf. cbn [dh set_slots]. rewrite (rp_dh _ _ _ _ _ Hp).
  cbn. by rewrite Z.eqb_refl.
Qed.

(** What the handler does to the node. *)
Lemma rrep_opt_recv_eq p d off hops b n :
  replied p d off hops b -> dp_dst p = me (n_core n) -> zlen hops <= 62 ->
  false ∉ alloc (n_core n) -> lc_inv (lc (n_core n)) -> lc_locked (lc (n_core n)) = false ->
  hop_room false (lc (n_core n)) (zlen hops + 1) -> rgood (get_confval (dn (n_core n)) RequestTableIds) (n_rreq n) ->
  exists l mem r, dsr_rrep_opt_recv now p (Optr (blk d) off) n
      = Ret (DSR_PKT_SEND_BUFFERED, noted_twice p d off,
             Node (set_peers (n_m n) (set_alloc (set_lc (n_core n) l) mem)) r (rreq_seqno n) (n_sbuf n))
    /\ lc_inv l /\ lc_locked l = false /\ (false ∉ mem)
    /\ view l = add_links false (view (lc (n_core n))) (me (n_core n) :: hops ++ [b]) /\ no_discovery b r.
Proof.
  intros Hp Hme Hn Hal Hi Hk Hroom Hg. destruct (rp_slots _ _ _ _ _ Hp) as (H1 & Hl & _). pose proof (zlen_nonneg hops).
  unfold dsr_rrep_opt_recv. rewrite (rp_heard _ _ _ _ _ Hp), H1. change (negb (1 <? MAX_RREP_OPTS)) with false. cbv iota.
  assert (zset (rrep_opt (slots p)) 1 (Some (Optr (blk d) off)) = Ret (<[1%nat := Some (Optr (blk d) off)]> (rrep_opt (slots p)))) as ->
    by (unfold zset, zlen; by rewrite Hl).
  cbn [mbind outcome_bind]. change (1 + 1) with 2. fold (noted_twice p d off). set (q := noted_twice p d off).
  assert (opt_off q (Optr (blk d) off) = Ret off) as ->.
  { unfold opt_off, dh_buf. cbn [dh q noted_twice set_slots]. rewrite (rp_dh _ _ _ _ _ Hp). cbn. by rewrite Z.eqb_refl. }
  assert (Hm : mem (dh_mem q) = mem d) by (unfold dh_mem; cbn [dh q noted_twice set_slots]; by rewrite (rp_dh _ _ _ _ _ Hp)).
  cbn [mbind outcome_bind]. rewrite Hm, (rp_len _ _ _ _ _ Hp). cbn [mbind outcome_bind].
  assert (DSR_RREP_ADDRS_LEN (4 * zlen hops + 5) / 4 = zlen hops) as ->.
  { unfold DSR_RREP_ADDRS_LEN. rewrite u64_small by lia. replace (4 * zlen hops + 5 - 1 - 4) with (zlen hops * 4) by lia. by rewrite Z.div_mul. }
  rewrite (rp_dst _ _ _ _ _ Hp). cbn [mbind outcome_bind].
  destruct (draw_plenty (n_core n) Hal) as (m1 & -> & Hm1). change (dp_dst q) with (dp_dst p). rewrite Hme.
  set (s := DsrSrt (me (n_core n)) b 0 (4 * zlen hops) hops []).
  assert (srt_of_opt true (me (n_core n)) b (4 * zlen hops + 5 - 1 - 4) (mem d) (off + 4) = Ret (Some s)) as ->.
  { unfold srt_of_opt. replace (4 * zlen hops + 5 - 1 - 4) with (4 * zlen hops) by lia. rewrite (proj2 (Z.ltb_ge _ _)) by lia.
    pose proof (dsr_srt_new_read (mem d) (off + 4) hops [] (me (n_core n)) b) as E. change (zlen []) with 0 in E.
    rewrite Z.add_0_r, app_nil_r in E. apply E; [apply Hp|apply Hp|done]. }
  cbn [mbind outcome_bind].
  assert (Hwf : srt_wf s) by (unfold srt_wf, s; cbn [laddrs addrs atail]; change (zlen (@nil Z)) with 0; lia).
  destruct (srt_add_spec (lc (n_core n)) m1 now s (confval_to_usecs (dn (n_core n)) RouteCacheTimeout) Hi Hk Hwf Hm1)
    as (l & m2 & El & Hi2 & Hk2 & Hm2 & Hv2); [exact Hroom|].
  unfold on_core, rtc_add. cbn [n_core set_core set_m n_m peers set_peers lc alloc set_alloc].
  change (dn (set_alloc (n_core n) m1)) with (dn (n_core n)). rewrite El. cbn [mbind outcome_bind].
  destruct (cancel_spec (dn (n_core n)) now b (n_rreq n) Hg) as (x & r & Ec & _ & Hd).
  cbn [n_rreq set_core set_m Srt.dst s]. rewrite Ec. cbn [mbind outcome_bind].
  match goal with |- context [?u =? ?v] => change v with u end. rewrite Z.eqb_refl. by exists l, m2, r.
Qed.

Lemma send_replied_turn p d off hops b t i n :
  replied p d off hops b -> zlen hops <= 62 -> i = 0 \/ i = 1 ->
  send_replied ip_csum junk now (noted_twice p d off) (S t) i n
  = (n ← send_buffered ip_csum junk now b n; send_replied ip_csum junk now (noted_twice p d off) t (i + 1) n).
Proof.
  intros Hp Hn Hi. pose proof (zlen_nonneg hops). cbn [send_replied]. rewrite (noted_slot _ _ _ _ _ _ Hp Hi). cbn [mbind outcome_bind].
  assert (Hm : mem (dh_mem (noted_twice p d off)) = mem d)
    by (unfold dh_mem; cbn [dh noted_twice set_slots]; by rewrite (rp_dh _ _ _ _ _ Hp)).
  rewrite Hm, (rp_len _ _ _ _ _ Hp). cbn [mbind outcome_bind].
  assert (DSR_RREP_ADDRS_LEN (4 * zlen hops + 5) / 4 = zlen hops) as ->.
  { unfold DSR_RREP_ADDRS_LEN. rewrite u64_small by lia. replace (4 * zlen hops + 5 - 1 - 4) with (zlen hops * 4) by lia. by rewrite Z.div_mul. }
  by rewrite (rp_dst _ _ _ _ _ Hp).
Qed.

End Reply.

(** Node 1 knows its neighbour 2 and no routes; two packets wait for 3 and one for
    4.  The reply lists the hop 2. *)
Definition waiting_iph (d : Z) : iph := Iph 0 (htons 24) 1 0 64 17 0 1 d.
Definition waiting_skb (i d : Z) : sk_buff := Skb i [] (iph_enc (waiting_iph d) ++ [1; 2; 3; i]).
Definition waiting_pkt (i d : Z) : dsr_pkt := Pkt.set_srt (plain_pkt (waiting_skb i d) (waiting_iph d) [1; 2; 3; i]) None.
Definition asking_node : node :=
  let e i d := SendEntry (waiting_pkt i d) (Timeval 0 0) () in
  Node (set_peers (n_m (line_node 1)) (set_lc (n_core (line_node 1)) lc_init)) rreq_tbl_init 0
    (SendSt (Tbl [e 7 3; e 8 4; e 9 3] 3 100 false) (Some (Timeval 30 0))).
Definition reply_pkt : dsr_pkt :=
  set_slots (Pkt.set_dh (set_addrs pkt0 3 1 0) (Dh (Dhbuf 0 ([17; 0; 0; 12; DSR_OPT_RREP; 9; 0; 0] ++ bytes32 2 ++ bytes32 3) 16)) 1)
    (set_rrep_opt slots0 1 (<[0%nat := Some (Optr 0 4)]> (no_opts MAX_RREP_OPTS))).

