(* ===== verification/Agent.v ===== *)
(** * The simulator's agent (ns-agent.cc, ns-agent.h; the NS2 half of dsr-pkt.c, dsr-opt.c, timer.h)

    The same protocol code is compiled into the network simulator as one C++
    class.  Its agent turns the simulator's packets, which are header records
    and not bytes, into [struct dsr_pkt] and back.  The simulator's own classes
    are not part of the repository: what the agent asks of them is a log of
    events, what they answer is the class [Simulator].  The protocol's functions
    are reached through the class [Protocol]; the neighbour table and the link
    cache are the ones of Neigh and LinkCache (locks are empty macros here). *)

From Stdlib Require Import String SpecFloat.
From stdpp Require Import gmap strings.
From S2P Require Import Prelude Mem Config Timer Tbl Srt LinkCache Neigh Pkt.

(** ** Doubles *)

Definition double : Type := spec_float.
Definition d_of (z : Z) : double := binary_normalize 53 1024 z 0 false.
Definition d_mul : double -> double -> double := SFmul 53 1024.
Definition d_div : double -> double -> double := SFdiv 53 1024.
Definition d_add : double -> double -> double := SFadd 53 1024.
Definition d_sub : double -> double -> double := SFsub 53 1024.
(** [(long)x] *)
Definition d_long (x : double) : Z :=
  match x with
  | S754_finite s m e => s64 ((if s then Z.opp else λ z, z) (Z.shiftl (Zpos m) e))
  | _ => 0
  end.

(** ** The simulator's packets *)

Inductive dir_t := UP | DOWN | NODIR.

(** [hdr_cmn], as far as it is used; [xmit_failure_] is set to the agent's
    function or not. *)
Record hdr_cmn := HdrCmn {
  ptype : Z; csize : Z; direction : dir_t; iface : Z; cerror : Z;
  prev_hop_ : Z; next_hop_ : Z; addr_type : Z; xmit_failure_ : bool
}.
Record hdr_ip := HdrIp { saddr : Z; daddr : Z; ip_hops : Z }.
(** The part reserved for the DSR header has [DSR_OPTS_MAX_SIZE] bytes. *)
Record packet := Packet { cmn : hdr_cmn; ip : hdr_ip; mac_dst : Z; hdr_dsruu : bytes }.

Definition set_ptype (c : hdr_cmn) v := HdrCmn v (csize c) (direction c) (iface c) (cerror c) (prev_hop_ c) (next_hop_ c) (addr_type c) (xmit_failure_ c).
Definition set_csize (c : hdr_cmn) v := HdrCmn (ptype c) v (direction c) (iface c) (cerror c) (prev_hop_ c) (next_hop_ c) (addr_type c) (xmit_failure_ c).
Definition set_addr_type (c : hdr_cmn) v := HdrCmn (ptype c) (csize c) (direction c) (iface c) (cerror c) (prev_hop_ c) (next_hop_ c) v (xmit_failure_ c).
Definition set_xmit_failure (c : hdr_cmn) v := HdrCmn (ptype c) (csize c) (direction c) (iface c) (cerror c) (prev_hop_ c) (next_hop_ c) (addr_type c) v.
Definition set_cmn (p : packet) v := Packet v (ip p) (mac_dst p) (hdr_dsruu p).
Definition set_pip (p : packet) v := Packet (cmn p) v (mac_dst p) (hdr_dsruu p).
Definition set_mac_dst (p : packet) v := Packet (cmn p) (ip p) v (hdr_dsruu p).
Definition set_dsruu (p : packet) v := Packet (cmn p) (ip p) (mac_dst p) v.

Inductive drop_reason := DROP_RTR_NO_ROUTE | DROP_RTR_TTL | DROP_RTR_SALVAGE.

(** The faked ARP reply. *)
Record arp := Arp { arp_spa : Z; arp_sha : Z; arp_tpa : Z; arp_tha : Z }.

(** What the agent asks the simulator to do; [Scheduled] is the packet handed to
    the link layer with its delay, [TargetRecv] one handed to the host. *)
Inductive sim_event :=
| ArpReply (ll : Z) (a : arp)
| Freed (p : Z)
| Dropped (p : Z) (r : drop_reason)
| Scheduled (ll : option Z) (p : Z) (pk : packet) (delay : double)
| TargetRecv (p : Z) (pk : packet)
| TapInstalled (mac : Z).

(** What the simulator gives: packet types and address kinds, address
    conversions, Tcl's objects and variables, random numbers, the content of a
    new packet, and the interface queue's search by next hop. *)
Class Simulator := {
  PT_DSR : Z; PT_PING : Z; DATA_PACKET : Z -> bool;
  NS_AF_NONE : Z; NS_AF_INET : Z;
  get_nodeaddr : Z -> Z;
  str2addr : string -> Z;
  tcl_lookup : string -> option Z;
  tcl_bound : string -> option Z;
  mac_addr : Z -> Z;
  queue_of : Z -> list Z;
  uniform : Z -> double;
  fresh_packet : packet;
  prq_get_nexthop : (Z -> option packet) -> Z -> list Z -> option Z * list Z;
  Agent_command : list string -> Z
}.

(** ** The agent *)

Record agent (W : Type) := Agent {
  confvals : list Z;
  myaddr_ : Z;
  macaddr_ : Z;
  trace_ : option Z; mac_ : option Z; ll_ : option Z;
  ifq_ : option (list Z); (** the packets in the interface queue *)
  node_ : option Z;
  LC : lc_graph;
  neigh_tbl : tbl neighbor;
  proto : W; (** the other tables and what they hold *)
  pkts : gmap Z packet; (** the live packets *)
  next_pkt : Z; (** the name of the next one *)
  drawn : Z; (** how many random numbers were drawn *)
  mem_ans : oracle; (** the next answers of the allocator *)
  asked : list sim_event (** latest first *)
}.
Arguments Agent {W}.
Arguments confvals {W}. Arguments myaddr_ {W}. Arguments macaddr_ {W}. Arguments trace_ {W}. Arguments mac_ {W}.
Arguments ll_ {W}. Arguments ifq_ {W}. Arguments node_ {W}. Arguments LC {W}. Arguments neigh_tbl {W}.
Arguments proto {W}. Arguments pkts {W}. Arguments next_pkt {W}. Arguments drawn {W}. Arguments mem_ans {W}. Arguments asked {W}.

(** [struct dsr_pkt] of this build: the fields the two builds share, where
    [nh.iph] points, the packet's own header and the simulator's packet. *)
Inductive ns_nh := NsNull | NsPacket (p : Z) | NsData.
Record ns_pkt := NsPkt { dp : dsr_pkt; ns_nh_iph : ns_nh; ns_ip_data : hdr_ip; dp_p : option Z }.

(** The protocol's functions on a packet and the agent. *)
Class Protocol (W : Type) := {
  p_recv : ns_pkt -> agent W -> outcome (agent W); (** [dsr_recv] *)
  p_start_xmit : ns_pkt -> agent W -> outcome (agent W); (** [dsr_start_xmit] *)
  p_maint_add : ns_pkt -> agent W -> outcome (ns_pkt * agent W); (** [maint_buf_add] *)
  p_maint_salvage : ns_pkt -> agent W -> outcome (Z * agent W); (** [maint_buf_salvage] *)
  p_rerr : ns_pkt -> Z -> agent W -> outcome (agent W); (** [dsr_rerr_send] *)
  p_cleanup : agent W -> outcome (agent W); (** the other tables' [.._cleanup] *)
  p_tables : W (** what the tables hold once they are set up *)
}.

Section Ops.
Context {W : Type}.
Implicit Types a : agent W.

Definition set_myaddr a v : agent W := Agent (confvals a) v (macaddr_ a) (trace_ a) (mac_ a) (ll_ a) (ifq_ a) (node_ a) (LC a) (neigh_tbl a) (proto a) (pkts a) (next_pkt a) (drawn a) (mem_ans a) (asked a).
Definition set_macaddr a v : agent W := Agent (confvals a) (myaddr_ a) v (trace_ a) (mac_ a) (ll_ a) (ifq_ a) (node_ a) (LC a) (neigh_tbl a) (proto a) (pkts a) (next_pkt a) (drawn a) (mem_ans a) (asked a).
Definition set_objs a t m l i n : agent W := Agent (confvals a) (myaddr_ a) (macaddr_ a) t m l i n (LC a) (neigh_tbl a) (proto a) (pkts a) (next_pkt a) (drawn a) (mem_ans a) (asked a).
Definition set_ifq a v : agent W := set_objs a (trace_ a) (mac_ a) (ll_ a) v (node_ a).
Definition set_LC a v : agent W := Agent (confvals a) (myaddr_ a) (macaddr_ a) (trace_ a) (mac_ a) (ll_ a) (ifq_ a) (node_ a) v (neigh_tbl a) (proto a) (pkts a) (next_pkt a) (drawn a) (mem_ans a) (asked a).
Definition set_neigh_tbl a v : agent W := Agent (confvals a) (myaddr_ a) (macaddr_ a) (trace_ a) (mac_ a) (ll_ a) (ifq_ a) (node_ a) (LC a) v (proto a) (pkts a) (next_pkt a) (drawn a) (mem_ans a) (asked a).
Definition set_pkts a v n : agent W := Agent (confvals a) (myaddr_ a) (macaddr_ a) (trace_ a) (mac_ a) (ll_ a) (ifq_ a) (node_ a) (LC a) (neigh_tbl a) (proto a) v n (drawn a) (mem_ans a) (asked a).
Definition set_drawn a v : agent W := Agent (confvals a) (myaddr_ a) (macaddr_ a) (trace_ a) (mac_ a) (ll_ a) (ifq_ a) (node_ a) (LC a) (neigh_tbl a) (proto a) (pkts a) (next_pkt a) v (mem_ans a) (asked a).
Definition set_mem_ans a v : agent W := Agent (confvals a) (myaddr_ a) (macaddr_ a) (trace_ a) (mac_ a) (ll_ a) (ifq_ a) (node_ a) (LC a) (neigh_tbl a) (proto a) (pkts a) (next_pkt a) (drawn a) v (asked a).
Definition ask (e : sim_event) a : agent W := Agent (confvals a) (myaddr_ a) (macaddr_ a) (trace_ a) (mac_ a) (ll_ a) (ifq_ a) (node_ a) (LC a) (neigh_tbl a) (proto a) (pkts a) (next_pkt a) (drawn a) (mem_ans a) (e :: asked a).

(** *** Packets *)

Definition pkt_at a (p : Z) : outcome packet := deref (pkts a !! p).
Definition pkt_put a (p : Z) (pk : packet) : agent W := set_pkts a (<[p := pk]> (pkts a)) (next_pkt a).

(** [Packet::free] and [drop] take a packet that is live. *)
Definition pkt_free (p : Z) a : outcome (agent W) :=
  _ ← pkt_at a p; Ret (ask (Freed p) (set_pkts a (delete p (pkts a)) (next_pkt a))).
Definition drop (p : Z) (r : drop_reason) a : outcome (agent W) :=
  _ ← pkt_at a p; Ret (ask (Dropped p r) (set_pkts a (delete p (pkts a)) (next_pkt a))).

Definition draw a : bool * agent W := let '(ok, m) := kmalloc (mem_ans a) in (ok, set_mem_ans a m).

(** The header [nh.iph] points at. *)
Definition iph_of (d : ns_pkt) a : outcome hdr_ip :=
  match ns_nh_iph d with
  | NsNull => Fault BadAccess
  | NsPacket p => pk ← pkt_at a p; Ret (ip pk)
  | NsData => Ret (ns_ip_data d)
  end.

Definition on_dp (f : dsr_pkt -> dsr_pkt) (d : ns_pkt) : ns_pkt := NsPkt (f (dp d)) (ns_nh_iph d) (ns_ip_data d) (dp_p d).
Definition set_p (d : ns_pkt) (p : option Z) : ns_pkt := NsPkt (dp d) (ns_nh_iph d) (ns_ip_data d) p.

(** *** Configuration values: [static int confvals[]], one for all agents *)

Definition ns_get_confval a (cv : confval) : Z := u32 (default 0 (confvals a !! confval_ix cv)).
Definition ns_set_confval (l : list Z) (cv : confval) (val : Z) : list Z := <[confval_ix cv := s32 val]> l.

End Ops.

(** ** Addresses

    [memcpy] of [ETH_ALEN] bytes between an address and an [int].  [int_room] is
    what the compiler leaves for such a variable on the stack, at least its four
    bytes; [stack] is what stands there. *)

Definition ETH_ALEN : Z := 6.

Section Addresses.
Context (int_room : Z) (stack : Z -> Z).

Definition int_at (x : Z) : bytes := bytes32 x ++ fill (int_room - 4) stack.

Definition ethtoint (eth : bytes) : outcome Z :=
  e ← memread eth 0 ETH_ALEN;
  m ← memwrite (int_at 0) 0 e;
  x ← load32 m 0; Ret (s32 x).
Definition inttoeth (num : Z) : outcome bytes := memread (int_at (u32 num)) 0 ETH_ALEN.
End Addresses.

(** ** Packets of the two kinds *)

Section Agent.
Context {W : Type} `{Sim : Simulator, Prot : !Protocol W} (int_room : Z) (stack : Z -> Z).
Implicit Types a : agent W.

(** *** [dsr_pkt_alloc] and [dsr_opt_remove] of this build *)

Definition asks_ack (prot : Z) a : bool :=
  (DATA_PACKET prot || (prot =? PT_PING)) && negb (ns_get_confval a UseNetworkLayerAck =? 0).

(** The options behind [HDR_DSRUU(p)]: their length and the packet with its copy. *)
Definition ns_take_opts (pk : packet) (d : dsr_pkt) (a : agent W) : outcome (option (Z * dsr_pkt) * agent W) :=
  p_len ← load16 (hdr_dsruu pk) 2;
  let dsr_opts_len := p_len + DSR_OPT_HDR_LEN in
  let '(ok, a) := draw a in
  match dsr_pkt_alloc_opts (if ok then Some stack else None) d dsr_opts_len with
  | (false, _) => (* kfree(dp) *) Ret (None, a)
  | (true, d) =>
      o ← memread (hdr_dsruu pk) 0 dsr_opts_len;
      b ← dh_buf d;
      m ← memwrite (mem b) 0 o;
      '(_, d) ← dsr_opt_parse (set_mem d m);
      nh ← load8 m 0;
      let d := if asks_ack nh a then set_flags d (Z.lor (dp_flags d) PKT_REQUEST_ACK) else d in
      Ret (Some (dsr_opts_len, d), a)
  end.

Definition ns_pkt_alloc (p : option Z) (a : agent W) : outcome (option ns_pkt * agent W) :=
  let '(ok, a) := draw a in
  if negb ok then Ret (None, a)
  else
    match p with
    | None => Ret (Some (NsPkt pkt0 NsNull (HdrIp 0 0 0) None), a)
    | Some id =>
        pk ← pkt_at a id;
        let d := set_addrs pkt0 (u32 (get_nodeaddr (saddr (ip pk)))) (u32 (get_nodeaddr (daddr (ip pk)))) 0 in
        '(r, a) ← (if ptype (cmn pk) =? PT_DSR then ns_take_opts pk d a
                   else Ret (Some (0, if asks_ack (ptype (cmn pk)) a then set_flags d (Z.lor (dp_flags d) PKT_REQUEST_ACK) else d), a));
        match r with
        | None => Ret (None, a)
        | Some (dsr_opts_len, d) =>
            let d := set_payload d None (s32 (csize (cmn pk) - dsr_opts_len - IP_HDR_LEN)) in
            Ret (Some (NsPkt d (NsPacket id) (HdrIp 0 0 0) (Some id)), a)
        end
    end.

(** [src], [dst] and the lengths are not used. *)
Definition ns_build_ip (d : ns_pkt) (protocol ttl : Z) a : outcome (ns_pkt * agent W) :=
  let d := NsPkt (dp d) NsData (HdrIp (s32 (dp_src (dp d))) (s32 (dp_dst (dp d))) ttl) (dp_p d) in
  match dp_p d with
  | Some p => pk ← pkt_at a p; Ret (d, pkt_put a p (set_cmn pk (set_ptype (cmn pk) protocol)))
  | None => Ret (d, a)
  end.

Definition ns_opt_remove (d : ns_pkt) a : outcome (Z * ns_pkt * agent W) :=
  match dh (dp d) with
  | DhNull | DhLost => Ret (-1, d, a)
  | Dh b =>
      prot ← load8 (mem b) 0;
      h ← iph_of d a;
      '(d, a) ← ns_build_ip d prot (ip_hops h) a;
      let '(len, p) := dsr_pkt_free_opts (dp d) in
      Ret (len, on_dp (λ _, p) d, a)
  end.

(** *** Neighbours

    [ta]: the transmitter's address of the 802.11 header. *)
Definition ns_neigh_tbl_add (neigh_addr ta : Z) a : outcome (Z * agent W) :=
  there ← in_tbl (neigh_tbl a) neigh_addr Neigh.crit_addr;
  if negb (there =? 0) then Ret (0, a)
  else
    h ← inttoeth int_room stack ta;
    '(r, t, m) ← Neigh.neigh_tbl_add (neigh_tbl a) (mem_ans a) neigh_addr h;
    Ret (r, set_mem_ans (set_neigh_tbl a t) m).

(** *** Sending *)

Definition arpset (addr mac_addr : Z) a : outcome (agent W) :=
  _ ← deref (mac_ a);
  ll ← deref (ll_ a);
  Ret (ask (ArpReply ll (Arp (s32 addr) mac_addr (s32 (myaddr_ a)) (macaddr_ a))) (set_pkts a (pkts a) (next_pkt a + 1))).

(** The link-layer destination; false when the next hop is no neighbour. *)
Definition ns_address (d : ns_pkt) (p : Z) a : outcome (bool * agent W) :=
  pk ← pkt_at a p;
  if dp_dst (dp d) =? DSR_BROADCAST then
    Ret (true, pkt_put a p (set_cmn pk (set_addr_type (cmn pk) NS_AF_NONE)))
  else
    '(there, info) ← neigh_tbl_query (Some (DsrNode (myaddr_ a) 0 (confvals a))) (neigh_tbl a)
                       (nxt_hop (dp d)) (Some (NeighborInfo [] 0 0 0 (Timeval 0 0)));
    match (if there =? 0 then None else info) with
    | None => (* No next hop MAC address in neigh_tbl *) a ← pkt_free p a; Ret (false, a)
    | Some i =>
        m ← ethtoint int_room stack (i_hw_addr i);
        _ ← deref (mac_ a);
        let a := pkt_put a p (set_mac_dst (set_cmn pk (set_addr_type (cmn pk) NS_AF_INET)) m) in
        a ← arpset (nxt_hop (dp d)) (u32 m) a; Ret (true, a)
    end.

(** The options go into the part of the packet reserved for them. *)
Definition ns_put_opts (d : ns_pkt) (p : Z) a : outcome (agent W) :=
  n ← dsr_pkt_opts_len (dp d);
  if n =? 0 then Ret a
  else
    pk ← pkt_at a p;
    b ← memwrite (hdr_dsruu pk) 0 (repeat 0 (Z.to_nat n));
    raw ← dh_buf (dp d);
    o ← memread (mem raw) 0 n;
    b ← memwrite b 0 o;
    Ret (pkt_put a p (set_dsruu pk b)).

(** The common header. *)
Definition ns_common (c : hdr_cmn) (tot_len me nxt : Z) : hdr_cmn :=
  HdrCmn PT_DSR tot_len DOWN (-2) 0 (s32 me) (s32 nxt) (addr_type c) (xmit_failure_ c).

(** The packet, the one [dp->p] points at afterwards, and the agent. *)
Definition ns_packet_create (d : option ns_pkt) a : outcome (option Z * option ns_pkt * agent W) :=
  match d with
  | None => Ret (None, None, a)
  | Some d =>
      let '(p, a) := match dp_p d with
                     | Some p => (p, a)
                     | None => (next_pkt a, set_pkts a (<[next_pkt a := fresh_packet]> (pkts a)) (next_pkt a + 1))
                     end in
      let d := set_p d (Some p) in
      n ← dsr_pkt_opts_len (dp d);
      let tot_len := s32 (IP_HDR_LEN + n + payload_len (dp d)) in
      r ← ns_address d p a;
      match r with
      | (false, a) => Ret (None, Some d, a)
      | (true, a) =>
          a ← ns_put_opts d p a;
          pk ← pkt_at a p;
          let a := pkt_put a p (set_cmn pk (ns_common (cmn pk) tot_len (myaddr_ a) (nxt_hop (dp d)))) in
          h ← iph_of d a;
          pk ← pkt_at a p;
          Ret (Some p, Some d, pkt_put a p (set_pip pk h))
      end
  end.

(** [0.6], the factor [1000] and the delay of a packet: drawn when it asks for
    one; and a second, when the next number says so. *)
Definition d_0_6 : double := d_div (d_of 6) (d_of 10).
Definition ns_jitter (d : ns_pkt) a : double * agent W :=
  let '(jitter, a) :=
    if negb (Z.land (dp_flags (dp d)) PKT_XMIT_JITTER =? 0) then
      (d_div (d_mul (uniform (drawn a)) (d_of (ns_get_confval a BroadCastJitter))) (d_of 1000), set_drawn a (drawn a + 1))
    else (S754_zero false, a) in
  (if SFltb d_0_6 (uniform (drawn a)) then d_of 1 else jitter, set_drawn a (drawn a + 1)).

Definition ns_xmit (d : ns_pkt) a : outcome (agent W) :=
  '(d, a) ← (if negb (Z.land (dp_flags (dp d)) PKT_REQUEST_ACK =? 0) then p_maint_add d a else Ret (d, a));
  '(p, d', a) ← ns_packet_create (Some d) a;
  let d := default d d' in
  match p with
  | None => (* Could not create packet *)
      match dp_p d with Some q => drop q DROP_RTR_NO_ROUTE a | None => Ret a end
  | Some p =>
      pk ← pkt_at a p;
      if ip_hops (ip pk) =? 0 then (* Dropping packet with TTL = 0 *) drop p DROP_RTR_TTL a
      else
        let use := negb (ns_get_confval a UseNetworkLayerAck =? 0) in
        let '(jitter, a) := ns_jitter d a in
        let pk := if use then pk else set_cmn pk (set_xmit_failure (cmn pk) true) in
        let a := pkt_put a p pk in
        Ret (ask (Scheduled (ll_ a) p pk jitter) a)
  end.

(** *** Receiving

    [len] is not initialised. *)
Definition ns_deliver (target : option Z) (d : ns_pkt) a : outcome (agent W) :=
  p ← deref (dp_p d);
  _ ← pkt_at a p;
  '(len, d, a) ← (match dh (dp d) with
                  | Dh _ => ns_opt_remove d a
                  | DhNull | DhLost => Ret (s32 (stack 0), d, a)
                  end);
  let dsr_len := if len =? 0 then 0 else len in
  pk ← pkt_at a p;
  let pk := set_cmn pk (set_csize (cmn pk) (s32 (csize (cmn pk) - (IP_HDR_LEN - dsr_len)))) in
  _ ← deref target;
  Ret (ask (TargetRecv p pk) (pkt_put a p pk)).

Definition recv (p : Z) a : outcome (agent W) :=
  '(d, a) ← ns_pkt_alloc (Some p) a;
  pk ← pkt_at a p;
  d ← deref d;
  if ptype (cmn pk) =? PT_DSR then
    if negb (dp_src (dp d) =? myaddr_ a) then p_recv d a else (* Locally generated *) Ret a
  else if dp_src (dp d) =? myaddr_ a then
    p_start_xmit (on_dp (λ q, set_payload q (payload q) (s32 (payload_len q + IP_HDR_LEN))) d) a
  else (* shouldn't really happen *) Ret a.

Definition tap (p : Z) a : outcome (agent W) :=
  pk ← pkt_at a p;
  if u32 (saddr (ip pk)) =? myaddr_ a then Ret a
  else if u32 (next_hop_ (cmn pk)) =? myaddr_ a then Ret a
  else
    '(d, a) ← ns_pkt_alloc (Some p) a;
    d ← deref d;
    let d := on_dp (λ q, set_flags q (Z.lor (dp_flags q) PKT_PROMISC_RECV)) d in
    if (ptype (cmn pk) =? PT_DSR) && negb (dp_src (dp d) =? myaddr_ a) then p_recv d a else Ret a.

(** *** A transmission that failed *)

(** [while ((qp = ifq_->prq_get_nexthop(cmh->next_hop())))]: [cmh] is the header
    of the packet that failed. *)
Fixpoint salvage_queue (fuel : nat) (p nxt_hop : Z) a : outcome (agent W) :=
  match fuel with
  | O => Fault OutOfFuel
  | S fuel =>
      pk ← pkt_at a p;
      q ← deref (ifq_ a);
      let '(qp, q) := prq_get_nexthop (λ x, pkts a !! x) (next_hop_ (cmn pk)) q in
      let a := set_ifq a (Some q) in
      match qp with
      | None => Ret a
      | Some qp =>
          '(d, a) ← ns_pkt_alloc (Some qp) a;
          a ← (match d with
               | None => drop qp DROP_RTR_NO_ROUTE a
               | Some d => '(_, a) ← p_maint_salvage (on_dp (λ x, set_nxt_hop x nxt_hop) d) a; Ret a
               end);
          salvage_queue fuel p nxt_hop a
      end
  end.

Definition xmit_failed (p : Z) a : outcome (agent W) :=
  pk ← pkt_at a p;
  let nxt_hop := u32 (next_hop_ (cmn pk)) in
  '(_, g) ← lc_link_del (LC a) (myaddr_ a) nxt_hop;
  '(d, a) ← ns_pkt_alloc (Some p) (set_LC a g);
  a ← (match d with
       | None => (* Could not allocate DSR packet *) drop p DROP_RTR_NO_ROUTE a
       | Some d =>
           a ← p_rerr d nxt_hop a;
           '(_, a) ← p_maint_salvage (on_dp (λ x, set_nxt_hop x nxt_hop) d) a; Ret a
       end);
  salvage_queue (S (length (default [] (ifq_ a)))) p nxt_hop a.

(** The function the link layer is given with the agent. *)
Definition xmit_failure (p : Z) (data : agent W) : outcome (agent W) := xmit_failed p data.

(** *** Setting up *)

(** [bind]: a Tcl variable of that name gives the value. *)
Definition ns_bind (cv : confval) : Z := default (confval_val cv) (tcl_bound (confval_name cv ++ "_")%string).

(** The constructor; [macaddr_] keeps what the memory held. *)
Definition DSRUU : agent W :=
  let l := map ns_bind all_confvals in
  let l := ns_set_confval l UseNetworkLayerAck 0 in
  let l := ns_set_confval l PrintDebug 1 in
  Agent l 0 (u64 (stack 0)) None None None None None lc_init neigh_tbl_init p_tables ∅ 0 0 [] [].

(** The destructor: the tables are emptied, and then the whole simulator ends
    with [exit(-1)]; that is its result. *)
Definition DSRUU_delete a : outcome (Z * agent W) :=
  g ← lc_flush (LC a);
  t ← neigh_tbl_cleanup (neigh_tbl a);
  a ← p_cleanup (set_neigh_tbl (set_LC a g) t);
  Ret (-1, a).

(** [strcasecmp] finds no difference. *)
Definition lower (c : Ascii.ascii) : Ascii.ascii :=
  let n := Ascii.nat_of_ascii c in
  if (65 <=? Z.of_nat n) && (Z.of_nat n <=? 90) then Ascii.ascii_of_nat (n + 32) else c.
Definition same_nocase (s t : string) : bool :=
  bool_decide (map lower (list_ascii_of_string s) = map lower (list_ascii_of_string t)).

Inductive ns_cmd := SET_ADDR | SET_MAC_ADDR | SET_NODE | SET_LL | SET_TAP | SET_DMUX | SET_TRACE_TARGET | START_DSR.
Definition cmd : list (string * ns_cmd) :=
  [("addr"%string, SET_ADDR); ("mac-addr"%string, SET_MAC_ADDR); ("node"%string, SET_NODE); ("add-ll"%string, SET_LL);
   ("install-tap"%string, SET_TAP); ("port-dmux"%string, SET_DMUX); ("tracetarget"%string, SET_TRACE_TARGET); ("startdsr"%string, START_DSR)].

(** The first name that fits; [None] is -1. *)
Definition name2cmd (name : string) : option ns_cmd := snd <$> List.find (λ c, same_nocase c.1 name) cmd.

(** An argument behind the last one is a null pointer. *)
Definition command (argv : list string) a : outcome (Z * agent W) :=
  let arg i := deref (argv !! i) in
  name ← arg 1%nat;
  match name2cmd name with
  | Some SET_ADDR => s ← arg 2%nat; Ret (0, set_myaddr a (u32 (str2addr s)))
  | Some SET_MAC_ADDR => s ← arg 2%nat; Ret (0, set_macaddr a (u64 (str2addr s)))
  | Some SET_NODE => s ← arg 2%nat; Ret (0, set_objs a (trace_ a) (mac_ a) (ll_ a) (ifq_ a) (tcl_lookup s))
  | Some SET_LL =>
      s ← arg 2%nat;
      t ← arg 3%nat;
      Ret (0, set_objs a (trace_ a) (mac_ a) (tcl_lookup s) (queue_of <$> tcl_lookup t) (node_ a))
  | Some SET_TAP =>
      s ← arg 2%nat;
      let a := set_objs a (trace_ a) (tcl_lookup s) (ll_ a) (ifq_ a) (node_ a) in
      m ← deref (mac_ a);
      Ret (0, ask (TapInstalled m) (set_macaddr a (u64 (mac_addr m))))
  | Some SET_TRACE_TARGET => s ← arg 2%nat; Ret (0, set_objs a (tcl_lookup s) (mac_ a) (ll_ a) (ifq_ a) (node_ a))
  | Some (SET_DMUX | START_DSR) => Ret (0, a)
  | None => Ret (Agent_command argv, a)
  end.

(** *** Debug output

    [prefix] is the text of the first [sprintf], [text] the one of the message;
    the result is [len] and the buffer. *)
Definition BUF_LEN : Z := 1024.
Definition trace (prefix text buf : bytes) a : outcome (Z * bytes) :=
  match trace_ a with
  | None => Ret (0, buf)
  | Some _ =>
      buf ← memwrite buf 0 (prefix ++ [0]);
      let len := zlen prefix in
      let size := u64 (BUF_LEN - len) in
      buf ← (if size =? 0 then Ret buf else memwrite buf len (take (Z.to_nat (size - 1)) text ++ [0]));
      let len := len + zlen text in
      buf ← store8 buf (len - 1) 0;
      Ret (len, buf)
  end.

End Agent.

(** ** Timers

    The expiry the agent notes and the time the scheduler will call, when it
    will; [clock] is the scheduler's. *)

Record ns_timer := NsTimer { ns_expires : double; due : option double }.

Definition ns_gettime (clock : double) : timeval :=
  let sec := d_long clock in
  let usecs := d_mul (d_sub clock (d_of sec)) (d_of 1000000) in
  Timeval sec (d_long usecs).

(** [resched(delay)]: due after [delay] *)
Definition ns_add_timer (clock : double) (t : ns_timer) : ns_timer :=
  let left := d_sub (ns_expires t) clock in
  NsTimer (ns_expires t) (Some (d_add clock (if SFltb left (d_of 0) then d_of 0 else left))).
Definition ns_del_timer (t : ns_timer) : ns_timer := NsTimer (ns_expires t) None.
Definition ns_set_timer (clock : double) (t : ns_timer) (expires : timeval) : ns_timer :=
  ns_add_timer clock (NsTimer (d_add (d_div (d_of (tv_usec expires)) (d_of 1000000)) (d_of (tv_sec expires))) (due t)).

(** [DSRUUTimer::expire], for a timer of the agent [a_]. *)
Definition timer_expire {A : Type} (function : Z -> A -> outcome A) (data : Z) (a_ : option A) : outcome (option A) :=
  match a_ with Some a => a ← function data a; Ret (Some a) | None => Ret None end.
