(* ===== verification/AgentSpec.v ===== *)
(** * The simulator's agent: its properties

    What becomes of a packet the agent sends, that the agent at the next hop reads
    it back, and what goes wrong: conversions past a variable, a loop that asks a
    header that was changed, sizes that grow, a message longer than its buffer. *)

From Stdlib Require Import String SpecFloat.
From stdpp Require Import gmap strings.
From S2P Require Import Prelude Mem Config Timer Tbl Srt LinkCache Neigh Pkt Agent.

(** ** The link-layer address *)

Section Addresses.
Context (int_room : Z) (stack : Z -> Z).

(** The number in the first four bytes. *)
Definition hw_int (eth : bytes) : Z := match load32 eth 0 with Ret x => s32 x | Fault _ => 0 end.

Lemma int_at_len x : 4 <= int_room -> zlen (int_at int_room stack x) = int_room.
Proof. intros H. unfold int_at. autorewrite with dsr_rw. rewrite fill_len by lia. change (zlen (bytes32 x)) with 4. lia. Qed.

Lemma load32_front b r : 4 <= zlen b -> load32 (b ++ r) 0 = load32 b 0.
Proof.
  intros H. unfold load32. destruct (memread_total b 0 4) as [l Hl]; [lia|lia|lia|]. rewrite Hl.
  apply memread_Ret in Hl as (_ & _ & _ & ->). assert (memread (b ++ r) 0 4 = Ret (take (Z.to_nat 4) b)) as ->; [|done].
  apply memread_Ret. pose proof (zlen_nonneg r). autorewrite with dsr_rw. split_and!; [lia..|].
  rewrite !drop_0, take_app_le; [done|]. unfold zlen in H. lia.
Qed.

Lemma load32_some b : 4 <= zlen b -> exists x, load32 b 0 = Ret x.
Proof.
  intros H. destruct b as [|x [|y [|z [|w b]]]]; try (by cbv in H). destruct (memread_total (x :: y :: z :: w :: b) 0 4) as [l E]; [lia..|].
  unfold load32. rewrite E. apply memread_Ret in E as (_ & _ & _ & ->). by eexists.
Qed.

(** With room behind the variable the copy is the number in the first bytes; with
    none it writes into what is next to the variable. *)
Lemma ethtoint_eq eth :
  4 <= int_room -> zlen eth = ETH_ALEN ->
  ethtoint int_room stack eth = if int_room <? ETH_ALEN then Fault BadAccess else Ret (hw_int eth).
Proof.
  intros Hr He. unfold ethtoint. assert (memread eth 0 ETH_ALEN = Ret eth) as ->.
  { apply memread_Ret. unfold ETH_ALEN in *. split_and!; [lia..|]. by rewrite drop_0, take_ge by (unfold zlen in He; lia). }
  cbn [mbind outcome_bind]. unfold memwrite. rewrite int_at_len, He by done. unfold ETH_ALEN in *. change (0 <=? 0) with true. cbn [andb]. destruct (Z.ltb_spec int_room 6).
  - by rewrite (proj2 (Z.leb_gt _ _)) by lia.
  - rewrite (proj2 (Z.leb_le _ _)) by lia. cbn [mbind outcome_bind].
 change (Z.to_nat 0) with 0%nat. rewrite take_0, app_nil_l, load32_front by lia. unfold hw_int.
    destruct (load32_some eth) as [x ->]; [lia|done].
Qed.

(** A hardware address the agent keeps is the number it came from. *)
Lemma inttoeth_back x :
  ETH_ALEN <= int_room -> - 2 ^ 31 <= x < 2 ^ 31 ->
  exists eth, inttoeth int_room stack x = Ret eth /\ zlen eth = ETH_ALEN /\ hw_int eth = x.
Proof.
  intros Hr Hx. unfold inttoeth, ETH_ALEN in *.
  destruct (memread_total (int_at int_room stack (u32 x)) 0 6) as [eth He]; [lia|lia|rewrite int_at_len by lia; lia|].
  exists eth. split; [done|]. split; [exact (memread_len _ _ _ _ He)|]. unfold hw_int.
  assert (load32 eth 0 = Ret (u32 x)) as ->; [|unfold u32, s32; rewrite Zplus_mod_idemp_l; by apply s32_small].
  pose proof (u32_range x) as Hu. unfold int_at in He.
  apply memread_Ret in He as (_ & _ & _ & ->). rewrite drop_0, take_app_ge by (simpl length; cbn; lia).
  rewrite load32_front by (cbv; done). unfold load32. change (memread (bytes32 (u32 x)) 0 4) with (Ret (bytes32 (u32 x))). unfold bytes32. cbn [mbind outcome_bind]. f_equal. apply le32_bytes32. exact Hu.
Qed.
End Addresses.

(** ** A packet leaves

    What [ns_xmit] makes of a packet, on each of its ways. *)

Section Sent.
Context {W : Type} `{Sim : Simulator, Prot : !Protocol W} (int_room : Z) (stack : Z -> Z).
Implicit Types a : agent W.

(** The agent with other live packets and the next name, after some requests. *)
Definition after a (pm : gmap Z packet) (n : Z) (es : list sim_event) : agent W :=
  Agent (confvals a) (myaddr_ a) (macaddr_ a) (trace_ a) (mac_ a) (ll_ a) (ifq_ a) (node_ a) (LC a) (neigh_tbl a)
        (proto a) pm n (drawn a) (mem_ans a) (es ++ asked a).

(** The kind of address, the link-layer destination and the ARP reply that is
    faked; [None] when the next hop is no neighbour. *)
Definition way (d : dsr_pkt) (pk : packet) (ll : Z) a : option (Z * Z * list sim_event) :=
  if dp_dst d =? DSR_BROADCAST then Some (NS_AF_NONE, mac_dst pk, [])
  else match nview (neigh_tbl a) !! nxt_hop d with
       | None => None
       | Some nb => let m := hw_int (n_hw_addr nb) in
                    Some (NS_AF_INET, m, [ArpReply ll (Arp (s32 (nxt_hop d)) (u32 m) (s32 (myaddr_ a)) (macaddr_ a))])
       end.

(** The packet of the simulator with the options [o] and the IP header [h]. *)
Definition framed (d : dsr_pkt) (h : hdr_ip) (o : bytes) (kind mac : Z) (pk : packet) a : packet :=
  Packet (HdrCmn PT_DSR (s32 (IP_HDR_LEN + zlen o + payload_len d)) DOWN (-2) 0 (s32 (myaddr_ a)) (s32 (nxt_hop d)) kind
            (xmit_failure_ (cmn pk)))
         h mac (o ++ list.drop (length o) (hdr_dsruu pk)).

(** A packet with options that does not ask for an acknowledgement, with its
    packet of the simulator, at an agent that is set up. *)
Record sendable (d : ns_pkt) (p : Z) (pk : packet) (h : hdr_ip) (o : bytes) (ll : Z) a : Prop := {
  sn_quiet : Z.land (dp_flags (dp d)) PKT_REQUEST_ACK = 0;
  sn_p : dp_p d = Some p;
  sn_pk : pkts a !! p = Some pk;
  sn_iph : iph_of d a = Ret h;
  sn_opts : exists b room, dh (dp d) = Dh b /\ mem b = o ++ room /\ tail b = zlen o;
  sn_some : o <> [];
  sn_mac : is_Some (mac_ a);
  sn_ll : ll_ a = Some ll;
  sn_neigh : neigh_ok (neigh_tbl a);
  sn_hw : forall nb, nview (neigh_tbl a) !! nxt_hop (dp d) = Some nb -> zlen (n_hw_addr nb) = ETH_ALEN
}.

Lemma pkt_at_put a p pk : pkt_at (pkt_put a p pk) p = Ret pk.
Proof. unfold pkt_at, pkt_put. cbn. by rewrite lookup_insert_eq. Qed.

(** Changing another part of a packet leaves the IP header a packet points at. *)
Lemma iph_of_ip d a pm n es :
  (forall q pk, pkts a !! q = Some pk -> exists pk', pm !! q = Some pk' /\ ip pk' = ip pk) ->
  forall h, iph_of d a = Ret h -> iph_of d (after a pm n es) = Ret h.
Proof.
  intros Hip h. unfold iph_of, pkt_at. destruct (ns_nh_iph d) as [|q|]; [done| |done]. cbn [pkts after].
  destruct (pkts a !! q) as [pk|] eqn:E; [|done]. destruct (Hip q pk E) as (pk' & -> & Hq). cbn. by rewrite Hq.
Qed.

Lemma insert_ip a p pk pk' q x :
  pkts a !! p = Some pk -> ip pk' = ip pk -> pkts a !! q = Some x ->
  exists y, <[p := pk']> (pkts a) !! q = Some y /\ ip y = ip x.
Proof.
  intros Hp Hi Hq. destruct (decide (q = p)) as [-> |Hne]; [|rewrite lookup_insert_ne by done; by exists x].
  rewrite lookup_insert_eq. rewrite Hp in Hq. injection Hq as <-. by exists pk'.
Qed.

Lemma ns_address_eq d p pk h o ll a :
  sendable d p pk h o ll a -> ETH_ALEN <= int_room ->
  match way (dp d) pk ll a with
  | None => exists a', ns_address int_room stack d p a = Ret (false, a') /\ pkts a' !! p = None
  | Some (kind, m, es) =>
      exists n, ns_address int_room stack d p a
        = Ret (true, after a (<[p := set_mac_dst (set_cmn pk (set_addr_type (cmn pk) kind)) m]> (pkts a)) n es)
  end.
Proof.
  intros [] Hr. unfold way, ns_address, pkt_at. rewrite sn_pk0. cbn [of_option mbind outcome_bind].
  destruct (dp_dst (dp d) =? DSR_BROADCAST).
  - exists (next_pkt a). by destruct pk.
  - rewrite neigh_query_spec by done. destruct (nview (neigh_tbl a) !! nxt_hop (dp d)) as [nb|] eqn:En.
    + cbn [mbind outcome_bind Z.eqb i_hw_addr fill_info]. rewrite ethtoint_eq by (unfold ETH_ALEN in *; try lia; by apply sn_hw0).
      rewrite (proj2 (Z.ltb_ge _ _)) by done. destruct sn_mac0 as [mac Hmac]. rewrite Hmac. cbn [of_option mbind outcome_bind].
      unfold arpset. cbn [mac_ ll_ pkt_put set_pkts]. rewrite Hmac, sn_ll0. cbn [of_option mbind outcome_bind]. by exists (next_pkt a + 1).
    + cbn [mbind outcome_bind Z.eqb]. unfold pkt_free, pkt_at. rewrite sn_pk0. cbn [of_option mbind outcome_bind].
      eexists. split; [done|]. cbn. apply lookup_delete_eq.
Qed.

Lemma memwrite_at_start b s : memwrite b 0 s = if zlen b <? zlen s then Fault BadAccess else Ret (s ++ list.drop (length s) b).
Proof.
  unfold memwrite. change (0 <=? 0) with true. cbn [andb]. change (0 + zlen s) with (zlen s). rewrite Z.ltb_antisym.
  by destruct (zlen s <=? zlen b).
Qed.

Lemma ns_put_opts_eq d p pk o a b room :
  pkts a !! p = Some pk -> dh (dp d) = Dh b -> mem b = o ++ room -> tail b = zlen o -> o <> [] ->
  ns_put_opts d p a = if zlen (hdr_dsruu pk) <? zlen o then Fault BadAccess
                      else Ret (pkt_put a p (set_dsruu pk (o ++ list.drop (length o) (hdr_dsruu pk)))).
Proof.
  intros Hp Hd Hm Ht Ho. unfold ns_put_opts, dsr_pkt_opts_len, dh_buf. rewrite Hd, Ht. cbn [mbind outcome_bind].
  assert (0 < zlen o) as Hl by (destruct o; [done|]; unfold zlen; cbn; lia).
  rewrite (proj2 (Z.eqb_neq _ _)) by lia. unfold pkt_at. rewrite Hp. cbn [of_option mbind outcome_bind].
  assert (Hz : zlen (repeat 0 (Z.to_nat (zlen o))) = zlen o) by (unfold zlen; rewrite repeat_length; lia).
  assert (memread (mem b) 0 (zlen o) = Ret o) as ->.
  { apply memread_Ret. rewrite Hm. pose proof (zlen_nonneg room). autorewrite with dsr_rw. split_and!; [lia..|].
    unfold zlen. by rewrite Nat2Z.id, drop_0, take_app_length. }
  rewrite memwrite_at_start, Hz. case_if; [done|]. cbn [mbind outcome_bind]. rewrite memwrite_at_start.
  rewrite (proj2 (Z.ltb_ge _ _)) by (unfold zlen in *; rewrite length_app, repeat_length, length_drop; lia).
  assert (Hn : length (repeat 0 (Z.to_nat (zlen o))) = length o) by (rewrite repeat_length; unfold zlen; by rewrite Nat2Z.id).
  cbn [mbind outcome_bind]. by rewrite drop_app_length', Hn.
Qed.

(** The packet in the agent's hands when it is scheduled. *)
Definition scheduled (d : dsr_pkt) (h : hdr_ip) (o : bytes) (kind mac : Z) (pk : packet) a : packet :=
  let f := framed d h o kind mac pk a in
  if negb (ns_get_confval a UseNetworkLayerAck =? 0) then f else set_cmn f (set_xmit_failure (cmn f) true).

Lemma ns_packet_create_eq d p pk h o ll a kind m es :
  sendable d p pk h o ll a -> ETH_ALEN <= int_room -> way (dp d) pk ll a = Some (kind, m, es) ->
  zlen o <= zlen (hdr_dsruu pk) ->
  exists n, ns_packet_create int_room stack (Some d) a
    = Ret (Some p, Some (set_p d (Some p)), after a (<[p := framed (dp d) h o kind m pk a]> (pkts a)) n es).
Proof.
  intros Hs Hr Hw Hfit. pose proof (ns_address_eq d p pk h o ll a Hs Hr) as Ha. rewrite Hw in Ha. destruct Ha as [n Ha].
  destruct Hs as [Hq Hp Hpk Hh (b & room & Hd & Hm & Ht) Ho _ _ _ _].
  unfold ns_packet_create. rewrite Hp. unfold dsr_pkt_opts_len. cbn [dp set_p]. rewrite Hd, Ht. cbn [mbind outcome_bind].
  change (ns_address int_room stack (set_p d (Some p)) p a) with (ns_address int_room stack d p a). rewrite Ha. cbn [mbind outcome_bind].
  set (a1 := after a _ n es). set (pk1 := set_mac_dst _ _) in *.
  assert (Hp1 : pkts a1 !! p = Some pk1) by (unfold a1; cbn; apply lookup_insert_eq).
  change (ns_put_opts (set_p d (Some p)) p a1) with (ns_put_opts d p a1).
  rewrite (ns_put_opts_eq d p pk1 o a1 b room Hp1 Hd Hm Ht Ho). change (hdr_dsruu pk1) with (hdr_dsruu pk).
  rewrite (proj2 (Z.ltb_ge _ _)) by done. cbn [mbind outcome_bind]. rewrite pkt_at_put. cbn [mbind outcome_bind].
  set (pk2 := set_dsruu pk1 _). set (pk3 := set_cmn pk2 _).
  assert (E : pkt_put (pkt_put a1 p pk2) p pk3 = after a (<[p := pk3]> (pkts a)) n es).
  { unfold pkt_put, set_pkts, a1, after. cbn. by rewrite !insert_insert_eq. }
  change (myaddr_ (pkt_put a1 p pk2)) with (myaddr_ a) in pk3. rewrite E.
  assert (iph_of (set_p d (Some p)) (after a (<[p := pk3]> (pkts a)) n es) = Ret h) as ->.
  { apply (iph_of_ip d a (<[p := pk3]> (pkts a)) n es); [|done]. intros q x. by apply (insert_ip a p pk). }
  cbn [mbind outcome_bind]. unfold pkt_at. cbn [pkts after]. rewrite lookup_insert_eq. cbn [of_option mbind outcome_bind].
  exists n. unfold pkt_put, set_pkts, after. cbn. rewrite insert_insert_eq. by rewrite <- Hp.
Qed.

Lemma ns_xmit_created d p pk h o ll a kind m es :
  sendable d p pk h o ll a -> ETH_ALEN <= int_room -> way (dp d) pk ll a = Some (kind, m, es) ->
  zlen o <= zlen (hdr_dsruu pk) ->
  exists a', ns_xmit int_room stack d a = Ret a'
    /\ if ip_hops h =? 0 then asked a' = Dropped p DROP_RTR_TTL :: es ++ asked a /\ pkts a' = delete p (pkts a)
       else let pk' := scheduled (dp d) h o kind m pk a in
            asked a' = Scheduled (Some ll) p pk' (ns_jitter d a).1 :: es ++ asked a /\ pkts a' = <[p := pk']> (pkts a).
Proof.
  intros Hs Hr Hw Hif.
  destruct (ns_packet_create_eq d p pk h o ll a kind m es Hs Hr Hw Hif) as [n E].
  destruct Hs as [Hq Hp Hpk Hh _ _ _ Hll _ _].
  unfold ns_xmit. rewrite Hq. cbn [Z.eqb negb mbind outcome_bind]. rewrite E. cbn [mbind outcome_bind from_option]. change (id (set_p d (Some p))) with (set_p d (Some p)) in *.
  unfold pkt_at. cbn [pkts after]. rewrite lookup_insert_eq. cbn [of_option mbind outcome_bind ip framed].
  destruct (ip_hops h =? 0).
  - unfold drop, pkt_at. cbn [pkts after]. rewrite lookup_insert_eq. cbn [of_option mbind outcome_bind].
    eexists. split; [reflexivity|]. split; [done|]. cbn. apply delete_insert_eq.
  - set (a2 := after a _ n es). change (ns_get_confval a2) with (ns_get_confval a).
    assert (E2 : forall x, exists a3, ns_jitter x a2 = ((ns_jitter x a).1, a3) /\ pkts a3 = pkts a2 /\ asked a3 = asked a2
                    /\ next_pkt a3 = next_pkt a2 /\ ll_ a3 = ll_ a).
    { intros x. unfold ns_jitter. destruct (negb _); eexists; (split; [reflexivity|done]). }
    destruct (E2 (set_p d (Some p))) as (a3 & -> & P3 & A3 & _ & L3).
    change (if negb _ then framed (dp d) h o kind m pk a else _) with (scheduled (dp d) h o kind m pk a).
    eexists. split; [reflexivity|]. change (ll_ (pkt_put a3 p _)) with (ll_ a3). rewrite L3, Hll. split.
    + cbn [asked ask]. change (asked (pkt_put a3 p _)) with (asked a3). by rewrite A3.
    + cbn [pkts ask pkt_put set_pkts]. rewrite P3. unfold a2. cbn [pkts after]. by rewrite insert_insert_eq.
Qed.


(** ** A packet arrives *)

(** A DSR header with the options [os]. *)
Definition opts_block (nh res : Z) (os : list (Z * bytes)) : bytes :=
  nh :: res :: bytes16 (zlen (concat (opt_enc <$> os))) ++ concat (opt_enc <$> os).

Lemma opts_block_len nh res os : zlen (opts_block nh res os) = 4 + zlen (concat (opt_enc <$> os)).
Proof. unfold opts_block, zlen. cbn [length]. rewrite length_app. change (length (bytes16 _)) with 2%nat. lia. Qed.

Lemma ns_take_opts_eq pk d nh res os rest a :
  hdr_dsruu pk = opts_block nh res os ++ rest -> zlen (concat (opt_enc <$> os)) < 65536 ->
  Forall opt_wf os -> tail_ok os -> slots_sized (slots d) -> false ∉ mem_ans a ->
  exists d' a' room, ns_take_opts stack pk d a = Ret (Some (zlen (opts_block nh res os), d'), a')
    /\ dp_src d' = dp_src d /\ dp_dst d' = dp_dst d /\ dh d' = Dh (Dhbuf (nblk d) (opts_block nh res os ++ room) (zlen (opts_block nh res os)))
    /\ parsed (nblk d) (place DSR_OPT_HDR_LEN os) (rreq_opt (slots d)) (slots d').
Proof.
  intros Hb Hl Hw Ht Hs Hm. set (c := concat (opt_enc <$> os)) in *. set (bl := opts_block nh res os) in *.
  pose proof (opts_block_len nh res os) as Hn. fold bl c in Hn. pose proof (zlen_nonneg c).
  assert (H16 : memread (bl ++ rest) 2 2 = Ret (bytes16 (zlen c))).
  { apply memread_Ret. pose proof (zlen_nonneg rest). autorewrite with dsr_rw. split_and!; [lia..|done]. }
  assert (Hr : forall r, memread (bl ++ r) 0 (zlen bl) = Ret bl).
  { intros r. apply memread_Ret. pose proof (zlen_nonneg r). autorewrite with dsr_rw. split_and!; [lia..|].
    unfold zlen. by rewrite Nat2Z.id, drop_0, take_app_length. }
  unfold ns_take_opts, load16. rewrite Hb, H16. unfold bytes16. cbn [mbind outcome_bind].
  rewrite le16_bytes16 by lia. assert (zlen c + DSR_OPT_HDR_LEN = zlen bl) as -> by (unfold DSR_OPT_HDR_LEN; lia).
  unfold draw. destruct (kmalloc_free (mem_ans a) Hm) as (mem' & -> & _). unfold dsr_pkt_alloc_opts.
  rewrite (proj2 (Z.ltb_ge _ _)) by (unfold DEFAULT_TAILROOM; lia). rewrite Hr. cbn [mbind outcome_bind dh_buf dh set_dh].
  cbn [mem]. rewrite memwrite_at_start, fill_len by (unfold DEFAULT_TAILROOM; lia).
  rewrite (proj2 (Z.ltb_ge _ _)) by (unfold DEFAULT_TAILROOM; lia). cbn [mbind outcome_bind].
  set (room := list.drop (length bl) _). unfold set_mem. cbn [dh set_dh blk tail nblk].
  set (d1 := set_dh _ _ _).
  destruct (opt_parse_places d1 (Dhbuf (nblk d) (bl ++ room) (zlen bl)) (take 4 bl) os room) as (s' & E & Hp);
    [done| |done|by rewrite Hn|done|done|done|].
  { cbn [mem]. by rewrite app_assoc. }
  rewrite E. cbn [mbind outcome_bind]. assert (load8 (bl ++ room) 0 = Ret nh) as ->.
  { unfold load8. assert (memread (bl ++ room) 0 1 = Ret [nh]) as ->; [|done]. apply memread_Ret. pose proof (zlen_nonneg room).
    autorewrite with dsr_rw. split_and!; [lia..|done]. }
  cbn [mbind outcome_bind]. eexists _, _, room. split; [reflexivity|]. by destruct (asks_ack nh _).
Qed.

Lemma ns_pkt_alloc_eq pk nh res os rest p a :
  pkts a !! p = Some pk -> ptype (cmn pk) = PT_DSR ->
  hdr_dsruu pk = opts_block nh res os ++ rest -> zlen (concat (opt_enc <$> os)) < 65536 ->
  Forall opt_wf os -> tail_ok os -> false ∉ mem_ans a ->
  exists d' a' room, ns_pkt_alloc stack (Some p) a = Ret (Some (NsPkt d' (NsPacket p) (HdrIp 0 0 0) (Some p)), a')
    /\ dp_src d' = u32 (get_nodeaddr (saddr (ip pk))) /\ dp_dst d' = u32 (get_nodeaddr (daddr (ip pk)))
    /\ payload_len d' = s32 (csize (cmn pk) - zlen (opts_block nh res os) - IP_HDR_LEN)
    /\ dh d' = Dh (Dhbuf 0 (opts_block nh res os ++ room) (zlen (opts_block nh res os)))
    /\ parsed 0 (place DSR_OPT_HDR_LEN os) None (slots d').
Proof.
  intros Hp Ht Hb Hl Hw Hto Hm. unfold ns_pkt_alloc, draw. destruct (kmalloc_free (mem_ans a) Hm) as (mem' & -> & Hm').
  cbn [negb]. unfold pkt_at. cbn [pkts set_mem_ans]. rewrite Hp. cbn [of_option mbind outcome_bind]. rewrite Ht, Z.eqb_refl.
  set (d := set_addrs pkt0 _ _ 0).
  destruct (ns_take_opts_eq pk d nh res os rest (set_mem_ans a mem') Hb Hl Hw Hto) as (d' & a' & room & E & Hs & Hd & Hh & Hpa);
    [done|exact Hm'|].
  rewrite E. cbn [mbind outcome_bind]. eexists _, a', room. split; [reflexivity|]. by split_and!.
Qed.

End Sent.

(** ** Delivery and failed transmissions *)

Section Failed.
Context {W : Type} `{Sim : Simulator, Prot : !Protocol W} (int_room : Z) (stack : Z -> Z).
Implicit Types a : agent W.

(** The size that the host's packet is given: the options are not taken off
    but counted twice. *)
Lemma ns_deliver_size d p pk b h tg prot a :
  dp_p d = Some p -> pkts a !! p = Some pk -> dh (dp d) = Dh b -> tail b <> 0 -> load8 (mem b) 0 = Ret prot -> iph_of d a = Ret h ->
  exists a' pk', ns_deliver stack (Some tg) d a = Ret a' /\ asked a' = TargetRecv p pk' :: asked a
    /\ csize (cmn pk') = s32 (csize (cmn pk) - IP_HDR_LEN + tail b).
Proof.
  intros Hp Hpk Hd Ht H8 Hh. unfold ns_deliver. rewrite Hp. assert (pkt_at a p = Ret pk) as Hat by (unfold pkt_at; by rewrite Hpk).
  cbn [of_option mbind outcome_bind]. rewrite Hat. cbn [of_option mbind outcome_bind]. unfold ns_opt_remove. rewrite Hd, H8, Hh. cbn [mbind outcome_bind]. unfold ns_build_ip. cbn [dp_p].
  rewrite Hp, Hat. cbn [of_option mbind outcome_bind dp]. unfold dsr_pkt_free_opts. rewrite Hd.
  cbn [mbind outcome_bind]. rewrite (proj2 (Z.eqb_neq _ _) Ht), pkt_at_put. cbn [of_option mbind outcome_bind].
  eexists _, _. split; [reflexivity|]. split; [done|]. cbn. f_equal. lia.
Qed.

(** What the simulator's queue promises: the packet it gives out has left it. *)
Class QueueOk : Prop := {
  queue_shrinks pm hop q p q' : prq_get_nexthop pm hop q = (Some p, q') -> (length q' < length q)%nat
}.
(** Neither salvaging nor building a packet puts one in the interface queue. *)
Class SalvageOk : Prop := {
  salvage_queue_kept d a r a' : p_maint_salvage d a = Ret (r, a') -> ifq_ a' = ifq_ a
}.

Lemma ns_take_opts_ifq pk d a r a' : ns_take_opts stack pk d a = Ret (r, a') -> ifq_ a' = ifq_ a.
Proof.
  unfold ns_take_opts, draw. intros H. obind H as n Hn. destruct (kmalloc (mem_ans a)) as [ok m]. cbn in H.
  destruct (dsr_pkt_alloc_opts _ d _) as [[|] d1]; [|by injection H as _ <-].
  obind H as o Ho. obind H as b Hb. obind H as w Hw. obind H as [x d2] Hx. obind H as y Hy. by injection H as _ <-.
Qed.

Lemma ns_pkt_alloc_ifq p a r a' : ns_pkt_alloc stack p a = Ret (r, a') -> ifq_ a' = ifq_ a.
Proof.
  unfold ns_pkt_alloc, draw. intros H. destruct (kmalloc (mem_ans a)) as [[|] m]; cbn in H; [|by injection H as _ <-].
  destruct p as [id|]; [|by injection H as _ <-]. obind H as pk Hpk. obind H as [x a1] Hx.
  assert (ifq_ a1 = ifq_ a) as Hq.
  { revert Hx. case_if; [|by intros [= _ <-]]. intros Hx. by apply ns_take_opts_ifq in Hx. }
  destruct x as [[n d]|]; by injection H as _ <-.
Qed.

Lemma drop_ifq p r a a' : drop p r a = Ret a' -> ifq_ a' = ifq_ a.
Proof. unfold drop. intros H. obind H as x Hx. by injection H as <-. Qed.

(** Every turn of the loop takes a packet out of the interface queue: the fuel
    [xmit_failed] gives it is enough, more changes nothing. *)
Lemma salvage_queue_fuel `{!QueueOk, !SalvageOk} p nxt f f' a :
  (length (default [] (ifq_ a)) < f)%nat -> (length (default [] (ifq_ a)) < f')%nat ->
  salvage_queue stack f p nxt a = salvage_queue stack f' p nxt a.
Proof.
  revert f' a. induction f as [|f IH]; intros [|f'] a Hf Hf'; [lia..|]. cbn [salvage_queue].
  destruct (pkt_at a p) as [pk|]; [|done]. cbn [mbind outcome_bind]. destruct (ifq_ a) as [q|] eqn:Eq; [|done].
  cbn [from_option of_option mbind outcome_bind] in *. change (id q) with q in *. destruct (prq_get_nexthop _ _ q) as [[x|] q'] eqn:E; [|done].
  apply queue_shrinks in E.
  destruct (ns_pkt_alloc stack (Some x) (set_ifq a (Some q'))) as [[d a1]|] eqn:Ea; [|done]. apply ns_pkt_alloc_ifq in Ea.
  cbn [mbind outcome_bind]. change (ifq_ (set_ifq a (Some q'))) with (Some q') in Ea.
  match goal with |- context [match d with None => ?x | Some _ => _ end] => set (none := x) end.
  match goal with |- (?t ≫= _) = _ => destruct t as [a2|] eqn:Et; [|done] end. cbn [mbind outcome_bind].
  assert (ifq_ a2 = Some q') as Hq2.
  { rewrite <- Ea. destruct d as [d|]; [|by apply drop_ifq in Et]. obind Et as [r a3] H3. injection Et as <-. by apply salvage_queue_kept in H3. }
  apply IH; rewrite Hq2; cbn; lia.
Qed.
End Failed.

(** ** Debug output

    [vsnprintf] cuts a long text to the buffer, but answers its whole length, and
    the closing NUL goes there. *)
Section Trace.
Context {W : Type}.

Lemma trace_overrun prefix text buf (a : agent W) :
  is_Some (trace_ a) -> zlen buf = BUF_LEN -> 0 < zlen prefix < BUF_LEN ->
  if BUF_LEN <? zlen prefix + zlen text then trace prefix text buf a = Fault BadAccess
  else exists buf', trace prefix text buf a = Ret (zlen prefix + zlen text, buf') /\ zlen buf' = BUF_LEN.
Proof.
  intros [t Ht] Hb Hp. unfold trace, BUF_LEN in *. rewrite Ht. pose proof (zlen_nonneg text).
  destruct (memwrite_total buf 0 (prefix ++ [0])) as [b1 E1]; [lia|unfold zlen in *; rewrite length_app; simpl length; lia|].
  rewrite E1. cbn [mbind outcome_bind]. rewrite u64_small by lia. rewrite (proj2 (Z.eqb_neq _ _)) by lia.
  pose proof (memwrite_len _ _ _ _ E1) as L1. set (cut := take _ text).
  assert (Hc : zlen cut <= 1024 - zlen prefix - 1) by (unfold cut, zlen in *; rewrite length_take; lia).
  destruct (memwrite_total b1 (zlen prefix) (cut ++ [0])) as [b2 E2]; [lia|unfold zlen in *; rewrite length_app; simpl length; lia|].
  rewrite E2. cbn [mbind outcome_bind]. pose proof (memwrite_len _ _ _ _ E2) as L2. unfold store8.
  destruct (Z.ltb_spec 1024 (zlen prefix + zlen text)).
  - unfold memwrite. rewrite (proj2 (Z.leb_le _ _)) by lia. cbn [andb]. by rewrite (proj2 (Z.leb_gt _ _)) by (change (zlen [u8 0]) with 1; lia).
  - destruct (memwrite_total b2 (zlen prefix + zlen text - 1) [u8 0]) as [b3 E3]; [lia|change (zlen [u8 0]) with 1; lia|].
    rewrite E3. cbn [mbind outcome_bind]. eexists. split; [done|]. by rewrite (memwrite_len _ _ _ _ E3), L2, L1.
Qed.
End Trace.

(** The names of the configuration values fit into [name[40]] with the [_]. *)
Lemma bound_names_fit cv : (String.length (confval_name cv ++ "_") < 40)%nat.
Proof. destruct cv; vm_compute; lia. Qed.

(** ** A simulator and an agent *)

Fixpoint first_hop (pm : Z -> option packet) (hop : Z) (q : list Z) : option Z * list Z :=
  match q with
  | [] => (None, [])
  | x :: q => if (match pm x with Some pk => next_hop_ (cmn pk) =? hop | None => false end) then (Some x, q)
              else let '(r, q) := first_hop pm hop q in (r, x :: q)
  end.

(** Packet type 2 is data; every random number is a half. *)
Definition sim0 : Simulator := {|
  PT_DSR := 60; PT_PING := 61; DATA_PACKET x := x =? 2; NS_AF_NONE := 0; NS_AF_INET := 1;
  get_nodeaddr x := x; str2addr s := Z.of_nat (String.length s); tcl_lookup _ := Some 0; tcl_bound _ := None; mac_addr _ := 100; queue_of _ := [];
  uniform _ := d_div (d_of 1) (d_of 2);
  fresh_packet := Packet (HdrCmn 60 0 NODIR 0 0 0 0 0 false) (HdrIp 0 0 32) 0 (repeat 0 50);
  prq_get_nexthop := first_hop; Agent_command _ := 1 |}.
#[local] Existing Instance sim0.

Definition quiet_protocol : Protocol unit := {|
  p_recv _ a := Ret a; p_start_xmit _ a := Ret a; p_maint_add d a := Ret (d, a); p_maint_salvage _ a := Ret (-1, a);
  p_rerr _ _ a := Ret a; p_cleanup a := Ret a; p_tables := () |}.
(** Packets are salvaged over the next hop 5. *)
Definition salvaging_protocol : Protocol unit := {|
  p_recv _ a := Ret a; p_start_xmit _ a := Ret a; p_maint_add d a := Ret (d, a);
  p_maint_salvage d a := a ← ns_xmit (Prot := quiet_protocol) 8 (λ _, 0) (on_dp (λ p, set_nxt_hop p 5) d) a; Ret (0, a);
  p_rerr _ _ a := Ret a; p_cleanup a := Ret a; p_tables := () |}.

(** Node 1 with the neighbours 3 and 5. *)
Definition two_neighbours : tbl neighbor :=
  match neigh_tbl_add neigh_tbl_init [] 3 [33; 0; 0; 0; 0; 0] with
  | Ret (_, t, _) => match neigh_tbl_add t [] 5 [55; 0; 0; 0; 0; 0] with Ret (_, t, _) => t | Fault _ => t end
  | Fault _ => neigh_tbl_init
  end.
Definition agent0 (pm : gmap Z packet) (q : list Z) : agent unit :=
  let a := DSRUU (Prot := quiet_protocol) (λ _, 0) in
  Agent (confvals a) 1 100 None (Some 0) (Some 0) (Some q) None lc_init two_neighbours () pm 10 0 [] [].
Definition cbr_packet (hop : Z) : packet := Packet (HdrCmn 2 120 DOWN 0 0 0 hop 0 false) (HdrIp 1 9 32) 0 (repeat 0 50).

(** The packet 7 could not be sent over 3 and goes over 5 instead.  The loop asks
    its changed header, so it takes the packet 9 that waits for 5 out of the queue
    and leaves the packet 8 that waits for 3. *)
Example xmit_failed_wrong_queue :
  let pm := <[7 := cbr_packet 3]> (<[8 := cbr_packet 3]> (<[9 := cbr_packet 5]> ∅)) in
  exists a', xmit_failed (Prot := salvaging_protocol) (λ _, 0) 7 (agent0 pm [8; 9]) = Ret a'
    /\ ifq_ a' = Some [8]
    /\ (λ e, match e with Scheduled _ p pk _ => Some (p, next_hop_ (cmn pk)) | _ => None end) <$> asked a'
       = [Some (9, 5); None; Some (7, 5); None].
Proof. eexists. split; [vm_compute; reflexivity|]. split; reflexivity. Qed.

(** A packet for 9 over 3, with a source route. *)
Definition hop_opts : list (Z * bytes) := [(DSR_OPT_SRT, [0; 1] ++ bytes32 3)].
Definition hop_pkt : ns_pkt :=
  let o := opts_block 2 0 hop_opts in
  NsPkt (set_payload (set_addrs (Pkt.set_dh pkt0 (Dh (Dhbuf 0 (o ++ repeat 0 128) (zlen o))) 1) 1 9 3) None 100) NsData (HdrIp 1 9 32) (Some 7).
Definition hop_agent : agent unit := agent0 (<[7 := cbr_packet 0]> ∅) [].

Lemma two_neighbours_ok : neigh_ok two_neighbours.
Proof.
  destruct (neigh_add_spec neigh_tbl_init [] 3 [33; 0; 0; 0; 0; 0] neigh_init_ok) as (r & t & m & E & Hok & _).
  destruct (neigh_add_spec t [] 5 [55; 0; 0; 0; 0; 0] Hok) as (r' & t' & m' & E' & Hok' & _).
  unfold two_neighbours. by rewrite E, E'.
Qed.

Lemma hop_sendable : sendable hop_pkt 7 (cbr_packet 0) (HdrIp 1 9 32) (opts_block 2 0 hop_opts) 0 hop_agent.
Proof.
  constructor; try done.
  - by eexists _, (repeat 0 128).
  - apply two_neighbours_ok.
  - intros nb Hn. vm_compute in Hn. by injection Hn as <-.
Qed.


